(** * PipeWire graph scheduler: node/port model and cycle protocol

    A shallow embedding of the scheduler core of [src/pipewire/node.c], of the
    client side of the activation protocol in
    [src/modules/module-client-node/remote-node.c] and of the buffer
    installation path of the audioconvert [merger] and [splitter] plugins,
    together with the properties of the specification that concern them.

    Conventions.
    - C unsigned integers are [Z] with the wrap-around written out ([u32],
      [u64]); pointers to nodes and activation records are keys of finite maps.
    - The world threads the node table, the shared activation records, the
      monotonic clock and a trace of the calls that leave the modelled code
      (plugin callbacks, log lines, wake-ups).
    - Calls through a target's [signal] function pointer may re-enter the
      scheduler; they are modelled with a fuel argument. *)

From Stdlib Require Import ZArith Lia Bool String DecimalString.
From stdpp Require Import base option list gmap.

Local Open Scope Z_scope.

(** ** Machine integers *)

Definition u32 (z : Z) : Z := z mod 2 ^ 32.
Definition u64 (z : Z) : Z := z mod 2 ^ 64.

Definition UINT32_MAX : Z := 2 ^ 32 - 1.
Definition INT64_MIN : Z := - 2 ^ 63.
Definition SPA_NSEC_PER_SEC : Z := 1000000000.

(** errno values used as negative results *)
Definition ENOENT : Z := 2.
Definition EIO : Z := 5.
Definition EINVAL : Z := 22.

(** [SPA_MAX] *)
Definition SPA_MAX (a b : Z) : Z := if a <? b then b else a.

(** ** [flp2]: node.c, lines 689-697 *)

Definition flp2 (x : Z) : Z :=
  let x := Z.lor x (Z.shiftr x 1) in
  let x := Z.lor x (Z.shiftr x 2) in
  let x := Z.lor x (Z.shiftr x 4) in
  let x := Z.lor x (Z.shiftr x 8) in
  let x := Z.lor x (Z.shiftr x 16) in
  u32 (x - Z.shiftr x 1).

(** The value the specification assigns to [flp2]: the largest power of two
    that does not exceed [x], and [0] at [0]. *)
Definition pow2_floor (x : Z) : Z :=
  if x =? 0 then 0 else 2 ^ Z.log2 x.

#[global] Arguments u32 : simpl never.
#[global] Arguments u64 : simpl never.
#[global] Arguments flp2 : simpl never.

(** Proof device for [flp2]. [anybit x i n]: one of the [n] bits of [x] from position [i] upwards is set *)
Fixpoint anybit (x i : Z) (n : nat) : bool :=
  match n with
  | O => false
  | S n' => Z.testbit x i || anybit x (i + 1) n'
  end.

(** * Data model *)

(** ** Enumerations *)

(** Modelled from the spec: [enum pw_node_state] is declared in
    pipewire/node.h, which is not part of the sources. The spec names the
    states; their numeric values, which node.c compares with [<=] and [>=],
    are a parameter of the model ([pw_node_state_value] below). *)
Inductive pw_node_state :=
| PW_NODE_STATE_ERROR
| PW_NODE_STATE_CREATING
| PW_NODE_STATE_SUSPENDED
| PW_NODE_STATE_IDLE
| PW_NODE_STATE_RUNNING.

(** Modelled from the spec: [enum pw_port_state] is declared in
    pipewire/private.h, which is not part of the sources; the spec names the
    states CONFIGURE, READY and PAUSED. *)
Inductive pw_port_state :=
| PW_PORT_STATE_CONFIGURE
| PW_PORT_STATE_READY
| PW_PORT_STATE_PAUSED.

(** Modelled from the spec: the values of [status] in the activation record
    (pipewire/private.h, not part of the sources). *)
Inductive pw_node_activation_status :=
| PW_NODE_ACTIVATION_NOT_TRIGGERED
| PW_NODE_ACTIVATION_TRIGGERED
| PW_NODE_ACTIVATION_AWAKE
| PW_NODE_ACTIVATION_FINISHED.

(** Modelled from the spec: the values of the [command] slot of the activation
    record (pipewire/private.h, not part of the sources). *)
Inductive activation_command :=
| PW_NODE_ACTIVATION_COMMAND_NONE
| PW_NODE_ACTIVATION_COMMAND_START
| PW_NODE_ACTIVATION_COMMAND_STOP.

(** [enum spa_io_position_state] (spa/node/io.h); the field is a [uint32_t] *)
Definition SPA_IO_POSITION_STATE_STOPPED : Z := 0.
Definition SPA_IO_POSITION_STATE_STARTING : Z := 1.
Definition SPA_IO_POSITION_STATE_RUNNING : Z := 2.

(** process status bits (spa/node/io.h) *)
Definition SPA_STATUS_OK : Z := 0.
Definition SPA_STATUS_NEED_DATA : Z := 1.
Definition SPA_STATUS_HAVE_DATA : Z := 2.
Definition SPA_STATUS_STOPPED : Z := 4.

(** the commands node.c sends to the underlying processor *)
Inductive spa_node_command :=
| SPA_NODE_COMMAND_Pause
| SPA_NODE_COMMAND_Start.

(** the property keys [check_properties] looks up *)
Inductive pw_key :=
| PW_KEY_NODE_NAME
| PW_KEY_NODE_PAUSE_ON_IDLE
| PW_KEY_NODE_DRIVER
| PW_KEY_NODE_ALWAYS_PROCESS
| PW_KEY_NODE_LATENCY.

(** The function a target is signalled with: [process_node] for the targets a
    node owns (node.c, [pw_node_new]), [link_signal_func] for the peers of an
    exported node (remote-node.c, [client_node_set_activation]). *)
Inductive signal_func :=
| signal_process_node
| signal_link_signal_func.

(** The entries of a target list are the [link] members of target structures
    that live inside nodes and peer links; an entry is named by its owner. *)
Inductive target_ref :=
| node_target (n : nat)          (* &n->rt.target *)
| node_driver_target (n : nat)   (* &n->rt.driver_target *)
| peer_target (l : nat).         (* &l->target, l a struct link *)

Definition target_ref_eqb (a b : target_ref) : bool :=
  match a, b with
  | node_target n, node_target m => Nat.eqb n m
  | node_driver_target n, node_driver_target m => Nat.eqb n m
  | peer_target n, peer_target m => Nat.eqb n m
  | _, _ => false
  end.

(** ** Records *)

(** Modelled from the spec: [struct pw_node_activation_state] is declared in
    pipewire/private.h, which is not part of the sources. The spec gives
    [{required: u32, pending: atomic u32}]; [status] is the field that
    [process_node] writes through [a->state[0].status]. *)
Record pw_node_activation_state := Build_activation_state {
  ast_status : Z;  (* result of the last process call *)
  required : Z;  (* uint32_t: number of predecessors *)
  pending : Z  (* uint32_t, atomic: predecessors still to finish *)
}.

Definition set_ast_status (v : Z) (x : pw_node_activation_state) : pw_node_activation_state :=
  {| ast_status := v; required := required x; pending := pending x |}.

Definition set_required (v : Z) (x : pw_node_activation_state) : pw_node_activation_state :=
  {| ast_status := ast_status x; required := v; pending := pending x |}.

Definition set_pending (v : Z) (x : pw_node_activation_state) : pw_node_activation_state :=
  {| ast_status := ast_status x; required := required x; pending := v |}.

(** [struct spa_io_segment] (spa/node/io.h). The bar and video blocks are only
    ever copied as a whole by the scheduler and are kept opaque. *)
Record spa_io_segment := Build_segment {
  seg_version : Z;
  seg_flags : Z;
  seg_start : Z;  (* uint64_t *)
  seg_duration : Z;  (* uint64_t *)
  seg_rate : Z;  (* double, kept as an opaque token *)
  seg_position : Z;  (* uint64_t *)
  seg_bar : Z;  (* struct spa_io_segment_bar, opaque *)
  seg_video : Z  (* struct spa_io_segment_video, opaque *)
}.

Definition set_seg_start (v : Z) (x : spa_io_segment) : spa_io_segment :=
  {| seg_version := seg_version x; seg_flags := seg_flags x; seg_start := v;
     seg_duration := seg_duration x; seg_rate := seg_rate x;
     seg_position := seg_position x; seg_bar := seg_bar x;
     seg_video := seg_video x |}.

Definition set_seg_bar (v : Z) (x : spa_io_segment) : spa_io_segment :=
  {| seg_version := seg_version x; seg_flags := seg_flags x;
     seg_start := seg_start x; seg_duration := seg_duration x;
     seg_rate := seg_rate x; seg_position := seg_position x; seg_bar := v;
     seg_video := seg_video x |}.

Definition set_seg_video (v : Z) (x : spa_io_segment) : spa_io_segment :=
  {| seg_version := seg_version x; seg_flags := seg_flags x;
     seg_start := seg_start x; seg_duration := seg_duration x;
     seg_rate := seg_rate x; seg_position := seg_position x;
     seg_bar := seg_bar x; seg_video := v |}.

(** [struct spa_io_position] with the fields of its embedded [spa_io_clock]
    that the scheduler reads or writes (spa/node/io.h). *)
Record spa_io_position := Build_position {
  clock_rate_num : Z;  (* clock.rate.num *)
  clock_rate_denom : Z;  (* clock.rate.denom, uint32_t *)
  clock_position : Z;  (* clock.position, uint64_t *)
  clock_duration : Z;  (* clock.duration, uint64_t *)
  offset : Z;  (* int64_t *)
  pos_state : Z;  (* uint32_t, one of enum spa_io_position_state *)
  n_segments : Z;
  segment0 : spa_io_segment  (* segments[0]; the scheduler touches no other slot *)
}.

Definition set_offset (v : Z) (x : spa_io_position) : spa_io_position :=
  {| clock_rate_num := clock_rate_num x;
     clock_rate_denom := clock_rate_denom x;
     clock_position := clock_position x; clock_duration := clock_duration x;
     offset := v; pos_state := pos_state x; n_segments := n_segments x;
     segment0 := segment0 x |}.

Definition set_pos_state (v : Z) (x : spa_io_position) : spa_io_position :=
  {| clock_rate_num := clock_rate_num x;
     clock_rate_denom := clock_rate_denom x;
     clock_position := clock_position x; clock_duration := clock_duration x;
     offset := offset x; pos_state := v; n_segments := n_segments x;
     segment0 := segment0 x |}.

Definition set_segment0 (v : spa_io_segment) (x : spa_io_position) : spa_io_position :=
  {| clock_rate_num := clock_rate_num x;
     clock_rate_denom := clock_rate_denom x;
     clock_position := clock_position x; clock_duration := clock_duration x;
     offset := offset x; pos_state := pos_state x;
     n_segments := n_segments x; segment0 := v |}.

(** Modelled from the spec: [struct pw_node_activation] is declared in
    pipewire/private.h, which is not part of the sources. The fields are those
    of the activation record of the spec (sections 3 and 6) that node.c and
    remote-node.c access; [cpu_load] (three floats) is left out. *)
Record pw_node_activation := Build_activation {
  status : pw_node_activation_status;
  pending_sync : bool;
  pending_new_pos : bool;
  state0 : pw_node_activation_state;  (* state[0] *)
  command : activation_command;  (* atomic *)
  reposition_owner : Z;  (* atomic uint32_t *)
  signal_time : Z;
  awake_time : Z;
  finish_time : Z;
  prev_signal_time : Z;
  sync_timeout : Z;  (* uint64_t *)
  sync_left : Z;  (* uint64_t *)
  xrun_count : Z;  (* uint32_t *)
  xrun_time : Z;
  xrun_delay : Z;
  max_delay : Z;
  segment_owner0 : Z;  (* segment_owner[0] *)
  segment_owner1 : Z;  (* segment_owner[1] *)
  position : spa_io_position;
  reposition : spa_io_segment;
  segment : spa_io_segment
}.

Definition set_status (v : pw_node_activation_status) (x : pw_node_activation) : pw_node_activation :=
  {| status := v; pending_sync := pending_sync x;
     pending_new_pos := pending_new_pos x; state0 := state0 x;
     command := command x; reposition_owner := reposition_owner x;
     signal_time := signal_time x; awake_time := awake_time x;
     finish_time := finish_time x; prev_signal_time := prev_signal_time x;
     sync_timeout := sync_timeout x; sync_left := sync_left x;
     xrun_count := xrun_count x; xrun_time := xrun_time x;
     xrun_delay := xrun_delay x; max_delay := max_delay x;
     segment_owner0 := segment_owner0 x; segment_owner1 := segment_owner1 x;
     position := position x; reposition := reposition x;
     segment := segment x |}.

Definition set_pending_sync (v : bool) (x : pw_node_activation) : pw_node_activation :=
  {| status := status x; pending_sync := v;
     pending_new_pos := pending_new_pos x; state0 := state0 x;
     command := command x; reposition_owner := reposition_owner x;
     signal_time := signal_time x; awake_time := awake_time x;
     finish_time := finish_time x; prev_signal_time := prev_signal_time x;
     sync_timeout := sync_timeout x; sync_left := sync_left x;
     xrun_count := xrun_count x; xrun_time := xrun_time x;
     xrun_delay := xrun_delay x; max_delay := max_delay x;
     segment_owner0 := segment_owner0 x; segment_owner1 := segment_owner1 x;
     position := position x; reposition := reposition x;
     segment := segment x |}.

Definition set_pending_new_pos (v : bool) (x : pw_node_activation) : pw_node_activation :=
  {| status := status x; pending_sync := pending_sync x;
     pending_new_pos := v; state0 := state0 x; command := command x;
     reposition_owner := reposition_owner x; signal_time := signal_time x;
     awake_time := awake_time x; finish_time := finish_time x;
     prev_signal_time := prev_signal_time x; sync_timeout := sync_timeout x;
     sync_left := sync_left x; xrun_count := xrun_count x;
     xrun_time := xrun_time x; xrun_delay := xrun_delay x;
     max_delay := max_delay x; segment_owner0 := segment_owner0 x;
     segment_owner1 := segment_owner1 x; position := position x;
     reposition := reposition x; segment := segment x |}.

Definition set_state0 (v : pw_node_activation_state) (x : pw_node_activation) : pw_node_activation :=
  {| status := status x; pending_sync := pending_sync x;
     pending_new_pos := pending_new_pos x; state0 := v; command := command x;
     reposition_owner := reposition_owner x; signal_time := signal_time x;
     awake_time := awake_time x; finish_time := finish_time x;
     prev_signal_time := prev_signal_time x; sync_timeout := sync_timeout x;
     sync_left := sync_left x; xrun_count := xrun_count x;
     xrun_time := xrun_time x; xrun_delay := xrun_delay x;
     max_delay := max_delay x; segment_owner0 := segment_owner0 x;
     segment_owner1 := segment_owner1 x; position := position x;
     reposition := reposition x; segment := segment x |}.

Definition set_command (v : activation_command) (x : pw_node_activation) : pw_node_activation :=
  {| status := status x; pending_sync := pending_sync x;
     pending_new_pos := pending_new_pos x; state0 := state0 x; command := v;
     reposition_owner := reposition_owner x; signal_time := signal_time x;
     awake_time := awake_time x; finish_time := finish_time x;
     prev_signal_time := prev_signal_time x; sync_timeout := sync_timeout x;
     sync_left := sync_left x; xrun_count := xrun_count x;
     xrun_time := xrun_time x; xrun_delay := xrun_delay x;
     max_delay := max_delay x; segment_owner0 := segment_owner0 x;
     segment_owner1 := segment_owner1 x; position := position x;
     reposition := reposition x; segment := segment x |}.

Definition set_reposition_owner (v : Z) (x : pw_node_activation) : pw_node_activation :=
  {| status := status x; pending_sync := pending_sync x;
     pending_new_pos := pending_new_pos x; state0 := state0 x;
     command := command x; reposition_owner := v;
     signal_time := signal_time x; awake_time := awake_time x;
     finish_time := finish_time x; prev_signal_time := prev_signal_time x;
     sync_timeout := sync_timeout x; sync_left := sync_left x;
     xrun_count := xrun_count x; xrun_time := xrun_time x;
     xrun_delay := xrun_delay x; max_delay := max_delay x;
     segment_owner0 := segment_owner0 x; segment_owner1 := segment_owner1 x;
     position := position x; reposition := reposition x;
     segment := segment x |}.

Definition set_signal_time (v : Z) (x : pw_node_activation) : pw_node_activation :=
  {| status := status x; pending_sync := pending_sync x;
     pending_new_pos := pending_new_pos x; state0 := state0 x;
     command := command x; reposition_owner := reposition_owner x;
     signal_time := v; awake_time := awake_time x;
     finish_time := finish_time x; prev_signal_time := prev_signal_time x;
     sync_timeout := sync_timeout x; sync_left := sync_left x;
     xrun_count := xrun_count x; xrun_time := xrun_time x;
     xrun_delay := xrun_delay x; max_delay := max_delay x;
     segment_owner0 := segment_owner0 x; segment_owner1 := segment_owner1 x;
     position := position x; reposition := reposition x;
     segment := segment x |}.

Definition set_awake_time (v : Z) (x : pw_node_activation) : pw_node_activation :=
  {| status := status x; pending_sync := pending_sync x;
     pending_new_pos := pending_new_pos x; state0 := state0 x;
     command := command x; reposition_owner := reposition_owner x;
     signal_time := signal_time x; awake_time := v;
     finish_time := finish_time x; prev_signal_time := prev_signal_time x;
     sync_timeout := sync_timeout x; sync_left := sync_left x;
     xrun_count := xrun_count x; xrun_time := xrun_time x;
     xrun_delay := xrun_delay x; max_delay := max_delay x;
     segment_owner0 := segment_owner0 x; segment_owner1 := segment_owner1 x;
     position := position x; reposition := reposition x;
     segment := segment x |}.

Definition set_finish_time (v : Z) (x : pw_node_activation) : pw_node_activation :=
  {| status := status x; pending_sync := pending_sync x;
     pending_new_pos := pending_new_pos x; state0 := state0 x;
     command := command x; reposition_owner := reposition_owner x;
     signal_time := signal_time x; awake_time := awake_time x;
     finish_time := v; prev_signal_time := prev_signal_time x;
     sync_timeout := sync_timeout x; sync_left := sync_left x;
     xrun_count := xrun_count x; xrun_time := xrun_time x;
     xrun_delay := xrun_delay x; max_delay := max_delay x;
     segment_owner0 := segment_owner0 x; segment_owner1 := segment_owner1 x;
     position := position x; reposition := reposition x;
     segment := segment x |}.

Definition set_prev_signal_time (v : Z) (x : pw_node_activation) : pw_node_activation :=
  {| status := status x; pending_sync := pending_sync x;
     pending_new_pos := pending_new_pos x; state0 := state0 x;
     command := command x; reposition_owner := reposition_owner x;
     signal_time := signal_time x; awake_time := awake_time x;
     finish_time := finish_time x; prev_signal_time := v;
     sync_timeout := sync_timeout x; sync_left := sync_left x;
     xrun_count := xrun_count x; xrun_time := xrun_time x;
     xrun_delay := xrun_delay x; max_delay := max_delay x;
     segment_owner0 := segment_owner0 x; segment_owner1 := segment_owner1 x;
     position := position x; reposition := reposition x;
     segment := segment x |}.

Definition set_sync_timeout (v : Z) (x : pw_node_activation) : pw_node_activation :=
  {| status := status x; pending_sync := pending_sync x;
     pending_new_pos := pending_new_pos x; state0 := state0 x;
     command := command x; reposition_owner := reposition_owner x;
     signal_time := signal_time x; awake_time := awake_time x;
     finish_time := finish_time x; prev_signal_time := prev_signal_time x;
     sync_timeout := v; sync_left := sync_left x; xrun_count := xrun_count x;
     xrun_time := xrun_time x; xrun_delay := xrun_delay x;
     max_delay := max_delay x; segment_owner0 := segment_owner0 x;
     segment_owner1 := segment_owner1 x; position := position x;
     reposition := reposition x; segment := segment x |}.

Definition set_sync_left (v : Z) (x : pw_node_activation) : pw_node_activation :=
  {| status := status x; pending_sync := pending_sync x;
     pending_new_pos := pending_new_pos x; state0 := state0 x;
     command := command x; reposition_owner := reposition_owner x;
     signal_time := signal_time x; awake_time := awake_time x;
     finish_time := finish_time x; prev_signal_time := prev_signal_time x;
     sync_timeout := sync_timeout x; sync_left := v;
     xrun_count := xrun_count x; xrun_time := xrun_time x;
     xrun_delay := xrun_delay x; max_delay := max_delay x;
     segment_owner0 := segment_owner0 x; segment_owner1 := segment_owner1 x;
     position := position x; reposition := reposition x;
     segment := segment x |}.

Definition set_xrun_count (v : Z) (x : pw_node_activation) : pw_node_activation :=
  {| status := status x; pending_sync := pending_sync x;
     pending_new_pos := pending_new_pos x; state0 := state0 x;
     command := command x; reposition_owner := reposition_owner x;
     signal_time := signal_time x; awake_time := awake_time x;
     finish_time := finish_time x; prev_signal_time := prev_signal_time x;
     sync_timeout := sync_timeout x; sync_left := sync_left x;
     xrun_count := v; xrun_time := xrun_time x; xrun_delay := xrun_delay x;
     max_delay := max_delay x; segment_owner0 := segment_owner0 x;
     segment_owner1 := segment_owner1 x; position := position x;
     reposition := reposition x; segment := segment x |}.

Definition set_xrun_time (v : Z) (x : pw_node_activation) : pw_node_activation :=
  {| status := status x; pending_sync := pending_sync x;
     pending_new_pos := pending_new_pos x; state0 := state0 x;
     command := command x; reposition_owner := reposition_owner x;
     signal_time := signal_time x; awake_time := awake_time x;
     finish_time := finish_time x; prev_signal_time := prev_signal_time x;
     sync_timeout := sync_timeout x; sync_left := sync_left x;
     xrun_count := xrun_count x; xrun_time := v; xrun_delay := xrun_delay x;
     max_delay := max_delay x; segment_owner0 := segment_owner0 x;
     segment_owner1 := segment_owner1 x; position := position x;
     reposition := reposition x; segment := segment x |}.

Definition set_xrun_delay (v : Z) (x : pw_node_activation) : pw_node_activation :=
  {| status := status x; pending_sync := pending_sync x;
     pending_new_pos := pending_new_pos x; state0 := state0 x;
     command := command x; reposition_owner := reposition_owner x;
     signal_time := signal_time x; awake_time := awake_time x;
     finish_time := finish_time x; prev_signal_time := prev_signal_time x;
     sync_timeout := sync_timeout x; sync_left := sync_left x;
     xrun_count := xrun_count x; xrun_time := xrun_time x; xrun_delay := v;
     max_delay := max_delay x; segment_owner0 := segment_owner0 x;
     segment_owner1 := segment_owner1 x; position := position x;
     reposition := reposition x; segment := segment x |}.

Definition set_max_delay (v : Z) (x : pw_node_activation) : pw_node_activation :=
  {| status := status x; pending_sync := pending_sync x;
     pending_new_pos := pending_new_pos x; state0 := state0 x;
     command := command x; reposition_owner := reposition_owner x;
     signal_time := signal_time x; awake_time := awake_time x;
     finish_time := finish_time x; prev_signal_time := prev_signal_time x;
     sync_timeout := sync_timeout x; sync_left := sync_left x;
     xrun_count := xrun_count x; xrun_time := xrun_time x;
     xrun_delay := xrun_delay x; max_delay := v;
     segment_owner0 := segment_owner0 x; segment_owner1 := segment_owner1 x;
     position := position x; reposition := reposition x;
     segment := segment x |}.

Definition set_position (v : spa_io_position) (x : pw_node_activation) : pw_node_activation :=
  {| status := status x; pending_sync := pending_sync x;
     pending_new_pos := pending_new_pos x; state0 := state0 x;
     command := command x; reposition_owner := reposition_owner x;
     signal_time := signal_time x; awake_time := awake_time x;
     finish_time := finish_time x; prev_signal_time := prev_signal_time x;
     sync_timeout := sync_timeout x; sync_left := sync_left x;
     xrun_count := xrun_count x; xrun_time := xrun_time x;
     xrun_delay := xrun_delay x; max_delay := max_delay x;
     segment_owner0 := segment_owner0 x; segment_owner1 := segment_owner1 x;
     position := v; reposition := reposition x; segment := segment x |}.

(** Modelled from the spec: [struct pw_node_target] is declared in
    pipewire/private.h, which is not part of the sources; the fields are the
    ones node.c and remote-node.c assign ([activation], [node], [signal],
    [data]). Its list link is the position of a [target_ref] in a target list. *)
Record pw_node_target := Build_target {
  t_activation : option nat;  (* pointer to the activation record to count down *)
  t_node : option nat;  (* the node behind the target, NULL for remote peers *)
  t_signal : signal_func;
  t_data : option nat  (* argument handed to [t_signal] *)
}.

Definition set_t_activation (v : option nat) (x : pw_node_target) : pw_node_target :=
  {| t_activation := v; t_node := t_node x; t_signal := t_signal x;
     t_data := t_data x |}.

Definition set_t_node (v : option nat) (x : pw_node_target) : pw_node_target :=
  {| t_activation := t_activation x; t_node := v; t_signal := t_signal x;
     t_data := t_data x |}.

Definition set_t_data (v : option nat) (x : pw_node_target) : pw_node_target :=
  {| t_activation := t_activation x; t_node := t_node x;
     t_signal := t_signal x; t_data := v |}.

(** Modelled from the spec: [struct pw_port] is declared in
    pipewire/private.h, which is not part of the sources; only the fields
    node.c reads or writes are kept. *)
Record pw_port := Build_port {
  port_id : Z;
  port_state : pw_port_state;
  port_links : list nat  (* the links attached to the port *)
}.

Definition set_port_state (v : pw_port_state) (x : pw_port) : pw_port :=
  {| port_id := port_id x; port_state := v; port_links := port_links x |}.

(** Modelled from the spec: [struct pw_node] and its [struct impl] wrapper; the
    former is declared in pipewire/private.h, which is not part of the
    sources. The fields are the ones node.c reads or writes in the functions
    embedded below. *)
Record pw_node := Build_node {
  name : option string;
  properties : pw_key -> option string;  (* pw_properties_get on the node's dictionary *)
  info_id : Z;  (* info.id *)
  info_state : pw_node_state;  (* info.state *)
  info_error : option string;  (* info.error *)
  active : bool;
  driver : bool;
  want_driver : bool;
  master : bool;
  exported : bool;
  registered : bool;
  pause_on_idle : bool;  (* impl->pause_on_idle *)
  last_error : Z;  (* impl->last_error *)
  quantum_size : Z;  (* uint32_t *)
  driver_node : nat;
  n_ready_output_links : Z;
  n_used_output_links : Z;
  n_ready_input_links : Z;
  n_used_input_links : Z;
  input_ports : list pw_port;
  output_ports : list pw_port;
  source_loop : bool;  (* source.loop != NULL *)
  rt_activation : nat;  (* rt.activation *)
  rt_target : pw_node_target;  (* rt.target *)
  rt_driver_target : pw_node_target;  (* rt.driver_target *)
  rt_target_list : list target_ref;  (* rt.target_list *)
  rt_input_mix : list Z;  (* rt.input_mix, by port id *)
  rt_output_mix : list Z  (* rt.output_mix, by port id *)
}.

Definition set_name (v : option string) (x : pw_node) : pw_node :=
  {| name := v; properties := properties x; info_id := info_id x;
     info_state := info_state x; info_error := info_error x;
     active := active x; driver := driver x; want_driver := want_driver x;
     master := master x; exported := exported x; registered := registered x;
     pause_on_idle := pause_on_idle x; last_error := last_error x;
     quantum_size := quantum_size x; driver_node := driver_node x;
     n_ready_output_links := n_ready_output_links x;
     n_used_output_links := n_used_output_links x;
     n_ready_input_links := n_ready_input_links x;
     n_used_input_links := n_used_input_links x;
     input_ports := input_ports x; output_ports := output_ports x;
     source_loop := source_loop x; rt_activation := rt_activation x;
     rt_target := rt_target x; rt_driver_target := rt_driver_target x;
     rt_target_list := rt_target_list x; rt_input_mix := rt_input_mix x;
     rt_output_mix := rt_output_mix x |}.

Definition set_info_id (v : Z) (x : pw_node) : pw_node :=
  {| name := name x; properties := properties x; info_id := v;
     info_state := info_state x; info_error := info_error x;
     active := active x; driver := driver x; want_driver := want_driver x;
     master := master x; exported := exported x; registered := registered x;
     pause_on_idle := pause_on_idle x; last_error := last_error x;
     quantum_size := quantum_size x; driver_node := driver_node x;
     n_ready_output_links := n_ready_output_links x;
     n_used_output_links := n_used_output_links x;
     n_ready_input_links := n_ready_input_links x;
     n_used_input_links := n_used_input_links x;
     input_ports := input_ports x; output_ports := output_ports x;
     source_loop := source_loop x; rt_activation := rt_activation x;
     rt_target := rt_target x; rt_driver_target := rt_driver_target x;
     rt_target_list := rt_target_list x; rt_input_mix := rt_input_mix x;
     rt_output_mix := rt_output_mix x |}.

Definition set_info_state (v : pw_node_state) (x : pw_node) : pw_node :=
  {| name := name x; properties := properties x; info_id := info_id x;
     info_state := v; info_error := info_error x; active := active x;
     driver := driver x; want_driver := want_driver x; master := master x;
     exported := exported x; registered := registered x;
     pause_on_idle := pause_on_idle x; last_error := last_error x;
     quantum_size := quantum_size x; driver_node := driver_node x;
     n_ready_output_links := n_ready_output_links x;
     n_used_output_links := n_used_output_links x;
     n_ready_input_links := n_ready_input_links x;
     n_used_input_links := n_used_input_links x;
     input_ports := input_ports x; output_ports := output_ports x;
     source_loop := source_loop x; rt_activation := rt_activation x;
     rt_target := rt_target x; rt_driver_target := rt_driver_target x;
     rt_target_list := rt_target_list x; rt_input_mix := rt_input_mix x;
     rt_output_mix := rt_output_mix x |}.

Definition set_info_error (v : option string) (x : pw_node) : pw_node :=
  {| name := name x; properties := properties x; info_id := info_id x;
     info_state := info_state x; info_error := v; active := active x;
     driver := driver x; want_driver := want_driver x; master := master x;
     exported := exported x; registered := registered x;
     pause_on_idle := pause_on_idle x; last_error := last_error x;
     quantum_size := quantum_size x; driver_node := driver_node x;
     n_ready_output_links := n_ready_output_links x;
     n_used_output_links := n_used_output_links x;
     n_ready_input_links := n_ready_input_links x;
     n_used_input_links := n_used_input_links x;
     input_ports := input_ports x; output_ports := output_ports x;
     source_loop := source_loop x; rt_activation := rt_activation x;
     rt_target := rt_target x; rt_driver_target := rt_driver_target x;
     rt_target_list := rt_target_list x; rt_input_mix := rt_input_mix x;
     rt_output_mix := rt_output_mix x |}.

Definition set_driver (v : bool) (x : pw_node) : pw_node :=
  {| name := name x; properties := properties x; info_id := info_id x;
     info_state := info_state x; info_error := info_error x;
     active := active x; driver := v; want_driver := want_driver x;
     master := master x; exported := exported x; registered := registered x;
     pause_on_idle := pause_on_idle x; last_error := last_error x;
     quantum_size := quantum_size x; driver_node := driver_node x;
     n_ready_output_links := n_ready_output_links x;
     n_used_output_links := n_used_output_links x;
     n_ready_input_links := n_ready_input_links x;
     n_used_input_links := n_used_input_links x;
     input_ports := input_ports x; output_ports := output_ports x;
     source_loop := source_loop x; rt_activation := rt_activation x;
     rt_target := rt_target x; rt_driver_target := rt_driver_target x;
     rt_target_list := rt_target_list x; rt_input_mix := rt_input_mix x;
     rt_output_mix := rt_output_mix x |}.

Definition set_want_driver (v : bool) (x : pw_node) : pw_node :=
  {| name := name x; properties := properties x; info_id := info_id x;
     info_state := info_state x; info_error := info_error x;
     active := active x; driver := driver x; want_driver := v;
     master := master x; exported := exported x; registered := registered x;
     pause_on_idle := pause_on_idle x; last_error := last_error x;
     quantum_size := quantum_size x; driver_node := driver_node x;
     n_ready_output_links := n_ready_output_links x;
     n_used_output_links := n_used_output_links x;
     n_ready_input_links := n_ready_input_links x;
     n_used_input_links := n_used_input_links x;
     input_ports := input_ports x; output_ports := output_ports x;
     source_loop := source_loop x; rt_activation := rt_activation x;
     rt_target := rt_target x; rt_driver_target := rt_driver_target x;
     rt_target_list := rt_target_list x; rt_input_mix := rt_input_mix x;
     rt_output_mix := rt_output_mix x |}.

Definition set_pause_on_idle (v : bool) (x : pw_node) : pw_node :=
  {| name := name x; properties := properties x; info_id := info_id x;
     info_state := info_state x; info_error := info_error x;
     active := active x; driver := driver x; want_driver := want_driver x;
     master := master x; exported := exported x; registered := registered x;
     pause_on_idle := v; last_error := last_error x;
     quantum_size := quantum_size x; driver_node := driver_node x;
     n_ready_output_links := n_ready_output_links x;
     n_used_output_links := n_used_output_links x;
     n_ready_input_links := n_ready_input_links x;
     n_used_input_links := n_used_input_links x;
     input_ports := input_ports x; output_ports := output_ports x;
     source_loop := source_loop x; rt_activation := rt_activation x;
     rt_target := rt_target x; rt_driver_target := rt_driver_target x;
     rt_target_list := rt_target_list x; rt_input_mix := rt_input_mix x;
     rt_output_mix := rt_output_mix x |}.

Definition set_last_error (v : Z) (x : pw_node) : pw_node :=
  {| name := name x; properties := properties x; info_id := info_id x;
     info_state := info_state x; info_error := info_error x;
     active := active x; driver := driver x; want_driver := want_driver x;
     master := master x; exported := exported x; registered := registered x;
     pause_on_idle := pause_on_idle x; last_error := v;
     quantum_size := quantum_size x; driver_node := driver_node x;
     n_ready_output_links := n_ready_output_links x;
     n_used_output_links := n_used_output_links x;
     n_ready_input_links := n_ready_input_links x;
     n_used_input_links := n_used_input_links x;
     input_ports := input_ports x; output_ports := output_ports x;
     source_loop := source_loop x; rt_activation := rt_activation x;
     rt_target := rt_target x; rt_driver_target := rt_driver_target x;
     rt_target_list := rt_target_list x; rt_input_mix := rt_input_mix x;
     rt_output_mix := rt_output_mix x |}.

Definition set_quantum_size (v : Z) (x : pw_node) : pw_node :=
  {| name := name x; properties := properties x; info_id := info_id x;
     info_state := info_state x; info_error := info_error x;
     active := active x; driver := driver x; want_driver := want_driver x;
     master := master x; exported := exported x; registered := registered x;
     pause_on_idle := pause_on_idle x; last_error := last_error x;
     quantum_size := v; driver_node := driver_node x;
     n_ready_output_links := n_ready_output_links x;
     n_used_output_links := n_used_output_links x;
     n_ready_input_links := n_ready_input_links x;
     n_used_input_links := n_used_input_links x;
     input_ports := input_ports x; output_ports := output_ports x;
     source_loop := source_loop x; rt_activation := rt_activation x;
     rt_target := rt_target x; rt_driver_target := rt_driver_target x;
     rt_target_list := rt_target_list x; rt_input_mix := rt_input_mix x;
     rt_output_mix := rt_output_mix x |}.

Definition set_input_ports (v : list pw_port) (x : pw_node) : pw_node :=
  {| name := name x; properties := properties x; info_id := info_id x;
     info_state := info_state x; info_error := info_error x;
     active := active x; driver := driver x; want_driver := want_driver x;
     master := master x; exported := exported x; registered := registered x;
     pause_on_idle := pause_on_idle x; last_error := last_error x;
     quantum_size := quantum_size x; driver_node := driver_node x;
     n_ready_output_links := n_ready_output_links x;
     n_used_output_links := n_used_output_links x;
     n_ready_input_links := n_ready_input_links x;
     n_used_input_links := n_used_input_links x; input_ports := v;
     output_ports := output_ports x; source_loop := source_loop x;
     rt_activation := rt_activation x; rt_target := rt_target x;
     rt_driver_target := rt_driver_target x;
     rt_target_list := rt_target_list x; rt_input_mix := rt_input_mix x;
     rt_output_mix := rt_output_mix x |}.

Definition set_output_ports (v : list pw_port) (x : pw_node) : pw_node :=
  {| name := name x; properties := properties x; info_id := info_id x;
     info_state := info_state x; info_error := info_error x;
     active := active x; driver := driver x; want_driver := want_driver x;
     master := master x; exported := exported x; registered := registered x;
     pause_on_idle := pause_on_idle x; last_error := last_error x;
     quantum_size := quantum_size x; driver_node := driver_node x;
     n_ready_output_links := n_ready_output_links x;
     n_used_output_links := n_used_output_links x;
     n_ready_input_links := n_ready_input_links x;
     n_used_input_links := n_used_input_links x;
     input_ports := input_ports x; output_ports := v;
     source_loop := source_loop x; rt_activation := rt_activation x;
     rt_target := rt_target x; rt_driver_target := rt_driver_target x;
     rt_target_list := rt_target_list x; rt_input_mix := rt_input_mix x;
     rt_output_mix := rt_output_mix x |}.

Definition set_source_loop (v : bool) (x : pw_node) : pw_node :=
  {| name := name x; properties := properties x; info_id := info_id x;
     info_state := info_state x; info_error := info_error x;
     active := active x; driver := driver x; want_driver := want_driver x;
     master := master x; exported := exported x; registered := registered x;
     pause_on_idle := pause_on_idle x; last_error := last_error x;
     quantum_size := quantum_size x; driver_node := driver_node x;
     n_ready_output_links := n_ready_output_links x;
     n_used_output_links := n_used_output_links x;
     n_ready_input_links := n_ready_input_links x;
     n_used_input_links := n_used_input_links x;
     input_ports := input_ports x; output_ports := output_ports x;
     source_loop := v; rt_activation := rt_activation x;
     rt_target := rt_target x; rt_driver_target := rt_driver_target x;
     rt_target_list := rt_target_list x; rt_input_mix := rt_input_mix x;
     rt_output_mix := rt_output_mix x |}.

Definition set_rt_driver_target (v : pw_node_target) (x : pw_node) : pw_node :=
  {| name := name x; properties := properties x; info_id := info_id x;
     info_state := info_state x; info_error := info_error x;
     active := active x; driver := driver x; want_driver := want_driver x;
     master := master x; exported := exported x; registered := registered x;
     pause_on_idle := pause_on_idle x; last_error := last_error x;
     quantum_size := quantum_size x; driver_node := driver_node x;
     n_ready_output_links := n_ready_output_links x;
     n_used_output_links := n_used_output_links x;
     n_ready_input_links := n_ready_input_links x;
     n_used_input_links := n_used_input_links x;
     input_ports := input_ports x; output_ports := output_ports x;
     source_loop := source_loop x; rt_activation := rt_activation x;
     rt_target := rt_target x; rt_driver_target := v;
     rt_target_list := rt_target_list x; rt_input_mix := rt_input_mix x;
     rt_output_mix := rt_output_mix x |}.

Definition set_rt_target_list (v : list target_ref) (x : pw_node) : pw_node :=
  {| name := name x; properties := properties x; info_id := info_id x;
     info_state := info_state x; info_error := info_error x;
     active := active x; driver := driver x; want_driver := want_driver x;
     master := master x; exported := exported x; registered := registered x;
     pause_on_idle := pause_on_idle x; last_error := last_error x;
     quantum_size := quantum_size x; driver_node := driver_node x;
     n_ready_output_links := n_ready_output_links x;
     n_used_output_links := n_used_output_links x;
     n_ready_input_links := n_ready_input_links x;
     n_used_input_links := n_used_input_links x;
     input_ports := input_ports x; output_ports := output_ports x;
     source_loop := source_loop x; rt_activation := rt_activation x;
     rt_target := rt_target x; rt_driver_target := rt_driver_target x;
     rt_target_list := v; rt_input_mix := rt_input_mix x;
     rt_output_mix := rt_output_mix x |}.

Definition set_driver_node (v : nat) (x : pw_node) : pw_node :=
  {| name := name x; properties := properties x; info_id := info_id x;
     info_state := info_state x; info_error := info_error x;
     active := active x; driver := driver x; want_driver := want_driver x;
     master := master x; exported := exported x; registered := registered x;
     pause_on_idle := pause_on_idle x; last_error := last_error x;
     quantum_size := quantum_size x; driver_node := v;
     n_ready_output_links := n_ready_output_links x;
     n_used_output_links := n_used_output_links x;
     n_ready_input_links := n_ready_input_links x;
     n_used_input_links := n_used_input_links x;
     input_ports := input_ports x; output_ports := output_ports x;
     source_loop := source_loop x; rt_activation := rt_activation x;
     rt_target := rt_target x; rt_driver_target := rt_driver_target x;
     rt_target_list := rt_target_list x; rt_input_mix := rt_input_mix x;
     rt_output_mix := rt_output_mix x |}.

Definition set_master (v : bool) (x : pw_node) : pw_node :=
  {| name := name x; properties := properties x; info_id := info_id x;
     info_state := info_state x; info_error := info_error x;
     active := active x; driver := driver x; want_driver := want_driver x;
     master := v; exported := exported x; registered := registered x;
     pause_on_idle := pause_on_idle x; last_error := last_error x;
     quantum_size := quantum_size x; driver_node := driver_node x;
     n_ready_output_links := n_ready_output_links x;
     n_used_output_links := n_used_output_links x;
     n_ready_input_links := n_ready_input_links x;
     n_used_input_links := n_used_input_links x;
     input_ports := input_ports x; output_ports := output_ports x;
     source_loop := source_loop x; rt_activation := rt_activation x;
     rt_target := rt_target x; rt_driver_target := rt_driver_target x;
     rt_target_list := rt_target_list x; rt_input_mix := rt_input_mix x;
     rt_output_mix := rt_output_mix x |}.

Definition set_exported (v : bool) (x : pw_node) : pw_node :=
  {| name := name x; properties := properties x; info_id := info_id x;
     info_state := info_state x; info_error := info_error x;
     active := active x; driver := driver x; want_driver := want_driver x;
     master := master x; exported := v; registered := registered x;
     pause_on_idle := pause_on_idle x; last_error := last_error x;
     quantum_size := quantum_size x; driver_node := driver_node x;
     n_ready_output_links := n_ready_output_links x;
     n_used_output_links := n_used_output_links x;
     n_ready_input_links := n_ready_input_links x;
     n_used_input_links := n_used_input_links x;
     input_ports := input_ports x; output_ports := output_ports x;
     source_loop := source_loop x; rt_activation := rt_activation x;
     rt_target := rt_target x; rt_driver_target := rt_driver_target x;
     rt_target_list := rt_target_list x; rt_input_mix := rt_input_mix x;
     rt_output_mix := rt_output_mix x |}.

(** [struct link] of remote-node.c: a peer activation an exported node signals. *)
Record link := Build_link {
  link_node_id : Z;
  link_signalfd : Z;
  link_target : pw_node_target
}.

(** ** Trace *)

(** one line of [dump_states] *)
Record dump_entry := Build_dump_entry {
  dump_node : nat;
  dump_pending : Z;
  dump_required : Z;
  dump_signal : Z;
  dump_awake : Z;
  dump_finish : Z;
  dump_waiting : Z;
  dump_process : Z;
  dump_status : pw_node_activation_status;
  dump_sync : bool
}.

Inductive direction := SPA_DIRECTION_INPUT | SPA_DIRECTION_OUTPUT.

Inductive event :=
| Ev_warn_graph_not_finished (node : nat)
| Ev_warn_sync_timeout (node : nat)
| Ev_warn_unset_format (node : nat) (d : direction) (res : Z)
| Ev_warn_write_failed
| Ev_error_start (node : nat) (res : Z)
| Ev_dump (line : dump_entry)
| Ev_signal (t : target_ref)                       (* t->signal(t->data) *)
| Ev_process (node : nat) (status : Z)             (* spa_node_process(node->node) *)
| Ev_process_mix (node : nat) (port : Z)           (* spa_node_process(p->mix) *)
| Ev_write_fd (fd : Z)                             (* write(fd, 1) *)
| Ev_send_command (node : nat) (c : spa_node_command) (res : Z)
| Ev_port_set_param_format_null (node : nat) (port : Z) (res : Z)
| Ev_loop_add_source (node : nat)
| Ev_loop_remove_source (node : nat)
| Ev_link_activate (l : nat)
| Ev_link_deactivate (l : nat)
| Ev_driver_list_append (node : nat)
| Ev_driver_list_remove (node : nat)
| Ev_state_request (node : nat) (s : pw_node_state)
| Ev_state_changed (node : nat) (old new : pw_node_state)
| Ev_info_changed (node : nat)
| Ev_node_sync (node : nat) (seq : Z)
| Ev_work_queue_add (node : nat) (res : Z) (s : pw_node_state)
| Ev_recalc_graph.

(** The state the scheduler runs in. *)
Record world := Build_world {
  nodes : gmap nat pw_node;  (* the nodes, by address *)
  acts : gmap nat pw_node_activation;  (* the shared activation records, by address *)
  links : gmap nat link;  (* peer links of exported nodes, by address *)
  now : Z;  (* last value read from CLOCK_MONOTONIC *)
  ticks : list nat;  (* time that passes before each of the next clock reads *)
  trace : list event  (* calls that left the modelled code, oldest first *)
}.

Definition set_nodes (v : gmap nat pw_node) (x : world) : world :=
  {| nodes := v; acts := acts x; links := links x; now := now x;
     ticks := ticks x; trace := trace x |}.

Definition set_acts (v : gmap nat pw_node_activation) (x : world) : world :=
  {| nodes := nodes x; acts := v; links := links x; now := now x;
     ticks := ticks x; trace := trace x |}.

Definition set_now (v : Z) (x : world) : world :=
  {| nodes := nodes x; acts := acts x; links := links x; now := v;
     ticks := ticks x; trace := trace x |}.

Definition set_ticks (v : list nat) (x : world) : world :=
  {| nodes := nodes x; acts := acts x; links := links x; now := now x;
     ticks := v; trace := trace x |}.

Definition set_trace (v : list event) (x : world) : world :=
  {| nodes := nodes x; acts := acts x; links := links x; now := now x;
     ticks := ticks x; trace := v |}.

(** * The scheduler of node.c *)

(** What the scheduler calls but does not define: the plugin behind a node,
    the port layer, libc, and constants of headers that are not part of the
    sources. *)
Class Externals := {
  (** numeric value of an [enum pw_node_state] constant *)
  pw_node_state_value : pw_node_state -> Z;
  (** [DEFAULT_QUANTUM] of pipewire/private.h *)
  DEFAULT_QUANTUM : Z;
  (** [spa_node_process(node->node)]: status returned by the plugin of the
      node when it is run at the given time *)
  spa_node_process : nat -> Z -> Z;
  (** result of [spa_node_send_command] *)
  spa_node_send_command : nat -> spa_node_command -> Z;
  (** [pw_port_set_param(p, SPA_PARAM_Format, 0, NULL)]: result and the port
      as the port layer leaves it *)
  pw_port_set_param : nat -> pw_port -> Z * pw_port;
  pw_properties_parse_bool : string -> bool;
  (** [sscanf(str, "%u/%u", &num, &denom)]: the two numbers when it returns 2 *)
  sscanf_latency : string -> option (Z * Z);
  (** [SPA_RESULT_IS_ASYNC] and [spa_node_sync] *)
  spa_result_is_async : Z -> bool;
  spa_node_sync : nat -> Z -> Z
}.

#[global] Instance target_ref_eq_dec : EqDecision target_ref.
Proof. solve_decision. Defined.

#[global] Instance pw_node_state_eq_dec : EqDecision pw_node_state.
Proof. solve_decision. Defined.

(** ** World access *)

Definition log (e : event) (w : world) : world :=
  set_trace (trace w ++ [e]) w.

Definition logs (es : list event) (w : world) : world :=
  set_trace (trace w ++ es) w.

Definition upd_act (k : nat) (f : pw_node_activation -> pw_node_activation)
    (w : world) : world :=
  set_acts (alter f k (acts w)) w.

Definition upd_node (k : nat) (f : pw_node -> pw_node) (w : world) : world :=
  set_nodes (alter f k (nodes w)) w.

(** [clock_gettime(CLOCK_MONOTONIC)]: time only moves forward *)
Definition clock_gettime (w : world) : Z * world :=
  let t := now w + Z.of_nat (hd 0%nat (ticks w)) in
  (t, set_ticks (tl (ticks w)) (set_now t w)).

(** the target structure behind a list entry *)
Definition get_target (w : world) (r : target_ref) : option pw_node_target :=
  match r with
  | node_target n => rt_target <$> nodes w !! n
  | node_driver_target n => rt_driver_target <$> nodes w !! n
  | peer_target l => link_target <$> links w !! l
  end.

(** [spa_list_remove] of a target's link: the entry leaves the list it is in *)
Definition target_list_remove (r : target_ref) (w : world) : world :=
  set_nodes
    ((fun n => set_rt_target_list (filter (fun x => x <> r) (rt_target_list n)) n)
       <$> nodes w) w.

Definition s64 (z : Z) : Z := (z + 2 ^ 63) mod 2 ^ 64 - 2 ^ 63.

Definition has_flag (status flag : Z) : bool := negb (Z.land status flag =? 0).

(** ** Activation counters *)

(** Modelled from the spec: [pw_node_activation_state_reset] is a macro of
    pipewire/private.h, which is not part of the sources. The spec: the driver
    "resets [state[0].pending = state[0].required]". *)
Definition pw_node_activation_state_reset (s : pw_node_activation_state)
    : pw_node_activation_state :=
  set_pending (required s) s.

(** Modelled from the spec: [pw_node_activation_state_dec] is a macro of
    pipewire/private.h, which is not part of the sources. The spec: a finished
    node "decrements [pending] atomically; the follower that performs the
    decrement-to-zero" triggers the target. The counter is a [uint32_t]; the
    result tells whether the counter reached zero. *)
Definition pw_node_activation_state_dec (s : pw_node_activation_state) (c : Z)
    : pw_node_activation_state * bool :=
  let p := u32 (pending s - c) in
  (set_pending p s, p =? 0).

Definition inc_required (a : pw_node_activation) : pw_node_activation :=
  set_state0 (set_required (u32 (required (state0 a) + 1)) (state0 a)) a.

Definition dec_required (a : pw_node_activation) : pw_node_activation :=
  set_state0 (set_required (u32 (required (state0 a) - 1)) (state0 a)) a.

Section Scheduler.
Context `{Ext : Externals}.

(** ** Attaching a node to its driver *)

(** node.c, lines 83-97 *)
Definition node_deactivate (this : pw_node) (w : world) : world :=
  logs (map Ev_link_deactivate
          (flat_map port_links (input_ports this)
           ++ flat_map port_links (output_ports this))) w.

(** node.c, lines 99-119 *)
Definition add_node (this driver : nat) (w : world) : option world :=
  nd ← nodes w !! this;
  if exported nd then Some w else
  drv ← nodes w !! driver;
  let dt := set_t_data (Some driver)
              (set_t_node (Some driver)
                 (set_t_activation (Some (rt_activation drv))
                    (rt_driver_target nd))) in
  let w := upd_node this
             (fun n => set_rt_target_list
                         (rt_target_list n ++ [node_driver_target this])
                         (set_rt_driver_target dt n)) w in
  let w := upd_act (rt_activation drv) inc_required w in
  let w := upd_node driver
             (fun n => set_rt_target_list
                         (rt_target_list n ++ [node_target this]) n) w in
  let w := upd_act (rt_activation nd) inc_required w in
  Some w.

(** node.c, lines 121-139 *)
Definition remove_node (this : nat) (w : world) : option world :=
  nd ← nodes w !! this;
  if exported nd then Some w else
  let w := target_list_remove (node_driver_target this) w in
  k ← t_activation (rt_driver_target nd);
  let w := upd_act k dec_required w in
  let w := target_list_remove (node_target this) w in
  let w := upd_act (rt_activation nd) dec_required w in
  Some w.

(** node.c, lines 141-151; runs in the data loop *)
Definition do_node_remove (this : nat) (w : world) : option world :=
  nd ← nodes w !! this;
  if source_loop nd then
    remove_node this
      (log (Ev_loop_remove_source this)
         (upd_node this (set_source_loop false) w))
  else Some w.

(** node.c, lines 153-174 *)
Definition pause_node (this : nat) (w : world) : option (Z * world) :=
  nd ← nodes w !! this;
  if (pw_node_state_value (info_state nd)
        <=? pw_node_state_value PW_NODE_STATE_IDLE)
     && pause_on_idle nd
  then Some (0, w)
  else
    let w := node_deactivate nd w in
    w ← do_node_remove this w;
    let res := spa_node_send_command this SPA_NODE_COMMAND_Pause in
    Some (res, log (Ev_send_command this SPA_NODE_COMMAND_Pause res) w).

(** node.c, lines 176-188; runs in the data loop *)
Definition do_node_add (this : nat) (w : world) : option world :=
  nd ← nodes w !! this;
  if source_loop nd then Some w
  else
    add_node this (driver_node nd)
      (log (Ev_loop_add_source this)
         (upd_node this (set_source_loop true) w)).

(** node.c, lines 190-213 *)
Definition start_node (this : nat) (w : world) : option (Z * world) :=
  nd ← nodes w !! this;
  if pw_node_state_value PW_NODE_STATE_RUNNING
       <=? pw_node_state_value (info_state nd)
  then Some (0, w)
  else if negb (n_ready_output_links nd =? n_used_output_links nd)
          || negb (n_ready_input_links nd =? n_used_input_links nd)
  then Some (0, w)
  else
    let res := spa_node_send_command this SPA_NODE_COMMAND_Start in
    let w := log (Ev_send_command this SPA_NODE_COMMAND_Start res) w in
    Some (res, if res <? 0 then log (Ev_error_start this res) w else w).

(** node.c, lines 288-320 *)
Definition node_update_state (node : nat) (state : pw_node_state)
    (error : option string) (w : world) : option world :=
  nd ← nodes w !! node;
  let old := info_state nd in
  if decide (old = state) then Some w
  else
    let w := upd_node node
               (fun n => set_info_state state (set_info_error error n)) w in
    w ← match state with
        | PW_NODE_STATE_RUNNING => do_node_add node w
        | _ => Some w
        end;
    Some (log (Ev_info_changed node) (log (Ev_state_changed node old state) w)).

(** the two loops of [suspend_node]: unset the format of every port of a
    list and force the port to CONFIGURE; [res] is the result so far *)
Fixpoint suspend_ports (this : nat) (d : direction) (ps : list pw_port)
    (res : Z) : Z * list pw_port * list event :=
  match ps with
  | [] => (res, [], [])
  | p :: ps' =>
      let '(r, p') := pw_port_set_param this p in
      let ev := Ev_port_set_param_format_null this (port_id p) r
                :: (if r <? 0 then [Ev_warn_unset_format this d r] else []) in
      (* force CONFIGURE in case of async *)
      let p' := set_port_state PW_PORT_STATE_CONFIGURE p' in
      let '(res', ps'', evs) := suspend_ports this d ps' r in
      (res', p' :: ps'', ev ++ evs)
  end.

(** node.c, lines 322-350 *)
Definition suspend_node (this : nat) (w : world) : option (Z * world) :=
  '(_, w) ← pause_node this w;
  nd ← nodes w !! this;
  let '(res, ins, evs_in) :=
    suspend_ports this SPA_DIRECTION_INPUT (input_ports nd) 0 in
  let '(res, outs, evs_out) :=
    suspend_ports this SPA_DIRECTION_OUTPUT (output_ports nd) res in
  let w := logs (evs_in ++ evs_out)
             (upd_node this
                (fun n => set_output_ports outs (set_input_ports ins n)) w) in
  w ← node_update_state this PW_NODE_STATE_SUSPENDED None w;
  Some (res, w).

(** ** Properties of a node *)

(** node.c, lines 699-756, on the node record: the node after the call and
    the calls it made *)
Definition check_properties (this : nat) (node : pw_node)
    : pw_node * list event :=
  let get := properties node in
  let node := match get PW_KEY_NODE_NAME with
              | Some str => set_name (Some str) node
              | None => node
              end in
  let node := match get PW_KEY_NODE_PAUSE_ON_IDLE with
              | Some str => set_pause_on_idle (pw_properties_parse_bool str) node
              | None => set_pause_on_idle true node
              end in
  let drv := match get PW_KEY_NODE_DRIVER with
             | Some str => pw_properties_parse_bool str
             | None => false
             end in
  let node := match get PW_KEY_NODE_ALWAYS_PROCESS with
              | Some str => set_want_driver (pw_properties_parse_bool str) node
              | None => set_want_driver false node
              end in
  let '(node, evs) :=
    if eqb (driver node) drv then (node, [])
    else (set_driver drv node,
          if registered node then
            if drv then [Ev_driver_list_append this]
            else [Ev_driver_list_remove this]
          else []) in
  let '(node, do_recalc) :=
    match get PW_KEY_NODE_LATENCY with
    | Some str =>
        match sscanf_latency str with
        | Some (num, denom) =>
            let num := u32 num in
            let denom := u32 denom in
            if denom =? 0 then (node, false)
            else
              let q := flp2 (u32 (num * 48000) / denom) in
              if q =? quantum_size node then (node, false)
              else (set_quantum_size q node, active node)
        | None => (node, false)
        end
    | None => (node, false)
    end in
  (node, evs ++ (if do_recalc then [Ev_recalc_graph] else [])).

End Scheduler.

(** * The cycle protocol *)

Section Cycle.
Context `{Ext : Externals}.

(** node.c, lines 758-777: one line per target that has a node *)
Definition dump_line (w : world) (r : target_ref) : list event :=
  match get_target w r with
  | Some t =>
      match t_node t, t_activation t ≫= (fun k => acts w !! k) with
      | Some n, Some a =>
          [Ev_dump {| dump_node := n;
                      dump_pending := pending (state0 a);
                      dump_required := required (state0 a);
                      dump_signal := signal_time a;
                      dump_awake := awake_time a;
                      dump_finish := finish_time a;
                      dump_waiting := u64 (awake_time a - signal_time a);
                      dump_process := u64 (finish_time a - awake_time a);
                      dump_status := status a;
                      dump_sync := pending_sync a |}]
      | _, _ => []
      end
  | None => []
  end.

Definition dump_states (driver : nat) (w : world) : world :=
  match nodes w !! driver with
  | Some nd => logs (flat_map (dump_line w) (rt_target_list nd)) w
  | None => w
  end.

(** [spa_node_process(p->mix)] for the ports of a mix list *)
Definition process_mix (this : nat) (ports : list Z) (w : world) : world :=
  logs (map (Ev_process_mix this) ports) w.

(** remote-node.c, lines 768-784 *)
Definition link_signal_func (l : nat) (w : world) : option world :=
  lk ← links w !! l;
  k ← t_activation (link_target lk);
  let '(ts, w) := clock_gettime w in
  let w := upd_act k
             (fun a => set_signal_time ts
                         (set_status PW_NODE_ACTIVATION_TRIGGERED a)) w in
  Some (log (Ev_write_fd (link_signalfd lk)) w).

(** [t->signal(t->data)]; [process] stands for [process_node] *)
Definition signal_target (process : nat -> world -> option world)
    (t : pw_node_target) (w : world) : option world :=
  d ← t_data t;
  match t_signal t with
  | signal_process_node => process d w
  | signal_link_signal_func => link_signal_func d w
  end.

(** node.c, lines 794-807: the body of the loop of [resume_node] *)
Definition resume_target (process : nat -> world -> option world) (nsec : Z)
    (r : target_ref) (w : world) : option world :=
  t ← get_target w r;
  k ← t_activation t;
  a ← acts w !! k;
  let '(state, zero) := pw_node_activation_state_dec (state0 a) 1 in
  let w := upd_act k (set_state0 state) w in
  if zero then
    let w := upd_act k
               (fun a => set_signal_time nsec
                           (set_status PW_NODE_ACTIVATION_TRIGGERED a)) w in
    signal_target process t (log (Ev_signal r) w)
  else Some w.

Fixpoint resume_targets (process : nat -> world -> option world) (nsec : Z)
    (l : list target_ref) (w : world) : option world :=
  match l with
  | [] => Some w
  | r :: l' =>
      w ← resume_target process nsec r w;
      resume_targets process nsec l' w
  end.

(** node.c, lines 779-809 *)
Definition resume_node (process : nat -> world -> option world) (this : nat)
    (status : Z) (w : world) : option (Z * world) :=
  nd ← nodes w !! this;
  let '(nsec, w) := clock_gettime w in
  let w := upd_act (rt_activation nd)
             (fun a => set_finish_time nsec
                         (set_status PW_NODE_ACTIVATION_FINISHED a)) w in
  w ← resume_targets process nsec (rt_target_list nd) w;
  Some (0, w).

(** node.c, lines 811-821: only [cpu_load], three floats outside the model,
    is written. *)
Definition calculate_stats (a : pw_node_activation) : pw_node_activation := a.

(** node.c, lines 823-876; [process] stands for the function itself, which
    the targets of a finished node are signalled with *)
Definition process_node_body (process : nat -> world -> option world)
    (this : nat) (w : world) : option world :=
  nd ← nodes w !! this;
  let k := rt_activation nd in
  let '(ts, w) := clock_gettime w in
  let w := upd_act k
             (fun a => set_awake_time ts
                         (set_status PW_NODE_ACTIVATION_AWAKE a)) w in
  (* not implemented yet, just clear the flags *)
  let w := upd_act k
             (fun a => set_pending_new_pos false (set_pending_sync false a)) w in
  let w := process_mix this (rt_input_mix nd) w in
  let status := spa_node_process this (now w) in
  let w := log (Ev_process this status) w in
  let w := upd_act k
             (fun a => set_state0 (set_ast_status status (state0 a)) a) w in
  let w := if has_flag status SPA_STATUS_HAVE_DATA
           then process_mix this (rt_output_mix nd) w else w in
  if Nat.eqb this (driver_node nd) && negb (exported nd) then
    let '(ts, w) := clock_gettime w in
    Some (upd_act k
            (fun a => calculate_stats
                        (set_finish_time ts
                           (set_signal_time (finish_time a)
                              (set_status PW_NODE_ACTIVATION_FINISHED a)))) w)
  else if status =? SPA_STATUS_OK then Some w
  else snd <$> resume_node process this status w.

Fixpoint process_node (fuel : nat) (this : nat) (w : world) : option world :=
  match fuel with
  | O => None
  | S fuel' => process_node_body (process_node fuel') this w
  end.

(** ** The driver at the start of a cycle *)

Definition SYNC_CHECK : Z := 0.
Definition SYNC_START : Z := 1.
Definition SYNC_STOP : Z := 2.

(** [sync_timeout / ((duration * SPA_NSEC_PER_SEC) / rate.denom)] in 64-bit
    unsigned arithmetic; a division by zero has no result *)
Definition sync_cycles (a : pw_node_activation) : option Z :=
  let denom := clock_rate_denom (position a) in
  if denom =? 0 then None
  else
    let cycle := u64 (clock_duration (position a) * SPA_NSEC_PER_SEC) / denom in
    if cycle =? 0 then None
    else Some (sync_timeout a / cycle).

(** node.c, lines 1209-1242, on the activation record of the driver: the
    record after the call, the result and [*reposition_owner] *)
Definition check_updates (a : pw_node_activation)
    : option (pw_node_activation * Z * Z) :=
  let a := if offset (position a) =? INT64_MIN
           then set_position
                  (set_offset (s64 (clock_position (position a))) (position a)) a
           else a in
  let cmd := command a in
  let a := set_command PW_NODE_ACTIVATION_COMMAND_NONE a in
  let owner := reposition_owner a in
  let a := set_reposition_owner 0 a in
  '(a, res) ←
    match cmd with
    | PW_NODE_ACTIVATION_COMMAND_NONE => Some (a, SYNC_CHECK)
    | PW_NODE_ACTIVATION_COMMAND_STOP =>
        Some (set_position
                (set_pos_state SPA_IO_POSITION_STATE_STOPPED (position a)) a,
              SYNC_STOP)
    | PW_NODE_ACTIVATION_COMMAND_START =>
        let a := set_position
                   (set_pos_state SPA_IO_POSITION_STATE_STARTING (position a)) a in
        n ← sync_cycles a;
        Some (set_sync_left n a, SYNC_START)
    end;
  Some (a, if owner =? 0 then res else SYNC_START, owner).

(** node.c, lines 1244-1271 *)
Definition do_reposition (driver node : nat) (w : world) : option world :=
  dn ← nodes w !! driver;
  nn ← nodes w !! node;
  let k := rt_activation dn in
  a ← acts w !! k;
  na ← acts w !! rt_activation nn;
  let src := reposition na in
  let dst := if seg_start src =? 0
             then set_seg_start
                    (u64 (clock_position (position a) - offset (position a))) src
             else src in
  let a := set_position (set_segment0 dst (position a)) a in
  a ← (if pos_state (position a) =? SPA_IO_POSITION_STATE_RUNNING then
         let a := set_position
                    (set_pos_state SPA_IO_POSITION_STATE_STARTING (position a))
                    a in
         n ← sync_cycles a;
         Some (set_sync_left n a)
       else Some a);
  Some (set_acts (<[k := a]> (acts w)) w).

(** node.c, lines 1273-1288 *)
Definition update_position (node : nat) (all_ready : bool) (w : world)
    : option world :=
  nd ← nodes w !! node;
  let k := rt_activation nd in
  a ← acts w !! k;
  '(w, all_ready) ←
    (if pos_state (position a) =? SPA_IO_POSITION_STATE_STARTING then
       let '(w, all_ready) :=
         if negb all_ready then
           let left := u64 (sync_left a - 1) in
           let w := upd_act k (set_sync_left left) w in
           if left =? 0 then
             (dump_states node (log (Ev_warn_sync_timeout node) w), true)
           else (w, false)
         else (w, all_ready) in
       Some (if all_ready
             then upd_act k
                    (fun a => set_position
                                (set_pos_state SPA_IO_POSITION_STATE_RUNNING
                                   (position a)) a) w
             else w, all_ready)
     else Some (w, all_ready));
  a ← acts w !! k;
  if pos_state (position a) =? SPA_IO_POSITION_STATE_RUNNING then Some w
  else
    Some (upd_act k
            (fun a => set_position
                        (set_offset
                           (s64 (offset (position a)
                                 + clock_duration (position a)))
                           (position a)) a) w).

(** node.c, lines 1318-1344: the body of the loop over the targets of the
    driver, whose activation record is at [k]; the state of the loop is the
    world, [all_ready] and [reposition_node] *)
Definition ready_target (k : nat) (owner0 owner1 reposition_owner : Z)
    (update_sync target_sync : bool) (r : target_ref)
    (st : world * bool * option nat) : option (world * bool * option nat) :=
  let '(w, all_ready, reposition_node) := st in
  t ← get_target w r;
  ka ← t_activation t;
  _ ← acts w !! ka;
  let w := upd_act ka
             (fun ta => set_state0 (pw_node_activation_state_reset (state0 ta))
                          (set_status PW_NODE_ACTIVATION_NOT_TRIGGERED ta)) w in
  '(w, reposition_node) ←
    match t_node t with
    | Some n =>
        tn ← nodes w !! n;
        ta ← acts w !! ka;
        let id := info_id tn in
        (* this is the node with reposition info *)
        let reposition_node :=
          if id =? reposition_owner then Some n else reposition_node in
        (* update extra segment info if it is the owner *)
        let w := if id =? owner0
                 then upd_act k
                        (fun a => set_position
                                    (set_segment0
                                       (set_seg_bar (seg_bar (segment ta))
                                          (segment0 (position a)))
                                       (position a)) a) w
                 else w in
        let w := if id =? owner1
                 then upd_act k
                        (fun a => set_position
                                    (set_segment0
                                       (set_seg_video (seg_video (segment ta))
                                          (segment0 (position a)))
                                       (position a)) a) w
                 else w in
        Some (w, reposition_node)
    | None => Some (w, reposition_node)
    end;
  ta ← acts w !! ka;
  if update_sync then
    Some (upd_act ka
            (fun ta => set_pending_new_pos target_sync
                         (set_pending_sync target_sync ta)) w,
          all_ready, reposition_node)
  else Some (w, all_ready && negb (pending_sync ta), reposition_node).

Fixpoint ready_targets (k : nat) (owner0 owner1 reposition_owner : Z)
    (update_sync target_sync : bool) (l : list target_ref)
    (st : world * bool * option nat) : option (world * bool * option nat) :=
  match l with
  | [] => Some st
  | r :: l' =>
      st ← ready_target k owner0 owner1 reposition_owner
             update_sync target_sync r st;
      ready_targets k owner0 owner1 reposition_owner
        update_sync target_sync l' st
  end.

(** node.c, lines 1305-1309: the driver finds its previous cycle unfinished *)
Definition graph_not_finished (process : nat -> world -> option world)
    (node : nat) (nd : pw_node) (w : world) : option world :=
  let w := log (Ev_warn_graph_not_finished node) w in
  let w := dump_states node w in
  signal_target process (rt_target nd) (log (Ev_signal (node_target node)) w).

(** node.c, lines 1311-1350: the driver opens a new cycle *)
Definition driver_cycle (node : nat) (nd : pw_node) (w : world)
    : option world :=
  let k := rt_activation nd in
  a ← acts w !! k;
  '(a, sync_type, reposition_owner) ← check_updates a;
  let w := set_acts (<[k := a]> (acts w)) w in
  let owner0 := segment_owner0 a in
  let owner1 := segment_owner1 a in
  let all_ready := sync_type =? SYNC_CHECK in
  let update_sync := negb all_ready in
  let target_sync := sync_type =? SYNC_START in
  '(w, all_ready, reposition_node) ←
    ready_targets k owner0 owner1 reposition_owner update_sync target_sync
      (rt_target_list nd) (w, all_ready, None);
  let w := upd_act k (fun a => set_prev_signal_time (signal_time a) a) w in
  w ← match reposition_node with
      | Some rn => do_reposition node rn w
      | None => Some w
      end;
  update_position node all_ready w.

(** node.c, lines 1300-1351: what [node_ready] does when the node is its own
    driver *)
Definition driver_ready (process : nat -> world -> option world)
    (node : nat) (nd : pw_node) (w : world) : option world :=
  a ← acts w !! rt_activation nd;
  w ← (if pending (state0 a) =? 0 then Some w
       else graph_not_finished process node nd w);
  driver_cycle node nd w.

(** node.c, lines 1290-1361 *)
Definition node_ready_body (process : nat -> world -> option world)
    (node : nat) (status : Z) (w : world) : option (Z * world) :=
  nd ← nodes w !! node;
  w ← (if Nat.eqb node (driver_node nd)
       then driver_ready process node nd w else Some w);
  if driver nd && negb (master nd) then Some (0, w)
  else
    let w := if has_flag status SPA_STATUS_HAVE_DATA
             then process_mix node (rt_output_mix nd) w else w in
    resume_node process node status w.

Definition node_ready (fuel : nat) (node : nat) (status : Z) (w : world)
    : option (Z * world) :=
  node_ready_body (process_node fuel) node status w.

(** node.c, lines 1378-1392 *)
Definition node_xrun (this : nat) (trigger delay : Z) (w : world)
    : option (Z * world) :=
  nd ← nodes w !! this;
  Some (0, upd_act (rt_activation nd)
             (fun a => set_max_delay (SPA_MAX (max_delay a) delay)
                         (set_xrun_delay delay
                            (set_xrun_time trigger
                               (set_xrun_count (u32 (xrun_count a + 1)) a))))
             w).

End Cycle.

#[global] Arguments dump_states : simpl never.
#[global] Arguments link_signal_func : simpl never.
#[global] Arguments signal_target : simpl never.
#[global] Arguments resume_target : simpl never.
#[global] Arguments resume_node : simpl never.
#[global] Arguments process_node_body : simpl never.
#[global] Arguments check_updates : simpl never.
#[global] Arguments do_reposition : simpl never.
#[global] Arguments update_position : simpl never.
#[global] Arguments ready_target : simpl never.
#[global] Arguments graph_not_finished : simpl never.
#[global] Arguments driver_cycle : simpl never.
#[global] Arguments driver_ready : simpl never.
#[global] Arguments node_ready_body : simpl never.

(** * Creating a node and changing its state *)

Section Lifecycle.
Context `{Ext : Externals}.

Definition zero_segment : spa_io_segment :=
  {| seg_version := 0; seg_flags := 0; seg_start := 0; seg_duration := 0;
     seg_rate := 0; seg_position := 0; seg_bar := 0; seg_video := 0 |}.

(** node.c, lines 899-903; the token [1] stands for the rate [1.0] *)
Definition reset_segment : spa_io_segment :=
  {| seg_version := 0; seg_flags := 0; seg_start := 0; seg_duration := 0;
     seg_rate := 1; seg_position := 0; seg_bar := 0; seg_video := 0 |}.

(** node.c, lines 905-916, on a zeroed position *)
Definition reset_position : spa_io_position :=
  {| clock_rate_num := 1; clock_rate_denom := 48000; clock_position := 0;
     clock_duration := DEFAULT_QUANTUM; offset := INT64_MIN; pos_state := 0;
     n_segments := 1; segment0 := reset_segment |}.

(** the activation record [pw_node_new] leaves in the freshly allocated,
    zero-filled memory block (node.c, lines 1005-1007) *)
Definition new_activation : pw_node_activation :=
  {| status := PW_NODE_ACTIVATION_NOT_TRIGGERED;
     pending_sync := false; pending_new_pos := false;
     state0 := {| ast_status := 0; required := 0; pending := 0 |};
     command := PW_NODE_ACTIVATION_COMMAND_NONE; reposition_owner := 0;
     signal_time := 0; awake_time := 0; finish_time := 0;
     prev_signal_time := 0;
     sync_timeout := 5 * SPA_NSEC_PER_SEC; sync_left := 0;
     xrun_count := 0; xrun_time := 0; xrun_delay := 0; max_delay := 0;
     segment_owner0 := 0; segment_owner1 := 0;
     position := reset_position;
     reposition := zero_segment; segment := zero_segment |}.

(** node.c, lines 918-1028, without the allocation failures: the node is
    placed at address [this], its activation record at [k] *)
Definition pw_node_new (this k : nat) (props : pw_key -> option string)
    (w : world) : world :=
  let node :=
    {| name := None; properties := props; info_id := 0;
       info_state := PW_NODE_STATE_CREATING; info_error := None;
       active := false; driver := false; want_driver := false;
       master := false; exported := false; registered := false;
       pause_on_idle := false; last_error := 0; quantum_size := 0;
       driver_node := this;
       n_ready_output_links := 0; n_used_output_links := 0;
       n_ready_input_links := 0; n_used_input_links := 0;
       input_ports := []; output_ports := []; source_loop := false;
       rt_activation := k;
       rt_target := {| t_activation := Some k; t_node := Some this;
                       t_signal := signal_process_node; t_data := Some this |};
       rt_driver_target := {| t_activation := None; t_node := None;
                              t_signal := signal_process_node;
                              t_data := None |};
       rt_target_list := []; rt_input_mix := []; rt_output_mix := [] |} in
  let '(node, evs) := check_properties this node in
  let node := set_master true (set_driver_node this node) in
  logs evs
    (set_acts (<[k := new_activation]> (acts w))
       (set_nodes (<[this := node]> (nodes w)) w)).

(** node.c, lines 1707-1722 *)
Definition node_activate (this : pw_node) (w : world) : world :=
  logs (map Ev_link_activate
          (flat_map port_links (input_ports this)
           ++ flat_map port_links (output_ports this))) w.

(** node.c, lines 1733-1783 *)
Definition pw_node_set_state (node : nat) (state : pw_node_state) (w : world)
    : option (Z * world) :=
  nd ← nodes w !! node;
  if decide (info_state nd = state) then Some (0, w)
  else
    let w := log (Ev_state_request node state) w in
    '(res, w, ret) ←
      match state with
      | PW_NODE_STATE_CREATING => Some (- EIO, w, true)
      | PW_NODE_STATE_SUSPENDED =>
          '(res, w) ← suspend_node node w; Some (res, w, false)
      | PW_NODE_STATE_IDLE =>
          if active nd && pause_on_idle nd
          then '(res, w) ← pause_node node w; Some (res, w, false)
          else Some (0, w, false)
      | PW_NODE_STATE_RUNNING =>
          if active nd
          then '(res, w) ← start_node node (node_activate nd w);
               Some (res, w, false)
          else Some (0, w, false)
      | PW_NODE_STATE_ERROR => Some (0, w, false)
      end;
    if ret || (res <? 0) then Some (res, w)
    else
      let '(res, w) :=
        if spa_result_is_async res
        then (spa_node_sync node res, log (Ev_node_sync node res) w)
        else (res, w) in
      Some (res, log (Ev_work_queue_add node res state) w).

End Lifecycle.

(** * The client side of an exported node (remote-node.c) *)

Module RemoteNode.

(** remote-node.c, lines 1035-1060: the [ready] callback of an exported
    node; [rtwritefd] is the descriptor that wakes the server *)
Definition node_ready (node : nat) (rtwritefd : Z) (status : Z) (w : world)
    : option (Z * world) :=
  nd ← nodes w !! node;
  let w := if status =? SPA_STATUS_HAVE_DATA
           then process_mix node (rt_output_mix nd) w else w in
  let '(ts, w) := clock_gettime w in
  let w := upd_act (rt_activation nd)
             (fun a => set_signal_time ts
                         (set_status PW_NODE_ACTIVATION_TRIGGERED a)) w in
  Some (0, log (Ev_write_fd rtwritefd) w).

(** remote-node.c, lines 1067-1082 *)
Definition node_xrun (node : nat) (trigger delay : Z) (w : world)
    : option (Z * world) :=
  nd ← nodes w !! node;
  Some (0, upd_act (rt_activation nd)
             (fun a => set_max_delay (SPA_MAX (max_delay a) delay)
                         (set_xrun_delay delay
                            (set_xrun_time trigger
                               (set_xrun_count (u32 (xrun_count a + 1)) a))))
             w).

End RemoteNode.

(** ** Further field updates *)

Definition set_active (v : bool) (x : pw_node) : pw_node :=
  {| name := name x; properties := properties x; info_id := info_id x;
     info_state := info_state x; info_error := info_error x; active := v;
     driver := driver x; want_driver := want_driver x; master := master x;
     exported := exported x; registered := registered x;
     pause_on_idle := pause_on_idle x; last_error := last_error x;
     quantum_size := quantum_size x; driver_node := driver_node x;
     n_ready_output_links := n_ready_output_links x;
     n_used_output_links := n_used_output_links x;
     n_ready_input_links := n_ready_input_links x;
     n_used_input_links := n_used_input_links x;
     input_ports := input_ports x; output_ports := output_ports x;
     source_loop := source_loop x; rt_activation := rt_activation x;
     rt_target := rt_target x; rt_driver_target := rt_driver_target x;
     rt_target_list := rt_target_list x; rt_input_mix := rt_input_mix x;
     rt_output_mix := rt_output_mix x |}.

Definition set_link_node_id (v : Z) (x : link) : link :=
  {| link_node_id := v; link_signalfd := link_signalfd x;
     link_target := link_target x |}.

Definition set_link_target (v : pw_node_target) (x : link) : link :=
  {| link_node_id := link_node_id x; link_signalfd := link_signalfd x;
     link_target := v |}.

Definition set_links (v : gmap nat link) (x : world) : world :=
  {| nodes := nodes x; acts := acts x; links := v; now := now x;
     ticks := ticks x; trace := trace x |}.

(** * Further functions of node.c *)

(** Modelled from the spec: [SPA_ID_INVALID] is a macro of spa/utils/defs.h,
    which is not part of the sources; it is the 32-bit value with all bits
    set, which the spec calls the invalid id. *)
Definition SPA_ID_INVALID : Z := UINT32_MAX.

(** the [%d] of the C format strings *)
Definition string_of_Z (z : Z) : string :=
  NilZero.string_of_int (Z.to_int z).

(** node.c, lines 624-639; runs in the data loop. [driver] is the new driver
    that [pw_node_set_driver] hands over. *)
Definition do_move_nodes (this driver : nat) (w : world) : option world :=
  nd ← nodes w !! this;
  if source_loop nd then
    w ← remove_node this w;
    add_node this driver w
  else Some w.

(** node.c, lines 1693-1705: the work-queue callback that
    [pw_node_set_state] registers; [SPA_RESULT_IS_ERROR(res)] is [res < 0] *)
Definition on_state_complete (node : nat) (state : pw_node_state) (res : Z)
    (w : world) : option world :=
  if res <? 0 then
    node_update_state node PW_NODE_STATE_ERROR
      (Some ("error changing node state: " ++ string_of_Z res)%string) w
  else node_update_state node state None w.

(** the loop of [pw_node_find_port] over the ports of one direction;
    [multi p] tells whether [PW_PORT_MIX_FLAG_MULTI] is set in
    [p->mix_flags], [port] is the candidate so far *)
Fixpoint find_free_port (multi : pw_port -> bool) (ports : list pw_port)
    (port : option pw_port) : option pw_port :=
  match ports with
  | [] => port
  | p :: ports' =>
      match port_links p with
      | [] => Some p
      | _ :: _ =>
          (* We can use this port if it can multiplex *)
          find_free_port multi ports' (if multi p then Some p else port)
      end
  end.

(** node.c, lines 1613-1647; [portmap d] is [pw_map_lookup] on the port map
    of direction [d] *)
Definition pw_node_find_port (portmap : direction -> Z -> option pw_port)
    (multi : pw_port -> bool) (node : pw_node) (d : direction) (port_id : Z)
    : option pw_port :=
  let ports := match d with
               | SPA_DIRECTION_INPUT => input_ports node
               | SPA_DIRECTION_OUTPUT => output_ports node
               end in
  if negb (port_id =? SPA_ID_INVALID) then portmap d port_id
  else find_free_port multi ports None.

(** * Peer links of an exported node (remote-node.c) *)

Module RemoteLinks.

(** calls of remote-node.c that leave the modelled code and that the trace
    of the world has no event for *)
Inductive call :=
| Call_close (fd : Z)          (* close(fd) *)
| Call_memmap_free (l : nat)   (* pw_memmap_free(l->map), l a struct link *)
| Call_proxy_error (res : Z).  (* pw_log_error and pw_proxy_error *)

(** [struct node_data] of remote-node.c: the fields that
    [client_node_set_activation] reads and writes, and the calls made so far;
    [data_links] holds the addresses of the elements of the array [links] in
    the order of the array *)
Record node_data := Build_node_data {
  remote_id : Z;  (* uint32_t *)
  data_node : nat;
  data_links : list nat;
  calls : list call
}.

Definition set_data_links (v : list nat) (x : node_data) : node_data :=
  {| remote_id := remote_id x; data_node := data_node x; data_links := v;
     calls := calls x |}.

Definition add_calls (cs : list call) (x : node_data) : node_data :=
  {| remote_id := remote_id x; data_node := data_node x;
     data_links := data_links x; calls := calls x ++ cs |}.

(** What [client_node_set_activation] calls but remote-node.c does not
    define. *)
Class RemoteExternals := {
  (** [pw_mempool_map_id(pool, memid, flags, offset, size, NULL)]: [-errno]
      when it returns [NULL], else the address [mm->ptr] of the mapped
      activation record *)
  pw_mempool_map_id : Z -> Z -> Z -> Z + option nat;
  (** [pw_array_add(&data->links, sizeof(struct link))]: [-errno] when it
      returns [NULL], else the address of the new element *)
  pw_array_add : node_data -> world -> Z + nat
}.

(** remote-node.c, lines 101-110: the first element of the array with the
    node id, [Some None] for [NULL]; [None] is an access outside the links of
    the world *)
Fixpoint find_activation (w : world) (arr : list nat) (node_id : Z)
    : option (option nat) :=
  match arr with
  | [] => Some None
  | l :: arr' =>
      lk ← links w !! l;
      if link_node_id lk =? node_id then Some (Some l)
      else find_activation w arr' node_id
  end.

(** remote-node.c, lines 112-119 *)
Definition clear_link (data : node_data) (l : nat) (w : world)
    : option (node_data * world) :=
  lk ← links w !! l;
  let lk' := set_link_target (set_t_activation None (link_target lk))
               (set_link_node_id SPA_ID_INVALID lk) in
  let w := set_links (<[l := lk']> (links w)) w in
  let data := add_calls [Call_memmap_free l; Call_close (link_signalfd lk)]
                data in
  Some (data, target_list_remove (peer_target l) w).

Section SetActivation.
Context `{RExt : RemoteExternals}.

(** remote-node.c, lines 786-860 *)
Definition client_node_set_activation (data : node_data)
    (node_id signalfd memid offset size : Z) (w : world)
    : option (Z * node_data * world) :=
  let error_exit res := Some (res, add_calls [Call_proxy_error res] data, w) in
  if remote_id data =? node_id
  then Some (0, add_calls [Call_close signalfd] data, w)
  else
    let mapped := if memid =? SPA_ID_INVALID then inr None
                  else pw_mempool_map_id memid offset size in
    match mapped with
    | inl res => error_exit res
    | inr (Some k) =>
        match pw_array_add data w with
        | inl res => error_exit res
        | inr l =>
            _ ← nodes w !! data_node data;
            let lk := {| link_node_id := node_id; link_signalfd := signalfd;
                         link_target :=
                           {| t_activation := Some k; t_node := None;
                              t_signal := signal_link_signal_func;
                              t_data := Some l |} |} in
            let w := set_links (<[l := lk]> (links w)) w in
            let w := upd_node (data_node data)
                       (fun n => set_rt_target_list
                                   (rt_target_list n ++ [peer_target l]) n)
                       w in
            Some (0, set_data_links (data_links data ++ [l]) data, w)
        end
    | inr None =>
        r ← find_activation w (data_links data) node_id;
        match r with
        | None => error_exit (- ENOENT)
        | Some l =>
            '(data, w) ← clear_link data l w;
            Some (0, data, w)
        end
    end.

End SetActivation.

End RemoteLinks.

(** * Buffers of the audioconvert plugins *)

Definition MAX_BUFFERS : Z := 64.
Definition MAX_DATAS : Z := 32.
Definition MAX_PORTS : Z := 128.
Definition BUFFER_FLAG_QUEUED : Z := 1.

(** Modelled from the spec: [enum spa_data_type] is declared in
    spa/buffer/buffer.h, which is not part of the sources; the spec lists the
    block types MemPtr, MemFd, DmaBuf and MemId. *)
Inductive spa_data_type :=
| SPA_DATA_MemPtr
| SPA_DATA_MemFd
| SPA_DATA_DmaBuf
| SPA_DATA_MemId.

Record spa_data := Build_spa_data {
  d_type : spa_data_type;
  d_dynamic : bool;  (* SPA_DATA_FLAG_DYNAMIC is set in flags *)
  d_data : Z  (* address of the block, 0 for NULL *)
}.

Record spa_buffer := Build_spa_buffer {
  datas : list spa_data  (* n_datas is its length *)
}.

(** [struct buffer]; merger.c and splitter.c declare the same structure. *)
Record buffer := Build_buffer {
  b_id : Z;
  b_flags : Z;
  b_buf : option spa_buffer;
  b_datas : list Z  (* MAX_DATAS slots *)
}.

Definition set_b_flags (v : Z) (x : buffer) : buffer :=
  {| b_id := b_id x; b_flags := v; b_buf := b_buf x; b_datas := b_datas x |}.

Definition set_b_datas (v : list Z) (x : buffer) : buffer :=
  {| b_id := b_id x; b_flags := b_flags x; b_buf := b_buf x; b_datas := v |}.

(** [struct port] of merger.c and splitter.c, with the fields that the buffer
    path reads or writes. *)
Record port := Build_plugin_port {
  have_format : bool;
  blocks : Z;
  stride : Z;
  buffers : list buffer;  (* MAX_BUFFERS slots *)
  n_buffers : Z;
  queue : list nat  (* indices of the queued buffers, oldest first *)
}.

Definition set_have_format (v : bool) (x : port) : port :=
  {| have_format := v; blocks := blocks x; stride := stride x;
     buffers := buffers x; n_buffers := n_buffers x; queue := queue x |}.

Definition set_buffers (v : list buffer) (x : port) : port :=
  {| have_format := have_format x; blocks := blocks x; stride := stride x;
     buffers := v; n_buffers := n_buffers x; queue := queue x |}.

Definition set_n_buffers (v : Z) (x : port) : port :=
  {| have_format := have_format x; blocks := blocks x; stride := stride x;
     buffers := buffers x; n_buffers := v; queue := queue x |}.

Definition set_queue (v : list nat) (x : port) : port :=
  {| have_format := have_format x; blocks := blocks x; stride := stride x;
     buffers := buffers x; n_buffers := n_buffers x; queue := v |}.

(** clear_buffers *)
Definition clear_buffers (p : port) : port :=
  if 0 <? n_buffers p then set_queue [] (set_n_buffers 0 p) else p.

(** queue_buffer: [b] is [port->buffers[id]] *)
Definition queue_buffer (id : nat) (b : buffer) (q : list nat)
    : buffer * list nat :=
  if negb (Z.land (b_flags b) BUFFER_FLAG_QUEUED =? 0) then (b, q)
  else (set_b_flags (Z.lor (b_flags b) BUFFER_FLAG_QUEUED) b, q ++ [id]).

Definition valid_data (d : spa_data) : bool :=
  match d_type d with
  | SPA_DATA_MemPtr | SPA_DATA_MemFd | SPA_DATA_DmaBuf => negb (d_data d =? 0)
  | SPA_DATA_MemId => false
  end.

(** The loop over the data blocks of one buffer: the result so far, the
    buffer slot and [is_passthrough]; [None] is a write past [datas]. *)
Fixpoint use_datas (d : direction) (ds : list spa_data) (j : nat) (b : buffer)
    (pt : bool) : option (Z * buffer * bool) :=
  match ds with
  | [] => Some (0, b, pt)
  | x :: ds' =>
      if negb (valid_data x) then Some (- EINVAL, b, pt)
      else if MAX_DATAS <=? Z.of_nat j then None
      else
        let b := set_b_datas (<[j := d_data x]> (b_datas b)) b in
        let pt := match d with
                  | SPA_DIRECTION_OUTPUT => if d_dynamic x then pt else false
                  | SPA_DIRECTION_INPUT => pt
                  end in
        use_datas d ds' (S j) b pt
  end.

(** ** merger.c *)

Module Merger.

(** [struct impl] of merger.c *)
Record impl := Build_impl {
  port_count : Z;
  monitor_count : Z;
  in_ports : list port;  (* MAX_PORTS slots *)
  out_ports : list port;  (* MAX_PORTS + 1 slots *)
  is_passthrough : bool;
  have_profile : bool
}.

Definition set_in_ports (v : list port) (x : impl) : impl :=
  {| port_count := port_count x; monitor_count := monitor_count x;
     in_ports := v; out_ports := out_ports x;
     is_passthrough := is_passthrough x; have_profile := have_profile x |}.

Definition set_out_ports (v : list port) (x : impl) : impl :=
  {| port_count := port_count x; monitor_count := monitor_count x;
     in_ports := in_ports x; out_ports := v;
     is_passthrough := is_passthrough x; have_profile := have_profile x |}.

Definition set_is_passthrough (v : bool) (x : impl) : impl :=
  {| port_count := port_count x; monitor_count := monitor_count x;
     in_ports := in_ports x; out_ports := out_ports x; is_passthrough := v;
     have_profile := have_profile x |}.

Definition CHECK_IN_PORT (this : impl) (d : direction) (p : Z) : bool :=
  match d with SPA_DIRECTION_INPUT => p <? port_count this | _ => false end.

Definition CHECK_OUT_PORT (this : impl) (d : direction) (p : Z) : bool :=
  match d with SPA_DIRECTION_OUTPUT => p <=? monitor_count this | _ => false end.

(** The loop of [impl_node_port_use_buffers] over the buffers: the result,
    the port and [is_passthrough]; [None] is an access past [buffers]. *)
Fixpoint use_buffers_loop (d : direction) (bs : list spa_buffer) (i : nat)
    (p : port) (pt : bool) : option (Z * port * bool) :=
  match bs with
  | [] => Some (0, p, pt)
  | x :: bs' =>
      b ← buffers p !! i;
      let b := {| b_id := Z.of_nat i; b_flags := 0; b_buf := Some x;
                  b_datas := b_datas b |} in
      if negb (Z.of_nat (length (datas x)) =? blocks p)
      then Some (- EINVAL, set_buffers (<[i := b]> (buffers p)) p, pt)
      else
      '(res, b, pt) ← use_datas d (datas x) 0 b pt;
      if res <? 0
      then Some (res, set_buffers (<[i := b]> (buffers p)) p, pt)
      else
        let '(b, q) := match d with
                       | SPA_DIRECTION_OUTPUT => queue_buffer i b (queue p)
                       | SPA_DIRECTION_INPUT => (b, queue p)
                       end in
        use_buffers_loop d bs' (S i)
          (set_queue q (set_buffers (<[i := b]> (buffers p)) p)) pt
  end.

Definition CHECK_PORT (this : impl) (d : direction) (p : Z) : bool :=
  CHECK_OUT_PORT this d p || CHECK_IN_PORT this d p.

Definition GET_PORT (this : impl) (d : direction) (p : Z) : option port :=
  match d with
  | SPA_DIRECTION_INPUT => in_ports this !! Z.to_nat p
  | SPA_DIRECTION_OUTPUT => out_ports this !! Z.to_nat p
  end.

Definition put_port (this : impl) (d : direction) (p : Z) (x : port) : impl :=
  match d with
  | SPA_DIRECTION_INPUT => set_in_ports (<[Z.to_nat p := x]> (in_ports this)) this
  | SPA_DIRECTION_OUTPUT =>
      set_out_ports (<[Z.to_nat p := x]> (out_ports this)) this
  end.

(** merger.c, lines 750-815; [None] is an access outside an array *)
Definition impl_node_port_use_buffers (this : impl) (d : direction)
    (port_id : Z) (flags : Z) (bufs : list spa_buffer) : option (Z * impl) :=
  if negb (CHECK_PORT this d port_id) then Some (- EINVAL, this)
  else
    p ← GET_PORT this d port_id;
    if negb (have_format p) then Some (- EIO, this)
    else
      let p := clear_buffers p in
      '(res, p, pt) ← use_buffers_loop d bufs 0 p (is_passthrough this);
      let this := set_is_passthrough pt this in
      if res <? 0 then Some (res, put_port this d port_id p)
      else
        Some (0, put_port this d port_id
                   (set_n_buffers (Z.of_nat (length bufs)) p)).

End Merger.

(** ** splitter.c *)

Module Splitter.

(** [struct impl] of splitter.c *)
Record impl := Build_impl {
  in_ports : list port;  (* 1 slot *)
  out_ports : list port;  (* MAX_PORTS slots *)
  port_count : Z;
  is_passthrough : bool;
  have_profile : bool
}.

Definition set_in_ports (v : list port) (x : impl) : impl :=
  {| in_ports := v; out_ports := out_ports x; port_count := port_count x;
     is_passthrough := is_passthrough x; have_profile := have_profile x |}.

Definition set_out_ports (v : list port) (x : impl) : impl :=
  {| in_ports := in_ports x; out_ports := v; port_count := port_count x;
     is_passthrough := is_passthrough x; have_profile := have_profile x |}.

Definition set_is_passthrough (v : bool) (x : impl) : impl :=
  {| in_ports := in_ports x; out_ports := out_ports x;
     port_count := port_count x; is_passthrough := v;
     have_profile := have_profile x |}.

Definition CHECK_OUT_PORT (this : impl) (d : direction) (p : Z) : bool :=
  match d with SPA_DIRECTION_OUTPUT => p <? port_count this | _ => false end.

Definition CHECK_IN_PORT (this : impl) (d : direction) (p : Z) : bool :=
  match d with SPA_DIRECTION_INPUT => p =? 0 | _ => false end.

(** The loop of [impl_node_port_use_buffers] over the buffers: the result,
    the port and [is_passthrough]; [None] is an access past [buffers]. *)
Fixpoint use_buffers_loop (d : direction) (bs : list spa_buffer) (i : nat)
    (p : port) (pt : bool) : option (Z * port * bool) :=
  match bs with
  | [] => Some (0, p, pt)
  | x :: bs' =>
      b ← buffers p !! i;
      let b := {| b_id := Z.of_nat i; b_flags := 0; b_buf := Some x;
                  b_datas := b_datas b |} in
      '(res, b, pt) ← use_datas d (datas x) 0 b pt;
      if res <? 0
      then Some (res, set_buffers (<[i := b]> (buffers p)) p, pt)
      else
        let '(b, q) := match d with
                       | SPA_DIRECTION_OUTPUT => queue_buffer i b (queue p)
                       | SPA_DIRECTION_INPUT => (b, queue p)
                       end in
        use_buffers_loop d bs' (S i)
          (set_queue q (set_buffers (<[i := b]> (buffers p)) p)) pt
  end.

Definition CHECK_PORT (this : impl) (d : direction) (p : Z) : bool :=
  CHECK_OUT_PORT this d p || CHECK_IN_PORT this d p.

Definition GET_PORT (this : impl) (d : direction) (p : Z) : option port :=
  match d with
  | SPA_DIRECTION_INPUT => in_ports this !! Z.to_nat p
  | SPA_DIRECTION_OUTPUT => out_ports this !! Z.to_nat p
  end.

Definition put_port (this : impl) (d : direction) (p : Z) (x : port) : impl :=
  match d with
  | SPA_DIRECTION_INPUT => set_in_ports (<[Z.to_nat p := x]> (in_ports this)) this
  | SPA_DIRECTION_OUTPUT =>
      set_out_ports (<[Z.to_nat p := x]> (out_ports this)) this
  end.

(** splitter.c, lines 714-774; [None] is an access outside an array *)
Definition impl_node_port_use_buffers (this : impl) (d : direction)
    (port_id : Z) (flags : Z) (bufs : list spa_buffer) : option (Z * impl) :=
  if negb (CHECK_PORT this d port_id) then Some (- EINVAL, this)
  else
    p ← GET_PORT this d port_id;
    if negb (have_format p) then Some (- EIO, this)
    else
      let p := clear_buffers p in
      '(res, p, pt) ← use_buffers_loop d bufs 0 p (is_passthrough this);
      let this := set_is_passthrough pt this in
      if res <? 0 then Some (res, put_port this d port_id p)
      else
        Some (0, put_port this d port_id
                   (set_n_buffers (Z.of_nat (length bufs)) p)).

End Splitter.

(** * Buffer queues, io areas and formats of the audioconvert plugins *)

Definition EPIPE : Z := 32.

(** [SPA_FLAG_UNSET(b->flags, BUFFER_FLAG_QUEUED)] *)
Definition unset_queued (flags : Z) : Z :=
  Z.land flags (Z.lnot BUFFER_FLAG_QUEUED).

(** [queue_buffer(this, port, id)] (merger.c, lines 721-732; splitter.c has
    the same function): the slot [port->buffers[id]] goes to the end of the
    queue unless it is flagged as queued; [None] is an access outside
    [buffers] *)
Definition port_queue_buffer (id : nat) (p : port) : option port :=
  b ← buffers p !! id;
  let '(b, q) := queue_buffer id b (queue p) in
  Some (set_queue q (set_buffers (<[id := b]> (buffers p)) p)).

(** merger.c, lines 734-748 (splitter.c has the same function): the buffer
    taken from the head of the queue, [None] for [NULL], and the port *)
Definition dequeue_buffer (p : port) : option (option buffer * port) :=
  match queue p with
  | [] => Some (None, p)
  | id :: q =>
      b ← buffers p !! id;
      let b := set_b_flags (unset_queued (b_flags b)) b in
      Some (Some b, set_queue q (set_buffers (<[id := b]> (buffers p)) p))
  end.

(** [struct spa_io_buffers] (spa/node/io.h) *)
Record spa_io_buffers := Build_io_buffers {
  io_status : Z;  (* int32_t *)
  io_buffer_id : Z  (* uint32_t *)
}.

(** merger.c, lines 859-880; [io] is what [port->io] points to, [None] for
    [NULL]: the result, [*buf] and the io area afterwards *)
Definition get_in_buffer (p : port) (io : option spa_io_buffers)
    : option (Z * option buffer * option spa_io_buffers) :=
  match io with
  | None => Some (- EIO, None, None)
  | Some i =>
      if negb (io_status i =? SPA_STATUS_HAVE_DATA)
         || (n_buffers p <=? io_buffer_id i)
      then Some (- EPIPE, None, io)
      else
        b ← buffers p !! Z.to_nat (io_buffer_id i);
        Some (0, Some b,
              Some {| io_status := SPA_STATUS_NEED_DATA;
                      io_buffer_id := io_buffer_id i |})
  end.

(** merger.c, lines 882-900: the result, [*buf], the port and the io area
    afterwards *)
Definition get_out_buffer (p : port) (io : option spa_io_buffers)
    : option (Z * option buffer * port * option spa_io_buffers) :=
  match io with
  | None => Some (SPA_STATUS_HAVE_DATA, None, p, None)
  | Some i =>
      if io_status i =? SPA_STATUS_HAVE_DATA
      then Some (SPA_STATUS_HAVE_DATA, None, p, io)
      else
        p ← (if io_buffer_id i <? n_buffers p
             then port_queue_buffer (Z.to_nat (io_buffer_id i)) p
             else Some p);
        '(b, p) ← dequeue_buffer p;
        match b with
        | None => Some (- EPIPE, None, p, io)
        | Some b =>
            Some (0, Some b, p,
                  Some {| io_status := SPA_STATUS_HAVE_DATA;
                          io_buffer_id := b_id b |})
        end
  end.

(** ** Formats *)

(** Modelled from the spec: [enum spa_audio_format] is declared in
    spa/param/audio/raw.h, which is not part of the sources. The constructors
    are the sample formats that [calc_width] and [port_set_format] of
    merger.c and splitter.c name; every other format is [other]. *)
Inductive spa_audio_format :=
| SPA_AUDIO_FORMAT_U8
| SPA_AUDIO_FORMAT_U8P
| SPA_AUDIO_FORMAT_S16
| SPA_AUDIO_FORMAT_S16_OE
| SPA_AUDIO_FORMAT_S16P
| SPA_AUDIO_FORMAT_S24
| SPA_AUDIO_FORMAT_S24_OE
| SPA_AUDIO_FORMAT_S24P
| SPA_AUDIO_FORMAT_F32P
| SPA_AUDIO_FORMAT_other (id : Z).

#[global] Instance spa_audio_format_eq_dec : EqDecision spa_audio_format.
Proof. solve_decision. Defined.

(** [struct spa_audio_info] with its raw part, without the channel
    positions *)
Record spa_audio_info := Build_audio_info {
  media_type : Z;
  media_subtype : Z;
  raw_format : spa_audio_format;
  raw_rate : Z;  (* uint32_t *)
  raw_channels : Z  (* uint32_t *)
}.

(** What [port_set_format] calls but the plugins do not define: the format
    parsers, the converter, and macros of headers that are not part of the
    sources. *)
Class FormatExternals := {
  (** a format object *)
  spa_pod : Type;
  SPA_PARAM_Format : Z;
  SPA_MEDIA_TYPE_audio : Z;
  SPA_MEDIA_SUBTYPE_raw : Z;
  (** [spa_format_parse]: the result, the media type and the subtype *)
  spa_format_parse : spa_pod -> Z * Z * Z;
  (** [spa_format_audio_raw_parse]: the result and the raw part *)
  spa_format_audio_raw_parse : spa_pod -> Z * (spa_audio_format * Z * Z);
  SPA_AUDIO_FORMAT_IS_PLANAR : spa_audio_format -> bool;
  (** [convert_init] for a source format, a destination format and a number
      of channels: the result and [conv.is_passthrough] *)
  convert_init : spa_audio_format -> spa_audio_format -> Z -> Z * bool
}.

(** ** merger.c *)

Module MergerIO.
Import Merger.

(** merger.c, lines 844-857 *)
Definition impl_node_port_reuse_buffer (this : impl) (port_id buffer_id : Z)
    : option (Z * impl) :=
  if negb (CHECK_PORT this SPA_DIRECTION_OUTPUT port_id)
  then Some (- EINVAL, this)
  else
    p ← out_ports this !! Z.to_nat port_id;
    p ← port_queue_buffer (Z.to_nat buffer_id) p;
    Some (0, put_port this SPA_DIRECTION_OUTPUT port_id p).

Definition PORT_IS_DSP (d : direction) (p : Z) : bool :=
  negb (p =? 0)
  || match d with SPA_DIRECTION_OUTPUT => false | _ => true end.

(** merger.c, lines 585-599 *)
Definition calc_width (info : spa_audio_info) : Z :=
  match raw_format info with
  | SPA_AUDIO_FORMAT_U8 => 1
  | SPA_AUDIO_FORMAT_S16 | SPA_AUDIO_FORMAT_S16_OE => 2
  | SPA_AUDIO_FORMAT_S24 | SPA_AUDIO_FORMAT_S24_OE => 3
  | _ => 4
  end.

Section Format.
Context `{FExt : FormatExternals}.

(** merger.c, lines 549-583: the result and [is_passthrough]; [outfmt] is the
    format of output port 0 *)
Definition setup_convert (this : impl) (outfmt : spa_audio_info)
    : Z * impl :=
  let src_fmt := SPA_AUDIO_FORMAT_F32P in
  let dst_fmt := raw_format outfmt in
  let '(res, _) := convert_init src_fmt dst_fmt (raw_channels outfmt) in
  if res <? 0 then (res, this)
  else (0, set_is_passthrough (bool_decide (src_fmt = dst_fmt)) this).

(** merger.c, lines 601-698. [fmt] is [port->format], which the port record
    does not hold: the result, the plugin and [port->format] afterwards. The
    parameter flags of the port and the port info event, which follow
    [have_format], are not part of the model. [None] is an access outside the
    port arrays. *)
Definition port_set_format (this : impl) (d : direction) (port_id : Z)
    (flags : Z) (format : option spa_pod) (fmt : spa_audio_info)
    : option (Z * impl * spa_audio_info) :=
  port ← GET_PORT this d port_id;
  match format with
  | None =>
      let port :=
        if have_format port then
          let port := if PORT_IS_DSP d port_id
                      then set_have_format false port
                      else set_have_format (have_profile this) port in
          clear_buffers port
        else port in
      Some (0, put_port this d port_id port, fmt)
  | Some f =>
      let '(res, mtype, msubtype) := spa_format_parse f in
      if res <? 0 then Some (res, this, fmt)
      else if negb (mtype =? SPA_MEDIA_TYPE_audio)
              || negb (msubtype =? SPA_MEDIA_SUBTYPE_raw)
      then Some (- EINVAL, this, fmt)
      else
        let '(res, (rfmt, rrate, rchan)) := spa_format_audio_raw_parse f in
        if res <? 0 then Some (res, this, fmt)
        else
          let info := {| media_type := mtype; media_subtype := msubtype;
                         raw_format := rfmt; raw_rate := rrate;
                         raw_channels := rchan |} in
          let ok :=
            if PORT_IS_DSP d port_id then
              (rrate =? raw_rate fmt)
              && bool_decide (rfmt = SPA_AUDIO_FORMAT_F32P)
              && (rchan =? 1)
            else rchan =? port_count this in
          if negb ok then Some (- EINVAL, this, fmt)
          else
            let stride := calc_width info in
            let '(stride, blocks) :=
              if SPA_AUDIO_FORMAT_IS_PLANAR rfmt then (stride, rchan)
              else (u32 (stride * rchan), 1) in
            let port := {| have_format := have_format port;
                           blocks := blocks; stride := stride;
                           buffers := buffers port;
                           n_buffers := n_buffers port;
                           queue := queue port |} in
            let this := put_port this d port_id port in
            let '(res, this) :=
              if negb (PORT_IS_DSP d port_id) then setup_convert this info
              else (0, this) in
            if res <? 0 then Some (res, this, info)
            else
              Some (0, put_port this d port_id (set_have_format true port),
                    info)
  end.

(** merger.c, lines 701-719 *)
Definition impl_node_port_set_param (this : impl) (d : direction)
    (port_id : Z) (id : Z) (flags : Z) (param : option spa_pod)
    (fmt : spa_audio_info) : option (Z * impl * spa_audio_info) :=
  if negb (CHECK_PORT this d port_id) then Some (- EINVAL, this, fmt)
  else if id =? SPA_PARAM_Format
  then port_set_format this d port_id flags param fmt
  else Some (- ENOENT, this, fmt).

End Format.

End MergerIO.

(** ** splitter.c *)

Module SplitterIO.
Import Splitter.

(** splitter.c, lines 799-811 *)
Definition impl_node_port_reuse_buffer (this : impl) (port_id buffer_id : Z)
    : option (Z * impl) :=
  if negb (CHECK_PORT this SPA_DIRECTION_OUTPUT port_id)
  then Some (- EINVAL, this)
  else
    p ← out_ports this !! Z.to_nat port_id;
    p ← port_queue_buffer (Z.to_nat buffer_id) p;
    Some (0, put_port this SPA_DIRECTION_OUTPUT port_id p).

(** splitter.c, lines 568-585 *)
Definition calc_width (info : spa_audio_info) : Z :=
  match raw_format info with
  | SPA_AUDIO_FORMAT_U8P | SPA_AUDIO_FORMAT_U8 => 1
  | SPA_AUDIO_FORMAT_S16P | SPA_AUDIO_FORMAT_S16
  | SPA_AUDIO_FORMAT_S16_OE => 2
  | SPA_AUDIO_FORMAT_S24P | SPA_AUDIO_FORMAT_S24
  | SPA_AUDIO_FORMAT_S24_OE => 3
  | _ => 4
  end.

Section Format.
Context `{FExt : FormatExternals}.

(** splitter.c, lines 531-566; [infmt] is the format of input port 0 *)
Definition setup_convert (this : impl) (infmt : spa_audio_info) : Z * impl :=
  let src_fmt := raw_format infmt in
  let dst_fmt := SPA_AUDIO_FORMAT_F32P in
  let '(res, conv_passthrough) :=
    convert_init src_fmt dst_fmt (raw_channels infmt) in
  if res <? 0 then (res, this)
  else (0, set_is_passthrough (is_passthrough this && conv_passthrough) this).

(** splitter.c, lines 587-663, as for the merger; [fmt0] is the format of
    input port 0, which [setup_convert] reads *)
Definition port_set_format (this : impl) (d : direction) (port_id : Z)
    (flags : Z) (format : option spa_pod) (fmt fmt0 : spa_audio_info)
    : option (Z * impl * spa_audio_info) :=
  port ← GET_PORT this d port_id;
  match format with
  | None =>
      let port :=
        if have_format port then
          let port := match d with
                      | SPA_DIRECTION_INPUT =>
                          set_have_format (have_profile this) port
                      | SPA_DIRECTION_OUTPUT => set_have_format false port
                      end in
          clear_buffers port
        else port in
      Some (0, put_port this d port_id port, fmt)
  | Some f =>
      let '(res, mtype, msubtype) := spa_format_parse f in
      if res <? 0 then Some (res, this, fmt)
      else if negb (mtype =? SPA_MEDIA_TYPE_audio)
              || negb (msubtype =? SPA_MEDIA_SUBTYPE_raw)
      then Some (- EINVAL, this, fmt)
      else
        let '(res, (rfmt, rrate, rchan)) := spa_format_audio_raw_parse f in
        if res <? 0 then Some (- EINVAL, this, fmt)
        else
          let info := {| media_type := mtype; media_subtype := msubtype;
                         raw_format := rfmt; raw_rate := rrate;
                         raw_channels := rchan |} in
          let ok :=
            match d with
            | SPA_DIRECTION_OUTPUT =>
                (rrate =? raw_rate fmt)
                && bool_decide (rfmt = SPA_AUDIO_FORMAT_F32P)
                && (rchan =? 1)
            | SPA_DIRECTION_INPUT => rchan =? port_count this
            end in
          if negb ok then Some (- EINVAL, this, fmt)
          else
            let stride := calc_width info in
            let '(stride, blocks) :=
              if SPA_AUDIO_FORMAT_IS_PLANAR rfmt then (stride, rchan)
              else (u32 (stride * rchan), 1) in
            let port := {| have_format := have_format port;
                           blocks := blocks; stride := stride;
                           buffers := buffers port;
                           n_buffers := n_buffers port;
                           queue := queue port |} in
            let this := put_port this d port_id port in
            let '(res, this) :=
              match d with
              | SPA_DIRECTION_INPUT =>
                  setup_convert this (if port_id =? 0 then info else fmt0)
              | SPA_DIRECTION_OUTPUT => (0, this)
              end in
            if res <? 0 then Some (res, this, info)
            else
              Some (0, put_port this d port_id (set_have_format true port),
                    info)
  end.

(** splitter.c, lines 666-683 *)
Definition impl_node_port_set_param (this : impl) (d : direction)
    (port_id : Z) (id : Z) (flags : Z) (param : option spa_pod)
    (fmt fmt0 : spa_audio_info) : option (Z * impl * spa_audio_info) :=
  if negb (CHECK_PORT this d port_id) then Some (- EINVAL, this, fmt)
  else if id =? SPA_PARAM_Format
  then port_set_format this d port_id flags param fmt fmt0
  else Some (- ENOENT, this, fmt).

End Format.

End SplitterIO.

(** * Predecessors racing on one target

    Nodes of different processes finish concurrently; each runs the body of
    the loop of [resume_node] (node.c, lines 797-806) on the target they have
    in common. The decrement is atomic; the writes that follow it are
    separate steps that interleave with the steps of the other
    predecessors. *)

Inductive pred_pc :=
| at_dec             (* before pw_node_activation_state_dec *)
| at_status          (* the decrement gave true; before the write of status *)
| at_signal_time     (* before the write of signal_time *)
| at_signal          (* before t->signal(t->data) *)
| done_quiet         (* the decrement gave false *)
| done_signalled.

Record pred := Build_pred {
  pred_pc_of : pred_pc;
  pred_nsec : Z        (* the time the predecessor read when it finished *)
}.

Inductive race_event :=
| decremented (i : nat) (before after : Z)
| wrote_status (i : nat) (pending_now : Z)
| wrote_signal_time (i : nat) (nsec pending_now : Z)
| called_signal (i : nat) (pending_now : Z).

Record race := Build_race {
  target_act : pw_node_activation;
  preds : list pred;
  history : list race_event
}.

Definition at_pc (c : pred_pc) (p : pred) : pred :=
  {| pred_pc_of := c; pred_nsec := pred_nsec p |}.

(** one step of predecessor [i] *)
Definition pred_step (i : nat) (s : race) : option race :=
  p ← preds s !! i;
  let a := target_act s in
  match pred_pc_of p with
  | at_dec =>
      let '(st, zero) := pw_node_activation_state_dec (state0 a) 1 in
      Some {| target_act := set_state0 st a;
              preds := <[i := at_pc (if zero then at_status else done_quiet) p]>
                         (preds s);
              history := history s
                         ++ [decremented i (pending (state0 a)) (pending st)] |}
  | at_status =>
      Some {| target_act := set_status PW_NODE_ACTIVATION_TRIGGERED a;
              preds := <[i := at_pc at_signal_time p]> (preds s);
              history := history s ++ [wrote_status i (pending (state0 a))] |}
  | at_signal_time =>
      Some {| target_act := set_signal_time (pred_nsec p) a;
              preds := <[i := at_pc at_signal p]> (preds s);
              history := history s
                         ++ [wrote_signal_time i (pred_nsec p)
                               (pending (state0 a))] |}
  | at_signal =>
      Some {| target_act := a;
              preds := <[i := at_pc done_signalled p]> (preds s);
              history := history s ++ [called_signal i (pending (state0 a))] |}
  | done_quiet | done_signalled => None
  end.

(** a schedule names the predecessor that moves at each step *)
Fixpoint run_race (sched : list nat) (s : race) : option race :=
  match sched with
  | [] => Some s
  | i :: sched' => s ← pred_step i s; run_race sched' s
  end.

(** the start of a cycle: every predecessor has yet to decrement *)
Definition start_race (a : pw_node_activation) (nsecs : list Z) : race :=
  {| target_act := a;
     preds := map (fun t => {| pred_pc_of := at_dec; pred_nsec := t |}) nsecs;
     history := [] |}.

Definition is_at_dec (p : pred) : bool :=
  match pred_pc_of p with at_dec => true | _ => false end.

(** the predecessor saw its decrement reach zero *)
Definition is_hot (p : pred) : bool :=
  match pred_pc_of p with
  | at_status | at_signal_time | at_signal | done_signalled => true
  | at_dec | done_quiet => false
  end.

Definition is_signal_event (e : race_event) : bool :=
  match e with called_signal _ _ => true | _ => false end.

Definition count_at_dec (l : list pred) : nat :=
  length (List.filter is_at_dec l).

Definition is_done_signalled (p : pred) : bool :=
  match pred_pc_of p with done_signalled => true | _ => false end.

(** What holds of a race at every moment, for the predecessors [nsecs] of a
    target whose status was [status0] when the cycle started. *)
Record race_inv (nsecs : list Z) (status0 : pw_node_activation_status)
    (s : race) : Prop := Build_race_inv {
  inv_pending :
    pending (state0 (target_act s)) = Z.of_nat (count_at_dec (preds s));
  inv_length : length (preds s) = length nsecs;
  inv_nsec : forall i p, preds s !! i = Some p -> nsecs !! i = Some (pred_nsec p);
  inv_hot : forall i p, preds s !! i = Some p -> is_hot p = true ->
            count_at_dec (preds s) = 0%nat /\ In (decremented i 1 0) (history s);
  inv_one : forall i j p q, preds s !! i = Some p -> preds s !! j = Some q ->
            is_hot p = true -> is_hot q = true -> i = j;
  inv_history : forall e, In e (history s) ->
    match e with
    | decremented i b a =>
        a = 0 -> b = 1 /\ exists p, preds s !! i = Some p /\ is_hot p = true
    | wrote_status i p =>
        p = 0 /\ exists q, preds s !! i = Some q /\ is_hot q = true
    | wrote_signal_time i t p =>
        p = 0 /\ exists q, preds s !! i = Some q /\ is_hot q = true
                           /\ pred_nsec q = t
    | called_signal i p =>
        p = 0 /\ exists q, preds s !! i = Some q /\ is_hot q = true
    end;
  inv_signals :
    length (List.filter is_signal_event (history s))
    = length (List.filter is_done_signalled (preds s));
  inv_status :
    status (target_act s) = PW_NODE_ACTIVATION_TRIGGERED ->
    status0 = PW_NODE_ACTIVATION_TRIGGERED
    \/ exists i, In (wrote_status i 0) (history s)
}.

(** the predecessor has written the status of the target *)
Definition past_status (p : pred) : bool :=
  match pred_pc_of p with
  | at_signal_time | at_signal | done_signalled => true
  | at_dec | at_status | done_quiet => false
  end.

(** the predecessor has written the signal time of the target *)
Definition past_time (p : pred) : bool :=
  match pred_pc_of p with
  | at_signal | done_signalled => true
  | at_dec | at_status | at_signal_time | done_quiet => false
  end.

(** the predecessor has left the loop body *)
Definition is_done (p : pred) : bool :=
  match pred_pc_of p with
  | done_quiet | done_signalled => true
  | at_dec | at_status | at_signal_time | at_signal => false
  end.

Definition all_done (s : race) : bool := forallb is_done (preds s).

(** the steps a predecessor has yet to take, at most *)
Definition steps_left (p : pred) : nat :=
  match pred_pc_of p with
  | at_dec => 4
  | at_status => 3
  | at_signal_time => 2
  | at_signal => 1
  | done_quiet | done_signalled => 0
  end.

Definition race_steps_left (s : race) : nat :=
  list_sum (map steps_left (preds s)).

(** What the fields of the target record hold at every moment of a race that
    started from the record [a0]: status and signal time are those of [a0]
    until a predecessor has written them, and the history tells who did. *)
Record race_fields (a0 : pw_node_activation) (s : race) : Prop :=
  Build_race_fields {
  rf_status_set : forall i p, preds s !! i = Some p -> past_status p = true ->
    status (target_act s) = PW_NODE_ACTIVATION_TRIGGERED
    /\ In (wrote_status i 0) (history s);
  rf_status_kept :
    (forall i p, preds s !! i = Some p -> past_status p = false) ->
    status (target_act s) = status a0;
  rf_time_set : forall i p, preds s !! i = Some p -> past_time p = true ->
    signal_time (target_act s) = pred_nsec p
    /\ In (wrote_signal_time i (pred_nsec p) 0) (history s);
  rf_time_kept :
    (forall i p, preds s !! i = Some p -> past_time p = false) ->
    signal_time (target_act s) = signal_time a0;
  rf_signalled : forall i p, preds s !! i = Some p ->
    is_done_signalled p = true -> In (called_signal i 0) (history s);
  rf_hist_status : forall i x, In (wrote_status i x) (history s) ->
    exists p, preds s !! i = Some p /\ past_status p = true;
  rf_hist_time : forall i t x, In (wrote_signal_time i t x) (history s) ->
    exists p, preds s !! i = Some p /\ past_time p = true /\ pred_nsec p = t;
  rf_hist_signal : forall i x, In (called_signal i x) (history s) ->
    exists p, preds s !! i = Some p /\ is_done_signalled p = true;
  rf_some_hot : preds s <> [] -> count_at_dec (preds s) = 0%nat ->
    exists i p, preds s !! i = Some p /\ is_hot p = true;
  rf_required : required (state0 (target_act s)) = required (state0 a0)
}.

(** the schedule of a predecessor that runs the loop body alone, up to the
    call of signal: the decrement and, when it gave zero, the two writes *)
Definition solo_sched (a : pw_node_activation) : list nat :=
  if snd (pw_node_activation_state_dec (state0 a) 1)
  then [0; 0; 0]%nat else [0%nat].

(** * Concrete instances *)

(** An environment to run the model in: the state values of pipewire/node.h
    in declaration order with ERROR below them, a quantum of 1024 frames,
    plugins that always have data, commands and format changes that succeed,
    and a [sscanf] that knows one latency string. *)
Definition example_externals : Externals :=
  {| pw_node_state_value := fun s =>
       match s with
       | PW_NODE_STATE_ERROR => -1
       | PW_NODE_STATE_CREATING => 0
       | PW_NODE_STATE_SUSPENDED => 1
       | PW_NODE_STATE_IDLE => 2
       | PW_NODE_STATE_RUNNING => 3
       end;
     DEFAULT_QUANTUM := 1024;
     spa_node_process := fun _ _ => SPA_STATUS_HAVE_DATA;
     spa_node_send_command := fun _ _ => 0;
     pw_port_set_param := fun _ p => (0, p);
     pw_properties_parse_bool := fun s => String.eqb s "true";
     sscanf_latency := fun s =>
       if String.eqb s "256/48000" then Some (256, 48000)
       else if String.eqb s "100000/48000" then Some (100000, 48000)
       else None;
     spa_result_is_async := fun _ => false;
     spa_node_sync := fun _ res => res |}.

Definition latency_properties (s : string) (k : pw_key) : option string :=
  match k with
  | PW_KEY_NODE_LATENCY => Some s
  | _ => None
  end.

Definition empty_world : world :=
  {| nodes := ∅; acts := ∅; links := ∅; now := 0; ticks := []; trace := [] |}.

(** a world whose clock advances by one at every read *)
Definition ticking_world : world :=
  {| nodes := ∅; acts := ∅; links := ∅; now := 0;
     ticks := repeat 1%nat 64; trace := [] |}.

(** a node as [calloc] leaves it, with the given properties *)
Definition rt_node_of_properties (props : pw_key -> option string) : pw_node :=
  {| name := None; properties := props; info_id := 0;
     info_state := PW_NODE_STATE_CREATING; info_error := None;
     active := false; driver := false; want_driver := false;
     master := false; exported := false; registered := false;
     pause_on_idle := false; last_error := 0; quantum_size := 0;
     driver_node := 0%nat;
     n_ready_output_links := 0; n_used_output_links := 0;
     n_ready_input_links := 0; n_used_input_links := 0;
     input_ports := []; output_ports := []; source_loop := false;
     rt_activation := 0%nat;
     rt_target := {| t_activation := None; t_node := None;
                     t_signal := signal_process_node; t_data := None |};
     rt_driver_target := {| t_activation := None; t_node := None;
                            t_signal := signal_process_node; t_data := None |};
     rt_target_list := []; rt_input_mix := []; rt_output_mix := [] |}.

(** a plugin port without format or buffers *)
Definition unformatted_port : port :=
  {| have_format := false; blocks := 0; stride := 0;
     buffers := repeat {| b_id := 0; b_flags := 0; b_buf := None;
                          b_datas := repeat 0 32 |} 64;
     n_buffers := 0; queue := [] |}.

Definition example_buffer : spa_buffer :=
  {| datas := [ {| d_type := SPA_DATA_MemPtr; d_dynamic := false;
                   d_data := 4096 |} ] |}.

Definition example_merger : Merger.impl :=
  {| Merger.port_count := 2; Merger.monitor_count := 0;
     Merger.in_ports := [unformatted_port; unformatted_port];
     Merger.out_ports := [unformatted_port];
     Merger.is_passthrough := true; Merger.have_profile := false |}.

Definition example_splitter : Splitter.impl :=
  {| Splitter.in_ports := [unformatted_port];
     Splitter.out_ports := [unformatted_port; unformatted_port];
     Splitter.port_count := 2;
     Splitter.is_passthrough := true; Splitter.have_profile := false |}.

Definition example_port (id : Z) : pw_port :=
  {| port_id := id; port_state := PW_PORT_STATE_PAUSED; port_links := [] |}.

(** A driver at address 0 and a follower at address 1, both created by
    [pw_node_new], given one port each way and running; the driver is
    attached to itself by [do_node_add], the follower not yet. *)
Definition example_graph0 : world :=
  let E := example_externals in
  let w := pw_node_new 0%nat 0%nat (fun _ => None) ticking_world in
  let w := pw_node_new 1%nat 1%nat (fun _ => None) w in
  let run := fun n =>
    set_info_state PW_NODE_STATE_RUNNING
      (set_input_ports [example_port 0]
         (set_output_ports [example_port 0] (set_driver_node 0%nat n))) in
  let w := upd_node 0%nat (fun n => set_info_id 30 (set_driver true (run n))) w in
  let w := upd_node 1%nat (fun n => set_info_id 31 (set_master false (run n))) w in
  default w (do_node_add 0%nat w).

Definition example_graph : world :=
  default example_graph0 (do_node_add 1%nat example_graph0).

(** a driver, created and not yet attached to itself *)
Definition lone_driver : world :=
  let E := example_externals in
  pw_node_new 0%nat 0%nat (fun _ => None) ticking_world.

(** the example graph when the driver wakes up with one predecessor still
    to finish *)
Definition unfinished_graph : world :=
  upd_act 0%nat (fun a => set_state0 (set_pending 1 (state0 a)) a)
    example_graph.

(** The client side of an exported driver: the node at address 7 shares the
    activation record at address 0, in which one predecessor of the last
    cycle has yet to finish. *)
Definition client_world : world :=
  let E := example_externals in
  let w := pw_node_new 7%nat 0%nat (fun _ => None) ticking_world in
  let w := upd_node 7%nat (set_exported true) w in
  upd_act 0%nat
    (fun a => set_status PW_NODE_ACTIVATION_FINISHED
                (set_state0 (set_pending 1 (state0 a)) a)) w.

(** an activation record at the start of a cycle with three predecessors *)
Definition three_pending : pw_node_activation :=
  let E := example_externals in
  set_state0 {| ast_status := 0; required := 3; pending := 3 |} new_activation.

(** the example graph after its follower has failed while running:
    [node_update_state] has set the state ERROR, the node is still in the
    data loop *)
Definition failed_graph : world :=
  let E := example_externals in
  default example_graph
    (node_update_state 1%nat PW_NODE_STATE_ERROR None example_graph).

(** * Notions used in the statements *)

Section StatementNotions.
Context `{Ext : Externals}.

(** the part of a node that attaching and detaching leave alone *)
Definition same_ports (nd nd' : pw_node) : Prop :=
  input_ports nd' = input_ports nd
  /\ output_ports nd' = output_ports nd
  /\ info_state nd' = info_state nd.

(** a world whose nodes all keep their ports and state *)
Definition ports_kept (w w' : world) : Prop :=
  forall n nd, nodes w !! n = Some nd ->
    exists nd', nodes w' !! n = Some nd' /\ same_ports nd nd'.

(** the calls one loop of [suspend_node] makes *)
Definition unset_format_calls (this : nat) (d : direction) (ps : list pw_port)
    : list event :=
  flat_map
    (fun p =>
       let r := fst (pw_port_set_param this p) in
       Ev_port_set_param_format_null this (port_id p) r
       :: (if r <? 0 then [Ev_warn_unset_format this d r] else []))
    ps.

(** [pause_node] returns at once for a node that pauses on idle and is not
    past IDLE *)
Definition paused_on_idle (nd : pw_node) : bool :=
  (pw_node_state_value (info_state nd)
     <=? pw_node_state_value PW_NODE_STATE_IDLE)
  && pause_on_idle nd.

(** the calls [pause_node] makes on a node: none for a node that is paused
    on idle, else it deactivates the links of the input and of the output
    ports, takes the source of the node out of the data loop if it is there,
    and sends the Pause command *)
Definition pause_calls (this : nat) (nd : pw_node) : list event :=
  if paused_on_idle nd then []
  else
    map Ev_link_deactivate
      (flat_map port_links (input_ports nd)
       ++ flat_map port_links (output_ports nd))
    ++ (if source_loop nd then [Ev_loop_remove_source this] else [])
    ++ [Ev_send_command this SPA_NODE_COMMAND_Pause
          (spa_node_send_command this SPA_NODE_COMMAND_Pause)].

End StatementNotions.

(** C10 as the specification words it: attaching a node adds exactly one to
    the required count of the driver and exactly one to the required count of
    the node (both far from the 32-bit limit). *)
Definition add_node_adds_one_to_each : Prop :=
  forall (w w1 : world) (this driver : nat) (nd drv : pw_node)
         (an ad an1 ad1 : pw_node_activation),
    nodes w !! this = Some nd ->
    nodes w !! driver = Some drv ->
    exported nd = false ->
    acts w !! rt_activation nd = Some an ->
    acts w !! rt_activation drv = Some ad ->
    0 <= required (state0 an) < UINT32_MAX - 1 ->
    0 <= required (state0 ad) < UINT32_MAX - 1 ->
    add_node this driver w = Some w1 ->
    acts w1 !! rt_activation nd = Some an1 ->
    acts w1 !! rt_activation drv = Some ad1 ->
    required (state0 ad1) = required (state0 ad) + 1
    /\ required (state0 an1) = required (state0 an) + 1.

(** no target list holds an entry of the node: the node is not attached *)
Definition detached (this : nat) (w : world) : Prop :=
  map_Forall
    (fun _ nm => (node_target this ∉ rt_target_list nm)
                 /\ (node_driver_target this ∉ rt_target_list nm))
    (nodes w).

(** the counters of the activation records are 32-bit unsigned *)
Definition counters_in_range (w : world) : Prop :=
  map_Forall
    (fun _ a => 0 <= required (state0 a) < 2 ^ 32
                /\ 0 <= pending (state0 a) < 2 ^ 32)
    (acts w).

(** ** What a cycle leaves alone *)

Definition xrun_fields (a : pw_node_activation) : Z * Z * Z * Z :=
  (xrun_count a, xrun_time a, xrun_delay a, max_delay a).

(** an update of an activation record that touches neither the xrun
    accounting nor the required count *)
Definition keeps_fields (f : pw_node_activation -> pw_node_activation) : Prop :=
  forall a, xrun_fields (f a) = xrun_fields a
            /\ required (state0 (f a)) = required (state0 a).

(** [w'] is reached from [w] by steps of the cycle protocol: nodes and links
    are as before, time has not gone back, the trace has grown, and every
    activation record is still there with its xrun accounting and its
    required count. *)
Record cycle_frame (w w' : world) : Prop := Build_cycle_frame {
  frame_nodes : nodes w' = nodes w;
  frame_links : links w' = links w;
  frame_now : now w <= now w';
  frame_trace : exists evs, trace w' = trace w ++ evs;
  frame_acts : forall k a, acts w !! k = Some a ->
               exists a', acts w' !! k = Some a'
                          /\ xrun_fields a' = xrun_fields a
                          /\ required (state0 a') = required (state0 a)
}.

(** C3 as the specification words it: a driver that finds its previous cycle
    unfinished when it becomes ready again counts an xrun. *)
Definition unfinished_cycle_counts_xrun : Prop :=
  forall (Ext : Externals) (fuel node : nat) (status : Z) (w w' : world)
         (nd : pw_node) (a a' : pw_node_activation) (res : Z),
    nodes w !! node = Some nd ->
    driver_node nd = node ->
    acts w !! rt_activation nd = Some a ->
    pending (state0 a) <> 0 ->
    node_ready fuel node status w = Some (res, w') ->
    acts w' !! rt_activation nd = Some a' ->
    xrun_count a' = u32 (xrun_count a + 1).

(** C1 as the specification words it, at the ready callback of an exported
    node: whenever the status of an activation record becomes TRIGGERED, its
    pending count is zero. *)
Definition triggered_only_at_zero : Prop :=
  forall (node : nat) (fd st : Z) (w w' : world) (nd : pw_node)
         (a a' : pw_node_activation) (res : Z),
    nodes w !! node = Some nd ->
    acts w !! rt_activation nd = Some a ->
    status a <> PW_NODE_ACTIVATION_TRIGGERED ->
    RemoteNode.node_ready node fd st w = Some (res, w') ->
    acts w' !! rt_activation nd = Some a' ->
    status a' = PW_NODE_ACTIVATION_TRIGGERED ->
    pending (state0 a') = 0.

(** ** A driver and its followers *)

(** the target a node owns: it counts down and runs the node itself *)
Definition own_target (n : nat) : pw_node_target :=
  {| t_activation := Some n; t_node := Some n;
     t_signal := signal_process_node; t_data := Some n |}.

(** The graph that [add_node] builds for a driver [d] and followers [fs],
    every node with its activation record at its own address: the driver is
    in its own target list twice and is the one target of every follower;
    the required counts are the numbers of these entries. *)
Record star_graph (w : world) (d : nat) (fs : list nat) : Prop :=
  Build_star_graph {
  star_nodup : NoDup (d :: fs);
  star_size : Z.of_nat (length fs) + 2 < 2 ^ 32;
  star_driver_node :
    exists nd, nodes w !! d = Some nd
      /\ driver_node nd = d /\ exported nd = false /\ rt_activation nd = d
      /\ rt_target nd = own_target d /\ rt_driver_target nd = own_target d
      /\ driver nd && negb (master nd) = false
      /\ rt_target_list nd
         ≡ₚ node_driver_target d :: node_target d :: map node_target fs;
  star_follower_node :
    forall f, f ∈ fs ->
      exists nf, nodes w !! f = Some nf
        /\ driver_node nf = d /\ rt_activation nf = f
        /\ rt_target nf = own_target f /\ rt_driver_target nf = own_target d
        /\ rt_target_list nf = [node_driver_target f];
  star_driver_act :
    exists a, acts w !! d = Some a
              /\ required (state0 a) = Z.of_nat (length fs) + 2;
  star_follower_act :
    forall f, f ∈ fs ->
      exists a, acts w !! f = Some a /\ required (state0 a) = 1
}.

(** the counter of the record at [k] has been reset for a new cycle *)
Definition is_reset (w : world) (k : nat) : Prop :=
  exists a, acts w !! k = Some a
            /\ pending (state0 a) = required (state0 a).

(** C2 as the specification words it: after a cycle, the finish time in the
    record of the source of an edge is not later than the awake time in the
    record of its end. An edge from [A] to [B] is an entry of the target list
    of [A] that counts down the activation record of [B]. *)
Definition finish_before_awake_on_every_edge : Prop :=
  forall (Ext : Externals) (fuel drv A B : nat) (status res : Z)
         (w w' : world) (nA nB : pw_node) (r : target_ref) (t : pw_node_target)
         (aA aB : pw_node_activation),
    nodes w !! A = Some nA ->
    nodes w !! B = Some nB ->
    info_state nA = PW_NODE_STATE_RUNNING ->
    info_state nB = PW_NODE_STATE_RUNNING ->
    r ∈ rt_target_list nA ->
    get_target w r = Some t ->
    t_activation t = Some (rt_activation nB) ->
    node_ready fuel drv status w = Some (res, w') ->
    acts w' !! rt_activation nA = Some aA ->
    acts w' !! rt_activation nB = Some aB ->
    finish_time aA <= awake_time aB.

(** What holds while the driver walks its target list in [resume_node]:
    [rem] is what is left of the list, [T0] the time at which the driver
    finished. *)
Record loop_inv (w0 : world) (d : nat) (fs : list nat) (T0 : Z)
    (rem : list target_ref) (w : world) : Prop := Build_loop_inv {
  li_nodes : nodes w = nodes w0;
  li_time : T0 <= now w;
  li_len : Z.of_nat (length rem) < 2 ^ 32;
  li_rem : forall r, r ∈ rem ->
           r = node_driver_target d \/ r = node_target d
           \/ exists f, f ∈ fs /\ r = node_target f;
  li_nodup : NoDup rem;
  li_driver : exists ad, acts w !! d = Some ad
                /\ pending (state0 ad) = Z.of_nat (length rem)
                /\ finish_time ad = T0;
  li_follower : forall f, f ∈ fs ->
    exists af, acts w !! f = Some af
      /\ (node_target f ∈ rem -> pending (state0 af) = 1)
      /\ (node_target f ∉ rem ->
          T0 <= awake_time af /\ awake_time af <= finish_time af
          /\ finish_time af <= now w)
}.

(** the records at the end of the cycle *)
Definition cycle_done (d : nat) (fs : list nat) (T0 : Z) (w : world) : Prop :=
  exists ad, acts w !! d = Some ad
    /\ signal_time ad = T0
    /\ awake_time ad <= finish_time ad
    /\ forall f, f ∈ fs ->
       exists af, acts w !! f = Some af
         /\ T0 <= awake_time af /\ awake_time af <= finish_time af
         /\ finish_time af <= awake_time ad.

(** ** The handshake timeout *)

(** the line that [dump_states] logs for a target with node [n] and
    activation record [a] *)
Definition dump_of (n : nat) (a : pw_node_activation) : event :=
  Ev_dump {| dump_node := n;
             dump_pending := pending (state0 a);
             dump_required := required (state0 a);
             dump_signal := signal_time a;
             dump_awake := awake_time a;
             dump_finish := finish_time a;
             dump_waiting := u64 (awake_time a - signal_time a);
             dump_process := u64 (finish_time a - awake_time a);
             dump_status := status a;
             dump_sync := pending_sync a |}.

(** C5 as the specification words it, for the log: a handshake that times
    out is logged as an xrun, that is, the xrun accounting of the driver
    counts it. *)
Definition sync_timeout_counts_xrun : Prop :=
  forall (node : nat) (w w' : world) (nd : pw_node)
         (a a' : pw_node_activation),
    nodes w !! node = Some nd ->
    acts w !! rt_activation nd = Some a ->
    pos_state (position a) = SPA_IO_POSITION_STATE_STARTING ->
    u64 (sync_left a - 1) = 0 ->
    update_position node false w = Some w' ->
    acts w' !! rt_activation nd = Some a' ->
    xrun_count a' = u32 (xrun_count a + 1).

(** ** Suspending *)

(** C7 as the specification words it, for the pause: whatever the node,
    suspending it first pauses it, that is, the Pause command is sent to the
    node in the course of the call. *)
Definition suspend_pauses_first : Prop :=
  forall (Ext : Externals) (this : nat) (w w' : world) (nd : pw_node)
         (res : Z),
    nodes w !! this = Some nd ->
    suspend_node this w = Some (res, w') ->
    exists pre post r,
      trace w' = trace w ++ pre
                 ++ Ev_send_command this SPA_NODE_COMMAND_Pause r :: post.

(** ** Further instances *)

(** the driver of the example graph *)
Definition example_driver : pw_node :=
  default (rt_node_of_properties (fun _ => None))
    (nodes example_graph !! 0%nat).

(** the example graph with a START command waiting in the activation record
    of the driver *)
Definition starting_graph : world :=
  upd_act 0%nat (set_command PW_NODE_ACTIVATION_COMMAND_START) example_graph.

(** the environment of the examples with a plugin at node 1 that continues
    asynchronously *)
Definition async_externals : Externals :=
  {| pw_node_state_value := pw_node_state_value (Externals := example_externals);
     DEFAULT_QUANTUM := 1024;
     spa_node_process := fun n _ =>
       if Nat.eqb n 1 then SPA_STATUS_OK else SPA_STATUS_HAVE_DATA;
     spa_node_send_command := fun _ _ => 0;
     pw_port_set_param := fun _ p => (0, p);
     pw_properties_parse_bool := fun s => String.eqb s "true";
     sscanf_latency := fun _ => None;
     spa_result_is_async := fun _ => false;
     spa_node_sync := fun _ res => res |}.

(** the activation record at address [k] of a world *)
Definition act_at (w : world) (k : nat) : pw_node_activation :=
  let E := example_externals in
  default new_activation (acts w !! k).

(** the example graph with the transport rolling *)
Definition running_graph : world :=
  upd_act 0%nat
    (fun a => set_position
                (set_pos_state SPA_IO_POSITION_STATE_RUNNING (position a)) a)
    example_graph.

(** the follower of the example graph *)
Definition example_follower : pw_node :=
  default (rt_node_of_properties (fun _ => None))
    (nodes example_graph !! 1%nat).

(** the example graph with its follower active *)
Definition active_graph : world :=
  upd_node 1%nat (set_active true) example_graph.

(** the follower of [active_graph] *)
Definition active_follower : pw_node :=
  default (rt_node_of_properties (fun _ => None))
    (nodes active_graph !! 1%nat).

(** the example graph with a third node, at address 2, that is not attached
    to anything *)
Definition three_graph : world :=
  let E := example_externals in
  pw_node_new 2%nat 2%nat (fun _ => None) example_graph.

Definition node_at (w : world) (n : nat) : pw_node :=
  default (rt_node_of_properties (fun _ => None)) (nodes w !! n).

(** a plugin port with a format of one block and no buffers yet *)
Definition formatted_port : port :=
  {| have_format := true; blocks := 1; stride := 4;
     buffers := buffers unformatted_port; n_buffers := 0; queue := [] |}.

(** a merger after the port configuration and the format of its output
    port *)
Definition formatted_merger : Merger.impl :=
  {| Merger.port_count := 2; Merger.monitor_count := 0;
     Merger.in_ports := [formatted_port; formatted_port];
     Merger.out_ports := [formatted_port];
     Merger.is_passthrough := true; Merger.have_profile := true |}.

(** a buffer whose data block has no memory *)
Definition null_buffer : spa_buffer :=
  {| datas := [ {| d_type := SPA_DATA_MemPtr; d_dynamic := false;
                   d_data := 0 |} ] |}.

(** an output port with two installed buffers, buffer 1 queued and buffer 0
    handed out *)
Definition queued_port : port :=
  {| have_format := true; blocks := 1; stride := 4;
     buffers :=
       {| b_id := 0; b_flags := 0; b_buf := Some example_buffer;
          b_datas := repeat 0 32 |}
       :: {| b_id := 1; b_flags := BUFFER_FLAG_QUEUED;
             b_buf := Some example_buffer; b_datas := repeat 0 32 |}
       :: repeat {| b_id := 0; b_flags := 0; b_buf := None;
                    b_datas := repeat 0 32 |} 62;
     n_buffers := 2; queue := [1%nat] |}.

Definition queued_merger : Merger.impl :=
  {| Merger.port_count := 2; Merger.monitor_count := 0;
     Merger.in_ports := [formatted_port; formatted_port];
     Merger.out_ports := [queued_port];
     Merger.is_passthrough := true; Merger.have_profile := true |}.

(** format objects that are the parsed format itself, and a converter that
    takes every pair of formats *)
Definition example_format_externals : FormatExternals :=
  {| spa_pod := spa_audio_info;
     SPA_PARAM_Format := 4;
     SPA_MEDIA_TYPE_audio := 1;
     SPA_MEDIA_SUBTYPE_raw := 1;
     spa_format_parse := fun f => (0, media_type f, media_subtype f);
     spa_format_audio_raw_parse :=
       fun f => (0, (raw_format f, raw_rate f, raw_channels f));
     SPA_AUDIO_FORMAT_IS_PLANAR :=
       fun f => match f with
                | SPA_AUDIO_FORMAT_U8P | SPA_AUDIO_FORMAT_S16P
                | SPA_AUDIO_FORMAT_S24P | SPA_AUDIO_FORMAT_F32P => true
                | _ => false
                end;
     convert_init := fun src dst _ => (0, bool_decide (src = dst)) |}.

(** mono 32 bit float samples at 48 kHz *)
Definition dsp_format : spa_audio_info :=
  {| media_type := 1; media_subtype := 1;
     raw_format := SPA_AUDIO_FORMAT_F32P; raw_rate := 48000;
     raw_channels := 1 |}.

(** two channels of interleaved 16 bit samples at 48 kHz *)
Definition stereo_format : spa_audio_info :=
  {| media_type := 1; media_subtype := 1;
     raw_format := SPA_AUDIO_FORMAT_S16; raw_rate := 48000;
     raw_channels := 2 |}.

(** a memory pool that maps block [n] to the activation record at address
    [n], and a links array whose elements lie at their index *)
Definition example_remote_externals : RemoteLinks.RemoteExternals :=
  {| RemoteLinks.pw_mempool_map_id :=
       fun memid _ _ => inr (Some (Z.to_nat memid));
     RemoteLinks.pw_array_add :=
       fun data _ => inr (length (RemoteLinks.data_links data)) |}.

(** the data of the exported node of [client_world], without links *)
Definition example_node_data : RemoteLinks.node_data :=
  {| RemoteLinks.remote_id := 7; RemoteLinks.data_node := 7%nat;
     RemoteLinks.data_links := []; RemoteLinks.calls := [] |}.

(** ** The scheduling fields of an activation record *)

(** the fields of an activation record that the cycle protocol counts and
    signals with *)
Definition sched_fields (a : pw_node_activation)
    : pw_node_activation_status * bool * bool * pw_node_activation_state :=
  (status a, pending_sync a, pending_new_pos a, state0 a).

(** [a'] is [a] armed for a new cycle by the driver: not triggered, the
    counter back at the required count, and the two handshake flags set to
    [target_sync] when the cycle updates them *)
Definition armed (update_sync target_sync : bool)
    (a a' : pw_node_activation) : Prop :=
  status a' = PW_NODE_ACTIVATION_NOT_TRIGGERED
  /\ state0 a' = pw_node_activation_state_reset (state0 a)
  /\ pending_sync a' = (if update_sync then target_sync else pending_sync a)
  /\ pending_new_pos a'
     = (if update_sync then target_sync else pending_new_pos a).

(** the activation record at [j] is counted down by an entry of [l] *)
Definition targeted (w : world) (l : list target_ref) (j : nat) : Prop :=
  exists r t, r ∈ l /\ get_target w r = Some t /\ t_activation t = Some j.

(** every activation record of [w] is still there in [w'], with the same
    scheduling fields *)
Definition sched_kept (w w' : world) : Prop :=
  forall j a, acts w !! j = Some a ->
    exists a', acts w' !! j = Some a' /\ sched_fields a' = sched_fields a.

(** ** Buffer queues *)

(** [SPA_FLAG_CHECK(b->flags, BUFFER_FLAG_QUEUED)] *)
Definition is_queued (b : buffer) : bool :=
  negb (Z.land (b_flags b) BUFFER_FLAG_QUEUED =? 0).

(** The queue of a port agrees with its buffers: no buffer is queued twice,
    only installed buffers are queued, an installed buffer is flagged as
    queued exactly when it is in the queue, and the installed buffers are in
    the array and carry their index as id. *)
Record queue_ok (p : port) : Prop := Build_queue_ok {
  qo_nodup : NoDup (queue p);
  qo_bound : forall i, i ∈ queue p -> Z.of_nat i < n_buffers p;
  qo_flags : forall i b, Z.of_nat i < n_buffers p -> buffers p !! i = Some b ->
             (is_queued b = true <-> i ∈ queue p);
  qo_ids : forall i, Z.of_nat i < n_buffers p ->
           exists b, buffers p !! i = Some b /\ b_id b = Z.of_nat i
}.

(** a buffer that [impl_node_port_use_buffers] of the merger accepts on a
    port with [blocks] data blocks *)
Definition buffer_ok (blocks : Z) (x : spa_buffer) : Prop :=
  Z.of_nat (length (datas x)) = blocks
  /\ Z.of_nat (length (datas x)) <= MAX_DATAS
  /\ Forall (fun d => valid_data d = true) (datas x).

(** ** Xrun reports *)

(** the reports [(trigger, delay)] of [l] handed one after the other to the
    xrun callback [xrun] *)
Fixpoint xruns (xrun : Z -> Z -> world -> option (Z * world))
    (l : list (Z * Z)) (w : world) : option world :=
  match l with
  | [] => Some w
  | (trigger, delay) :: l' =>
      '(_, w) ← xrun trigger delay w;
      xruns xrun l' w
  end.

(** ** Changing the state of a node *)

(** what the end of [pw_node_set_state] adds to the trace after a command
    that returned [res0]: nothing when it failed, else the sync of an
    asynchronous result and the completion queued with the result [res] *)
Definition completion_events `{Ext : Externals} (node : nat)
    (state : pw_node_state) (res0 res : Z) : list event :=
  if res0 <? 0 then []
  else (if spa_result_is_async res0 then [Ev_node_sync node res0] else [])
       ++ [Ev_work_queue_add node res state].
(** * Properties *)

(** ** Bit smearing and [flp2] *)

Section Flp2.

Lemma anybit_app x n m : forall i,
  anybit x i (n + m) = anybit x i n || anybit x (i + Z.of_nat n) m.
Proof.
  induction n as [|n IH]; intros i.
  - simpl. f_equal. lia.
  - cbn [Nat.add anybit]. rewrite IH, orb_assoc.
    do 2 f_equal. lia.
Qed.

Lemma smear_step x y (n : nat) :
  (forall i, 0 <= i -> Z.testbit y i = anybit x i n) ->
  forall i, 0 <= i ->
    Z.testbit (Z.lor y (Z.shiftr y (Z.of_nat n))) i = anybit x i (n + n).
Proof.
  intros Hy i Hi.
  rewrite Z.lor_spec, Z.shiftr_spec by lia.
  rewrite anybit_app, !Hy by lia. reflexivity.
Qed.

Lemma anybit_above x n : forall i,
  0 <= x -> Z.log2 x < i -> anybit x i n = false.
Proof.
  induction n as [|n IH]; intros i Hx Hi; [reflexivity|].
  cbn [anybit]. rewrite IH by lia.
  rewrite Z.bits_above_log2 by lia. reflexivity.
Qed.

Lemma anybit_hit x n : forall i,
  0 < x -> 0 <= i <= Z.log2 x -> Z.log2 x < i + Z.of_nat n ->
  anybit x i n = true.
Proof.
  induction n as [|n IH]; intros i Hx Hi Hn; [lia|].
  cbn [anybit]. destruct (Z.eq_dec i (Z.log2 x)) as [->|Hne].
  - rewrite Z.bit_log2 by lia. reflexivity.
  - rewrite IH by lia. apply orb_true_r.
Qed.

Lemma smear32_ones x :
  0 < x < 2 ^ 32 ->
  let x1 := Z.lor x (Z.shiftr x 1) in
  let x2 := Z.lor x1 (Z.shiftr x1 2) in
  let x4 := Z.lor x2 (Z.shiftr x2 4) in
  let x8 := Z.lor x4 (Z.shiftr x4 8) in
  let x16 := Z.lor x8 (Z.shiftr x8 16) in
  x16 = Z.ones (Z.log2 x + 1).
Proof.
  intros Hx x1 x2 x4 x8 x16.
  assert (H0 : forall i, 0 <= i -> Z.testbit x i = anybit x i 1).
  { intros i _. simpl. now rewrite orb_false_r. }
  pose proof (smear_step x x 1 H0) as H1. change (Z.of_nat 1) with 1 in H1.
  pose proof (smear_step x x1 2 H1) as H2. change (Z.of_nat 2) with 2 in H2.
  pose proof (smear_step x x2 4 H2) as H4. change (Z.of_nat 4) with 4 in H4.
  pose proof (smear_step x x4 8 H4) as H8. change (Z.of_nat 8) with 8 in H8.
  pose proof (smear_step x x8 16 H8) as H16. change (Z.of_nat 16) with 16 in H16.
  fold x1 in H1. fold x2 in H2. fold x4 in H4. fold x8 in H8. fold x16 in H16.
  assert (Hlog : 0 <= Z.log2 x < 32).
  { split; [apply Z.log2_nonneg|]. apply Z.log2_lt_pow2; lia. }
  apply Z.bits_inj'. intros i Hi.
  rewrite H16 by lia.
  destruct (Z_lt_le_dec i (Z.log2 x + 1)) as [Hlt|Hge].
  - rewrite Z.ones_spec_low by lia.
    apply anybit_hit; [lia|lia|]. simpl. lia.
  - rewrite Z.ones_spec_high by lia.
    apply anybit_above; lia.
Qed.

Lemma flp2_zero : flp2 0 = 0.
Proof. reflexivity. Qed.

Lemma flp2_log2 x : 0 < x < 2 ^ 32 -> flp2 x = 2 ^ Z.log2 x.
Proof.
  intros Hx. unfold flp2. cbv zeta.
  rewrite (smear32_ones x Hx).
  assert (Hlog : 0 <= Z.log2 x < 32).
  { split; [apply Z.log2_nonneg|]. apply Z.log2_lt_pow2; lia. }
  rewrite Z.shiftr_div_pow2 by lia.
  rewrite Z.ones_equiv, Z.pow_add_r by lia.
  change (2 ^ 1) with 2.
  replace (Z.pred (2 ^ Z.log2 x * 2) / 2) with (2 ^ Z.log2 x - 1).
  2:{ apply Z.div_unique with (r := 1); lia. }
  unfold u32. rewrite Z.mod_small; [lia|].
  assert (2 ^ Z.log2 x <= 2 ^ 31) by (apply Z.pow_le_mono_r; lia).
  assert (0 < 2 ^ Z.log2 x) by (apply Z.pow_pos_nonneg; lia).
  lia.
Qed.

Lemma flp2_pow2_floor x : 0 <= x < 2 ^ 32 -> flp2 x = pow2_floor x.
Proof.
  intros Hx. unfold pow2_floor.
  destruct (Z.eqb_spec x 0) as [->|Hne]; [reflexivity|].
  apply flp2_log2. lia.
Qed.

End Flp2.

(** ** Quantum size from the latency property *)

Lemma pow2_floor_spec x :
  0 < x ->
  0 <= Z.log2 x /\ pow2_floor x = 2 ^ Z.log2 x /\ pow2_floor x <= x
  /\ forall j, 0 <= j -> 2 ^ j <= x -> 2 ^ j <= pow2_floor x.
Proof.
  intros Hx. unfold pow2_floor.
  destruct (Z.eqb_spec x 0) as [->|_]; [lia|].
  pose proof (Z.log2_spec x Hx) as [Hlo Hhi].
  repeat split; [apply Z.log2_nonneg|assumption|].
  intros j Hj Hle. apply Z.pow_le_mono_r; [lia|].
  apply Z.log2_le_pow2; assumption.
Qed.

Section CheckProperties.
Context `{Ext : Externals}.

Lemma check_properties_quantum_size this node :
  quantum_size (fst (check_properties this node)) =
  match properties node PW_KEY_NODE_LATENCY with
  | Some str =>
      match sscanf_latency str with
      | Some (num, denom) =>
          if u32 denom =? 0 then quantum_size node
          else flp2 (u32 (u32 num * 48000) / u32 denom)
      | None => quantum_size node
      end
  | None => quantum_size node
  end.
Proof.
  unfold check_properties.
  destruct (properties node PW_KEY_NODE_NAME);
    destruct (properties node PW_KEY_NODE_PAUSE_ON_IDLE);
    destruct (properties node PW_KEY_NODE_DRIVER);
    destruct (properties node PW_KEY_NODE_ALWAYS_PROCESS);
    cbn [driver set_name set_pause_on_idle set_want_driver];
    match goal with |- context [eqb ?a ?b] => destruct (eqb a b) end;
    destruct (properties node PW_KEY_NODE_LATENCY) as [str|]; try reflexivity;
    (destruct (sscanf_latency str) as [[num denom]|]; [|reflexivity]);
    (destruct (u32 denom =? 0); [reflexivity|]);
    cbn;
    match goal with
    | |- context [?q =? quantum_size node] =>
        destruct (Z.eqb_spec q (quantum_size node)) as [Heq|Hne]
    end; cbn; congruence.
Qed.

End CheckProperties.

(** C9. A latency property that parses as num/denom with a non-zero denom
    sets quantum_size to flp2(num * 48000 / denom), computed on 32-bit
    unsigned integers; flp2 of a positive 32-bit x is the largest power of
    two that does not exceed x, and flp2 0 = 0; an absent or unparsable
    property, or a zero denom, leaves quantum_size as it was. *)
Theorem check_properties_latency_quantum `{Ext : Externals}
    (this : nat) (node : pw_node) :
  let node' := fst (check_properties this node) in
  (forall str num denom,
      properties node PW_KEY_NODE_LATENCY = Some str ->
      sscanf_latency str = Some (num, denom) ->
      u32 denom <> 0 ->
      quantum_size node' = flp2 (u32 (u32 num * 48000) / u32 denom)
      /\ (u32 num * 48000 < 2 ^ 32 ->
          quantum_size node' = flp2 (u32 num * 48000 / u32 denom)))
  /\ (properties node PW_KEY_NODE_LATENCY = None ->
      quantum_size node' = quantum_size node)
  /\ (forall str,
      properties node PW_KEY_NODE_LATENCY = Some str ->
      sscanf_latency str = None \/
      (exists num denom, sscanf_latency str = Some (num, denom)
                         /\ u32 denom = 0) ->
      quantum_size node' = quantum_size node)
  /\ flp2 0 = 0
  /\ (forall x, 0 < x < 2 ^ 32 ->
      exists k, 0 <= k /\ flp2 x = 2 ^ k /\ flp2 x <= x
                /\ forall j, 0 <= j -> 2 ^ j <= x -> 2 ^ j <= flp2 x).
Proof.
  intros node'. subst node'.
  rewrite check_properties_quantum_size.
  repeat split.
  - rewrite H, H0. destruct (Z.eqb_spec (u32 denom) 0); [contradiction|reflexivity].
  - intros Hsmall. rewrite H, H0.
    destruct (Z.eqb_spec (u32 denom) 0); [contradiction|].
    unfold u32 at 1. rewrite Z.mod_small; [reflexivity|].
    split; [|assumption].
    pose proof (Z.mod_pos_bound num (2 ^ 32) ltac:(lia)). unfold u32. lia.
  - intros ->. reflexivity.
  - intros str Hstr [Hnone|(num & denom & Hsome & Hz)]; rewrite Hstr.
    + rewrite Hnone. reflexivity.
    + rewrite Hsome, Hz. reflexivity.
  - intros x Hx. rewrite flp2_pow2_floor by lia.
    destruct (pow2_floor_spec x ltac:(lia)) as (Hk & Heq & Hle & Hmax).
    exists (Z.log2 x). auto.
Qed.

Lemma check_properties_latency_quantum_witness :
  quantum_size
    (fst (check_properties (Ext := example_externals) 0%nat
            (set_quantum_size 1024
               (rt_node_of_properties (latency_properties "256/48000")))))
  = 256.
Proof.
  pose proof (check_properties_latency_quantum (Ext := example_externals) 0%nat
                (set_quantum_size 1024
                   (rt_node_of_properties (latency_properties "256/48000"))))
    as H.
  cbv zeta in H. destruct H as [H _].
  destruct (H "256/48000"%string 256 48000) as [_ Hq];
    [reflexivity | reflexivity | vm_compute; discriminate |].
  rewrite Hq; [reflexivity | vm_compute; reflexivity].
Defined.

(** ** Buffers need a format *)

(** C8. On a port of the merger or of the splitter that has no negotiated
    format, use_buffers fails with -EIO for every buffer array, and the
    plugin, with all its ports, buffers and queues, is left as it was. *)
Theorem use_buffers_without_format :
  (forall (this : Merger.impl) d port_id flags bufs p,
      Merger.CHECK_PORT this d port_id = true ->
      Merger.GET_PORT this d port_id = Some p ->
      have_format p = false ->
      Merger.impl_node_port_use_buffers this d port_id flags bufs
      = Some (- EIO, this))
  /\ (forall (this : Splitter.impl) d port_id flags bufs p,
      Splitter.CHECK_PORT this d port_id = true ->
      Splitter.GET_PORT this d port_id = Some p ->
      have_format p = false ->
      Splitter.impl_node_port_use_buffers this d port_id flags bufs
      = Some (- EIO, this)).
Proof.
  split; intros this d port_id flags bufs p Hcheck Hget Hfmt.
  - unfold Merger.impl_node_port_use_buffers.
    rewrite Hcheck. cbn [negb]. rewrite Hget. cbn. rewrite Hfmt. reflexivity.
  - unfold Splitter.impl_node_port_use_buffers.
    rewrite Hcheck. cbn [negb]. rewrite Hget. cbn. rewrite Hfmt. reflexivity.
Qed.

Lemma use_buffers_without_format_witness :
  Merger.impl_node_port_use_buffers example_merger SPA_DIRECTION_INPUT 1 0
    [example_buffer] = Some (- EIO, example_merger)
  /\ Splitter.impl_node_port_use_buffers example_splitter SPA_DIRECTION_OUTPUT
       1 0 [example_buffer] = Some (- EIO, example_splitter).
Proof.
  destruct use_buffers_without_format as [Hm Hs]. split.
  - apply (Hm example_merger SPA_DIRECTION_INPUT 1 0 [example_buffer]
             unformatted_port); reflexivity.
  - apply (Hs example_splitter SPA_DIRECTION_OUTPUT 1 0 [example_buffer]
             unformatted_port); reflexivity.
Defined.

(** ** Starting a node *)

(** C6. start_node sends Start to the processor of the node only when the
    ready and used link counters agree on the output side and on the input
    side; when a pair differs it returns 0 and sends nothing; a node whose
    state is RUNNING or higher is left as it is. *)
Theorem start_node_gate `{Ext : Externals} (this : nat) (w : world)
    (nd : pw_node) :
  nodes w !! this = Some nd ->
  exists res w',
    start_node this w = Some (res, w')
    /\ nodes w' = nodes w /\ acts w' = acts w
    /\ (pw_node_state_value PW_NODE_STATE_RUNNING
          <= pw_node_state_value (info_state nd) ->
        res = 0 /\ w' = w)
    /\ (n_ready_output_links nd <> n_used_output_links nd
        \/ n_ready_input_links nd <> n_used_input_links nd ->
        res = 0 /\ w' = w)
    /\ (pw_node_state_value (info_state nd)
          < pw_node_state_value PW_NODE_STATE_RUNNING ->
        n_ready_output_links nd = n_used_output_links nd ->
        n_ready_input_links nd = n_used_input_links nd ->
        res = spa_node_send_command this SPA_NODE_COMMAND_Start
        /\ trace w' = trace w
                      ++ Ev_send_command this SPA_NODE_COMMAND_Start res
                         :: (if res <? 0 then [Ev_error_start this res] else []))
    /\ (forall e, In e (trace w') -> ~ In e (trace w) ->
        n_ready_output_links nd = n_used_output_links nd
        /\ n_ready_input_links nd = n_used_input_links nd
        /\ pw_node_state_value (info_state nd)
           < pw_node_state_value PW_NODE_STATE_RUNNING).
Proof.
  intros Hnd. unfold start_node. rewrite Hnd. cbn.
  destruct (Z.leb_spec (pw_node_state_value PW_NODE_STATE_RUNNING)
              (pw_node_state_value (info_state nd))) as [Hrun|Hrun].
  { exists 0, w. repeat split; try lia; tauto. }
  destruct (Z.eqb_spec (n_ready_output_links nd) (n_used_output_links nd))
    as [Hout|Hout]; cbn.
  2:{ exists 0, w. repeat split; try lia; try tauto. }
  destruct (Z.eqb_spec (n_ready_input_links nd) (n_used_input_links nd))
    as [Hin|Hin]; cbn.
  2:{ exists 0, w. repeat split; try lia; try tauto. }
  eexists _, _. split; [reflexivity|].
  destruct (spa_node_send_command this SPA_NODE_COMMAND_Start <? 0) eqn:Hneg;
    cbn; repeat split; try lia; try tauto;
    rewrite <- ?app_assoc; reflexivity.
Qed.

Lemma start_node_gate_witness :
  exists res w',
    start_node (Ext := example_externals) 1%nat
      (set_nodes {[ 1%nat := set_info_state PW_NODE_STATE_IDLE
                               (rt_node_of_properties (fun _ => None)) ]}
         empty_world) = Some (res, w')
    /\ trace w' = [Ev_send_command 1%nat SPA_NODE_COMMAND_Start 0].
Proof.
  destruct (start_node_gate (Ext := example_externals) 1%nat
              (set_nodes {[ 1%nat := set_info_state PW_NODE_STATE_IDLE
                                       (rt_node_of_properties (fun _ => None)) ]}
                 empty_world)
              (set_info_state PW_NODE_STATE_IDLE
                 (rt_node_of_properties (fun _ => None))))
    as (res & w' & Hrun & _ & _ & _ & _ & Hsend & _); [reflexivity|].
  exists res, w'. split; [exact Hrun|].
  destruct Hsend as [Hres Htr]; [vm_compute; reflexivity | reflexivity
                                 | reflexivity |].
  rewrite Htr, Hres. reflexivity.
Defined.

(** ** Suspending a node *)

Section Suspend.
Context `{Ext : Externals}.

Lemma same_ports_refl nd : same_ports nd nd.
Proof. repeat split. Qed.

Lemma same_ports_trans a b c : same_ports a b -> same_ports b c -> same_ports a c.
Proof. unfold same_ports. intros (?&?&?) (?&?&?). repeat split; congruence. Qed.

Lemma ports_kept_refl w : ports_kept w w.
Proof. intros n nd H. exists nd. split; [assumption|apply same_ports_refl]. Qed.

Lemma ports_kept_trans w1 w2 w3 :
  ports_kept w1 w2 -> ports_kept w2 w3 -> ports_kept w1 w3.
Proof.
  intros H12 H23 n nd H. destruct (H12 n nd H) as (nd2 & H2 & S2).
  destruct (H23 n nd2 H2) as (nd3 & H3 & S3).
  exists nd3. split; [assumption|]. eapply same_ports_trans; eassumption.
Qed.

Lemma ports_kept_upd_node k f w :
  (forall nd, same_ports nd (f nd)) -> ports_kept w (upd_node k f w).
Proof.
  intros Hf n nd H. cbn. destruct (decide (k = n)) as [->|Hne].
  - rewrite lookup_alter_eq, H. cbn. eauto.
  - rewrite lookup_alter_ne by assumption. exists nd.
    split; [assumption|apply same_ports_refl].
Qed.

Lemma ports_kept_target_list_remove r w :
  ports_kept w (target_list_remove r w).
Proof.
  intros n nd H. cbn. rewrite lookup_fmap, H. cbn.
  eexists. split; [reflexivity|]. repeat split.
Qed.

Lemma ports_kept_same_nodes w w' : nodes w' = nodes w -> ports_kept w w'.
Proof. intros E n nd H. rewrite E. exists nd. split; [assumption|apply same_ports_refl]. Qed.

Lemma remove_node_ports_kept this w w' :
  remove_node this w = Some w' -> ports_kept w w' /\ trace w' = trace w.
Proof.
  unfold remove_node. intros H.
  destruct (nodes w !! this) as [nd|]; [|discriminate]. cbn in H.
  destruct (exported nd).
  { injection H as <-. split; [apply ports_kept_refl|reflexivity]. }
  destruct (t_activation (rt_driver_target nd)) as [k|]; [|discriminate].
  cbn in H. injection H as <-. split; [|reflexivity].
  eapply ports_kept_trans; [apply ports_kept_target_list_remove|].
  eapply ports_kept_trans; [apply ports_kept_same_nodes; reflexivity|].
  eapply ports_kept_trans; [apply ports_kept_target_list_remove|].
  apply ports_kept_same_nodes. reflexivity.
Qed.

Lemma do_node_remove_ports_kept this w w' :
  do_node_remove this w = Some w' ->
  ports_kept w w' /\ exists evs, trace w' = trace w ++ evs.
Proof.
  unfold do_node_remove. intros H.
  destruct (nodes w !! this) as [nd|]; [|discriminate]. cbn in H.
  destruct (source_loop nd).
  - apply remove_node_ports_kept in H as [Hk Ht]. split.
    + eapply ports_kept_trans; [|exact Hk].
      eapply ports_kept_trans; [apply ports_kept_upd_node|
                                apply ports_kept_same_nodes; reflexivity].
      intros x. repeat split.
    + rewrite Ht. cbn. eauto.
  - injection H as <-. split; [apply ports_kept_refl|].
    exists []. now rewrite app_nil_r.
Qed.

Lemma pause_node_ports_kept this w res w' :
  pause_node this w = Some (res, w') ->
  ports_kept w w' /\ exists evs, trace w' = trace w ++ evs.
Proof.
  unfold pause_node. intros H.
  destruct (nodes w !! this) as [nd|]; [|discriminate]. cbn in H.
  destruct (_ && _).
  { injection H as _ <-. split; [apply ports_kept_refl|].
    exists []. now rewrite app_nil_r. }
  destruct (do_node_remove this (node_deactivate nd w)) as [w1|] eqn:Hrm;
    [|discriminate].
  cbn in H. injection H as _ <-.
  apply do_node_remove_ports_kept in Hrm as [Hk [evs Ht]]. split.
  - eapply ports_kept_trans; [apply ports_kept_same_nodes; reflexivity|].
    eapply ports_kept_trans; [exact Hk|].
    apply ports_kept_same_nodes. reflexivity.
  - cbn. rewrite Ht. cbn. rewrite <- !app_assoc. eauto.
Qed.

Lemma suspend_ports_spec this d ps : forall res0,
  exists res ps',
    suspend_ports this d ps res0 = (res, ps', unset_format_calls this d ps)
    /\ Forall (fun p => port_state p = PW_PORT_STATE_CONFIGURE) ps'
    /\ length ps' = length ps.
Proof.
  induction ps as [|p ps IH]; intros res0.
  - exists res0, []. repeat split. constructor.
  - cbn [suspend_ports unset_format_calls flat_map].
    destruct (pw_port_set_param this p) as [r p'] eqn:Hp.
    destruct (IH r) as (res & ps' & Heq & Hall & Hlen). rewrite Heq.
    eexists _, _. split; [reflexivity|]. split.
    + constructor; [reflexivity|assumption].
    + cbn. now rewrite Hlen.
Qed.


Lemma pause_node_spec this w nd :
  nodes w !! this = Some nd ->
  (source_loop nd = true -> exported nd = false ->
   exists k, t_activation (rt_driver_target nd) = Some k) ->
  exists r1 w1,
    pause_node this w = Some (r1, w1)
    /\ trace w1 = trace w ++ pause_calls this nd
    /\ (paused_on_idle nd = true -> r1 = 0 /\ w1 = w)
    /\ (paused_on_idle nd = false ->
        r1 = spa_node_send_command this SPA_NODE_COMMAND_Pause)
    /\ (paused_on_idle nd = true \/ source_loop nd = false ->
        nodes w1 = nodes w /\ acts w1 = acts w)
    /\ (paused_on_idle nd = false -> source_loop nd = true ->
        exported nd = true ->
        nodes w1 = alter (set_source_loop false) this (nodes w)
        /\ acts w1 = acts w)
    /\ (paused_on_idle nd = false -> source_loop nd = true ->
        exported nd = false ->
        forall k, t_activation (rt_driver_target nd) = Some k ->
        nodes w1
        = (fun n => set_rt_target_list
                      (filter (fun x => x <> node_target this)
                         (rt_target_list n)) n)
            <$> ((fun n => set_rt_target_list
                             (filter (fun x => x <> node_driver_target this)
                                (rt_target_list n)) n)
                   <$> alter (set_source_loop false) this (nodes w))
        /\ acts w1
           = alter dec_required (rt_activation nd)
               (alter dec_required k (acts w))).
Proof.
  intros Hnd Hatt. unfold pause_node, pause_calls. rewrite Hnd.
  cbn [mbind option_bind]. fold (paused_on_idle nd).
  destruct (paused_on_idle nd) eqn:Hidle.
  { exists 0, w. split; [reflexivity|]. split; [now rewrite app_nil_r|].
    repeat split; auto; discriminate. }
  unfold do_node_remove.
  assert (Hnd0 : nodes (node_deactivate nd w) !! this = Some nd) by exact Hnd.
  rewrite Hnd0.
  cbn [mbind option_bind].
  destruct (source_loop nd) eqn:Hloop.
  - set (wr := log (Ev_loop_remove_source this)
                 (upd_node this (set_source_loop false)
                    (node_deactivate nd w))).
    assert (Hr : nodes wr !! this = Some (set_source_loop false nd))
      by (cbn; rewrite lookup_alter_eq; now rewrite Hnd).
    unfold remove_node. rewrite Hr. cbn [mbind option_bind].
    change (exported (set_source_loop false nd)) with (exported nd).
    change (rt_driver_target (set_source_loop false nd))
      with (rt_driver_target nd).
    change (rt_activation (set_source_loop false nd)) with (rt_activation nd).
    destruct (exported nd) eqn:Hexp.
    + cbn [mbind option_bind]. eexists _, _. split; [reflexivity|].
      split; [cbn; now rewrite <- !app_assoc|].
      split; [discriminate|]. split; [reflexivity|].
      split; [intros [?|?]; discriminate|].
      split; [intros; split; reflexivity|]. discriminate.
    + destruct (Hatt eq_refl eq_refl) as (k & Hk). rewrite Hk.
      cbn [mbind option_bind]. eexists _, _. split; [reflexivity|].
      split; [cbn; now rewrite <- !app_assoc|].
      split; [discriminate|]. split; [reflexivity|].
      split; [intros [?|?]; discriminate|].
      split; [discriminate|].
      intros _ _ _ k' Hk'. assert (k' = k) by congruence. subst k'.
      split; reflexivity.
  - cbn [mbind option_bind]. eexists _, _. split; [reflexivity|].
    split; [cbn; now rewrite <- !app_assoc, ?app_nil_l|].
    split; [discriminate|]. split; [reflexivity|].
    split; [intros; split; reflexivity|].
    split; discriminate.
Qed.

Lemma suspend_after_pause (this : nat)
    (w w1 : world) (nd : pw_node) (r1 : Z) :
  nodes w !! this = Some nd ->
  pause_node this w = Some (r1, w1) ->
  exists res w' nd',
    suspend_node this w = Some (res, w')
    /\ nodes w' !! this = Some nd'
    /\ info_state nd' = PW_NODE_STATE_SUSPENDED
    /\ Forall (fun p => port_state p = PW_PORT_STATE_CONFIGURE)
         (input_ports nd' ++ output_ports nd')
    /\ length (input_ports nd') = length (input_ports nd)
    /\ length (output_ports nd') = length (output_ports nd)
    /\ (exists paused, trace w1 = trace w ++ paused)
    /\ trace w' = trace w1
                  ++ unset_format_calls this SPA_DIRECTION_INPUT (input_ports nd)
                  ++ unset_format_calls this SPA_DIRECTION_OUTPUT
                       (output_ports nd)
                  ++ (if decide (info_state nd = PW_NODE_STATE_SUSPENDED)
                      then []
                      else [Ev_state_changed this (info_state nd)
                              PW_NODE_STATE_SUSPENDED;
                            Ev_info_changed this])
    /\ acts w' = acts w1
    /\ (forall m, rt_target_list <$> nodes w' !! m
                  = rt_target_list <$> nodes w1 !! m)
    /\ (forall m, source_loop <$> nodes w' !! m
                  = source_loop <$> nodes w1 !! m).
Proof.
  intros Hnd Hpause. unfold suspend_node. rewrite Hpause. cbn.
  destruct (pause_node_ports_kept _ _ _ _ Hpause) as [Hkept Hpre].
  destruct (Hkept this nd Hnd) as (nd1 & Hnd1 & Hin & Hout & Hst).
  rewrite Hnd1. cbn.
  destruct (suspend_ports_spec this SPA_DIRECTION_INPUT (input_ports nd1) 0)
    as (res_in & ins & Ein & Ain & Lin).
  rewrite Ein.
  destruct (suspend_ports_spec this SPA_DIRECTION_OUTPUT (output_ports nd1)
              res_in) as (res & outs & Eout & Aout & Lout).
  rewrite Eout.
  unfold node_update_state. cbn.
  rewrite lookup_alter_eq, Hnd1. cbn.
  rewrite Hst, Hin, Hout in *.
  destruct (decide (info_state nd = PW_NODE_STATE_SUSPENDED)) as [Hs|Hs].
  - eexists _, _, _. split; [reflexivity|]. cbn.
    rewrite lookup_alter_eq, Hnd1. cbn.
    split; [reflexivity|]. cbn.
    assert (Hproj : forall A (f : pw_node -> A) m,
               (forall l n, f (set_input_ports l n) = f n) ->
               (forall l n, f (set_output_ports l n) = f n) ->
               f <$> alter (fun n => set_output_ports outs
                                       (set_input_ports ins n)) this
                       (nodes w1) !! m
               = f <$> nodes w1 !! m).
    { intros A f m Hi Ho. destruct (decide (this = m)) as [<-|Hne].
      - rewrite lookup_alter_eq, Hnd1. cbn. now rewrite Ho, Hi.
      - now rewrite lookup_alter_ne. }
    repeat split; try assumption; try congruence.
    + apply Forall_app. split; assumption.
    + now rewrite app_nil_r, app_assoc.
    + intros m. now apply Hproj.
    + intros m. now apply Hproj.
  - eexists _, _, _. split; [reflexivity|]. cbn.
    rewrite lookup_alter_eq, lookup_alter_eq, Hnd1. cbn.
    split; [reflexivity|]. cbn.
    assert (Hproj : forall A (f : pw_node -> A) m,
               (forall l n, f (set_input_ports l n) = f n) ->
               (forall l n, f (set_output_ports l n) = f n) ->
               (forall l n, f (set_info_state l n) = f n) ->
               (forall l n, f (set_info_error l n) = f n) ->
               f <$> alter (fun n => set_info_state PW_NODE_STATE_SUSPENDED
                                       (set_info_error None n)) this
                       (alter (fun n => set_output_ports outs
                                          (set_input_ports ins n)) this
                          (nodes w1)) !! m
               = f <$> nodes w1 !! m).
    { intros A f m Hi Ho Hs' He. destruct (decide (this = m)) as [<-|Hne].
      - rewrite !lookup_alter_eq, Hnd1. cbn. now rewrite Hs', He, Ho, Hi.
      - now rewrite !lookup_alter_ne. }
    repeat split; try assumption.
    + apply Forall_app. split; assumption.
    + rewrite <- !app_assoc. reflexivity.
    + intros m. now apply Hproj.
    + intros m. now apply Hproj.
Qed.

End Suspend.

(** C7 (amended). suspend_node first runs pause_node. For a node that is
    past IDLE or does not pause on idle, pause_node deactivates the links of
    its ports, takes its source out of the data loop, which detaches it from
    its driver and takes one from both required counts, and sends the Pause
    command; for a node that is not past IDLE and has pause_on_idle set it
    does nothing, and the node stays in the data loop if it was there. Only
    then the format is unset on every input port and on every output port,
    whatever each of these calls returns; afterwards every port of the node
    is in state CONFIGURE and the node is SUSPENDED. *)
Theorem suspend_node_configures_ports `{Ext : Externals} (this : nat)
    (w : world) (nd : pw_node) :
  nodes w !! this = Some nd ->
  (source_loop nd = true -> exported nd = false ->
   exists k, t_activation (rt_driver_target nd) = Some k) ->
  exists r1 w1 res w' nd',
    pause_node this w = Some (r1, w1)
    /\ suspend_node this w = Some (res, w')
    /\ nodes w' !! this = Some nd'
    /\ info_state nd' = PW_NODE_STATE_SUSPENDED
    /\ Forall (fun p => port_state p = PW_PORT_STATE_CONFIGURE)
         (input_ports nd' ++ output_ports nd')
    /\ length (input_ports nd') = length (input_ports nd)
    /\ length (output_ports nd') = length (output_ports nd)
    /\ trace w1 = trace w ++ pause_calls this nd
    /\ trace w' = trace w1
                  ++ unset_format_calls this SPA_DIRECTION_INPUT (input_ports nd)
                  ++ unset_format_calls this SPA_DIRECTION_OUTPUT
                       (output_ports nd)
                  ++ (if decide (info_state nd = PW_NODE_STATE_SUSPENDED)
                      then []
                      else [Ev_state_changed this (info_state nd)
                              PW_NODE_STATE_SUSPENDED;
                            Ev_info_changed this])
    /\ (paused_on_idle nd = true ->
        w1 = w /\ acts w' = acts w /\ source_loop nd' = source_loop nd)
    /\ (paused_on_idle nd = false ->
        r1 = spa_node_send_command this SPA_NODE_COMMAND_Pause
        /\ source_loop nd' = false)
    /\ (paused_on_idle nd = false -> source_loop nd = true ->
        exported nd = false ->
        detached this w'
        /\ forall k, t_activation (rt_driver_target nd) = Some k ->
           acts w' = alter dec_required (rt_activation nd)
                       (alter dec_required k (acts w)))
    /\ (source_loop nd = false \/ exported nd = true -> acts w' = acts w).
Proof.
  intros Hnd Hatt.
  destruct (pause_node_spec this w nd Hnd Hatt)
    as (r1 & w1 & Hpause & Htr & Hidle & Hcmd & Hsame & Hexp & Hrem).
  destruct (suspend_after_pause this w w1 nd r1 Hnd Hpause)
    as (res & w' & nd' & Hrun & Hnd' & Hst & Hconf & Hli & Hlo & _ & Htr'
        & Hacts & Hlists & Hloop).
  exists r1, w1, res, w', nd'.
  split; [exact Hpause|]. split; [exact Hrun|]. split; [exact Hnd'|].
  split; [exact Hst|]. split; [exact Hconf|]. split; [exact Hli|].
  split; [exact Hlo|]. split; [exact Htr|]. split; [exact Htr'|].
  assert (Hsl : Some (source_loop nd') = source_loop <$> nodes w1 !! this)
    by (rewrite <- Hloop, Hnd'; reflexivity).
  split.
  { intros Hi. destruct (Hidle Hi) as [_ ->]. split; [reflexivity|].
    split; [exact Hacts|]. rewrite Hnd in Hsl. now injection Hsl. }
  split.
  { intros Hi. split; [exact (Hcmd Hi)|].
    destruct (source_loop nd) eqn:Hl.
    - destruct (exported nd) eqn:He.
      + destruct (Hexp Hi eq_refl eq_refl) as [Hn _].
        rewrite Hn, lookup_alter_eq, Hnd in Hsl. now injection Hsl.
      + destruct (Hatt eq_refl eq_refl) as (k & Hk).
        destruct (Hrem Hi eq_refl eq_refl k Hk) as [Hn _].
        rewrite Hn, !lookup_fmap, lookup_alter_eq, Hnd in Hsl.
        now injection Hsl.
    - destruct (Hsame (or_intror eq_refl)) as [Hn _].
      rewrite Hn, Hnd in Hsl. injection Hsl as ->. exact Hl. }
  split.
  { intros Hi Hl He. destruct (Hatt Hl He) as (k & Hk).
    destruct (Hrem Hi Hl He k Hk) as [Hn Ha]. split.
    - intros m nm Hm. cbn.
      assert (Hm' : Some (rt_target_list nm)
                    = rt_target_list <$> nodes w1 !! m)
        by (rewrite <- Hlists, Hm; reflexivity).
      rewrite Hn, !lookup_fmap in Hm'.
      destruct (alter (set_source_loop false) this (nodes w) !! m) as [n0|];
        [|discriminate].
      cbn in Hm'. injection Hm' as ->. split.
      + intros Hin. apply list_elem_of_filter in Hin as [Hin _].
        now apply Hin.
      + intros Hin. apply list_elem_of_filter in Hin as [_ Hin].
        apply list_elem_of_filter in Hin as [Hin _]. now apply Hin.
    - intros k' Hk'. assert (k' = k) by congruence. subst k'.
      now rewrite Hacts. }
  intros Hor. rewrite Hacts.
  destruct (paused_on_idle nd) eqn:Hi.
  { now destruct (Hidle eq_refl) as [_ ->]. }
  destruct (source_loop nd) eqn:Hl.
  - destruct Hor as [Hor|Hor]; [discriminate|].
    now destruct (Hexp eq_refl eq_refl Hor).
  - now destruct (Hsame (or_intror eq_refl)).
Qed.

Lemma suspend_node_configures_ports_witness :
  exists res w' nd',
    suspend_node (Ext := example_externals) 1%nat example_graph
    = Some (res, w')
    /\ nodes w' !! 1%nat = Some nd'
    /\ info_state nd' = PW_NODE_STATE_SUSPENDED
    /\ Forall (fun p => port_state p = PW_PORT_STATE_CONFIGURE)
         (input_ports nd' ++ output_ports nd')
    /\ source_loop nd' = false
    /\ In (Ev_send_command 1 SPA_NODE_COMMAND_Pause 0) (trace w').
Proof.
  assert (Hn : exists nd, nodes example_graph !! 1%nat = Some nd
                 /\ paused_on_idle (Ext := example_externals) nd = false
                 /\ t_activation (rt_driver_target nd) = Some 0%nat).
  { eexists. split; [vm_compute; reflexivity|]. split; reflexivity. }
  destruct Hn as (nd & Hnd & Hidle & Hk).
  destruct (suspend_node_configures_ports (Ext := example_externals) 1%nat
              example_graph nd Hnd)
    as (r1 & w1 & res & w' & nd' & _ & H1 & H2 & H3 & H4 & _ & _ & H5 & H6
        & _ & H7 & _);
    [intros _ _; exists 0%nat; exact Hk|].
  exists res, w', nd'. split; [exact H1|]. split; [exact H2|].
  split; [exact H3|]. split; [exact H4|].
  split; [exact (proj2 (H7 Hidle))|].
  rewrite H6, H5. unfold pause_calls. rewrite Hidle.
  apply in_or_app. left. apply in_or_app. right.
  apply in_or_app. right. apply in_or_app. right. now left.
Defined.

(** The follower of the example graph, in state ERROR after a failure while
    it ran and with pause_on_idle set as by default: suspending it sends no
    Pause command; the node ends SUSPENDED and still in the data loop. *)
Lemma suspend_pauses_first_fails : ~ suspend_pauses_first.
Proof.
  intros H.
  assert (Hn : exists nd, nodes failed_graph !! 1%nat = Some nd
                 /\ source_loop nd = true
                 /\ info_state nd = PW_NODE_STATE_ERROR).
  { eexists. split; [vm_compute; reflexivity|]. split; reflexivity. }
  assert (Hr : exists res w' nd',
             suspend_node (Ext := example_externals) 1%nat failed_graph
             = Some (res, w')
             /\ nodes w' !! 1%nat = Some nd'
             /\ source_loop nd' = true
             /\ info_state nd' = PW_NODE_STATE_SUSPENDED
             /\ trace w'
                = [Ev_loop_add_source 0; Ev_loop_add_source 1;
                   Ev_state_changed 1 PW_NODE_STATE_RUNNING
                     PW_NODE_STATE_ERROR;
                   Ev_info_changed 1; Ev_port_set_param_format_null 1 0 0;
                   Ev_port_set_param_format_null 1 0 0;
                   Ev_state_changed 1 PW_NODE_STATE_ERROR
                     PW_NODE_STATE_SUSPENDED;
                   Ev_info_changed 1]).
  { eexists _, _, _. split; [vm_compute; reflexivity|].
    split; [vm_compute; reflexivity|]. repeat split. }
  destruct Hn as (nd & Hnd & _).
  destruct Hr as (res & w' & nd' & Hrun & _ & _ & _ & Htr).
  destruct (H example_externals 1%nat failed_graph w' nd res Hnd Hrun)
    as (pre & post & r & Ht).
  assert (Hin : In (Ev_send_command 1 SPA_NODE_COMMAND_Pause r) (trace w')).
  { rewrite Ht. apply in_or_app. right. apply in_or_app. right. now left. }
  rewrite Htr in Hin. cbn in Hin.
  repeat (destruct Hin as [Hin|Hin]; [discriminate Hin|]). exact Hin.
Qed.

(** ** Transport commands at the start of a cycle *)

(** C4. check_updates, which the driver runs at the start of every cycle,
    reads the command slot and leaves NONE in it. START sets the position
    state to STARTING and arms sync_left with sync_timeout divided by the
    duration of a cycle in nanoseconds, clock.duration * 10^9 /
    clock.rate.denom; STOP sets the position state to STOPPED; NONE leaves
    the position state and sync_left as they were. *)
Theorem check_updates_command (a : pw_node_activation) :
  (forall a' res owner,
      check_updates a = Some (a', res, owner) ->
      command a' = PW_NODE_ACTIVATION_COMMAND_NONE
      /\ reposition_owner a' = 0 /\ owner = reposition_owner a)
  /\ (command a = PW_NODE_ACTIVATION_COMMAND_NONE ->
      exists a' res,
        check_updates a = Some (a', res, reposition_owner a)
        /\ pos_state (position a') = pos_state (position a)
        /\ sync_left a' = sync_left a)
  /\ (command a = PW_NODE_ACTIVATION_COMMAND_STOP ->
      exists a' res,
        check_updates a = Some (a', res, reposition_owner a)
        /\ pos_state (position a') = SPA_IO_POSITION_STATE_STOPPED)
  /\ (command a = PW_NODE_ACTIVATION_COMMAND_START ->
      clock_rate_denom (position a) <> 0 ->
      u64 (clock_duration (position a) * SPA_NSEC_PER_SEC)
        / clock_rate_denom (position a) <> 0 ->
      exists a' res,
        check_updates a = Some (a', res, reposition_owner a)
        /\ res = SYNC_START
        /\ pos_state (position a') = SPA_IO_POSITION_STATE_STARTING
        /\ sync_left a'
           = sync_timeout a
             / (u64 (clock_duration (position a) * 10 ^ 9)
                / clock_rate_denom (position a))
        /\ (0 <= clock_duration (position a) * 10 ^ 9 < 2 ^ 64 ->
            sync_left a'
            = sync_timeout a
              / (clock_duration (position a) * 10 ^ 9
                 / clock_rate_denom (position a)))).
Proof.
  unfold check_updates, sync_cycles.
  destruct (offset (position a) =? INT64_MIN); cbn;
    (split; [|split; [|split]];
     [ intros a' res owner; cbn;
       destruct (command a); cbn;
       repeat match goal with
              | |- context [if ?c =? 0 then None else _] =>
                  destruct (c =? 0); cbn
              end;
       intros H; try discriminate; injection H; intros; subst; repeat split
     | intros ->; cbn; eexists _, _; repeat split
     | intros ->; cbn; eexists _, _; repeat split
     | intros -> Hd Hc; cbn;
       destruct (Z.eqb_spec (clock_rate_denom (position a)) 0);
       [contradiction|]; cbn;
       match goal with
       | |- context [?c =? 0] => destruct (Z.eqb_spec c 0); [contradiction|]
       end; cbn;
       eexists _, _;
       repeat split;
       [ destruct (reposition_owner a =? 0); reflexivity
       | intros Hsmall; unfold u64; rewrite Z.mod_small by exact Hsmall;
         reflexivity ] ]).
Qed.

Lemma check_updates_command_witness :
  exists a' res,
    check_updates (set_command PW_NODE_ACTIVATION_COMMAND_START
                     (new_activation (Ext := example_externals)))
    = Some (a', res, 0)
    /\ pos_state (position a') = SPA_IO_POSITION_STATE_STARTING
    /\ sync_left a' = 234.
Proof.
  destruct (check_updates_command
              (set_command PW_NODE_ACTIVATION_COMMAND_START
                 (new_activation (Ext := example_externals))))
    as (_ & _ & _ & H).
  destruct H as (a' & res & H1 & _ & H3 & H4 & _);
    [reflexivity | vm_compute; discriminate | vm_compute; discriminate |].
  exists a', res. repeat split; [exact H1 | exact H3 |].
  rewrite H4. reflexivity.
Defined.

(** ** Attaching to a driver and detaching again *)

Lemma filter_ne_id (r : target_ref) (l : list target_ref) :
  r ∉ l -> filter (fun x => x <> r) l = l.
Proof.
  induction l as [|x l IH]; intros Hr; [reflexivity|].
  apply not_elem_of_cons in Hr as [Hne Hr].
  rewrite filter_cons_True by congruence. now rewrite IH.
Qed.

Lemma filter_ne_snoc (r : target_ref) (l : list target_ref) :
  r ∉ l -> filter (fun x => x <> r) (l ++ [r]) = l.
Proof.
  intros Hr. rewrite filter_app, filter_ne_id by assumption.
  rewrite filter_cons_False by (intros H; now apply H).
  now rewrite filter_nil, app_nil_r.
Qed.

Lemma u32_inc_dec r : 0 <= r < 2 ^ 32 -> u32 (u32 (r + 1) - 1) = r.
Proof.
  intros Hr. unfold u32.
  destruct (Z.eq_dec r (2 ^ 32 - 1)) as [->|Hne]; [reflexivity|].
  rewrite (Z.mod_small (r + 1)) by lia.
  replace (r + 1 - 1) with r by lia. apply Z.mod_small. lia.
Qed.

Lemma dec_inc_required a :
  0 <= required (state0 a) < 2 ^ 32 -> dec_required (inc_required a) = a.
Proof.
  intros Hr. unfold dec_required, inc_required. destruct a as [? ? ? [? r ?] ? ? ? ? ? ? ? ? ? ? ? ? ? ? ? ? ?].
  cbn in *. rewrite u32_inc_dec by assumption. reflexivity.
Qed.

(** the activation records all keep their counters in 32 bits *)
Lemma alter_dec_inc (m : gmap nat pw_node_activation) k :
  (forall a, m !! k = Some a -> 0 <= required (state0 a) < 2 ^ 32) ->
  alter dec_required k (alter inc_required k m) = m.
Proof.
  intros Hr. apply map_eq. intros i.
  destruct (decide (k = i)) as [->|Hne].
  - rewrite !lookup_alter_eq. destruct (m !! i) as [a|] eqn:Ha; [|reflexivity].
    cbn. f_equal. apply dec_inc_required. now apply Hr.
  - now rewrite !lookup_alter_ne.
Qed.

Section AddRemove.
Context (w : world) (this driver : nat) (nd drv : pw_node).
Hypothesis Hnd : nodes w !! this = Some nd.
Hypothesis Hdrv : nodes w !! driver = Some drv.
Hypothesis Hexp : exported nd = false.

Lemma add_node_unfold :
  add_node this driver w
  = Some
      (upd_act (rt_activation nd) inc_required
         (upd_node driver
            (fun n => set_rt_target_list (rt_target_list n ++ [node_target this]) n)
            (upd_act (rt_activation drv) inc_required
               (upd_node this
                  (fun n =>
                     set_rt_target_list
                       (rt_target_list n ++ [node_driver_target this])
                       (set_rt_driver_target
                          (set_t_data (Some driver)
                             (set_t_node (Some driver)
                                (set_t_activation (Some (rt_activation drv))
                                   (rt_driver_target nd)))) n)) w)))).
Proof. unfold add_node. rewrite Hnd. cbn. rewrite Hexp, Hdrv. reflexivity. Qed.

(** the node [m] after [add_node] *)
Lemma add_node_lookup w1 m nm :
  add_node this driver w = Some w1 ->
  nodes w !! m = Some nm ->
  exists nm1,
    nodes w1 !! m = Some nm1
    /\ rt_target_list nm1
       = rt_target_list nm
         ++ (if decide (m = this) then [node_driver_target this] else [])
         ++ (if decide (m = driver) then [node_target this] else [])
    /\ exported nm1 = exported nm
    /\ rt_activation nm1 = rt_activation nm
    /\ (m = this ->
        t_activation (rt_driver_target nm1) = Some (rt_activation drv)).
Proof.
  rewrite add_node_unfold. intros [= <-] Hm. cbn.
  rewrite !lookup_alter.
  destruct (decide (m = this)) as [Ht|Ht];
    destruct (decide (m = driver)) as [Hd|Hd];
    repeat (destruct (decide _); try congruence); cbn.
  all: try rewrite Ht in Hm; try rewrite Hd in Hm; rewrite ?Hm; cbn;
    eexists; (split; [reflexivity|]); cbn;
    rewrite <- ?app_assoc, ?app_nil_r; repeat split; congruence.
Qed.

Lemma add_node_acts w1 :
  add_node this driver w = Some w1 ->
  acts w1 = alter inc_required (rt_activation nd)
              (alter inc_required (rt_activation drv) (acts w)).
Proof. rewrite add_node_unfold. now intros [= <-]. Qed.

End AddRemove.

Lemma inc_required_range a :
  0 <= required (state0 (inc_required a)) < 2 ^ 32.
Proof. cbn. apply Z.mod_pos_bound. lia. Qed.

Lemma remove_add_acts (m : gmap nat pw_node_activation) kn kd :
  (forall k a, m !! k = Some a -> 0 <= required (state0 a) < 2 ^ 32) ->
  alter dec_required kn
    (alter dec_required kd (alter inc_required kn (alter inc_required kd m)))
  = m.
Proof.
  intros Hr. apply map_eq. intros i. rewrite !lookup_alter.
  repeat case_decide; subst; try congruence;
    match goal with |- context [m !! ?j] => destruct (m !! j) as [a|] eqn:Ha end;
    cbn; try reflexivity; f_equal;
    rewrite ?(dec_inc_required (inc_required a)) by apply inc_required_range;
    try (apply dec_inc_required; eapply Hr; eassumption); reflexivity.
Qed.

Lemma filter_attached (this : nat) (l : list target_ref) (x y : bool) :
  node_target this ∉ l -> node_driver_target this ∉ l ->
  filter (fun r => r <> node_target this)
    (filter (fun r => r <> node_driver_target this)
       (l ++ (if x then [node_driver_target this] else [])
          ++ (if y then [node_target this] else [])))
  = l.
Proof.
  intros Ht Hd. rewrite !filter_app, (filter_ne_id _ l Hd), (filter_ne_id _ l Ht).
  destruct x, y; cbn;
    repeat (rewrite ?filter_cons, ?filter_nil; case_decide; try congruence;
            cbn);
    now rewrite ?app_nil_r.
Qed.

(** C10 (amended). For a node that is not exported, add_node appends the
    driver target of the node to the target list of the node and the target
    of the node to the target list of the driver, and adds one (as 32-bit
    unsigned) to the required count of the driver and one to that of the
    node: when the two activation records differ each count grows by one,
    and when the node is its own driver the one shared count grows by two.
    A following remove_node restores every required count and every target
    list. For an exported node both operations change nothing. *)
Theorem add_node_remove_node_round_trip (w : world) (this driver : nat)
    (nd drv : pw_node) (an ad : pw_node_activation) :
  nodes w !! this = Some nd ->
  (exported nd = true ->
   add_node this driver w = Some w /\ remove_node this w = Some w)
  /\ (exported nd = false ->
      nodes w !! driver = Some drv ->
      acts w !! rt_activation nd = Some an ->
      acts w !! rt_activation drv = Some ad ->
      counters_in_range w ->
      detached this w ->
      exists w1 w2 an1 ad1 nd1 drv1,
        add_node this driver w = Some w1
        /\ acts w1 !! rt_activation nd = Some an1
        /\ acts w1 !! rt_activation drv = Some ad1
        /\ nodes w1 !! this = Some nd1
        /\ nodes w1 !! driver = Some drv1
        /\ (rt_activation nd <> rt_activation drv ->
            required (state0 ad1) = u32 (required (state0 ad) + 1)
            /\ required (state0 an1) = u32 (required (state0 an) + 1))
        /\ (rt_activation nd = rt_activation drv ->
            required (state0 an1) = u32 (u32 (required (state0 an) + 1) + 1))
        /\ (this <> driver ->
            rt_target_list nd1 = rt_target_list nd ++ [node_driver_target this]
            /\ rt_target_list drv1 = rt_target_list drv ++ [node_target this])
        /\ (this = driver ->
            rt_target_list nd1
            = rt_target_list nd ++ [node_driver_target this; node_target this])
        /\ remove_node this w1 = Some w2
        /\ acts w2 = acts w
        /\ (forall m nm, nodes w !! m = Some nm ->
            exists nm2, nodes w2 !! m = Some nm2
                        /\ rt_target_list nm2 = rt_target_list nm)).
Proof.
  intros Hnd. split.
  { intros Hexp. unfold add_node, remove_node. rewrite Hnd. cbn.
    rewrite Hexp. split; reflexivity. }
  intros Hexp Hdrv Han Had Hrange Hdet.
  pose proof (add_node_unfold w this driver nd drv Hnd Hdrv Hexp) as Hadd.
  destruct (add_node this driver w) as [w1|] eqn:Hw1; [|discriminate].
  pose proof (add_node_acts w this driver nd drv Hnd Hdrv Hexp w1 Hw1) as Hacts1.
  assert (Hlk : exists an1 ad1,
             acts w1 !! rt_activation nd = Some an1
             /\ acts w1 !! rt_activation drv = Some ad1
             /\ (rt_activation nd <> rt_activation drv ->
                 ad1 = inc_required ad /\ an1 = inc_required an)
             /\ (rt_activation nd = rt_activation drv ->
                 an1 = inc_required (inc_required an))).
  { rewrite Hacts1, !lookup_alter.
    destruct (decide (rt_activation nd = rt_activation drv)) as [E|E].
    - rewrite E in *. assert (an = ad) by congruence. subst ad.
      repeat case_decide; try congruence. rewrite Had. cbn.
      eexists _, _. repeat split; congruence.
    - repeat case_decide; try congruence. rewrite Han, Had. cbn.
      eexists _, _. repeat split; congruence. }
  destruct (add_node_lookup w this driver nd drv Hnd Hdrv Hexp w1 this nd Hw1 Hnd)
    as (nd1 & Hnd1 & Hl1 & He1 & Ha1 & Hdt1).
  destruct (add_node_lookup w this driver nd drv Hnd Hdrv Hexp w1 driver drv Hw1
              Hdrv) as (drv1 & Hdrv1 & Hld1 & _ & _ & _).
  assert (Hrm : remove_node this w1
                = Some (upd_act (rt_activation nd) dec_required
                          (target_list_remove (node_target this)
                             (upd_act (rt_activation drv) dec_required
                                (target_list_remove (node_driver_target this)
                                   w1))))).
  { unfold remove_node. rewrite Hnd1. cbn. rewrite He1, Hexp, (Hdt1 eq_refl).
    cbn. now rewrite Ha1. }
  destruct Hlk as (an1 & ad1 & Han1 & Had1 & Hne & Heq).
  exists w1, (upd_act (rt_activation nd) dec_required
                (target_list_remove (node_target this)
                   (upd_act (rt_activation drv) dec_required
                      (target_list_remove (node_driver_target this) w1)))),
    an1, ad1, nd1, drv1.
  split; [reflexivity|].
  split; [exact Han1|]. split; [exact Had1|].
  split; [exact Hnd1|]. split; [exact Hdrv1|].
  split. { intros E. destruct (Hne E) as [-> ->]. split; reflexivity. }
  split. { intros E. rewrite (Heq E). reflexivity. }
  split.
  { intros E. rewrite Hl1, Hld1. repeat case_decide; try congruence.
    now rewrite !app_nil_r. }
  split.
  { intros E. rewrite Hl1. repeat case_decide; try congruence. reflexivity. }
  repeat split.
  - exact Hrm.
  - cbn. rewrite Hacts1. apply remove_add_acts.
    intros k a Hk. exact (proj1 (Hrange k a Hk)).
  - intros m nm Hm. cbn. rewrite !lookup_fmap.
    destruct (add_node_lookup w this driver nd drv Hnd Hdrv Hexp w1 m nm Hw1 Hm)
      as (nm1 & Hnm1 & Hlm & _).
    rewrite Hnm1. cbn. eexists. split; [reflexivity|]. cbn.
    rewrite Hlm. destruct (Hdet m nm Hm) as [Ht Hd].
    replace (if decide (m = this) then [node_driver_target this] else [])
      with (if bool_decide (m = this) then [node_driver_target this] else [])
      by (now destruct (decide (m = this)); [rewrite bool_decide_eq_true_2
                                            |rewrite bool_decide_eq_false_2]).
    replace (if decide (m = driver) then [node_target this] else [])
      with (if bool_decide (m = driver) then [node_target this] else [])
      by (now destruct (decide (m = driver)); [rewrite bool_decide_eq_true_2
                                              |rewrite bool_decide_eq_false_2]).
    apply filter_attached; assumption.
Qed.

Lemma add_node_remove_node_round_trip_witness :
  exists w1 w2,
    add_node 1%nat 0%nat example_graph0 = Some w1
    /\ remove_node 1%nat w1 = Some w2
    /\ acts w2 = acts example_graph0.
Proof.
  edestruct (add_node_remove_node_round_trip example_graph0 1%nat 0%nat)
    as [_ H]; [vm_compute; reflexivity|].
  edestruct H as (w1 & w2 & an1 & ad1 & nd1 & drv1 & H1 & _ & _ & _ & _ & _
                  & _ & _ & _ & H2 & H3 & _);
    [ reflexivity | vm_compute; reflexivity | vm_compute; reflexivity
    | vm_compute; reflexivity
    | apply (bool_decide_unpack _); vm_compute; exact I
    | apply (bool_decide_unpack _); vm_compute; exact I | ].
  exists w1, w2. split; [exact H1|]. split; [exact H2|exact H3].
Defined.

(** Attaching a driver to itself, as [do_node_add] does for every driver,
    adds two to its required count. *)
Lemma add_node_adds_one_to_each_fails : ~ add_node_adds_one_to_each.
Proof.
  intros H.
  edestruct (H lone_driver
               (default lone_driver (add_node 0%nat 0%nat lone_driver))
               0%nat 0%nat) as [H1 _];
    [ vm_compute; reflexivity | vm_compute; reflexivity | reflexivity
    | vm_compute; reflexivity | vm_compute; reflexivity
    | vm_compute; split; [discriminate|reflexivity]
    | vm_compute; split; [discriminate|reflexivity]
    | vm_compute; reflexivity
    | vm_compute; reflexivity | vm_compute; reflexivity | ].
  vm_compute in H1. discriminate.
Qed.

(** ** The frame of the cycle protocol *)

Lemma cycle_frame_refl w : cycle_frame w w.
Proof.
  constructor; try reflexivity.
  - exists []. now rewrite app_nil_r.
  - intros k a H. exists a. auto.
Qed.

Lemma cycle_frame_trans w1 w2 w3 :
  cycle_frame w1 w2 -> cycle_frame w2 w3 -> cycle_frame w1 w3.
Proof.
  intros [N1 L1 T1 [e1 E1] A1] [N2 L2 T2 [e2 E2] A2]. constructor.
  - congruence.
  - congruence.
  - lia.
  - exists (e1 ++ e2). now rewrite E2, E1, app_assoc.
  - intros k a H. destruct (A1 k a H) as (a1 & H1 & X1 & R1).
    destruct (A2 k a1 H1) as (a2 & H2 & X2 & R2).
    exists a2. repeat split; congruence.
Qed.

Lemma cycle_frame_logs es w : cycle_frame w (logs es w).
Proof.
  constructor; try reflexivity.
  - now exists es.
  - intros k a H. exists a. auto.
Qed.

Lemma cycle_frame_log e w : cycle_frame w (log e w).
Proof. apply (cycle_frame_logs [e]). Qed.

Lemma cycle_frame_upd_act k f w : keeps_fields f -> cycle_frame w (upd_act k f w).
Proof.
  intros Hf. constructor; try reflexivity.
  - exists []. cbn. now rewrite app_nil_r.
  - intros i a H. cbn. rewrite lookup_alter. case_decide.
    + subst. rewrite H. cbn. exists (f a). split; [reflexivity|apply Hf].
    + exists a. auto.
Qed.

Lemma cycle_frame_upd_act_at k f a w :
  acts w !! k = Some a ->
  xrun_fields (f a) = xrun_fields a ->
  required (state0 (f a)) = required (state0 a) ->
  cycle_frame w (upd_act k f w).
Proof.
  intros Ha Hx Hr. constructor; try reflexivity.
  - exists []. cbn. now rewrite app_nil_r.
  - intros i b H. cbn. rewrite lookup_alter. case_decide.
    + subst. rewrite H. cbn. exists (f b).
      assert (b = a) by congruence. subst b. auto.
    + exists b. auto.
Qed.

Lemma cycle_frame_insert_act k a a' w :
  acts w !! k = Some a ->
  xrun_fields a' = xrun_fields a ->
  required (state0 a') = required (state0 a) ->
  cycle_frame w (set_acts (<[k := a']> (acts w)) w).
Proof.
  intros Ha Hx Hr. constructor; try reflexivity.
  - exists []. cbn. now rewrite app_nil_r.
  - intros i b H. cbn. rewrite lookup_insert. case_decide.
    + subst. exists a'. split; [reflexivity|]. split; congruence.
    + exists b. auto.
Qed.

Lemma cycle_frame_tick w :
  cycle_frame w
    (set_ticks (tl (ticks w))
       (set_now (now w + Z.of_nat (hd 0%nat (ticks w))) w)).
Proof.
  constructor; cbn; try reflexivity.
  - lia.
  - exists []. now rewrite app_nil_r.
  - intros k a H. exists a. auto.
Qed.

Ltac frame_last :=
  first
    [ apply cycle_frame_log
    | apply cycle_frame_logs
    | apply cycle_frame_upd_act; intros ?; split; reflexivity
    | apply cycle_frame_tick ].

Ltac frame_chain :=
  repeat (eapply cycle_frame_trans; [|frame_last]);
  try apply cycle_frame_refl.

Lemma cycle_frame_dump_states driver w : cycle_frame w (dump_states driver w).
Proof.
  unfold dump_states. destruct (nodes w !! driver); [apply cycle_frame_logs|apply cycle_frame_refl].
Qed.

Lemma cycle_frame_process_mix this ports w : cycle_frame w (process_mix this ports w).
Proof. apply cycle_frame_logs. Qed.

Lemma link_signal_func_frame l w w' :
  link_signal_func l w = Some w' -> cycle_frame w w'.
Proof.
  unfold link_signal_func. intros H.
  destruct (links w !! l) as [lk|]; [|discriminate]. cbn in H.
  destruct (t_activation (link_target lk)) as [k|]; [|discriminate].
  cbn in H. injection H as <-. frame_chain.
Qed.

Section Frames.
Context `{Ext : Externals}.
Context (process : nat -> world -> option world).
Hypothesis process_frame : forall n w w', process n w = Some w' -> cycle_frame w w'.

Lemma signal_target_frame t w w' :
  signal_target process t w = Some w' -> cycle_frame w w'.
Proof.
  unfold signal_target. intros H.
  destruct (t_data t) as [d|]; [|discriminate]. cbn in H.
  destruct (t_signal t).
  - eapply process_frame; eassumption.
  - eapply link_signal_func_frame; eassumption.
Qed.

Lemma resume_target_frame nsec r w w' :
  resume_target process nsec r w = Some w' -> cycle_frame w w'.
Proof.
  unfold resume_target. intros H.
  destruct (get_target w r) as [t|]; [|discriminate]. cbn in H.
  destruct (t_activation t) as [k|]; [|discriminate]. cbn in H.
  destruct (acts w !! k) as [a|] eqn:Ha; [|discriminate]. cbn in H.
  assert (Hdec : cycle_frame w
                   (upd_act k
                      (set_state0
                         (set_pending (u32 (pending (state0 a) - 1)) (state0 a)))
                      w))
    by (eapply cycle_frame_upd_act_at; [exact Ha|reflexivity|reflexivity]).
  destruct (u32 (pending (state0 a) - 1) =? 0).
  - apply signal_target_frame in H.
    eapply cycle_frame_trans; [|exact H].
    eapply cycle_frame_trans; [exact Hdec|]. frame_chain.
  - injection H as <-. exact Hdec.
Qed.

Lemma resume_targets_frame nsec l : forall w w',
  resume_targets process nsec l w = Some w' -> cycle_frame w w'.
Proof.
  induction l as [|r l IH]; intros w w' H; cbn in H.
  - injection H as <-. apply cycle_frame_refl.
  - destruct (resume_target process nsec r w) as [w1|] eqn:H1; [|discriminate].
    cbn in H. eapply cycle_frame_trans.
    + eapply resume_target_frame; eassumption.
    + eapply IH; eassumption.
Qed.

Lemma resume_node_frame this status w res w' :
  resume_node process this status w = Some (res, w') -> cycle_frame w w'.
Proof.
  unfold resume_node. intros H.
  destruct (nodes w !! this) as [nd|]; [|discriminate]. cbn in H.
  destruct (resume_targets _ _ _ _) as [w1|] eqn:H1; [|discriminate].
  cbn in H. injection H as _ <-.
  eapply cycle_frame_trans; [|eapply resume_targets_frame; eassumption].
  frame_chain.
Qed.

Lemma process_node_body_frame this w w' :
  process_node_body process this w = Some w' -> cycle_frame w w'.
Proof.
  unfold process_node_body. intros H.
  destruct (nodes w !! this) as [nd|]; [|discriminate]. cbn -[has_flag] in H.
  match type of H with
  | (if ?c then _ else _) = _ => destruct c
  end.
  - injection H as <-.
    destruct (has_flag _ _); frame_chain.
  - match type of H with
    | (if ?c then _ else _) = _ => destruct c
    end.
    + injection H as <-. destruct (has_flag _ _); frame_chain.
    + destruct (resume_node _ _ _ _) as [[res w1]|] eqn:H1; [|discriminate].
      cbn in H. injection H as <-.
      apply resume_node_frame in H1.
      eapply cycle_frame_trans; [|exact H1].
      destruct (has_flag _ _); frame_chain.
Qed.

End Frames.

Lemma process_node_frame `{Ext : Externals} fuel : forall n w w',
  process_node fuel n w = Some w' -> cycle_frame w w'.
Proof.
  induction fuel as [|fuel IH]; intros n w w' H; [discriminate|].
  cbn [process_node] in H. eapply process_node_body_frame; eassumption.
Qed.

Lemma check_updates_fields a a' res owner :
  check_updates a = Some (a', res, owner) ->
  xrun_fields a' = xrun_fields a /\ required (state0 a') = required (state0 a).
Proof.
  unfold check_updates, sync_cycles.
  destruct (offset (position a) =? INT64_MIN); cbn;
    destruct (command a); cbn;
    repeat match goal with
           | |- context [if ?c =? 0 then None else _] => destruct (c =? 0); cbn
           end;
    intros H; try discriminate; injection H; intros; subst; split; reflexivity.
Qed.

Lemma do_reposition_frame driver node w w' :
  do_reposition driver node w = Some w' -> cycle_frame w w'.
Proof.
  unfold do_reposition, sync_cycles. intros H.
  destruct (nodes w !! driver) as [dn|]; [|discriminate]. cbn in H.
  destruct (nodes w !! node) as [nn|]; [|discriminate]. cbn in H.
  destruct (acts w !! rt_activation dn) as [a|] eqn:Ha; [|discriminate].
  cbn in H.
  destruct (acts w !! rt_activation nn) as [na|]; [|discriminate]. cbn in H.
  destruct (pos_state (position a) =? SPA_IO_POSITION_STATE_RUNNING); cbn in H.
  - repeat match type of H with
           | context [if ?c =? 0 then None else _] => destruct (c =? 0); cbn in H
           end; try discriminate.
    injection H as <-.
    eapply cycle_frame_insert_act; [exact Ha|reflexivity|reflexivity].
  - injection H as <-.
    eapply cycle_frame_insert_act; [exact Ha|reflexivity|reflexivity].
Qed.

Lemma update_position_frame node all_ready w w' :
  update_position node all_ready w = Some w' -> cycle_frame w w'.
Proof.
  unfold update_position. intros H.
  destruct (nodes w !! node) as [nd|]; [|discriminate]. cbn in H.
  destruct (acts w !! rt_activation nd) as [a|]; [|discriminate]. cbn in H.
  match type of H with
  | context [if ?c then _ else Some (w, all_ready)] => destruct c
  end.
  - destruct (negb all_ready).
    + destruct (u64 (sync_left a - 1) =? 0); cbn in H.
      * destruct (_ !! _) as [a'|]; [|discriminate]. cbn in H.
        destruct (_ =? _); injection H as <-.
        -- eapply cycle_frame_trans; [|frame_last].
           eapply cycle_frame_trans; [|apply cycle_frame_dump_states].
           frame_chain.
        -- eapply cycle_frame_trans; [|frame_last].
           eapply cycle_frame_trans; [|frame_last].
           eapply cycle_frame_trans; [|apply cycle_frame_dump_states].
           frame_chain.
      * cbn in H. destruct (_ !! _) as [a'|]; [|discriminate]. cbn in H.
        destruct (_ =? _); injection H as <-; frame_chain.
    + destruct all_ready; cbn in H;
        (destruct (_ !! _) as [a'|]; [|discriminate]); cbn in H;
        destruct (_ =? _); injection H as <-; frame_chain.
  - cbn in H. destruct (_ !! _) as [a'|]; [|discriminate]. cbn in H.
    destruct (_ =? _); injection H as <-; frame_chain.
Qed.

Lemma ready_target_frame k o0 o1 ro us ts r w ar rn w' ar' rn' :
  ready_target k o0 o1 ro us ts r (w, ar, rn) = Some (w', ar', rn') ->
  cycle_frame w w'.
Proof.
  unfold ready_target. intros H.
  destruct (get_target w r) as [t|]; [|discriminate]. cbn in H.
  destruct (t_activation t) as [ka|]; [|discriminate]. cbn in H.
  destruct (acts w !! ka) as [a0|]; [|discriminate]. cbn in H.
  destruct (t_node t) as [n|].
  - destruct (nodes w !! n) as [tn|]; [|discriminate]. cbn in H.
    destruct (alter _ ka (acts w) !! ka) as [ta|]; [|discriminate]. cbn in H.
    destruct (_ !! ka) as [ta'|]; [|discriminate]. cbn in H.
    destruct us; injection H; intros; subst;
      destruct (info_id tn =? o0), (info_id tn =? o1); frame_chain.
  - cbn in H. destruct (_ !! ka) as [ta'|]; [|discriminate]. cbn in H.
    destruct us; injection H; intros; subst; frame_chain.
Qed.

Lemma ready_targets_frame k o0 o1 ro us ts l : forall w ar rn w' ar' rn',
  ready_targets k o0 o1 ro us ts l (w, ar, rn) = Some (w', ar', rn') ->
  cycle_frame w w'.
Proof.
  induction l as [|r l IH]; intros w ar rn w' ar' rn' H; cbn in H.
  - injection H; intros; subst. apply cycle_frame_refl.
  - destruct (ready_target k o0 o1 ro us ts r (w, ar, rn))
      as [[[w1 ar1] rn1]|] eqn:H1; [|discriminate].
    cbn in H. eapply cycle_frame_trans.
    + eapply ready_target_frame; eassumption.
    + eapply IH; eassumption.
Qed.

Section DriverFrames.
Context `{Ext : Externals}.
Context (process : nat -> world -> option world).
Hypothesis process_frame : forall n w w', process n w = Some w' -> cycle_frame w w'.

Lemma graph_not_finished_frame node nd w w' :
  graph_not_finished process node nd w = Some w' -> cycle_frame w w'.
Proof.
  unfold graph_not_finished. intros H.
  apply (signal_target_frame process process_frame) in H.
  eapply cycle_frame_trans; [|exact H].
  eapply cycle_frame_trans; [|frame_last].
  eapply cycle_frame_trans; [|apply cycle_frame_dump_states].
  frame_chain.
Qed.

Lemma driver_cycle_frame node nd w w' :
  driver_cycle node nd w = Some w' -> cycle_frame w w'.
Proof.
  unfold driver_cycle. intros H.
  destruct (acts w !! rt_activation nd) as [a0|] eqn:Ha0; [|discriminate].
  cbn in H.
  destruct (check_updates a0) as [[[a1 st] ro]|] eqn:Hcu; [|discriminate].
  cbn in H. apply check_updates_fields in Hcu as [Hx Hr].
  destruct (ready_targets _ _ _ _ _ _ _ _) as [[[w2 ar] rn]|] eqn:Hrt;
    [|discriminate].
  cbn in H. apply ready_targets_frame in Hrt.
  assert (F2 : cycle_frame w w2).
  { eapply cycle_frame_trans; [|exact Hrt].
    eapply cycle_frame_insert_act; eassumption. }
  destruct rn as [rn|].
  - destruct (do_reposition node rn _) as [w3|] eqn:Hrp; [|discriminate].
    cbn in H. apply do_reposition_frame in Hrp.
    apply update_position_frame in H.
    eapply cycle_frame_trans; [exact F2|].
    eapply cycle_frame_trans; [|exact H].
    eapply cycle_frame_trans; [|exact Hrp]. frame_chain.
  - cbn in H. apply update_position_frame in H.
    eapply cycle_frame_trans; [exact F2|].
    eapply cycle_frame_trans; [|exact H]. frame_chain.
Qed.

Lemma driver_ready_frame node nd w w' :
  driver_ready process node nd w = Some w' -> cycle_frame w w'.
Proof.
  unfold driver_ready. intros H.
  destruct (acts w !! rt_activation nd) as [a|]; [|discriminate]. cbn in H.
  destruct (pending (state0 a) =? 0); cbn in H.
  - eapply driver_cycle_frame; eassumption.
  - destruct (graph_not_finished process node nd w) as [w0|] eqn:H0;
      [|discriminate].
    cbn in H. eapply cycle_frame_trans.
    + eapply graph_not_finished_frame; eassumption.
    + eapply driver_cycle_frame; eassumption.
Qed.

Lemma node_ready_body_frame node status w res w' :
  node_ready_body process node status w = Some (res, w') -> cycle_frame w w'.
Proof.
  unfold node_ready_body. intros H.
  destruct (nodes w !! node) as [nd|]; [|discriminate]. cbn -[has_flag] in H.
  assert (Hfirst : exists w0,
             (if Nat.eqb node (driver_node nd)
              then driver_ready process node nd w else Some w) = Some w0
             /\ cycle_frame w w0).
  { destruct (Nat.eqb node (driver_node nd)).
    - destruct (driver_ready process node nd w) as [w0|] eqn:H0;
        [|discriminate].
      exists w0. split; [reflexivity|].
      eapply driver_ready_frame; eassumption.
    - exists w. split; [reflexivity|apply cycle_frame_refl]. }
  destruct Hfirst as (w0 & E0 & F0). rewrite E0 in H. cbn -[has_flag] in H.
  destruct (driver nd && negb (master nd)).
  - injection H as _ <-. exact F0.
  - apply (resume_node_frame process process_frame) in H.
    eapply cycle_frame_trans; [exact F0|].
    eapply cycle_frame_trans; [|exact H].
    destruct (has_flag _ _); [apply cycle_frame_process_mix|apply cycle_frame_refl].
Qed.

End DriverFrames.

Lemma node_ready_frame `{Ext : Externals} fuel node status w res w' :
  node_ready fuel node status w = Some (res, w') -> cycle_frame w w'.
Proof.
  unfold node_ready. apply node_ready_body_frame.
  intros n w0 w0'. apply process_node_frame.
Qed.

(** ** A driver that finds its cycle unfinished *)

Lemma dump_line_log e w r : dump_line (log e w) r = dump_line w r.
Proof. reflexivity. Qed.




(** ** Predecessors racing on one target *)

Lemma filter_length_insert {A} (f : A -> bool) (l : list A) : forall i x y,
  l !! i = Some x ->
  (length (List.filter f (<[i := y]> l)) + (if f x then 1 else 0)
   = length (List.filter f l) + (if f y then 1 else 0))%nat.
Proof.
  induction l as [|z l IH]; intros i x y H; [discriminate|].
  destruct i as [|i]; cbn in *.
  - injection H as ->. destruct (f x), (f y); cbn; lia.
  - specialize (IH i x y H). destruct (f z); cbn [length Nat.add];
      [f_equal|]; exact IH.
Qed.

Lemma filter_length_unique {A} (f : A -> bool) (l : list A) :
  (forall i j x y, l !! i = Some x -> l !! j = Some y ->
                   f x = true -> f y = true -> i = j) ->
  (length (List.filter f l) <= 1)%nat.
Proof.
  induction l as [|z l IH]; intros H; cbn; [lia|].
  assert (IH' : (length (List.filter f l) <= 1)%nat).
  { apply IH. intros i j x y Hi Hj Hx Hy.
    specialize (H (S i) (S j) x y Hi Hj Hx Hy). lia. }
  destruct (f z) eqn:Hz; [|exact IH'].
  assert (Hnil : List.filter f l = []).
  { destruct (List.filter f l) as [|x r] eqn:E; [reflexivity|].
    assert (Hx : In x (List.filter f l)) by (rewrite E; now left).
    apply filter_In in Hx as [Hin Hfx].
    apply list_elem_of_In, list_elem_of_lookup in Hin as [i Hi].
    specialize (H 0%nat (S i) z x eq_refl Hi Hz Hfx). discriminate. }
  rewrite Hnil. cbn. lia.
Qed.

Lemma count_at_dec_pos (l : list pred) i p :
  l !! i = Some p -> is_at_dec p = true -> (0 < count_at_dec l)%nat.
Proof.
  intros Hi Hp. unfold count_at_dec.
  assert (Hin : In p (List.filter is_at_dec l)).
  { apply filter_In. split; [|assumption].
    apply list_elem_of_In, list_elem_of_lookup. eauto. }
  destruct (List.filter is_at_dec l); [contradiction|cbn; lia].
Qed.

Lemma count_at_dec_le (l : list pred) : (count_at_dec l <= length l)%nat.
Proof. apply filter_length_le. Qed.

Lemma start_race_count (a0 : pw_node_activation) nsecs :
  count_at_dec (preds (start_race a0 nsecs)) = length nsecs
  /\ List.filter is_done_signalled (preds (start_race a0 nsecs)) = [].
Proof.
  unfold count_at_dec. cbn.
  induction nsecs as [|t l [IH1 IH2]]; [split; reflexivity|].
  cbn. split; [now f_equal|assumption].
Qed.

Lemma start_race_inv a nsecs :
  pending (state0 a) = Z.of_nat (length nsecs) ->
  race_inv nsecs (status a) (start_race a nsecs).
Proof.
  intros Hp.
  assert (Hall : forall i p,
             map (fun t => {| pred_pc_of := at_dec; pred_nsec := t |}) nsecs
               !! i = Some p ->
             pred_pc_of p = at_dec /\ nsecs !! i = Some (pred_nsec p)).
  { intros i p H. rewrite list_lookup_fmap in H.
    destruct (nsecs !! i) as [t|]; [|discriminate].
    injection H as <-. auto. }
  destruct (start_race_count a nsecs) as [Hc Hs]. cbn in Hc, Hs.
  constructor; cbn.
  - now rewrite Hc.
  - apply length_map.
  - intros i p H. apply (Hall i p H).
  - intros i p H Hhot. destruct (Hall i p H) as [Hpc _].
    unfold is_hot in Hhot. rewrite Hpc in Hhot. discriminate.
  - intros i j p q Hi _ Hhot. destruct (Hall i p Hi) as [Hpc _].
    unfold is_hot in Hhot. rewrite Hpc in Hhot. discriminate.
  - intros e [].
  - now rewrite Hs.
  - auto.
Qed.

Lemma list_insert_lookup_cases {A} (l : list A) i j x y q :
  l !! i = Some x -> <[i := y]> l !! j = Some q ->
  (j = i /\ q = y) \/ (j <> i /\ l !! j = Some q).
Proof.
  intros Hi Hj. destruct (decide (j = i)) as [->|Hne].
  - left. rewrite list_lookup_insert_eq in Hj by (eapply lookup_lt_Some; eassumption).
    split; congruence.
  - right. rewrite list_lookup_insert_ne in Hj by congruence. auto.
Qed.

Lemma list_insert_lookup_same {A} (l : list A) i x y :
  l !! i = Some x -> <[i := y]> l !! i = Some y.
Proof.
  intros Hi. apply list_lookup_insert_eq. eapply lookup_lt_Some; eassumption.
Qed.

Section RaceStep.
Context (nsecs : list Z) (status0 : pw_node_activation_status).
Context (s : race) (i : nat) (p : pred).
Hypothesis Hinv : race_inv nsecs status0 s.
Hypothesis Hi : preds s !! i = Some p.

(** a step of the predecessor that saw zero *)
Lemma hot_step_inv c a' e :
  is_hot p = true ->
  is_hot (at_pc c p) = true ->
  state0 a' = state0 (target_act s) ->
  (status a' = PW_NODE_ACTIVATION_TRIGGERED ->
   status (target_act s) = PW_NODE_ACTIVATION_TRIGGERED
   \/ e = wrote_status i (pending (state0 (target_act s)))) ->
  (e = wrote_status i (pending (state0 (target_act s)))
   \/ e = wrote_signal_time i (pred_nsec p) (pending (state0 (target_act s)))
   \/ e = called_signal i (pending (state0 (target_act s)))) ->
  is_done_signalled p = false ->
  is_signal_event e = is_done_signalled (at_pc c p) ->
  race_inv nsecs status0
    {| target_act := a'; preds := <[i := at_pc c p]> (preds s);
       history := history s ++ [e] |}.
Proof.
  intros Hhot Hhot' Hst Hstatus He Hnd Hsig.
  destruct Hinv as [Jp Jl Jn Jh J1 Jhist Jsig Jst].
  destruct (Jh i p Hi Hhot) as [Hc0 Hdec].
  assert (Hpend : pending (state0 (target_act s)) = 0) by (rewrite Jp, Hc0; reflexivity).
  assert (Hnotdec : is_at_dec p = false)
    by (unfold is_at_dec, is_hot in *; destruct (pred_pc_of p); congruence).
  assert (Hnotdec' : is_at_dec (at_pc c p) = false)
    by (unfold is_at_dec, is_hot in *; cbn in *; destruct c; congruence).
  assert (Hcount : count_at_dec (<[i := at_pc c p]> (preds s)) = 0%nat).
  { pose proof (filter_length_insert is_at_dec (preds s) i p (at_pc c p) Hi) as E.
    rewrite Hnotdec, Hnotdec' in E. unfold count_at_dec in *. lia. }
  assert (Hback : forall j q, <[i := at_pc c p]> (preds s) !! j = Some q ->
                  is_hot q = true ->
                  exists q0, preds s !! j = Some q0 /\ is_hot q0 = true).
  { intros j q Hj Hq.
    destruct (list_insert_lookup_cases _ _ _ _ _ _ Hi Hj) as [[-> ->]|[Hne Hj']];
      eauto. }
  assert (Hfwd : forall j q0, preds s !! j = Some q0 -> is_hot q0 = true ->
                 exists q, <[i := at_pc c p]> (preds s) !! j = Some q
                           /\ is_hot q = true /\ pred_nsec q = pred_nsec q0).
  { intros j q0 Hj Hq. destruct (decide (j = i)) as [->|Hne].
    - exists (at_pc c p). rewrite (list_insert_lookup_same _ _ _ _ Hi).
      repeat split; [assumption|]. cbn. congruence.
    - exists q0. rewrite list_lookup_insert_ne by congruence. auto. }
  constructor; cbn [target_act preds history].
  - rewrite Hst, Hcount. exact Hpend.
  - rewrite length_insert. exact Jl.
  - intros j q Hj.
    destruct (list_insert_lookup_cases _ _ _ _ _ _ Hi Hj) as [[-> ->]|[Hne Hj']].
    + cbn. apply (Jn i p Hi).
    + apply (Jn j q Hj').
  - intros j q Hj Hq. split; [exact Hcount|].
    destruct (Hback j q Hj Hq) as (q0 & Hj0 & Hq0).
    apply in_or_app. left. apply (Jh j q0 Hj0 Hq0).
  - intros j k q r Hj Hk Hq Hr.
    destruct (Hback j q Hj Hq) as (q0 & Hj0 & Hq0).
    destruct (Hback k r Hk Hr) as (r0 & Hk0 & Hr0).
    apply (J1 j k q0 r0 Hj0 Hk0 Hq0 Hr0).
  - intros ev Hin. apply in_app_or in Hin as [Hin|[<-|[]]].
    + specialize (Jhist ev Hin). destruct ev as [j b z|j z|j t z|j z].
      * intros Hz. destruct (Jhist Hz) as [Hb (q0 & Hj0 & Hq0)].
        split; [exact Hb|].
        destruct (Hfwd j q0 Hj0 Hq0) as (q & Hq1 & Hq2 & _). eauto.
      * destruct Jhist as [Hz (q0 & Hj0 & Hq0)]. split; [exact Hz|].
        destruct (Hfwd j q0 Hj0 Hq0) as (q & Hq1 & Hq2 & _). eauto.
      * destruct Jhist as [Hz (q0 & Hj0 & Hq0 & Ht)]. split; [exact Hz|].
        destruct (Hfwd j q0 Hj0 Hq0) as (q & Hq1 & Hq2 & Hq3).
        exists q. repeat split; congruence.
      * destruct Jhist as [Hz (q0 & Hj0 & Hq0)]. split; [exact Hz|].
        destruct (Hfwd j q0 Hj0 Hq0) as (q & Hq1 & Hq2 & _). eauto.
    + destruct (Hfwd i p Hi Hhot) as (q & Hq1 & Hq2 & Hq3).
      destruct He as [->|[->| ->]]; (split; [exact Hpend|]);
        exists q; repeat split; assumption.
  - rewrite List.filter_app, length_app, Jsig. cbn [List.filter].
    pose proof (filter_length_insert is_done_signalled (preds s) i p (at_pc c p) Hi) as E.
    rewrite Hnd, <- Hsig in E. destruct (is_signal_event e); cbn in *; lia.
  - intros Hs. destruct (Hstatus Hs) as [Hold| ->].
    + destruct (Jst Hold) as [?|[j Hj]]; [now left|].
      right. exists j. apply in_or_app. now left.
    + right. exists i. rewrite Hpend. apply in_or_app. right. now left.
Qed.

End RaceStep.

(** the atomic decrement of a predecessor *)
Lemma dec_step_inv nsecs status0 s i p :
  race_inv nsecs status0 s ->
  Z.of_nat (length nsecs) < 2 ^ 32 ->
  preds s !! i = Some p ->
  pred_pc_of p = at_dec ->
  let a := target_act s in
  let st := fst (pw_node_activation_state_dec (state0 a) 1) in
  let zero := snd (pw_node_activation_state_dec (state0 a) 1) in
  race_inv nsecs status0
    {| target_act := set_state0 st a;
       preds := <[i := at_pc (if zero then at_status else done_quiet) p]> (preds s);
       history := history s ++ [decremented i (pending (state0 a)) (pending st)] |}.
Proof.
  intros [Jp Jl Jn Jh J1 Jhist Jsig Jst] Hlen Hi Hpc a st zero. subst a.
  assert (Hdec : is_at_dec p = true) by (unfold is_at_dec; now rewrite Hpc).
  pose proof (count_at_dec_pos _ _ _ Hi Hdec) as Hpos.
  pose proof (count_at_dec_le (preds s)) as Hle.
  assert (Hcold : forall j q, preds s !! j = Some q -> is_hot q = true -> False).
  { intros j q Hj Hq. destruct (Jh j q Hj Hq) as [H0 _]. lia. }
  set (c := count_at_dec (preds s)) in *.
  assert (Hnew : pending st = Z.of_nat c - 1).
  { subst st. cbn. rewrite Jp. unfold u32.
    apply Z.mod_small. lia. }
  assert (Hzero : zero = (Z.of_nat c - 1 =? 0)).
  { subst zero. cbn. rewrite Jp. unfold u32.
    rewrite Z.mod_small by lia. reflexivity. }
  set (p' := at_pc (if zero then at_status else done_quiet) p).
  assert (Hnd' : is_at_dec p' = false) by (subst p'; destruct zero; reflexivity).
  assert (Hcount : count_at_dec (<[i := p']> (preds s)) = (c - 1)%nat).
  { pose proof (filter_length_insert is_at_dec (preds s) i p p' Hi) as E.
    rewrite Hdec, Hnd' in E. unfold count_at_dec in *. lia. }
  assert (Hback : forall j q, <[i := p']> (preds s) !! j = Some q ->
                  is_hot q = true -> j = i /\ q = p' /\ zero = true).
  { intros j q Hj Hq.
    destruct (list_insert_lookup_cases _ _ _ _ _ _ Hi Hj) as [[-> ->]|[Hne Hj']].
    - repeat split. subst p'. destruct zero; [reflexivity|discriminate].
    - destruct (Hcold j q Hj' Hq). }
  constructor; cbn [target_act preds history].
  - cbn [state0 set_state0]. rewrite Hnew, Hcount. lia.
  - rewrite length_insert. exact Jl.
  - intros j q Hj.
    destruct (list_insert_lookup_cases _ _ _ _ _ _ Hi Hj) as [[-> ->]|[Hne Hj']].
    + cbn. apply (Jn i p Hi).
    + apply (Jn j q Hj').
  - intros j q Hj Hq. destruct (Hback j q Hj Hq) as (-> & -> & Hz).
    rewrite Hzero in Hz. apply Z.eqb_eq in Hz.
    split; [rewrite Hcount; lia|].
    apply in_or_app. right. left. rewrite Hnew, Jp.
    f_equal; lia.
  - intros j k q r Hj Hk Hq Hr.
    destruct (Hback j q Hj Hq) as (-> & _). destruct (Hback k r Hk Hr) as (-> & _).
    reflexivity.
  - intros ev Hin. apply in_app_or in Hin as [Hin|[<-|[]]].
    + specialize (Jhist ev Hin). destruct ev as [j b z|j z|j t z|j z].
      * intros Hz. destruct (Jhist Hz) as [_ (q0 & Hj0 & Hq0)].
        destruct (Hcold j q0 Hj0 Hq0).
      * destruct Jhist as [_ (q0 & Hj0 & Hq0)]. destruct (Hcold j q0 Hj0 Hq0).
      * destruct Jhist as [_ (q0 & Hj0 & Hq0 & _)]. destruct (Hcold j q0 Hj0 Hq0).
      * destruct Jhist as [_ (q0 & Hj0 & Hq0)]. destruct (Hcold j q0 Hj0 Hq0).
    + rewrite Hnew, Jp. intros Hz. split; [lia|].
      exists p'. split; [apply (list_insert_lookup_same _ _ _ _ Hi)|].
      subst p'. rewrite Hzero.
      destruct (Z.eqb_spec (Z.of_nat c - 1) 0); [reflexivity|lia].
  - rewrite List.filter_app, length_app, Jsig. cbn [List.filter is_signal_event length].
    pose proof (filter_length_insert is_done_signalled (preds s) i p p' Hi) as E.
    assert (is_done_signalled p = false)
      by (unfold is_done_signalled; now rewrite Hpc).
    assert (is_done_signalled p' = false)
      by (subst p'; destruct zero; reflexivity).
    rewrite H, H0 in E. lia.
  - cbn [status set_state0]. intros Hs.
    destruct (Jst Hs) as [?|[j Hj]]; [now left|].
    right. exists j. apply in_or_app. now left.
Qed.

Lemma pred_step_inv nsecs status0 s i s' :
  race_inv nsecs status0 s ->
  Z.of_nat (length nsecs) < 2 ^ 32 ->
  pred_step i s = Some s' ->
  race_inv nsecs status0 s'.
Proof.
  intros Hinv Hlen Hstep. unfold pred_step in Hstep.
  destruct (preds s !! i) as [p|] eqn:Hi; [|discriminate].
  cbn [mbind option_bind] in Hstep.
  destruct (pred_pc_of p) eqn:Hpc; try discriminate.
  - pose proof (dec_step_inv nsecs status0 s i p Hinv Hlen Hi Hpc) as H.
    cbv zeta in H.
    destruct (pw_node_activation_state_dec (state0 (target_act s)) 1)
      as [st zero] eqn:E.
    injection Hstep as <-. exact H.
  - injection Hstep as <-.
    apply (hot_step_inv nsecs status0 s i p Hinv Hi at_signal_time);
      unfold is_hot, is_done_signalled; rewrite ?Hpc; cbn; auto.
  - injection Hstep as <-.
    apply (hot_step_inv nsecs status0 s i p Hinv Hi at_signal);
      unfold is_hot, is_done_signalled; rewrite ?Hpc; cbn; auto.
  - injection Hstep as <-.
    apply (hot_step_inv nsecs status0 s i p Hinv Hi done_signalled);
      unfold is_hot, is_done_signalled; rewrite ?Hpc; cbn; auto.
Qed.

Lemma run_race_inv nsecs status0 sched : forall s s',
  race_inv nsecs status0 s ->
  Z.of_nat (length nsecs) < 2 ^ 32 ->
  run_race sched s = Some s' ->
  race_inv nsecs status0 s'.
Proof.
  induction sched as [|i sched IH]; intros s s' Hinv Hlen Hrun; cbn in Hrun.
  - now injection Hrun as <-.
  - destruct (pred_step i s) as [s1|] eqn:Hstep; [|discriminate].
    cbn in Hrun. eapply IH; [|exact Hlen|exact Hrun].
    eapply pred_step_inv; eassumption.
Qed.

(** ** The fields of the target during a race *)

Lemma past_status_hot p : past_status p = true -> is_hot p = true.
Proof. unfold past_status, is_hot. now destruct (pred_pc_of p). Qed.

Lemma past_time_hot p : past_time p = true -> is_hot p = true.
Proof. unfold past_time, is_hot. now destruct (pred_pc_of p). Qed.

Lemma done_signalled_hot p : is_done_signalled p = true -> is_hot p = true.
Proof. unfold is_done_signalled, is_hot. now destruct (pred_pc_of p). Qed.

Lemma start_race_fields a nsecs : race_fields a (start_race a nsecs).
Proof.
  assert (Hall : forall i p, preds (start_race a nsecs) !! i = Some p ->
                             pred_pc_of p = at_dec).
  { cbn. intros i p H. rewrite list_lookup_fmap in H.
    destruct (nsecs !! i); [|discriminate]. now injection H as <-. }
  constructor; try (intros; reflexivity);
    try (intros i p H Hp; apply Hall in H;
         unfold past_status, past_time, is_done_signalled in Hp;
         rewrite H in Hp; discriminate);
    try (cbn; intros; contradiction).
  intros Hne Hc. destruct (start_race_count a nsecs) as [Hc' _].
  rewrite Hc in Hc'. destruct nsecs; [now contradiction Hne|discriminate].
Qed.

Section FieldStep.
Context (nsecs : list Z) (a0 : pw_node_activation).
Context (s : race) (i : nat) (p : pred).
Hypothesis Hinv : race_inv nsecs (status a0) s.
Hypothesis Hf : race_fields a0 s.
Hypothesis Hi : preds s !! i = Some p.

Lemma hot_pending_zero :
  is_hot p = true -> pending (state0 (target_act s)) = 0.
Proof.
  intros Hh. destruct Hinv as [Jp _ _ Jh _ _ _ _].
  destruct (Jh i p Hi Hh) as [Hc _]. now rewrite Jp, Hc.
Qed.

Lemma hot_unique j q :
  is_hot p = true -> preds s !! j = Some q -> is_hot q = true -> j = i.
Proof.
  intros Hh Hj Hq. destruct Hinv as [_ _ _ _ J1 _ _ _].
  apply (J1 j i q p Hj Hi Hq Hh).
Qed.

Lemma insert_same c : <[i := at_pc c p]> (preds s) !! i = Some (at_pc c p).
Proof. apply (list_insert_lookup_same _ _ _ _ Hi). Qed.

Lemma insert_other c j :
  j <> i -> <[i := at_pc c p]> (preds s) !! j = preds s !! j.
Proof. intros Hne. apply list_lookup_insert_ne. congruence. Qed.

Ltac look H :=
  match type of H with
  | <[?k := at_pc ?c _]> _ !! ?j = Some _ =>
      destruct (decide (j = k)) as [->|?Hne];
      [rewrite insert_same in H; injection H as <-
      |rewrite insert_other in H by assumption]
  end.

Ltac relook :=
  match goal with
  | |- exists q, <[?k := at_pc ?c _]> _ !! ?j = Some q /\ _ =>
      destruct (decide (j = k)) as [->|?Hne];
      [exists (at_pc c p); rewrite insert_same
      |rewrite insert_other by assumption]
  end.

(** the atomic decrement *)
Lemma dec_step_fields st zero :
  pred_pc_of p = at_dec ->
  pw_node_activation_state_dec (state0 (target_act s)) 1 = (st, zero) ->
  race_inv nsecs (status a0)
    {| target_act := set_state0 st (target_act s);
       preds := <[i := at_pc (if zero then at_status else done_quiet) p]>
                  (preds s);
       history := history s
                  ++ [decremented i (pending (state0 (target_act s)))
                        (pending st)] |} ->
  race_fields a0
    {| target_act := set_state0 st (target_act s);
       preds := <[i := at_pc (if zero then at_status else done_quiet) p]>
                  (preds s);
       history := history s
                  ++ [decremented i (pending (state0 (target_act s)))
                        (pending st)] |}.
Proof.
  intros Hpc E Hinv'.
  destruct Hf as [Fss Fsk Fts Ftk Fsg Fhs Fht Fhg Fhot Freq].
  assert (Hp1 : past_status p = false) by (unfold past_status; now rewrite Hpc).
  assert (Hp2 : past_time p = false) by (unfold past_time; now rewrite Hpc).
  assert (Hp3 : is_done_signalled p = false)
    by (unfold is_done_signalled; now rewrite Hpc).
  constructor; cbn [target_act preds history].
  - intros j q Hj Hq. look Hj; [destruct zero; discriminate|].
    destruct (Fss j q Hj Hq) as [H1 H2]. split; [exact H1|].
    apply in_or_app. now left.
  - intros H. cbn. apply Fsk. intros j q Hj.
    destruct (decide (j = i)) as [->|Hne]; [congruence|].
    apply (H j q). now rewrite insert_other.
  - intros j q Hj Hq. look Hj; [destruct zero; discriminate|].
    destruct (Fts j q Hj Hq) as [H1 H2]. split; [exact H1|].
    apply in_or_app. now left.
  - intros H. cbn. apply Ftk. intros j q Hj.
    destruct (decide (j = i)) as [->|Hne]; [congruence|].
    apply (H j q). now rewrite insert_other.
  - intros j q Hj Hq. look Hj; [destruct zero; discriminate|].
    apply in_or_app. left. apply (Fsg j q Hj Hq).
  - intros j x Hin. apply in_app_or in Hin as [Hin|[Hin|[]]];
      [|discriminate].
    destruct (Fhs j x Hin) as (q & Hq & Hqs).
    assert (j <> i) by (intros ->; congruence).
    exists q. now rewrite insert_other.
  - intros j t x Hin. apply in_app_or in Hin as [Hin|[Hin|[]]];
      [|discriminate].
    destruct (Fht j t x Hin) as (q & Hq & Hqs & Hqt).
    assert (j <> i) by (intros ->; congruence).
    exists q. now rewrite insert_other.
  - intros j x Hin. apply in_app_or in Hin as [Hin|[Hin|[]]];
      [|discriminate].
    destruct (Fhg j x Hin) as (q & Hq & Hqs).
    assert (j <> i) by (intros ->; congruence).
    exists q. now rewrite insert_other.
  - intros _ Hc. destruct Hinv' as [Jp' _ _ _ _ _ _ _].
    cbn [target_act preds state0 set_state0] in Jp'.
    rewrite Hc in Jp'.
    assert (Hz : zero = true).
    { unfold pw_node_activation_state_dec in E. injection E as Hst Hzero.
      rewrite <- Hzero. rewrite <- Hst in Jp'. cbn [pending set_pending] in Jp'.
      now rewrite Jp'. }
    subst zero. exists i, (at_pc at_status p).
    split; [apply insert_same|reflexivity].
  - unfold pw_node_activation_state_dec in E. injection E as <- _.
    exact Freq.
Qed.

(** the write of the status *)
Lemma status_step_fields :
  pred_pc_of p = at_status ->
  race_fields a0
    {| target_act := set_status PW_NODE_ACTIVATION_TRIGGERED (target_act s);
       preds := <[i := at_pc at_signal_time p]> (preds s);
       history := history s
                  ++ [wrote_status i (pending (state0 (target_act s)))] |}.
Proof.
  intros Hpc.
  destruct Hf as [Fss Fsk Fts Ftk Fsg Fhs Fht Fhg Fhot Freq].
  assert (Hh : is_hot p = true) by (unfold is_hot; now rewrite Hpc).
  assert (Hp1 : past_status p = false) by (unfold past_status; now rewrite Hpc).
  assert (Hp2 : past_time p = false) by (unfold past_time; now rewrite Hpc).
  assert (Hp3 : is_done_signalled p = false)
    by (unfold is_done_signalled; now rewrite Hpc).
  rewrite (hot_pending_zero Hh).
  assert (Hold : forall j q (f : pred -> bool),
             (forall x, f x = true -> is_hot x = true) -> f p = false ->
             preds s !! j = Some q -> f q = true -> False).
  { intros j q f Hfh Hfp Hj Hq.
    assert (j = i) by (apply (hot_unique j q Hh Hj (Hfh _ Hq))). subst j.
    congruence. }
  constructor; cbn [target_act preds history].
  - intros j q Hj Hq. split; [reflexivity|]. look Hj.
    + apply in_or_app. right. now left.
    + destruct (Hold j q past_status past_status_hot Hp1 Hj Hq).
  - intros H. specialize (H i _ (insert_same at_signal_time)). discriminate.
  - intros j q Hj Hq. look Hj; [discriminate|].
    destruct (Hold j q past_time past_time_hot Hp2 Hj Hq).
  - intros H. cbn. apply Ftk. intros j q Hj.
    destruct (decide (j = i)) as [->|Hne]; [congruence|].
    apply (H j q). now rewrite insert_other.
  - intros j q Hj Hq. look Hj; [discriminate|].
    destruct (Hold j q is_done_signalled done_signalled_hot Hp3 Hj Hq).
  - intros j x Hin. apply in_app_or in Hin as [Hin|[Hin|[]]].
    + destruct (Fhs j x Hin) as (q & Hq & Hqs).
      destruct (Hold j q past_status past_status_hot Hp1 Hq Hqs).
    + injection Hin as <- _. exists (at_pc at_signal_time p).
      split; [apply insert_same|reflexivity].
  - intros j t x Hin. apply in_app_or in Hin as [Hin|[Hin|[]]];
      [|discriminate].
    destruct (Fht j t x Hin) as (q & Hq & Hqs & _).
    destruct (Hold j q past_time past_time_hot Hp2 Hq Hqs).
  - intros j x Hin. apply in_app_or in Hin as [Hin|[Hin|[]]];
      [|discriminate].
    destruct (Fhg j x Hin) as (q & Hq & Hqs).
    destruct (Hold j q is_done_signalled done_signalled_hot Hp3 Hq Hqs).
  - intros _ _. exists i, (at_pc at_signal_time p).
    split; [apply insert_same|reflexivity].
  - exact Freq.
Qed.

(** the write of the signal time *)
Lemma time_step_fields :
  pred_pc_of p = at_signal_time ->
  race_fields a0
    {| target_act := set_signal_time (pred_nsec p) (target_act s);
       preds := <[i := at_pc at_signal p]> (preds s);
       history := history s
                  ++ [wrote_signal_time i (pred_nsec p)
                        (pending (state0 (target_act s)))] |}.
Proof.
  intros Hpc.
  destruct Hf as [Fss Fsk Fts Ftk Fsg Fhs Fht Fhg Fhot Freq].
  assert (Hh : is_hot p = true) by (unfold is_hot; now rewrite Hpc).
  assert (Hp1 : past_status p = true) by (unfold past_status; now rewrite Hpc).
  assert (Hp2 : past_time p = false) by (unfold past_time; now rewrite Hpc).
  assert (Hp3 : is_done_signalled p = false)
    by (unfold is_done_signalled; now rewrite Hpc).
  rewrite (hot_pending_zero Hh).
  assert (Hold : forall j q (f : pred -> bool),
             (forall x, f x = true -> is_hot x = true) -> f p = false ->
             preds s !! j = Some q -> f q = true -> False).
  { intros j q f Hfh Hfp Hj Hq.
    assert (j = i) by (apply (hot_unique j q Hh Hj (Hfh _ Hq))). subst j.
    congruence. }
  constructor; cbn [target_act preds history].
  - intros j q Hj Hq.
    assert (Hs : status (target_act s) = PW_NODE_ACTIVATION_TRIGGERED
                 /\ In (wrote_status j 0) (history s)).
    { look Hj; [apply (Fss i p Hi Hp1)|apply (Fss j q Hj Hq)]. }
    destruct Hs as [H1 H2]. split; [exact H1|]. apply in_or_app. now left.
  - intros H. specialize (H i _ (insert_same at_signal)). discriminate.
  - intros j q Hj Hq. look Hj.
    + split; [reflexivity|]. apply in_or_app. right. now left.
    + destruct (Hold j q past_time past_time_hot Hp2 Hj Hq).
  - intros H. specialize (H i _ (insert_same at_signal)). discriminate.
  - intros j q Hj Hq. look Hj; [discriminate|].
    destruct (Hold j q is_done_signalled done_signalled_hot Hp3 Hj Hq).
  - intros j x Hin. apply in_app_or in Hin as [Hin|[Hin|[]]];
      [|discriminate].
    destruct (Fhs j x Hin) as (q & Hq & Hqs).
    relook; [split; reflexivity|eauto].
  - intros j t x Hin. apply in_app_or in Hin as [Hin|[Hin|[]]].
    + destruct (Fht j t x Hin) as (q & Hq & Hqs & _).
      destruct (Hold j q past_time past_time_hot Hp2 Hq Hqs).
    + injection Hin as <- <- _. exists (at_pc at_signal p).
      split; [apply insert_same|split; reflexivity].
  - intros j x Hin. apply in_app_or in Hin as [Hin|[Hin|[]]];
      [|discriminate].
    destruct (Fhg j x Hin) as (q & Hq & Hqs).
    destruct (Hold j q is_done_signalled done_signalled_hot Hp3 Hq Hqs).
  - intros _ _. exists i, (at_pc at_signal p).
    split; [apply insert_same|reflexivity].
  - exact Freq.
Qed.

(** the call of signal *)
Lemma signal_step_fields :
  pred_pc_of p = at_signal ->
  race_fields a0
    {| target_act := target_act s;
       preds := <[i := at_pc done_signalled p]> (preds s);
       history := history s
                  ++ [called_signal i (pending (state0 (target_act s)))] |}.
Proof.
  intros Hpc.
  destruct Hf as [Fss Fsk Fts Ftk Fsg Fhs Fht Fhg Fhot Freq].
  assert (Hh : is_hot p = true) by (unfold is_hot; now rewrite Hpc).
  assert (Hp1 : past_status p = true) by (unfold past_status; now rewrite Hpc).
  assert (Hp2 : past_time p = true) by (unfold past_time; now rewrite Hpc).
  assert (Hp3 : is_done_signalled p = false)
    by (unfold is_done_signalled; now rewrite Hpc).
  rewrite (hot_pending_zero Hh).
  assert (Hold : forall j q (f : pred -> bool),
             (forall x, f x = true -> is_hot x = true) -> f p = false ->
             preds s !! j = Some q -> f q = true -> False).
  { intros j q f Hfh Hfp Hj Hq.
    assert (j = i) by (apply (hot_unique j q Hh Hj (Hfh _ Hq))). subst j.
    congruence. }
  constructor; cbn [target_act preds history].
  - intros j q Hj Hq.
    assert (Hs : status (target_act s) = PW_NODE_ACTIVATION_TRIGGERED
                 /\ In (wrote_status j 0) (history s)).
    { look Hj; [apply (Fss i p Hi Hp1)|apply (Fss j q Hj Hq)]. }
    destruct Hs as [H1 H2]. split; [exact H1|]. apply in_or_app. now left.
  - intros H. specialize (H i _ (insert_same done_signalled)). discriminate.
  - intros j q Hj Hq. look Hj.
    + destruct (Fts i p Hi Hp2) as [H1 H2]. split; [exact H1|].
      apply in_or_app. now left.
    + destruct (Fts j q Hj Hq) as [H1 H2]. split; [exact H1|].
      apply in_or_app. now left.
  - intros H. specialize (H i _ (insert_same done_signalled)). discriminate.
  - intros j q Hj Hq. look Hj.
    + apply in_or_app. right. now left.
    + destruct (Hold j q is_done_signalled done_signalled_hot Hp3 Hj Hq).
  - intros j x Hin. apply in_app_or in Hin as [Hin|[Hin|[]]];
      [|discriminate].
    destruct (Fhs j x Hin) as (q & Hq & Hqs).
    relook; [split; reflexivity|eauto].
  - intros j t x Hin. apply in_app_or in Hin as [Hin|[Hin|[]]];
      [|discriminate].
    destruct (Fht j t x Hin) as (q & Hq & Hqs & Hqt).
    relook; [|eauto].
    split; [reflexivity|]. split; [reflexivity|]. cbn. congruence.
  - intros j x Hin. apply in_app_or in Hin as [Hin|[Hin|[]]].
    + destruct (Fhg j x Hin) as (q & Hq & Hqs).
      destruct (Hold j q is_done_signalled done_signalled_hot Hp3 Hq Hqs).
    + injection Hin as <- _. exists (at_pc done_signalled p).
      split; [apply insert_same|reflexivity].
  - intros _ _. exists i, (at_pc done_signalled p).
    split; [apply insert_same|reflexivity].
  - exact Freq.
Qed.

End FieldStep.

Lemma pred_step_fields nsecs a0 s i s' :
  race_inv nsecs (status a0) s ->
  race_fields a0 s ->
  Z.of_nat (length nsecs) < 2 ^ 32 ->
  pred_step i s = Some s' ->
  race_fields a0 s'.
Proof.
  intros Hinv Hf Hlen Hstep.
  pose proof (pred_step_inv _ _ _ _ _ Hinv Hlen Hstep) as Hinv'.
  unfold pred_step in Hstep.
  destruct (preds s !! i) as [p|] eqn:Hi; [|discriminate].
  cbn [mbind option_bind] in Hstep.
  destruct (pred_pc_of p) eqn:Hpc; try discriminate.
  - destruct (pw_node_activation_state_dec (state0 (target_act s)) 1)
      as [st zero] eqn:E.
    injection Hstep as <-.
    eapply dec_step_fields; eassumption.
  - injection Hstep as <-. eapply status_step_fields; eassumption.
  - injection Hstep as <-. eapply time_step_fields; eassumption.
  - injection Hstep as <-. eapply signal_step_fields; eassumption.
Qed.

Lemma run_race_fields nsecs a0 sched : forall s s',
  race_inv nsecs (status a0) s ->
  race_fields a0 s ->
  Z.of_nat (length nsecs) < 2 ^ 32 ->
  run_race sched s = Some s' ->
  race_fields a0 s'.
Proof.
  induction sched as [|i sched IH]; intros s s' Hinv Hf Hlen Hrun;
    cbn in Hrun.
  - now injection Hrun as <-.
  - destruct (pred_step i s) as [s1|] eqn:Hstep; [|discriminate].
    cbn in Hrun. eapply IH; [| |exact Hlen|exact Hrun].
    + eapply pred_step_inv; eassumption.
    + eapply pred_step_fields; eassumption.
Qed.

(** ** Races run to the end *)

Lemma list_sum_insert (f : pred -> nat) (l : list pred) : forall i x y,
  l !! i = Some x ->
  (list_sum (map f (<[i := y]> l)) + f x = list_sum (map f l) + f y)%nat.
Proof.
  unfold list_sum.
  induction l as [|z l IH]; intros i x y H; [discriminate|].
  destruct i as [|i]; cbn in *.
  - injection H as ->. lia.
  - specialize (IH i x y H). rewrite <- !Nat.add_assoc. f_equal. exact IH.
Qed.

Lemma not_all_done (l : list pred) :
  forallb is_done l = false ->
  exists i p, l !! i = Some p /\ is_done p = false.
Proof.
  induction l as [|z l IH]; intros H; [discriminate|]. cbn in H.
  destruct (is_done z) eqn:Hz.
  - destruct (IH H) as (i & p & Hi & Hp). exists (S i), p. auto.
  - exists 0%nat, z. auto.
Qed.

Lemma all_done_lookup (l : list pred) i p :
  forallb is_done l = true -> l !! i = Some p -> is_done p = true.
Proof.
  intros H Hi. rewrite forallb_forall in H. apply H.
  apply list_elem_of_In, list_elem_of_lookup. eauto.
Qed.

Lemma all_done_count (l : list pred) :
  forallb is_done l = true -> count_at_dec l = 0%nat.
Proof.
  unfold count_at_dec. induction l as [|z l IH]; intros H; [reflexivity|].
  cbn in H. apply andb_prop in H as [Hz Hl]. cbn.
  assert (is_at_dec z = false)
    by (unfold is_done, is_at_dec in *; now destruct (pred_pc_of z)).
  rewrite H. now apply IH.
Qed.

Lemma pred_step_progress s i p :
  preds s !! i = Some p -> is_done p = false ->
  exists s', pred_step i s = Some s'
             /\ (race_steps_left s' < race_steps_left s)%nat.
Proof.
  intros Hi Hd. unfold pred_step, race_steps_left. rewrite Hi.
  cbn [mbind option_bind].
  assert (Hsum : forall c,
             (steps_left (at_pc c p) < steps_left p)%nat ->
             (list_sum (map steps_left (<[i := at_pc c p]> (preds s)))
              < list_sum (map steps_left (preds s)))%nat).
  { intros c Hc.
    pose proof (list_sum_insert steps_left (preds s) i p (at_pc c p) Hi).
    lia. }
  unfold is_done in Hd. unfold steps_left in Hsum at 2.
  destruct (pred_pc_of p) eqn:Hpc; try discriminate.
  - destruct (pw_node_activation_state_dec _ _) as [st zero].
    eexists. split; [reflexivity|]. cbn [preds].
    apply Hsum. destruct zero; cbn; lia.
  - eexists. split; [reflexivity|]. cbn [preds]. apply Hsum. cbn. lia.
  - eexists. split; [reflexivity|]. cbn [preds]. apply Hsum. cbn. lia.
  - eexists. split; [reflexivity|]. cbn [preds]. apply Hsum. cbn. lia.
Qed.

Lemma race_completes n : forall s,
  (race_steps_left s <= n)%nat ->
  exists sched s', run_race sched s = Some s' /\ all_done s' = true.
Proof.
  induction n as [|n IH]; intros s Hn.
  - destruct (all_done s) eqn:Hd; [exists [], s; auto|].
    destruct (not_all_done _ Hd) as (i & p & Hi & Hp).
    destruct (pred_step_progress s i p Hi Hp) as (s' & _ & Hlt). lia.
  - destruct (all_done s) eqn:Hd; [exists [], s; auto|].
    destruct (not_all_done _ Hd) as (i & p & Hi & Hp).
    destruct (pred_step_progress s i p Hi Hp) as (s1 & Hstep & Hlt).
    destruct (IH s1) as (sched & s' & Hrun & Hdone); [lia|].
    exists (i :: sched), s'. cbn. rewrite Hstep. auto.
Qed.

Lemma run_race_app l1 : forall l2 s,
  run_race (l1 ++ l2) s = run_race l1 s ≫= run_race l2.
Proof.
  induction l1 as [|i l1 IH]; intros l2 s; [reflexivity|].
  cbn. destruct (pred_step i s) as [s1|]; [|reflexivity]. cbn. apply IH.
Qed.

Lemma exists_or_all (f : pred -> bool) (l : list pred) :
  (exists i p, l !! i = Some p /\ f p = true)
  \/ (forall i p, l !! i = Some p -> f p = false).
Proof.
  induction l as [|z l [(i & p & Hi & Hp)|IH]].
  - right. intros i p H. discriminate.
  - left. exists (S i), p. auto.
  - destruct (f z) eqn:Hz.
    + left. exists 0%nat, z. auto.
    + right. intros [|i] p H; cbn in H; [now injection H as <-|eauto].
Qed.

(** ** The loop body of resume_node as the steps of one predecessor *)

Lemma upd_act_insert k f w a :
  acts w !! k = Some a ->
  upd_act k f w = set_acts (<[k := f a]> (acts w)) w.
Proof.
  intros Ha. unfold upd_act. f_equal. apply map_eq. intros j.
  destruct (decide (j = k)) as [->|Hne].
  - now rewrite lookup_alter_eq, lookup_insert_eq, Ha.
  - now rewrite lookup_alter_ne, lookup_insert_ne by congruence.
Qed.

Lemma upd_act_twice k f g w a :
  acts w !! k = Some a ->
  upd_act k g (upd_act k f w) = set_acts (<[k := g (f a)]> (acts w)) w.
Proof.
  intros Ha. rewrite (upd_act_insert k f w a Ha).
  rewrite (upd_act_insert k g _ (f a)) by (cbn; apply lookup_insert_eq).
  cbn. unfold set_acts. cbn. f_equal. apply map_eq. intros j.
  destruct (decide (j = k)) as [->|Hne].
  - now rewrite !lookup_insert_eq.
  - now rewrite !lookup_insert_ne by congruence.
Qed.

Lemma solo_resume_target (process : nat -> world -> option world)
    (w : world) (r : target_ref) (t : pw_node_target) (k : nat)
    (a : pw_node_activation) (nsec : Z) :
  get_target w r = Some t ->
  t_activation t = Some k ->
  acts w !! k = Some a ->
  exists s,
    run_race (solo_sched a) (start_race a [nsec]) = Some s
    /\ resume_target process nsec r w
       = (let w1 := set_acts (<[k := target_act s]> (acts w)) w in
          if snd (pw_node_activation_state_dec (state0 a) 1)
          then signal_target process t (log (Ev_signal r) w1)
          else Some w1).
Proof.
  intros Ht Hk Ha. unfold resume_target, solo_sched.
  rewrite Ht. cbn [mbind option_bind]. rewrite Hk. cbn [mbind option_bind].
  rewrite Ha. cbn [mbind option_bind].
  unfold pw_node_activation_state_dec. cbn [snd fst].
  destruct (u32 (pending (state0 a) - 1) =? 0) eqn:Hz.
  - eexists. split.
    + cbn. unfold pw_node_activation_state_dec. rewrite Hz. cbn. reflexivity.
    + cbn [target_act]. cbv zeta.
      rewrite (upd_act_twice k _ _ w a Ha). reflexivity.
  - eexists. split.
    + cbn. unfold pw_node_activation_state_dec. rewrite Hz. cbn. reflexivity.
    + cbn [target_act]. cbv zeta. f_equal.
      apply (upd_act_insert k _ w a Ha).
Qed.

(** ** Who triggers a target *)




(** ** The counters at the start of a cycle *)

Lemma is_reset_upd_act k f w j :
  (forall a, state0 (f a) = state0 a
             \/ pending (state0 (f a)) = required (state0 (f a))) ->
  is_reset w j -> is_reset (upd_act k f w) j.
Proof.
  intros Hf (a & Ha & Hr). unfold is_reset. cbn. rewrite lookup_alter.
  case_decide.
  - subst. rewrite Ha. cbn. exists (f a). split; [reflexivity|].
    destruct (Hf a) as [E|E]; [now rewrite E|exact E].
  - exists a. auto.
Qed.

Lemma is_reset_insert k a a' w j :
  acts w !! k = Some a -> state0 a' = state0 a ->
  is_reset w j -> is_reset (set_acts (<[k := a']> (acts w)) w) j.
Proof.
  intros Ha Hs (b & Hb & Hr). unfold is_reset. cbn. rewrite lookup_insert.
  case_decide.
  - subst. exists a'. split; [reflexivity|].
    assert (b = a) by congruence. subst b. now rewrite Hs.
  - exists b. auto.
Qed.

Lemma is_reset_same_acts w w' j : acts w' = acts w -> is_reset w j -> is_reset w' j.
Proof. unfold is_reset. now intros ->. Qed.

Lemma is_reset_logs es w j : is_reset w j -> is_reset (logs es w) j.
Proof. apply is_reset_same_acts. reflexivity. Qed.

Lemma is_reset_log e w j : is_reset w j -> is_reset (log e w) j.
Proof. apply is_reset_same_acts. reflexivity. Qed.

Lemma is_reset_dump_states n w j : is_reset w j -> is_reset (dump_states n w) j.
Proof.
  unfold dump_states. destruct (nodes w !! n); [apply is_reset_logs|auto].
Qed.

Ltac reset_last :=
  first
    [ apply is_reset_upd_act; [intros ?; left; reflexivity|]
    | apply is_reset_upd_act; [intros ?; right; reflexivity|]
    | apply is_reset_log
    | apply is_reset_logs
    | apply is_reset_dump_states ].

Lemma ready_target_reset k o0 o1 ro us ts r w ar rn w' ar' rn' :
  ready_target k o0 o1 ro us ts r (w, ar, rn) = Some (w', ar', rn') ->
  (forall j, is_reset w j -> is_reset w' j)
  /\ (forall t ka, get_target w r = Some t -> t_activation t = Some ka ->
      is_reset w' ka).
Proof.
  unfold ready_target. intros H.
  destruct (get_target w r) as [t|]; [|discriminate]. cbn in H.
  destruct (t_activation t) as [ka|] eqn:Hta; [|discriminate]. cbn in H.
  destruct (acts w !! ka) as [a0|] eqn:Ha0; [|discriminate]. cbn in H.
  assert (Hka : is_reset
                  (upd_act ka
                     (fun ta => set_state0
                                  (pw_node_activation_state_reset (state0 ta))
                                  (set_status PW_NODE_ACTIVATION_NOT_TRIGGERED ta))
                     w) ka).
  { unfold is_reset. cbn. rewrite lookup_alter_eq, Ha0. cbn.
    eexists. split; reflexivity. }
  assert (Hall : forall j, is_reset w j ->
                 is_reset
                   (upd_act ka
                      (fun ta => set_state0
                                   (pw_node_activation_state_reset (state0 ta))
                                   (set_status PW_NODE_ACTIVATION_NOT_TRIGGERED ta))
                      w) j).
  { intros j. apply is_reset_upd_act. intros ?. right. reflexivity. }
  assert (Hgoal : forall w1,
             (forall j, is_reset
                          (upd_act ka
                             (fun ta => set_state0
                                          (pw_node_activation_state_reset
                                             (state0 ta))
                                          (set_status
                                             PW_NODE_ACTIVATION_NOT_TRIGGERED
                                             ta)) w) j ->
                        is_reset w1 j) ->
             (forall j, is_reset w j -> is_reset w1 j)
             /\ (forall t0 ka0, Some t = Some t0 ->
                 t_activation t0 = Some ka0 -> is_reset w1 ka0)).
  { intros w1 H1. split; [auto|].
    intros t0 ka0 [= <-] Hk. assert (ka0 = ka) by congruence. subst ka0.
    apply H1. exact Hka. }
  destruct (t_node t) as [n|].
  - destruct (nodes w !! n) as [tn|]; [|discriminate]. cbn in H.
    destruct (alter _ ka (acts w) !! ka) as [ta|]; [|discriminate]. cbn in H.
    match type of H with
    | context [?m !! ka] => destruct (m !! ka) as [ta'|]; [|discriminate]
    end. cbn in H.
    destruct us; injection H; intros; subst; apply Hgoal; intros j Hj;
      destruct (info_id tn =? o0), (info_id tn =? o1);
      repeat first [exact Hj | reset_last].
  - cbn in H.
    match type of H with
    | context [?m !! ka] => destruct (m !! ka) as [ta'|]; [|discriminate]
    end. cbn in H.
    destruct us; injection H; intros; subst; apply Hgoal; intros j Hj;
      repeat first [exact Hj | reset_last].
Qed.

Lemma get_target_frame w w' r :
  cycle_frame w w' -> get_target w' r = get_target w r.
Proof.
  intros [N L _ _ _]. unfold get_target. now rewrite N, L.
Qed.

Lemma ready_targets_reset k o0 o1 ro us ts l : forall w ar rn w' ar' rn',
  ready_targets k o0 o1 ro us ts l (w, ar, rn) = Some (w', ar', rn') ->
  (forall j, is_reset w j -> is_reset w' j)
  /\ (forall r t ka, r ∈ l -> get_target w r = Some t ->
      t_activation t = Some ka -> is_reset w' ka).
Proof.
  induction l as [|r l IH]; intros w ar rn w' ar' rn' H; cbn in H.
  - injection H; intros; subst. split; [auto|].
    intros r t ka Hr. inversion Hr.
  - destruct (ready_target k o0 o1 ro us ts r (w, ar, rn))
      as [[[w1 ar1] rn1]|] eqn:H1; [|discriminate].
    cbn in H.
    pose proof (ready_target_frame _ _ _ _ _ _ _ _ _ _ _ _ _ H1) as F1.
    destruct (ready_target_reset _ _ _ _ _ _ _ _ _ _ _ _ _ H1) as [K1 R1].
    destruct (IH _ _ _ _ _ _ H) as [K2 R2].
    split; [auto|].
    intros r0 t ka Hr Ht Hka. apply elem_of_cons in Hr as [->|Hr].
    + apply K2. eapply R1; eassumption.
    + eapply R2; [exact Hr| |exact Hka].
      now rewrite (get_target_frame _ _ _ F1).
Qed.

Lemma do_reposition_reset driver node w w' j :
  do_reposition driver node w = Some w' -> is_reset w j -> is_reset w' j.
Proof.
  unfold do_reposition, sync_cycles. intros H.
  destruct (nodes w !! driver) as [dn|]; [|discriminate]. cbn in H.
  destruct (nodes w !! node) as [nn|]; [|discriminate]. cbn in H.
  destruct (acts w !! rt_activation dn) as [a|] eqn:Ha; [|discriminate].
  cbn in H.
  destruct (acts w !! rt_activation nn) as [na|]; [|discriminate]. cbn in H.
  destruct (pos_state (position a) =? SPA_IO_POSITION_STATE_RUNNING); cbn in H.
  - repeat match type of H with
           | context [if ?c =? 0 then None else _] => destruct (c =? 0); cbn in H
           end; try discriminate.
    injection H as <-. eapply is_reset_insert; [exact Ha|reflexivity].
  - injection H as <-. eapply is_reset_insert; [exact Ha|reflexivity].
Qed.

Lemma update_position_reset node all_ready w w' j :
  update_position node all_ready w = Some w' -> is_reset w j -> is_reset w' j.
Proof.
  unfold update_position. intros H Hj.
  destruct (nodes w !! node) as [nd|]; [|discriminate]. cbn in H.
  destruct (acts w !! rt_activation nd) as [a|]; [|discriminate]. cbn in H.
  match type of H with
  | context [if ?c then _ else Some (w, all_ready)] => destruct c
  end.
  - destruct (negb all_ready).
    + destruct (u64 (sync_left a - 1) =? 0); cbn in H.
      * destruct (_ !! _) as [a'|]; [|discriminate]. cbn in H.
        destruct (_ =? _); injection H as <-;
          repeat first [exact Hj | reset_last].
      * cbn in H. destruct (_ !! _) as [a'|]; [|discriminate]. cbn in H.
        destruct (_ =? _); injection H as <-;
          repeat first [exact Hj | reset_last].
    + destruct all_ready; cbn in H;
        (destruct (_ !! _) as [a'|]; [|discriminate]); cbn in H;
        destruct (_ =? _); injection H as <-;
        repeat first [exact Hj | reset_last].
  - cbn in H. destruct (_ !! _) as [a'|]; [|discriminate]. cbn in H.
    destruct (_ =? _); injection H as <-;
      repeat first [exact Hj | reset_last].
Qed.

(** after the driver has opened the cycle, the counter of every target in
    its list stands at its required count *)
Lemma driver_cycle_reset node nd w w' r t ka :
  driver_cycle node nd w = Some w' ->
  r ∈ rt_target_list nd ->
  get_target w r = Some t ->
  t_activation t = Some ka ->
  is_reset w' ka.
Proof.
  unfold driver_cycle. intros H Hr Ht Hka.
  destruct (acts w !! rt_activation nd) as [a0|] eqn:Ha0; [|discriminate].
  cbn in H.
  destruct (check_updates a0) as [[[a1 st] ro]|] eqn:Hcu; [|discriminate].
  cbn in H.
  destruct (ready_targets _ _ _ _ _ _ _ _) as [[[w2 ar] rn]|] eqn:Hrt;
    [|discriminate].
  cbn in H.
  destruct (ready_targets_reset _ _ _ _ _ _ _ _ _ _ _ _ _ Hrt) as [_ R].
  assert (R2 : is_reset w2 ka) by (eapply R; [exact Hr|exact Ht|exact Hka]).
  destruct rn as [rn|].
  - destruct (do_reposition node rn _) as [w3|] eqn:Hrp; [|discriminate].
    cbn in H. eapply update_position_reset; [exact H|].
    eapply do_reposition_reset; [exact Hrp|].
    reset_last. exact R2.
  - cbn in H. eapply update_position_reset; [exact H|].
    reset_last. exact R2.
Qed.

(** ** One cycle of a driver and its followers *)

Section Star.
Context `{Ext : Externals}.

(** the driver runs: the time at which it had finished moves to signal_time *)
Lemma process_node_driver fuel d nd a w w' :
  nodes w !! d = Some nd ->
  driver_node nd = d -> exported nd = false -> rt_activation nd = d ->
  acts w !! d = Some a ->
  process_node fuel d w = Some w' ->
  nodes w' = nodes w
  /\ (forall k, k <> d -> acts w' !! k = acts w !! k)
  /\ exists a', acts w' !! d = Some a'
       /\ signal_time a' = finish_time a
       /\ now w <= awake_time a'
       /\ awake_time a' <= finish_time a'
       /\ finish_time a' = now w'.
Proof.
  intros Hnd Hdrv Hexp Hact Ha Hrun.
  destruct fuel as [|fuel]; [discriminate|].
  cbn [process_node] in Hrun. unfold process_node_body in Hrun.
  rewrite Hnd in Hrun. cbn -[has_flag] in Hrun.
  rewrite Hdrv, Nat.eqb_refl, Hexp, Hact in Hrun. cbn -[has_flag] in Hrun.
  injection Hrun as <-.
  destruct (has_flag _ _); cbn;
    (split; [reflexivity|]);
    (split; [intros k Hk; now rewrite !lookup_alter_ne by congruence|]);
    rewrite !lookup_alter_eq, Ha; cbn;
    (eexists; split; [reflexivity|]); cbn; repeat split; lia.
Qed.

(** a finished node counts down the driver through a target of the driver *)
Lemma driver_countdown fuel d nd a n nsec r w w' :
  nodes w !! d = Some nd ->
  driver_node nd = d -> exported nd = false -> rt_activation nd = d ->
  get_target w r = Some (own_target d) ->
  acts w !! d = Some a ->
  pending (state0 a) = n + 1 -> 0 <= n < 2 ^ 32 - 1 ->
  resume_target (process_node fuel) nsec r w = Some w' ->
  nodes w' = nodes w
  /\ (forall k, k <> d -> acts w' !! k = acts w !! k)
  /\ now w <= now w'
  /\ exists a', acts w' !! d = Some a'
       /\ (n <> 0 -> pending (state0 a') = n
                     /\ finish_time a' = finish_time a)
       /\ (n = 0 -> signal_time a' = finish_time a
                    /\ now w <= awake_time a'
                    /\ awake_time a' <= finish_time a'
                    /\ finish_time a' = now w').
Proof.
  intros Hnd Hdrv Hexp Hact Hget Ha Hp Hn Hrun.
  unfold resume_target in Hrun. rewrite Hget in Hrun. cbn in Hrun.
  rewrite Ha in Hrun. cbn in Hrun. rewrite Hp in Hrun.
  replace (n + 1 - 1) with n in Hrun by lia.
  unfold u32 in Hrun. rewrite Z.mod_small in Hrun by lia.
  destruct (Z.eqb_spec n 0) as [Hz|Hz].
  - unfold signal_target in Hrun. cbn in Hrun.
    match type of Hrun with
    | process_node fuel d ?w0 = _ =>
        destruct (process_node_driver fuel d nd
                    (set_signal_time nsec
                       (set_status PW_NODE_ACTIVATION_TRIGGERED
                          (set_state0 (set_pending n (state0 a)) a)))
                    w0 w' Hnd Hdrv Hexp Hact)
          as (N & O & a' & Ha' & Hs & H1 & H2 & H3);
        [cbn; rewrite !lookup_alter_eq, Ha; reflexivity | exact Hrun |]
    end.
    cbn in N, O, H1. split; [exact N|]. split.
    { intros k Hk. rewrite (O k Hk). now rewrite !lookup_alter_ne by congruence. }
    split; [lia|].
    exists a'. split; [exact Ha'|]. split; [contradiction|].
    intros _. cbn in Hs. auto.
  - injection Hrun as <-. cbn. split; [reflexivity|]. split.
    { intros k Hk. now rewrite lookup_alter_ne by congruence. }
    split; [lia|].
    rewrite lookup_alter_eq, Ha. cbn. eexists. split; [reflexivity|].
    cbn. split; [auto|contradiction].
Qed.


(** a follower is triggered by the driver, runs and counts the driver down *)
Lemma follower_run fuel d nd f nf af ad n T0 w w' :
  nodes w !! d = Some nd ->
  driver_node nd = d -> exported nd = false -> rt_activation nd = d ->
  nodes w !! f = Some nf ->
  driver_node nf = d -> rt_activation nf = f ->
  rt_target nf = own_target f -> rt_driver_target nf = own_target d ->
  rt_target_list nf = [node_driver_target f] ->
  f <> d ->
  (forall t, spa_node_process f t <> SPA_STATUS_OK) ->
  acts w !! f = Some af -> pending (state0 af) = 1 ->
  acts w !! d = Some ad ->
  pending (state0 ad) = n + 1 -> 0 <= n < 2 ^ 32 - 1 ->
  resume_target (process_node fuel) T0 (node_target f) w = Some w' ->
  nodes w' = nodes w
  /\ (forall k, k <> d -> k <> f -> acts w' !! k = acts w !! k)
  /\ now w <= now w'
  /\ exists af' ad',
       acts w' !! f = Some af' /\ acts w' !! d = Some ad'
       /\ now w <= awake_time af'
       /\ awake_time af' <= finish_time af'
       /\ (n <> 0 -> pending (state0 ad') = n
                     /\ finish_time ad' = finish_time ad
                     /\ finish_time af' <= now w')
       /\ (n = 0 -> signal_time ad' = finish_time ad
                    /\ finish_time af' <= awake_time ad'
                    /\ awake_time ad' <= finish_time ad'
                    /\ finish_time ad' = now w').
Proof.
  intros Hnd Hdrv Hexp Hact Hnf Hfd Hfa Hft Hfdt Hfl Hne Hst Haf Hpf Had Hpd Hn
    Hrun.
  unfold resume_target in Hrun. cbn [get_target] in Hrun.
  rewrite Hnf in Hrun. cbn in Hrun. rewrite Hft in Hrun. cbn in Hrun.
  rewrite Haf in Hrun. cbn in Hrun. rewrite Hpf in Hrun.
  change (u32 (1 - 1)) with 0 in Hrun. cbn in Hrun.
  unfold signal_target in Hrun. cbn in Hrun.
  destruct fuel as [|fuel]; [discriminate|].
  cbn [process_node] in Hrun. unfold process_node_body in Hrun.
  cbn -[has_flag] in Hrun. rewrite Hnf in Hrun. cbn -[has_flag] in Hrun.
  rewrite Hfd, Hfa in Hrun.
  destruct (Nat.eqb_spec f d) as [|_]; [contradiction|].
  cbn -[has_flag] in Hrun.
  match type of Hrun with
  | context [spa_node_process f ?t] =>
      pose proof (Hst t) as Hs; set (st := spa_node_process f t) in *
  end.
  destruct (Z.eqb_spec st SPA_STATUS_OK) as [|_]; [contradiction|].
  unfold resume_node in Hrun.
  match type of Hrun with
  | context [nodes ?w0 !! f] => replace (nodes w0 !! f) with (Some nf) in Hrun
      by (destruct (has_flag st SPA_STATUS_HAVE_DATA); symmetry; exact Hnf)
  end.
  cbn -[has_flag] in Hrun. rewrite Hfl, Hfa in Hrun.
  cbn [resume_targets] in Hrun.
  match type of Hrun with
  | context [resume_target _ ?ns _ ?w0] =>
      destruct (resume_target (process_node fuel) ns (node_driver_target f) w0)
        as [w1|] eqn:Hcd; [|discriminate]
  end.
  cbn in Hrun. injection Hrun as <-.
  eapply driver_countdown in Hcd;
    [ | | exact Hdrv | exact Hexp | exact Hact | | | exact Hpd | exact Hn ].
  - destruct Hcd as (N & O & T & ad' & Had' & Hnz & Hz).
    destruct (has_flag st SPA_STATUS_HAVE_DATA); cbn in N, O, T, Hnz, Hz;
      (split; [exact N|]);
      (split; [intros k Hk1 Hk2; rewrite (O k Hk1); cbn;
               now rewrite !lookup_alter_ne by congruence|]);
      (split; [lia|]);
      rewrite (O f Hne); cbn; rewrite !lookup_alter_eq, Haf; cbn;
      (eexists _, ad'; split; [reflexivity|]); (split; [exact Had'|]); cbn;
      (split; [lia|]); (split; [lia|]);
      (split; [intros Hn0; destruct (Hnz Hn0) as [? ?]; repeat split;
               [assumption|assumption|lia]
              |intros Hn0; destruct (Hz Hn0) as (? & ? & ? & ?);
               repeat split; [assumption|lia|assumption|assumption]]).
  - destruct (has_flag st SPA_STATUS_HAVE_DATA); exact Hnd.
  - destruct (has_flag st SPA_STATUS_HAVE_DATA); cbn; rewrite Hnf; cbn;
      now rewrite Hfdt.
  - destruct (has_flag st SPA_STATUS_HAVE_DATA); cbn;
      rewrite !lookup_alter_ne by congruence; exact Had.
Qed.


Section Loop.
Context (fuel : nat) (w0 : world) (d : nat) (fs : list nat) (T0 : Z).
Hypothesis Hstar : star_graph w0 d fs.
Hypothesis Hstatus : forall f t, f ∈ fs -> spa_node_process f t <> SPA_STATUS_OK.

Lemma star_not_driver f : f ∈ fs -> f <> d.
Proof.
  intros Hf ->. pose proof (star_nodup _ _ _ Hstar) as Hnd.
  apply NoDup_cons in Hnd as [Hnd _]. contradiction.
Qed.

Lemma loop_step r rem w w1 :
  loop_inv w0 d fs T0 (r :: rem) w ->
  resume_target (process_node fuel) T0 r w = Some w1 ->
  (rem <> [] -> loop_inv w0 d fs T0 rem w1)
  /\ (rem = [] -> cycle_done d fs T0 w1).
Proof.
  intros [Lnodes Ltime Llen Lrem Lnodup (ad & Had & Hpd & Hfd) Lfol] Hrun.
  destruct (star_driver_node _ _ _ Hstar)
    as (nd & Hnd & Hdrv & Hexp & Hact & Htgt & Hdtgt & _ & _).
  rewrite <- Lnodes in Hnd.
  apply NoDup_cons in Lnodup as [Hr Lnodup].
  set (n := Z.of_nat (length rem)).
  assert (Hpd' : pending (state0 ad) = n + 1)
    by (rewrite Hpd; subst n; cbn [length]; lia).
  assert (Hn : 0 <= n < 2 ^ 32 - 1) by (subst n; cbn [length] in Llen; lia).
  assert (Hnz : n = 0 <-> rem = []).
  { subst n. destruct rem; cbn; split; intros; try reflexivity; try lia;
      discriminate. }
  assert (Hrem' : forall r0, r0 ∈ rem ->
            r0 = node_driver_target d \/ r0 = node_target d
            \/ exists f, f ∈ fs /\ r0 = node_target f).
  { intros r0 H0. apply Lrem. now apply elem_of_cons; right. }
  destruct (Lrem r) as [Hrd|[Hrd|(f & Hf & Hrf)]]; [now left| | |].
  1, 2:
    (eapply driver_countdown in Hrun;
       [ | exact Hnd | exact Hdrv | exact Hexp | exact Hact
         | subst r; cbn; rewrite Hnd; cbn; congruence
         | exact Had | exact Hpd' | exact Hn ];
     destruct Hrun as (N & O & T & ad' & Had' & Hnz' & Hz');
     assert (Hfol' : forall f, f ∈ fs ->
               exists af, acts w1 !! f = Some af
                 /\ (node_target f ∈ rem -> pending (state0 af) = 1)
                 /\ (node_target f ∉ rem ->
                     T0 <= awake_time af /\ awake_time af <= finish_time af
                     /\ finish_time af <= now w));
     [ intros f Hf; destruct (Lfol f Hf) as (af & Haf & H1 & H2);
       exists af; rewrite (O f (star_not_driver f Hf));
       split; [exact Haf|]; split;
       [ intros Hin; apply H1; now apply elem_of_cons; right
       | intros Hnin; apply H2; intros Hin;
         apply elem_of_cons in Hin as [Heq|Hin];
         [subst r; discriminate || (pose proof (star_not_driver f Hf);
                                    congruence)
         |contradiction] ]
     | split;
       [ intros Hne; assert (n <> 0) as Hn0 by tauto;
         destruct (Hnz' Hn0) as [Hp' Hf'];
         constructor; try assumption;
         [ congruence | lia | cbn [length] in Llen; lia
         | exists ad'; repeat split; [assumption|assumption|congruence]
         | intros f Hf; destruct (Hfol' f Hf) as (af & Haf & H1 & H2);
           exists af; split; [exact Haf|]; split; [exact H1|];
           intros Hnin; destruct (H2 Hnin) as (? & ? & ?);
           repeat split; lia ]
       | intros ->; destruct (Hz' (proj2 Hnz eq_refl)) as (Hs & Ha1 & Ha2 & _);
         exists ad'; split; [exact Had'|]; split; [congruence|];
         split; [exact Ha2|];
         intros f Hf; destruct (Hfol' f Hf) as (af & Haf & _ & H2);
         exists af; split; [exact Haf|];
         destruct (H2 ltac:(apply not_elem_of_nil)) as (? & ? & ?);
         repeat split; lia ] ]).
  subst r.
  destruct (star_follower_node _ _ _ Hstar f Hf)
    as (nf & Hnf & Hfdrv & Hfact & Hft & Hfdt & Hfl).
  rewrite <- Lnodes in Hnf.
  destruct (Lfol f Hf) as (af & Haf & Hpf & _).
  pose proof (star_not_driver f Hf) as Hfne.
  eapply follower_run in Hrun;
    [ | exact Hnd | exact Hdrv | exact Hexp | exact Hact | exact Hnf
      | exact Hfdrv | exact Hfact | exact Hft | exact Hfdt | exact Hfl
      | exact Hfne | intros t; now apply Hstatus | exact Haf
      | apply Hpf; now left | exact Had | exact Hpd' | exact Hn ].
  destruct Hrun as (N & O & T & af' & ad' & Haf' & Had' & Hw1 & Hw2 & Hnz' & Hz').
  assert (Hfol' : forall g, g ∈ fs -> g <> f ->
            exists ag, acts w1 !! g = Some ag
              /\ (node_target g ∈ rem -> pending (state0 ag) = 1)
              /\ (node_target g ∉ rem ->
                  T0 <= awake_time ag /\ awake_time ag <= finish_time ag
                  /\ finish_time ag <= now w)).
  { intros g Hg Hgf. destruct (Lfol g Hg) as (ag & Hag & H1 & H2).
    exists ag. rewrite (O g (star_not_driver g Hg) Hgf).
    split; [exact Hag|]. split.
    - intros Hin. apply H1. now apply elem_of_cons; right.
    - intros Hnin. apply H2. intros Hin.
      apply elem_of_cons in Hin as [Heq|Hin]; [congruence|contradiction]. }
  split.
  - intros Hne. assert (n <> 0) as Hn0 by tauto.
    destruct (Hnz' Hn0) as (Hp' & Hf' & Hfin).
    constructor; try assumption.
    + congruence.
    + lia.
    + cbn [length] in Llen. lia.
    + exists ad'. repeat split; [assumption|assumption|congruence].
    + intros g Hg. destruct (decide (g = f)) as [->|Hgf].
      * exists af'. split; [exact Haf'|]. split; [intros Hin; contradiction|].
        intros _. repeat split; lia.
      * destruct (Hfol' g Hg Hgf) as (ag & Hag & H1 & H2).
        exists ag. split; [exact Hag|]. split; [exact H1|].
        intros Hnin. destruct (H2 Hnin) as (? & ? & ?). repeat split; lia.
  - intros ->. destruct (Hz' (proj2 Hnz eq_refl)) as (Hs & Ha1 & Ha2 & _).
    exists ad'. split; [exact Had'|]. split; [congruence|]. split; [exact Ha2|].
    intros g Hg. destruct (decide (g = f)) as [->|Hgf].
    + exists af'. split; [exact Haf'|]. repeat split; lia.
    + destruct (Hfol' g Hg Hgf) as (ag & Hag & _ & H2).
      exists ag. split; [exact Hag|].
      destruct (H2 ltac:(apply not_elem_of_nil)) as (? & ? & ?).
      repeat split; lia.
Qed.

Lemma loop_run rem : forall w w',
  rem <> [] ->
  loop_inv w0 d fs T0 rem w ->
  resume_targets (process_node fuel) T0 rem w = Some w' ->
  cycle_done d fs T0 w'.
Proof.
  induction rem as [|r rem IH]; intros w w' Hne Hinv Hrun; [contradiction|].
  cbn [resume_targets] in Hrun.
  destruct (resume_target (process_node fuel) T0 r w) as [w1|] eqn:Hstep;
    [|discriminate].
  cbn in Hrun. destruct (loop_step r rem w w1 Hinv Hstep) as [Hcont Hend].
  destruct rem as [|r' rem'].
  - cbn in Hrun. injection Hrun as <-. now apply Hend.
  - eapply IH; [discriminate| |exact Hrun]. now apply Hcont.
Qed.

End Loop.

End Star.

(** ** Order of the time stamps of a cycle *)

Section StarCycle.
Context `{Ext : Externals}.
Context (w : world) (d : nat) (fs : list nat).
Hypothesis Hstar : star_graph w d fs.

Lemma star_targets nd :
  rt_target_list nd ≡ₚ node_driver_target d :: node_target d :: map node_target fs ->
  NoDup (rt_target_list nd)
  /\ length (rt_target_list nd) = S (S (length fs))
  /\ (forall r, r ∈ rt_target_list nd ->
      r = node_driver_target d \/ r = node_target d
      \/ exists f, f ∈ fs /\ r = node_target f)
  /\ node_target d ∈ rt_target_list nd
  /\ (forall f, f ∈ fs -> node_target f ∈ rt_target_list nd).
Proof.
  intros HL. pose proof (star_nodup _ _ _ Hstar) as Hnd.
  apply NoDup_cons in Hnd as [Hd Hfs].
  assert (Hmap : forall r, r ∈ map node_target fs ->
                 exists f, f ∈ fs /\ r = node_target f).
  { intros r Hr. apply list_elem_of_fmap in Hr as (f & -> & Hf). eauto. }
  repeat split.
  - rewrite HL. apply NoDup_cons. split.
    + intros Hin. apply elem_of_cons in Hin as [Hin|Hin]; [discriminate|].
      apply Hmap in Hin as (f & _ & Hf). discriminate.
    + apply NoDup_cons. split.
      * intros Hin. apply Hmap in Hin as (f & Hf & E).
        injection E as <-. contradiction.
      * apply NoDup_fmap; [|exact Hfs]. intros x y E. now injection E.
  - rewrite HL. cbn. now rewrite length_map.
  - intros r Hr. rewrite HL in Hr.
    apply elem_of_cons in Hr as [Hr|Hr]; [now left|].
    apply elem_of_cons in Hr as [Hr|Hr]; [now right; left|].
    right. right. now apply Hmap.
  - rewrite HL. apply elem_of_cons. right. apply elem_of_cons. now left.
  - intros f Hf. rewrite HL. apply elem_of_cons. right. apply elem_of_cons.
    right. apply list_elem_of_fmap. eauto.
Qed.

Lemma star_cycle_done fuel status res w' :
  (forall f t, f ∈ fs -> spa_node_process f t <> SPA_STATUS_OK) ->
  node_ready fuel d status w = Some (res, w') ->
  exists T0, cycle_done d fs T0 w'.
Proof.
  intros Hstatus Hrun.
  destruct (star_driver_node _ _ _ Hstar)
    as (nd & Hnd & Hdrv & Hexp & Hact & Htgt & Hdtgt & Hmaster & HL).
  destruct (star_targets nd HL) as (Lnodup & Llen & Lrem & Ld & Lf).
  destruct (star_driver_act _ _ _ Hstar) as (a0 & Ha0 & Hreq0).
  unfold node_ready, node_ready_body in Hrun.
  rewrite Hnd in Hrun. cbn -[has_flag] in Hrun.
  rewrite Hdrv, Nat.eqb_refl in Hrun.
  destruct (driver_ready (process_node fuel) d nd w) as [w1|] eqn:Hdr;
    [|discriminate].
  cbn -[has_flag] in Hrun. rewrite Hmaster in Hrun.
  pose proof (driver_ready_frame _ (process_node_frame fuel) _ _ _ _ Hdr) as F1.
  (* the counters after the driver has opened the cycle *)
  assert (Hreset : forall r t ka, r ∈ rt_target_list nd ->
            get_target w r = Some t -> t_activation t = Some ka ->
            is_reset w1 ka).
  { intros r t ka Hr Ht Hka. unfold driver_ready in Hdr.
    rewrite Hact, Ha0 in Hdr. cbn in Hdr.
    destruct (pending (state0 a0) =? 0); cbn in Hdr.
    - eapply driver_cycle_reset; eassumption.
    - destruct (graph_not_finished (process_node fuel) d nd w) as [wg|] eqn:Hg;
        [|discriminate].
      cbn in Hdr.
      pose proof (graph_not_finished_frame _ (process_node_frame fuel) _ _ _ _ Hg)
        as Fg.
      eapply driver_cycle_reset; [exact Hdr|exact Hr| |exact Hka].
      now rewrite (get_target_frame _ _ _ Fg). }
  assert (Hd1 : exists a1, acts w1 !! d = Some a1
                  /\ pending (state0 a1) = Z.of_nat (length fs) + 2).
  { destruct (Hreset (node_target d) (own_target d) d Ld) as (a1 & Ha1 & Hp1);
      [cbn; rewrite Hnd; cbn; now rewrite Htgt | reflexivity |].
    destruct (frame_acts _ _ F1 d a0 Ha0) as (a1' & Ha1' & _ & Hr1).
    exists a1. split; [exact Ha1|]. assert (a1' = a1) by congruence. subst a1'.
    congruence. }
  assert (Hf1 : forall f, f ∈ fs ->
            exists af, acts w1 !! f = Some af /\ pending (state0 af) = 1).
  { intros f Hf.
    destruct (star_follower_node _ _ _ Hstar f Hf) as (nf & Hnf & _ & _ & Hft & _).
    destruct (star_follower_act _ _ _ Hstar f Hf) as (af0 & Haf0 & Hreqf).
    destruct (Hreset (node_target f) (own_target f) f (Lf f Hf))
      as (af & Haf & Hpf);
      [cbn; rewrite Hnf; cbn; now rewrite Hft | reflexivity |].
    destruct (frame_acts _ _ F1 f af0 Haf0) as (af' & Haf' & _ & Hr1).
    exists af. split; [exact Haf|]. assert (af' = af) by congruence. subst af'.
    congruence. }
  destruct Hd1 as (a1 & Ha1 & Hp1).
  unfold resume_node in Hrun.
  match type of Hrun with
  | context [nodes ?w2 !! d] =>
      replace (nodes w2 !! d) with (Some nd) in Hrun
        by (destruct (has_flag status SPA_STATUS_HAVE_DATA); cbn;
            rewrite (frame_nodes _ _ F1); symmetry; exact Hnd)
  end.
  cbn -[has_flag] in Hrun. rewrite Hact in Hrun.
  match type of Hrun with
  | context [resume_targets _ ?T ?l ?w3] =>
      destruct (resume_targets (process_node fuel) T l w3) as [w4|] eqn:Hloop;
        [|discriminate];
      exists T
  end.
  cbn in Hrun. injection Hrun as _ <-.
  eapply (loop_run fuel w d fs _ Hstar Hstatus) in Hloop; [exact Hloop| |].
  - intros E. rewrite E in Llen. discriminate.
  - constructor.
    + destruct (has_flag status SPA_STATUS_HAVE_DATA); cbn;
        apply (frame_nodes _ _ F1).
    + destruct (has_flag status SPA_STATUS_HAVE_DATA); cbn; lia.
    + rewrite Llen. pose proof (star_size _ _ _ Hstar). lia.
    + exact Lrem.
    + exact Lnodup.
    + destruct (has_flag status SPA_STATUS_HAVE_DATA); cbn;
        rewrite lookup_alter_eq, Ha1; cbn;
        (eexists; split; [reflexivity|]); cbn;
        (split; [rewrite Hp1, Llen; lia|reflexivity]).
    + intros f Hf. destruct (Hf1 f Hf) as (af & Haf & Hpf).
      exists af.
      assert (Hne : d <> f)
        by (intros ->; pose proof (star_nodup _ _ _ Hstar) as Hn;
            apply NoDup_cons in Hn as [Hn _]; contradiction).
      split.
      * destruct (has_flag status SPA_STATUS_HAVE_DATA); cbn;
          now rewrite lookup_alter_ne.
      * split; [auto|]. intros Hnin. destruct (Hnin (Lf f Hf)).
Qed.

End StarCycle.


Lemma example_graph_star : star_graph example_graph 0%nat [1%nat].
Proof.
  constructor.
  - apply (bool_decide_unpack _). vm_compute. exact I.
  - vm_compute. reflexivity.
  - eexists. split; [vm_compute; reflexivity|]. cbn.
    repeat split. reflexivity.
  - intros f Hf. apply list_elem_of_singleton in Hf as ->.
    eexists. split; [vm_compute; reflexivity|]. cbn. repeat split.
  - eexists. split; [vm_compute; reflexivity|]. reflexivity.
  - intros f Hf. apply list_elem_of_singleton in Hf as ->.
    eexists. split; [vm_compute; reflexivity|]. reflexivity.
Qed.



(** ** The starting handshake and its timeout *)

Lemma pw_node_new_activation `{Ext : Externals} this k props w :
  acts (pw_node_new this k props w) !! k = Some new_activation.
Proof.
  unfold pw_node_new. destruct (check_properties this _) as [node evs].
  cbn. apply lookup_insert_eq.
Qed.


(** In a cycle that only checks the handshake ([update_sync] is false) the
    loop over the targets leaves every pending_sync as it is, and clears
    [all_ready] at each target whose pending_sync is still set. *)
Lemma sync_kept_upd_act k f w j :
  (forall a, pending_sync (f a) = pending_sync a) ->
  pending_sync <$> acts (upd_act k f w) !! j = pending_sync <$> acts w !! j.
Proof.
  intros Hf. cbn. rewrite lookup_alter. case_decide; [subst k|reflexivity].
  destruct (acts w !! j) as [a|]; cbn; [f_equal; apply Hf|reflexivity].
Qed.

Lemma sync_kept_owner (b : bool) k f w j :
  (forall a, pending_sync (f a) = pending_sync a) ->
  pending_sync <$> acts (if b then upd_act k f w else w) !! j
  = pending_sync <$> acts w !! j.
Proof.
  intros Hf. destruct b; [now apply sync_kept_upd_act|reflexivity].
Qed.

Lemma ready_target_sync k o0 o1 ro ts r w ar rn w' ar' rn' :
  ready_target k o0 o1 ro false ts r (w, ar, rn) = Some (w', ar', rn') ->
  (forall j, pending_sync <$> acts w' !! j = pending_sync <$> acts w !! j)
  /\ exists t ka ta,
       get_target w r = Some t /\ t_activation t = Some ka
       /\ acts w !! ka = Some ta
       /\ ar' = ar && negb (pending_sync ta).
Proof.
  unfold ready_target. intros H.
  destruct (get_target w r) as [t|]; [|discriminate]. cbn in H.
  destruct (t_activation t) as [ka|] eqn:Hka0; [|discriminate]. cbn in H.
  destruct (acts w !! ka) as [a0|] eqn:Ha0; [|discriminate]. cbn in H.
  pose proof (fun j => sync_kept_upd_act ka
                (fun ta => set_state0 (pw_node_activation_state_reset (state0 ta))
                             (set_status PW_NODE_ACTIVATION_NOT_TRIGGERED ta))
                w j (fun _ => eq_refl)) as K0.
  destruct (t_node t) as [n|].
  - destruct (nodes w !! n) as [tn|]; [|discriminate]. cbn in H.
    destruct (alter _ ka (acts w) !! ka) as [ta|]; [|discriminate]. cbn in H.
    match type of H with
    | context [acts ?W !! ka] =>
        assert (K : forall j, pending_sync <$> acts W !! j
                              = pending_sync <$> acts w !! j)
    end.
    { intros j. rewrite !sync_kept_owner by (intros; reflexivity). apply K0. }
    pose proof (K ka) as Hka. rewrite Ha0 in Hka.
    match type of H with
    | context [?m !! ka] => destruct (m !! ka) as [a'|]; [|discriminate]
    end.
    cbn in H.
    injection H; intros; subst.
    split; [exact K|]. exists t, ka, a0. cbn in Hka.
    injection Hka as ->. auto.
  - cbn in H. pose proof (K0 ka) as Hka. rewrite Ha0 in Hka. cbn in Hka.
    match type of H with
    | context [?m !! ka] => destruct (m !! ka) as [a'|]; [|discriminate]
    end.
    cbn in H.
    injection H; intros; subst.
    split; [exact K0|]. exists t, ka, a0. cbn in Hka.
    injection Hka as ->. auto.
Qed.

Lemma ready_targets_all_ready k o0 o1 ro ts l : forall w ar rn w' ar' rn',
  ready_targets k o0 o1 ro false ts l (w, ar, rn) = Some (w', ar', rn') ->
  (forall j, pending_sync <$> acts w' !! j = pending_sync <$> acts w !! j)
  /\ (ar' = true <->
      ar = true
      /\ forall r t ka ta, r ∈ l -> get_target w r = Some t ->
           t_activation t = Some ka -> acts w !! ka = Some ta ->
           pending_sync ta = false).
Proof.
  induction l as [|r l IH]; intros w ar rn w' ar' rn' H; cbn in H.
  - injection H; intros; subst. split; [reflexivity|]. split.
    + intros ->. split; [reflexivity|]. intros r t ka ta Hr.
      apply elem_of_nil in Hr. contradiction.
    + intros [-> _]. reflexivity.
  - destruct (ready_target k o0 o1 ro false ts r (w, ar, rn))
      as [[[w1 ar1] rn1]|] eqn:H1; [|discriminate].
    cbn in H.
    pose proof (ready_target_frame _ _ _ _ _ _ _ _ _ _ _ _ _ H1) as F1.
    apply ready_target_sync in H1.
    destruct H1 as (K1 & t0 & k0 & a0 & Ht0 & Hk0 & Ha0 & ->).
    destruct (IH _ _ _ _ _ _ H) as (K2 & Hiff). split.
    + intros j. now rewrite K2, K1.
    + rewrite Hiff. split.
      * intros [Hand Hall]. apply andb_prop in Hand as [-> Hn].
        apply negb_true_iff in Hn. split; [reflexivity|].
        intros r' t ka ta Hr Ht Hka Hta.
        apply elem_of_cons in Hr as [->|Hr]; [congruence|].
        pose proof (K1 ka) as E. rewrite Hta in E.
        destruct (acts w1 !! ka) as [ta1|] eqn:Hta1; [|discriminate].
        cbn in E. injection E as <-.
        eapply Hall; try eassumption.
        rewrite (get_target_frame _ _ _ F1). exact Ht.
      * intros [-> Hall]. split.
        -- cbn. apply negb_true_iff.
           eapply (Hall r); try eassumption. left.
        -- intros r' t ka ta1 Hr Ht Hka Hta1.
           rewrite (get_target_frame _ _ _ F1) in Ht.
           pose proof (K1 ka) as E. rewrite Hta1 in E.
           destruct (acts w !! ka) as [ta|] eqn:Hta; [|discriminate].
           cbn in E. injection E as ->.
           eapply (Hall r'); try eassumption. now right.
Qed.

(** A driver cycle without a command and without a reposition request
    checks the handshake: the [all_ready] that reaches update_position is
    true exactly when no target of the driver has pending_sync set. *)
Lemma driver_cycle_handshake node nd w w' a :
  acts w !! rt_activation nd = Some a ->
  command a = PW_NODE_ACTIVATION_COMMAND_NONE ->
  reposition_owner a = 0 ->
  driver_cycle node nd w = Some w' ->
  exists w1 all_ready,
    update_position node all_ready w1 = Some w'
    /\ (all_ready = true <->
        forall r t ka ta, r ∈ rt_target_list nd -> get_target w r = Some t ->
          t_activation t = Some ka -> acts w !! ka = Some ta ->
          pending_sync ta = false).
Proof.
  intros Ha Hc Ho H. unfold driver_cycle in H. rewrite Ha in H. cbn in H.
  unfold check_updates in H. cbn in H.
  match type of H with
  | context [if ?b then set_position ?p a else a] =>
      set (a0 := if b then set_position p a else a) in *;
      assert (E0 : command a0 = command a
                   /\ reposition_owner a0 = reposition_owner a
                   /\ pending_sync a0 = pending_sync a)
        by (subst a0; destruct b; auto)
  end.
  destruct E0 as (Ec & Er & Ep). rewrite Ec, Hc, Er, Ho in H. cbn in H.
  match type of H with
  | context [ready_targets ?k ?o0 ?o1 ?ro false ?ts ?l (?w0, true, None)] =>
      destruct (ready_targets k o0 o1 ro false ts l (w0, true, None))
        as [[[w1 ar] rn]|] eqn:Hr; [|discriminate];
      assert (K : forall j, pending_sync <$> acts w0 !! j
                            = pending_sync <$> acts w !! j)
  end.
  { intros j. cbn. destruct (decide (rt_activation nd = j)) as [<-|Hj].
    - rewrite lookup_insert_eq, Ha. cbn. now rewrite Ep.
    - now rewrite lookup_insert_ne. }
  cbn in H. apply ready_targets_all_ready in Hr. destruct Hr as [_ Hiff].
  match type of H with
  | ?W ≫= _ = _ => destruct W as [w2|] eqn:Hw2; [|discriminate]
  end.
  cbn in H. exists w2, ar. split; [exact H|]. rewrite Hiff. split.
  - intros [_ Hall] r t ka ta Hin Ht Hka Hta.
    pose proof (K ka) as E. rewrite Hta in E.
    match type of E with
    | context [?m !! ka] => destruct (m !! ka) as [tb|] eqn:Htb; [|discriminate]
    end.
    cbn in E. injection E as <-. eapply Hall; eassumption.
  - intros Hall. split; [reflexivity|]. intros r t ka tb Hin Ht Hka Htb.
    pose proof (K ka) as E. rewrite Htb in E.
    destruct (acts w !! ka) as [ta|] eqn:Hta; [|discriminate].
    cbn in E. injection E as ->. eapply Hall; eassumption.
Qed.

(** the cases of update_position *)
Lemma update_position_cases `{Ext : Externals} (node : nat)
    (w : world) (nd : pw_node) (a : pw_node_activation) (all_ready : bool) :
  nodes w !! node = Some nd ->
  acts w !! rt_activation nd = Some a ->
  exists w' a',
    update_position node all_ready w = Some w'
    /\ acts w' !! rt_activation nd = Some a'
    /\ (pos_state (position a) <> SPA_IO_POSITION_STATE_STARTING ->
        sync_left a' = sync_left a /\ trace w' = trace w
        /\ pos_state (position a') = pos_state (position a))
    /\ (pos_state (position a) = SPA_IO_POSITION_STATE_STARTING ->
        all_ready = true ->
        sync_left a' = sync_left a /\ trace w' = trace w
        /\ pos_state (position a') = SPA_IO_POSITION_STATE_RUNNING)
    /\ (pos_state (position a) = SPA_IO_POSITION_STATE_STARTING ->
        all_ready = false ->
        sync_left a' = u64 (sync_left a - 1)
        /\ (sync_left a' <> 0 ->
            trace w' = trace w
            /\ pos_state (position a') = SPA_IO_POSITION_STATE_STARTING)
        /\ (sync_left a' = 0 ->
            pos_state (position a') = SPA_IO_POSITION_STATE_RUNNING
            /\ trace w'
               = trace w
                 ++ Ev_warn_sync_timeout node
                    :: flat_map
                         (dump_line
                            (upd_act (rt_activation nd)
                               (set_sync_left (u64 (sync_left a - 1))) w))
                         (rt_target_list nd)))
    /\ sync_timeout new_activation = 5 * 10 ^ 9
    /\ (forall this k props w0,
        exists a0, acts (pw_node_new this k props w0) !! k = Some a0
                   /\ sync_timeout a0 = 5 * 10 ^ 9)
    /\ (forall w0 w1 a0,
        acts w0 !! rt_activation nd = Some a0 ->
        command a0 = PW_NODE_ACTIVATION_COMMAND_NONE ->
        reposition_owner a0 = 0 ->
        driver_cycle node nd w0 = Some w1 ->
        exists w2 ready,
          update_position node ready w2 = Some w1
          /\ (ready = true <->
              forall r t ka ta, r ∈ rt_target_list nd ->
                get_target w0 r = Some t -> t_activation t = Some ka ->
                acts w0 !! ka = Some ta -> pending_sync ta = false)).
Proof.
  intros Hnd Ha.
  assert (Hnew : sync_timeout new_activation = 5 * 10 ^ 9
                 /\ (forall this k props w0,
                   exists a0, acts (pw_node_new this k props w0) !! k = Some a0
                              /\ sync_timeout a0 = 5 * 10 ^ 9)
             /\ (forall w0 w1 a0,
        acts w0 !! rt_activation nd = Some a0 ->
        command a0 = PW_NODE_ACTIVATION_COMMAND_NONE ->
        reposition_owner a0 = 0 ->
        driver_cycle node nd w0 = Some w1 ->
        exists w2 ready,
          update_position node ready w2 = Some w1
          /\ (ready = true <->
              forall r t ka ta, r ∈ rt_target_list nd ->
                get_target w0 r = Some t -> t_activation t = Some ka ->
                acts w0 !! ka = Some ta -> pending_sync ta = false))).
  { split; [reflexivity|]. split.
    - intros. eexists. split; [apply pw_node_new_activation|reflexivity].
    - intros w0 w1 a0. apply driver_cycle_handshake. }
  unfold update_position. rewrite Hnd. cbn. rewrite Ha. cbn.
  destruct (Z.eqb_spec (pos_state (position a)) SPA_IO_POSITION_STATE_STARTING)
    as [Hst|Hst].
  2:{ cbn. rewrite Ha. cbn.
      destruct (Z.eqb_spec (pos_state (position a))
                  SPA_IO_POSITION_STATE_RUNNING) as [Hr|Hr].
      - exists w, a. repeat split; try assumption; try contradiction;
          apply Hnew.
      - eexists _, _. split; [reflexivity|]. cbn.
        rewrite lookup_alter_eq, Ha. cbn. split; [reflexivity|].
        repeat split; try contradiction; apply Hnew. }
  destruct all_ready; cbn.
  - rewrite lookup_alter_eq, Ha. cbn.
    eexists _, _. split; [reflexivity|]. cbn.
    rewrite lookup_alter_eq, Ha. cbn. split; [reflexivity|].
    repeat split; try congruence; apply Hnew.
  - destruct (Z.eqb_spec (u64 (sync_left a - 1)) 0) as [Hz|Hz]; cbn.
    + unfold dump_states. cbn. rewrite Hnd. cbn.
      rewrite !lookup_alter_eq, Ha. cbn.
      eexists _, _. split; [reflexivity|]. cbn.
      rewrite !lookup_alter_eq, Ha. cbn. split; [reflexivity|].
      repeat split; try congruence; try apply Hnew;
        try (intros; cbn in *; congruence).
      rewrite <- app_assoc. reflexivity.
    + rewrite lookup_alter_eq, Ha. cbn. rewrite Hst. cbn.
      eexists _, _. split; [reflexivity|]. cbn.
      rewrite !lookup_alter_eq, Ha. cbn. split; [reflexivity|].
      repeat split; try congruence; try apply Hnew;
        intros; cbn in *; congruence.
Qed.


Lemma dump_line_elem w r e :
  e ∈ dump_line w r
  <-> exists t n ka ta,
        get_target w r = Some t /\ t_node t = Some n
        /\ t_activation t = Some ka /\ acts w !! ka = Some ta
        /\ e = dump_of n ta.
Proof.
  unfold dump_line. split.
  - intros H.
    destruct (get_target w r) as [t|] eqn:Ht; [|now apply elem_of_nil in H].
    destruct (t_node t) as [n|] eqn:Hn; [|now apply elem_of_nil in H].
    destruct (t_activation t) as [ka|] eqn:Hka;
      [|now apply elem_of_nil in H].
    cbn in H. destruct (acts w !! ka) as [ta|] eqn:Hta;
      [|now apply elem_of_nil in H].
    apply list_elem_of_singleton in H. exists t, n, ka, ta. auto.
  - intros (t & n & ka & ta & -> & -> & -> & Hta & ->). cbn.
    rewrite Hta. now left.
Qed.

Lemma dump_line_sync_left k x w r :
  dump_line (upd_act k (set_sync_left x) w) r = dump_line w r.
Proof.
  unfold dump_line.
  change (get_target (upd_act k (set_sync_left x) w) r) with (get_target w r).
  destruct (get_target w r) as [t|]; [|reflexivity].
  destruct (t_node t) as [n|]; [|reflexivity].
  destruct (t_activation t) as [ka|]; [|reflexivity].
  cbn. rewrite lookup_alter.
  case_decide; [subst|reflexivity].
  now destruct (acts w !! ka).
Qed.



(** * Further properties of the scheduler *)

(** ** Attaching a node once *)

Lemma add_node_source_loop this driver w w1 :
  add_node this driver w = Some w1 ->
  forall m, source_loop <$> nodes w1 !! m = source_loop <$> nodes w !! m.
Proof.
  unfold add_node. intros H m.
  destruct (nodes w !! this) as [nd|] eqn:Hnd; [|discriminate]. cbn in H.
  destruct (exported nd); [now injection H as <-|].
  destruct (nodes w !! driver) as [drv|] eqn:Hdrv; [|discriminate].
  cbn in H. injection H as <-. cbn. rewrite !lookup_alter.
  repeat case_decide; subst; destruct (nodes w !! m); reflexivity.
Qed.

Lemma remove_node_source_loop this w w1 :
  remove_node this w = Some w1 ->
  forall m, source_loop <$> nodes w1 !! m = source_loop <$> nodes w !! m.
Proof.
  unfold remove_node. intros H m.
  destruct (nodes w !! this) as [nd|] eqn:Hnd; [|discriminate]. cbn in H.
  destruct (exported nd); [now injection H as <-|].
  destruct (t_activation (rt_driver_target nd)); [|discriminate].
  cbn in H. injection H as <-. cbn. rewrite !lookup_fmap.
  destruct (nodes w !! m); reflexivity.
Qed.

(** X1. do_node_add is guarded by source.loop: once it has run, the node is
    marked as added to the data loop, and running it again changes nothing;
    the required counters are not incremented a second time. *)
Theorem do_node_add_idempotent (this : nat) (w w' : world) :
  do_node_add this w = Some w' ->
  (exists nd', nodes w' !! this = Some nd' /\ source_loop nd' = true)
  /\ do_node_add this w' = Some w'.
Proof.
  intros H.
  assert (Hloop : exists nd', nodes w' !! this = Some nd'
                              /\ source_loop nd' = true).
  { unfold do_node_add in H.
    destruct (nodes w !! this) as [nd|] eqn:Hnd; [|discriminate]. cbn in H.
    destruct (source_loop nd) eqn:Hsl.
    - injection H as <-. eauto.
    - pose proof (add_node_source_loop _ _ _ _ H this) as E. cbn in E.
      rewrite lookup_alter_eq, Hnd in E. cbn in E.
      destruct (nodes w' !! this) as [nd'|]; [|discriminate].
      injection E as E. eauto. }
  split; [exact Hloop|]. destruct Hloop as (nd' & Hnd' & Hsl').
  unfold do_node_add. rewrite Hnd'. cbn. now rewrite Hsl'.
Qed.

Lemma do_node_add_idempotent_witness :
  do_node_add 1%nat example_graph = Some example_graph.
Proof.
  apply (do_node_add_idempotent 1%nat example_graph0).
  vm_compute. reflexivity.
Defined.

(** ** A node that continues asynchronously *)

Lemma lookup_upd_act_ne k j f w :
  k <> j -> acts (upd_act k f w) !! j = acts w !! j.
Proof. intros H. cbn. now rewrite lookup_alter_ne. Qed.

(** X2. When the plugin of a node that is not the driver of its graph
    returns SPA_STATUS_OK from process, process_node stops there: the node
    stays AWAKE with its awake time and the status of the plugin recorded, its
    finish time is not written, no target is counted down or signalled and no
    other activation record changes. The cycle goes on when the node calls
    its ready callback. *)
Theorem process_node_async_continue `{Ext : Externals} (fuel this : nat)
    (w : world) (nd : pw_node) (a : pw_node_activation) :
  nodes w !! this = Some nd ->
  this <> driver_node nd \/ exported nd = true ->
  acts w !! rt_activation nd = Some a ->
  spa_node_process this (now w + Z.of_nat (hd 0%nat (ticks w))) = SPA_STATUS_OK ->
  exists w' a',
    process_node (S fuel) this w = Some w'
    /\ nodes w' = nodes w
    /\ (forall k, k <> rt_activation nd -> acts w' !! k = acts w !! k)
    /\ acts w' !! rt_activation nd = Some a'
    /\ status a' = PW_NODE_ACTIVATION_AWAKE
    /\ awake_time a' = now w + Z.of_nat (hd 0%nat (ticks w))
    /\ finish_time a' = finish_time a
    /\ signal_time a' = signal_time a
    /\ pending (state0 a') = pending (state0 a)
    /\ ast_status (state0 a') = SPA_STATUS_OK
    /\ trace w' = trace w ++ map (Ev_process_mix this) (rt_input_mix nd)
                          ++ [Ev_process this SPA_STATUS_OK].
Proof.
  intros Hnd Hnot Ha Hok.
  assert (Hcond : Nat.eqb this (driver_node nd) && negb (exported nd) = false).
  { destruct Hnot as [Hne| ->]; [|now rewrite andb_false_r].
    apply Nat.eqb_neq in Hne. now rewrite Hne. }
  cbn [process_node]. unfold process_node_body. rewrite Hnd. cbn.
  rewrite Hok, Hcond.
  change (has_flag SPA_STATUS_OK SPA_STATUS_HAVE_DATA) with false.
  change (SPA_STATUS_OK =? SPA_STATUS_OK) with true. cbn.
  eexists _, _. split; [reflexivity|].
  unfold process_mix. cbn.
  rewrite !lookup_alter_eq, Ha. cbn.
  split; [reflexivity|]. split.
  { intros k Hk. now rewrite !lookup_alter_ne by congruence. }
  split; [reflexivity|]. cbn. repeat split.
  now rewrite <- app_assoc.
Qed.

Lemma process_node_async_continue_witness :
  exists w' a',
    process_node (Ext := async_externals) 1 1%nat example_graph = Some w'
    /\ acts w' !! 1%nat = Some a'
    /\ status a' = PW_NODE_ACTIVATION_AWAKE
    /\ finish_time a' = 0.
Proof.
  edestruct (process_node_async_continue (Ext := async_externals) 0 1%nat
               example_graph)
    as (w' & a' & H1 & _ & _ & H2 & H3 & _ & H4 & _);
    [ vm_compute; reflexivity | left; vm_compute; discriminate
    | vm_compute; reflexivity | reflexivity | ].
  exists w', a'. split; [exact H1|]. split; [exact H2|].
  split; [exact H3|exact H4].
Defined.

(** ** The driver opens a cycle *)

Lemma reset_reset s :
  pw_node_activation_state_reset (pw_node_activation_state_reset s)
  = pw_node_activation_state_reset s.
Proof. now destruct s. Qed.

Lemma armed_armed us ts a a1 a2 :
  armed us ts a a1 -> armed us ts a1 a2 -> armed us ts a a2.
Proof.
  intros (S1 & R1 & P1 & N1) (S2 & R2 & P2 & N2).
  repeat split; [exact S2| |destruct us; congruence|destruct us; congruence].
  now rewrite R2, R1, reset_reset.
Qed.

Lemma armed_kept us ts a a1 a2 :
  armed us ts a a1 -> sched_fields a2 = sched_fields a1 -> armed us ts a a2.
Proof.
  intros (S1 & R1 & P1 & N1) E. unfold sched_fields in E.
  injection E as E1 E2 E3 E4. repeat split; congruence.
Qed.

Lemma kept_armed us ts a a1 a2 :
  sched_fields a1 = sched_fields a -> armed us ts a1 a2 -> armed us ts a a2.
Proof.
  intros E (S2 & R2 & P2 & N2). unfold sched_fields in E.
  injection E as E1 E2 E3 E4. repeat split; try congruence;
    destruct us; congruence.
Qed.

Lemma targeted_frame w w' l j :
  nodes w' = nodes w -> links w' = links w ->
  targeted w' l j <-> targeted w l j.
Proof.
  intros N L. unfold targeted, get_target.
  split; intros (r & t & Hr & Ht & Hk); exists r, t;
    (split; [exact Hr|split; [|exact Hk]]);
    destruct r; cbn in *; congruence.
Qed.

Lemma ready_target_sched k o0 o1 ro us ts r w ar rn w' ar' rn' :
  ready_target k o0 o1 ro us ts r (w, ar, rn) = Some (w', ar', rn') ->
  exists t ka,
    get_target w r = Some t /\ t_activation t = Some ka
    /\ forall j a, acts w !! j = Some a ->
       exists a', acts w' !! j = Some a'
         /\ (j = ka -> armed us ts a a')
         /\ (j <> ka -> sched_fields a' = sched_fields a).
Proof.
  unfold ready_target. intros H.
  destruct (get_target w r) as [t|]; [|discriminate]. cbn in H.
  destruct (t_activation t) as [ka|] eqn:Hta; [|discriminate]. cbn in H.
  destruct (acts w !! ka) as [a0|] eqn:Ha0; [|discriminate]. cbn in H.
  exists t, ka. split; [reflexivity|]. split; [exact Hta|].
  destruct (t_node t) as [n|].
  - destruct (nodes w !! n) as [tn|]; [|discriminate]. cbn in H.
    destruct (alter _ ka (acts w) !! ka) as [ta|]; [|discriminate]. cbn in H.
    match type of H with
    | context [?m !! ka] => destruct (m !! ka) as [ta'|]; [|discriminate]
    end. cbn in H.
    destruct us; injection H; intros; subst;
      destruct (info_id tn =? o0), (info_id tn =? o1); cbn;
      rewrite ?lookup_alter; repeat case_decide; subst;
      try congruence;
      match goal with H : acts w !! _ = Some _ |- _ => rewrite H end; cbn;
      (eexists; split; [reflexivity|]);
      (split; [intros ?; try congruence; repeat split
              |intros ?; try congruence; reflexivity]).
  - cbn in H.
    match type of H with
    | context [?m !! ka] => destruct (m !! ka) as [ta'|]; [|discriminate]
    end. cbn in H.
    destruct us; injection H; intros; subst; cbn;
      rewrite ?lookup_alter; repeat case_decide; subst;
      try congruence;
      match goal with H : acts w !! _ = Some _ |- _ => rewrite H end; cbn;
      (eexists; split; [reflexivity|]);
      (split; [intros ?; try congruence; repeat split
              |intros ?; try congruence; reflexivity]).
Qed.

Lemma targeted_dec w l j : targeted w l j \/ ~ targeted w l j.
Proof.
  induction l as [|r l IH].
  - right. intros (r & t & Hr & _). inversion Hr.
  - destruct IH as [(r0 & t & Hr & Ht & Hk)|IH].
    { left. exists r0, t. split; [now right|auto]. }
    destruct (get_target w r) as [t|] eqn:Ht.
    + destruct (t_activation t) as [k|] eqn:Hk.
      * destruct (decide (k = j)) as [->|Hne].
        -- left. exists r, t. split; [now left|auto].
        -- right. intros (r0 & t0 & Hr & Ht0 & Hk0).
           apply elem_of_cons in Hr as [->|Hr]; [congruence|].
           apply IH. now exists r0, t0.
      * right. intros (r0 & t0 & Hr & Ht0 & Hk0).
        apply elem_of_cons in Hr as [->|Hr]; [congruence|].
        apply IH. now exists r0, t0.
    + right. intros (r0 & t0 & Hr & Ht0 & Hk0).
      apply elem_of_cons in Hr as [->|Hr]; [congruence|].
      apply IH. now exists r0, t0.
Qed.

Lemma ready_targets_sched k o0 o1 ro us ts l : forall w ar rn w' ar' rn',
  ready_targets k o0 o1 ro us ts l (w, ar, rn) = Some (w', ar', rn') ->
  forall j a, acts w !! j = Some a ->
    exists a', acts w' !! j = Some a'
      /\ (targeted w l j -> armed us ts a a')
      /\ (~ targeted w l j -> sched_fields a' = sched_fields a).
Proof.
  induction l as [|r l IH]; intros w ar rn w' ar' rn' H j a Ha; cbn in H.
  - injection H; intros; subst. exists a. split; [exact Ha|].
    split; [|reflexivity]. intros (r & t & Hr & _). inversion Hr.
  - destruct (ready_target k o0 o1 ro us ts r (w, ar, rn))
      as [[[w1 ar1] rn1]|] eqn:H1; [|discriminate].
    cbn in H.
    pose proof (ready_target_frame _ _ _ _ _ _ _ _ _ _ _ _ _ H1) as F1.
    destruct (ready_target_sched _ _ _ _ _ _ _ _ _ _ _ _ _ H1)
      as (t & ka & Ht & Hka & Hstep).
    destruct (Hstep j a Ha) as (a1 & Ha1 & Harm1 & Hkeep1).
    destruct (IH _ _ _ _ _ _ H j a1 Ha1) as (a' & Ha' & Harm & Hkeep).
    assert (Htf : targeted w1 l j <-> targeted w l j)
      by (apply targeted_frame; [apply (frame_nodes _ _ F1)
                                |apply (frame_links _ _ F1)]).
    exists a'. split; [exact Ha'|]. split.
    + intros (r0 & t0 & Hr & Ht0 & Hk0).
      destruct (targeted_dec w l j) as [Hl|Hl].
      * destruct (decide (j = ka)) as [E|E].
        -- eapply armed_armed; [now apply Harm1|].
           apply Harm. now apply Htf.
        -- eapply kept_armed; [now apply Hkeep1|].
           apply Harm. now apply Htf.
      * apply elem_of_cons in Hr as [->|Hr].
        -- assert (j = ka) by congruence.
           eapply armed_kept; [now apply Harm1|].
           apply Hkeep. intros Hc. apply Hl. now apply Htf.
        -- exfalso. apply Hl. now exists r0, t0.
    + intros Hn.
      assert (Hne : j <> ka).
      { intros ->. apply Hn. exists r, t. split; [now left|auto]. }
      rewrite Hkeep, Hkeep1; [reflexivity|exact Hne|].
      intros Hc. apply Hn. apply Htf in Hc.
      destruct Hc as (r0 & t0 & Hr & Ht0 & Hk0).
      exists r0, t0. split; [now right|auto].
Qed.

Lemma sched_kept_refl w : sched_kept w w.
Proof. intros j a H. eauto. Qed.

Lemma sched_kept_trans w1 w2 w3 :
  sched_kept w1 w2 -> sched_kept w2 w3 -> sched_kept w1 w3.
Proof.
  intros H1 H2 j a Ha. destruct (H1 j a Ha) as (a1 & Ha1 & E1).
  destruct (H2 j a1 Ha1) as (a2 & Ha2 & E2). exists a2.
  split; [exact Ha2|congruence].
Qed.

Lemma sched_kept_upd_act k f w0 w :
  (forall a, sched_fields (f a) = sched_fields a) ->
  sched_kept w0 w -> sched_kept w0 (upd_act k f w).
Proof.
  intros Hf H j a Ha. destruct (H j a Ha) as (a1 & Ha1 & E1).
  cbn. rewrite lookup_alter. case_decide.
  - subst. rewrite Ha1. cbn. exists (f a1). split; [reflexivity|].
    now rewrite Hf.
  - eauto.
Qed.

Lemma sched_kept_insert k a a' w0 w :
  acts w !! k = Some a -> sched_fields a' = sched_fields a ->
  sched_kept w0 w -> sched_kept w0 (set_acts (<[k := a']> (acts w)) w).
Proof.
  intros Hk E H j b Hb. destruct (H j b Hb) as (b1 & Hb1 & E1).
  cbn. rewrite lookup_insert. case_decide.
  - subst. exists a'. split; [reflexivity|]. congruence.
  - eauto.
Qed.

Lemma sched_kept_same_acts w0 w w' :
  acts w' = acts w -> sched_kept w0 w -> sched_kept w0 w'.
Proof. intros E H j a Ha. rewrite E. now apply H. Qed.

Lemma sched_kept_dump_states n w0 w :
  sched_kept w0 w -> sched_kept w0 (dump_states n w).
Proof.
  unfold dump_states. destruct (nodes w !! n); [|auto].
  now apply sched_kept_same_acts.
Qed.

Ltac kept_last :=
  first
    [ apply sched_kept_upd_act; [intros ?; reflexivity|]
    | apply sched_kept_dump_states
    | apply (sched_kept_same_acts _ _ (log _ _)); [reflexivity|]
    | apply (sched_kept_same_acts _ _ (logs _ _)); [reflexivity|] ].

Lemma do_reposition_sched driver node w w' :
  do_reposition driver node w = Some w' -> sched_kept w w'.
Proof.
  unfold do_reposition, sync_cycles. intros H.
  destruct (nodes w !! driver) as [dn|]; [|discriminate]. cbn in H.
  destruct (nodes w !! node) as [nn|]; [|discriminate]. cbn in H.
  destruct (acts w !! rt_activation dn) as [a|] eqn:Ha; [|discriminate].
  cbn in H.
  destruct (acts w !! rt_activation nn) as [na|]; [|discriminate]. cbn in H.
  destruct (pos_state (position a) =? SPA_IO_POSITION_STATE_RUNNING); cbn in H.
  - repeat match type of H with
           | context [if ?c =? 0 then None else _] => destruct (c =? 0); cbn in H
           end; try discriminate.
    injection H as <-.
    eapply sched_kept_insert; [exact Ha|reflexivity|apply sched_kept_refl].
  - injection H as <-.
    eapply sched_kept_insert; [exact Ha|reflexivity|apply sched_kept_refl].
Qed.

Lemma update_position_sched node all_ready w w' :
  update_position node all_ready w = Some w' -> sched_kept w w'.
Proof.
  unfold update_position. intros H.
  destruct (nodes w !! node) as [nd|]; [|discriminate]. cbn in H.
  destruct (acts w !! rt_activation nd) as [a|]; [|discriminate]. cbn in H.
  match type of H with
  | context [if ?c then _ else Some (w, all_ready)] => destruct c
  end.
  - destruct (negb all_ready).
    + destruct (u64 (sync_left a - 1) =? 0); cbn in H.
      * destruct (_ !! _) as [a'|]; [|discriminate]. cbn in H.
        destruct (_ =? _); injection H as <-;
          repeat first [apply sched_kept_refl | kept_last].
      * cbn in H. destruct (_ !! _) as [a'|]; [|discriminate]. cbn in H.
        destruct (_ =? _); injection H as <-;
          repeat first [apply sched_kept_refl | kept_last].
    + destruct all_ready; cbn in H;
        (destruct (_ !! _) as [a'|]; [|discriminate]); cbn in H;
        destruct (_ =? _); injection H as <-;
        repeat first [apply sched_kept_refl | kept_last].
  - cbn in H. destruct (_ !! _) as [a'|]; [|discriminate]. cbn in H.
    destruct (_ =? _); injection H as <-;
      repeat first [apply sched_kept_refl | kept_last].
Qed.

(** the result of check_updates and what it leaves alone *)
Lemma check_updates_result a a' res owner :
  check_updates a = Some (a', res, owner) ->
  owner = reposition_owner a
  /\ sched_fields a' = sched_fields a
  /\ res = (if owner =? 0
            then match command a with
                 | PW_NODE_ACTIVATION_COMMAND_NONE => SYNC_CHECK
                 | PW_NODE_ACTIVATION_COMMAND_START => SYNC_START
                 | PW_NODE_ACTIVATION_COMMAND_STOP => SYNC_STOP
                 end
            else SYNC_START).
Proof.
  unfold check_updates, sync_cycles.
  destruct (offset (position a) =? INT64_MIN); cbn;
    destruct (command a); cbn;
    repeat match goal with
           | |- context [if ?c =? 0 then None else _] => destruct (c =? 0); cbn
           end;
    intros H; try discriminate; injection H; intros; subst; auto.
Qed.

(** What opening a cycle does to the scheduling fields: the records of the
    targets of the driver are armed, all others keep theirs. *)
Lemma driver_cycle_sched node nd w w' a0 :
  acts w !! rt_activation nd = Some a0 ->
  driver_cycle node nd w = Some w' ->
  exists a1 st,
    check_updates a0 = Some (a1, st, reposition_owner a0)
    /\ forall j a, acts w !! j = Some a ->
       exists a', acts w' !! j = Some a'
         /\ (targeted w (rt_target_list nd) j ->
             armed (negb (st =? SYNC_CHECK)) (st =? SYNC_START) a a')
         /\ (~ targeted w (rt_target_list nd) j ->
             sched_fields a' = sched_fields a).
Proof.
  intros Ha0 H. unfold driver_cycle in H. rewrite Ha0 in H. cbn in H.
  destruct (check_updates a0) as [[[a1 st] ro]|] eqn:Hcu; [|discriminate].
  cbn in H.
  destruct (check_updates_result _ _ _ _ Hcu) as (-> & E1 & _).
  exists a1, st. split; [reflexivity|].
  match type of H with
  | context [ready_targets ?k ?o0 ?o1 ?ro ?us ?ts ?l (?w0, ?ar, None)] =>
      destruct (ready_targets k o0 o1 ro us ts l (w0, ar, None))
        as [[[w2 ar2] rn]|] eqn:Hrt; [|discriminate];
      pose proof (ready_targets_sched _ _ _ _ _ _ _ _ _ _ _ _ _ Hrt) as Hs;
      assert (K0 : sched_kept w w0)
        by (eapply sched_kept_insert;
            [exact Ha0|exact E1|apply sched_kept_refl]);
      assert (T0 : forall j, targeted w0 l j <-> targeted w l j)
        by (intros j; now apply targeted_frame)
  end.
  cbn in H.
  assert (K2 : sched_kept w2 w').
  { destruct rn as [rn|].
    - destruct (do_reposition node rn _) as [w3|] eqn:Hrp; [|discriminate].
      cbn in H. eapply sched_kept_trans; [|eapply update_position_sched, H].
      eapply sched_kept_trans; [|eapply do_reposition_sched, Hrp].
      kept_last. apply sched_kept_refl.
    - cbn in H. eapply sched_kept_trans; [|eapply update_position_sched, H].
      kept_last. apply sched_kept_refl. }
  intros j a Ha. destruct (K0 j a Ha) as (b0 & Hb0 & Eb0).
  destruct (Hs j b0 Hb0) as (b2 & Hb2 & Harm & Hkeep).
  destruct (K2 j b2 Hb2) as (a' & Ha' & Ea').
  exists a'. split; [exact Ha'|]. split.
  - intros Ht. eapply armed_kept; [|exact Ea'].
    eapply kept_armed; [exact Eb0|]. apply Harm. now apply T0.
  - intros Hn. rewrite Ea', Hkeep; [exact Eb0|].
    intros Hc. apply Hn. now apply T0.
Qed.

(** X3. Opening a cycle (node_ready, lines 1311-1350) arms exactly the
    targets of the driver: the activation record behind every entry of the
    target list of the driver ends with status NOT_TRIGGERED and its pending
    count back at the required count; the status and the pending count of
    every other activation record are left as they were, and no required
    count changes. *)
Theorem driver_cycle_arms_targets (node : nat) (nd : pw_node) (w w' : world)
    (a0 : pw_node_activation) :
  acts w !! rt_activation nd = Some a0 ->
  driver_cycle node nd w = Some w' ->
  forall j a, acts w !! j = Some a ->
    exists a', acts w' !! j = Some a'
      /\ required (state0 a') = required (state0 a)
      /\ (targeted w (rt_target_list nd) j ->
          status a' = PW_NODE_ACTIVATION_NOT_TRIGGERED
          /\ pending (state0 a') = required (state0 a))
      /\ (~ targeted w (rt_target_list nd) j ->
          status a' = status a
          /\ pending (state0 a') = pending (state0 a)).
Proof.
  intros Ha0 H j a Ha.
  destruct (driver_cycle_sched _ _ _ _ _ Ha0 H) as (a1 & st & _ & Hs).
  destruct (Hs j a Ha) as (a' & Ha' & Harm & Hkeep).
  exists a'. split; [exact Ha'|]. split; [|split].
  - destruct (targeted_dec w (rt_target_list nd) j) as [Ht|Ht].
    + destruct (Harm Ht) as (_ & R & _). now rewrite R.
    + specialize (Hkeep Ht). unfold sched_fields in Hkeep. congruence.
  - intros Ht. destruct (Harm Ht) as (S & R & _). split; [exact S|].
    now rewrite R.
  - intros Ht. specialize (Hkeep Ht). unfold sched_fields in Hkeep.
    injection Hkeep as E1 _ _ E4. now rewrite E4.
Qed.

Lemma driver_cycle_arms_targets_witness :
  exists w' a',
    driver_cycle 0%nat example_driver unfinished_graph = Some w'
    /\ acts w' !! 0%nat = Some a'
    /\ status a' = PW_NODE_ACTIVATION_NOT_TRIGGERED
    /\ pending (state0 a') = 3.
Proof.
  assert (Hrun : exists w', driver_cycle 0%nat example_driver unfinished_graph
                            = Some w').
  { eexists. vm_compute. reflexivity. }
  destruct Hrun as (w' & Hrun).
  assert (Ha0 : acts unfinished_graph !! 0%nat
                = Some (act_at unfinished_graph 0))
    by (vm_compute; reflexivity).
  destruct (driver_cycle_arms_targets 0%nat example_driver unfinished_graph
              w' _ Ha0 Hrun 0%nat _ Ha0) as (a' & Ha' & _ & Harm & _).
  destruct Harm as (S & P).
  { exists (node_target 0%nat). eexists.
    split; [vm_compute; repeat first [left|right]
           |split; [vm_compute; reflexivity|reflexivity]]. }
  exists w', a'. split; [exact Hrun|]. split; [exact Ha'|].
  split; [exact S|exact P].
Defined.

(** X4. Opening a cycle sets the two handshake flags of every target of the
    driver from the transport request it finds: with a START command or a
    reposition request pending_sync and pending_new_pos are set, with a STOP
    command and no reposition request they are cleared, and in a cycle
    without request they are left as the targets have them. *)
Theorem driver_cycle_sync_flags (node : nat) (nd : pw_node) (w w' : world)
    (a0 : pw_node_activation) :
  acts w !! rt_activation nd = Some a0 ->
  driver_cycle node nd w = Some w' ->
  forall j a, acts w !! j = Some a ->
    targeted w (rt_target_list nd) j ->
    exists a', acts w' !! j = Some a'
      /\ (reposition_owner a0 <> 0
          \/ command a0 = PW_NODE_ACTIVATION_COMMAND_START ->
          pending_sync a' = true /\ pending_new_pos a' = true)
      /\ (reposition_owner a0 = 0 ->
          command a0 = PW_NODE_ACTIVATION_COMMAND_STOP ->
          pending_sync a' = false /\ pending_new_pos a' = false)
      /\ (reposition_owner a0 = 0 ->
          command a0 = PW_NODE_ACTIVATION_COMMAND_NONE ->
          pending_sync a' = pending_sync a
          /\ pending_new_pos a' = pending_new_pos a).
Proof.
  intros Ha0 H j a Ha Ht.
  destruct (driver_cycle_sched _ _ _ _ _ Ha0 H) as (a1 & st & Hcu & Hs).
  destruct (check_updates_result _ _ _ _ Hcu) as (_ & _ & Hst).
  destruct (Hs j a Ha) as (a' & Ha' & Harm & _).
  destruct (Harm Ht) as (_ & _ & P & N).
  exists a'. split; [exact Ha'|]. split; [|split].
  - intros [Hro|Hc].
    + apply Z.eqb_neq in Hro. rewrite Hro in Hst. subst st.
      cbn in P, N. auto.
    + rewrite Hc in Hst.
      destruct (reposition_owner a0 =? 0); subst st; cbn in P, N; auto.
  - intros Hro Hc. rewrite Hro, Hc in Hst. cbn in Hst. subst st.
    cbn in P, N. auto.
  - intros Hro Hc. rewrite Hro, Hc in Hst. cbn in Hst. subst st.
    cbn in P, N. auto.
Qed.

Lemma driver_cycle_sync_flags_witness :
  exists w' a',
    driver_cycle 0%nat example_driver starting_graph = Some w'
    /\ acts w' !! 1%nat = Some a'
    /\ pending_sync a' = true.
Proof.
  assert (Hrun : exists w', driver_cycle 0%nat example_driver starting_graph
                            = Some w').
  { eexists. vm_compute. reflexivity. }
  destruct Hrun as (w' & Hrun).
  assert (Ha0 : acts starting_graph !! 0%nat = Some (act_at starting_graph 0))
    by (vm_compute; reflexivity).
  assert (Ha1 : acts starting_graph !! 1%nat = Some (act_at starting_graph 1))
    by (vm_compute; reflexivity).
  destruct (driver_cycle_sync_flags 0%nat example_driver starting_graph w'
              _ Ha0 Hrun 1%nat _ Ha1) as (a' & Ha' & Hstart & _).
  { exists (node_target 1%nat). eexists.
    split; [vm_compute; repeat first [left|right]
           |split; [vm_compute; reflexivity|reflexivity]]. }
  destruct Hstart as [P _]; [right; reflexivity|].
  exists w', a'. split; [exact Hrun|]. split; [exact Ha'|exact P].
Defined.

(** ** The transport position *)

(** X5. update_position advances position.offset by one clock.duration
    (in 64-bit signed arithmetic) in every cycle that it does not leave in
    state RUNNING, and leaves the offset alone in a cycle that it leaves
    RUNNING, the cycle in which the handshake completes included; the clock
    itself is never written. *)
Theorem update_position_offset (node : nat) (w : world) (nd : pw_node)
    (a : pw_node_activation) (all_ready : bool) :
  nodes w !! node = Some nd ->
  acts w !! rt_activation nd = Some a ->
  exists w' a',
    update_position node all_ready w = Some w'
    /\ acts w' !! rt_activation nd = Some a'
    /\ clock_position (position a') = clock_position (position a)
    /\ clock_duration (position a') = clock_duration (position a)
    /\ (pos_state (position a') = SPA_IO_POSITION_STATE_RUNNING ->
        offset (position a') = offset (position a))
    /\ (pos_state (position a') <> SPA_IO_POSITION_STATE_RUNNING ->
        offset (position a')
        = s64 (offset (position a) + clock_duration (position a))).
Proof.
  intros Hnd Ha. unfold update_position. rewrite Hnd. cbn. rewrite Ha. cbn.
  destruct (Z.eqb_spec (pos_state (position a)) SPA_IO_POSITION_STATE_STARTING)
    as [Hst|Hst].
  2:{ cbn. rewrite Ha. cbn.
      destruct (Z.eqb_spec (pos_state (position a))
                  SPA_IO_POSITION_STATE_RUNNING) as [Hr|Hr].
      - exists w, a. repeat split; try assumption; congruence.
      - eexists _, _. split; [reflexivity|]. cbn.
        rewrite lookup_alter_eq, Ha. cbn. split; [reflexivity|].
        cbn. repeat split; congruence. }
  destruct all_ready; cbn.
  - rewrite lookup_alter_eq, Ha. cbn.
    eexists _, _. split; [reflexivity|]. cbn.
    rewrite lookup_alter_eq, Ha. cbn. split; [reflexivity|].
    cbn. repeat split; congruence.
  - destruct (Z.eqb_spec (u64 (sync_left a - 1)) 0) as [Hz|Hz]; cbn.
    + unfold dump_states. cbn. rewrite Hnd. cbn.
      rewrite !lookup_alter_eq, Ha. cbn.
      eexists _, _. split; [reflexivity|]. cbn.
      rewrite !lookup_alter_eq, Ha. cbn. split; [reflexivity|].
      cbn. repeat split; congruence.
    + rewrite lookup_alter_eq, Ha. cbn. rewrite Hst. cbn.
      eexists _, _. split; [reflexivity|]. cbn.
      rewrite !lookup_alter_eq, Ha. cbn. split; [reflexivity|].
      cbn. repeat split; try congruence.
      intros E. rewrite Hst in E. discriminate E.
Qed.

Lemma update_position_offset_witness :
  exists w' a',
    update_position 0%nat true example_graph = Some w'
    /\ acts w' !! 0%nat = Some a'
    /\ offset (position a') = s64 (INT64_MIN + 1024).
Proof.
  assert (Ha : acts example_graph !! 0%nat = Some (act_at example_graph 0))
    by (vm_compute; reflexivity).
  assert (Hn : nodes example_graph !! 0%nat = Some example_driver)
    by (vm_compute; reflexivity).
  destruct (update_position_offset 0%nat example_graph example_driver _ true
              Hn Ha) as (w' & a' & H1 & H2 & _ & _ & _ & Hnot).
  assert (Hrt : rt_activation example_driver = 0%nat)
    by (vm_compute; reflexivity).
  rewrite Hrt in H2.
  exists w', a'. split; [exact H1|]. split; [exact H2|].
  set (W := default example_graph (update_position 0%nat true example_graph)).
  assert (Hw : update_position 0%nat true example_graph = Some W)
    by (vm_compute; reflexivity).
  assert (HW : acts W !! 0%nat = Some (act_at W 0))
    by (vm_compute; reflexivity).
  assert (w' = W) by congruence. subst w'.
  assert (a' = act_at W 0) by congruence. subst a'.
  rewrite Hnot; [reflexivity|]. vm_compute. discriminate.
Defined.

(** X6. do_reposition copies the reposition segment of the requesting node
    into segment 0 of the position of the driver; a start of 0 is replaced by
    clock.position - offset (64-bit unsigned). A position that is RUNNING
    goes back to STARTING and sync_left is armed again with sync_timeout
    divided by the duration of a cycle; in any other state the position
    state and sync_left are kept. Nothing else in the graph changes. *)
Theorem do_reposition_segment (driver node : nat) (w : world)
    (dn nn : pw_node) (a na : pw_node_activation) :
  nodes w !! driver = Some dn ->
  nodes w !! node = Some nn ->
  acts w !! rt_activation dn = Some a ->
  acts w !! rt_activation nn = Some na ->
  (pos_state (position a) = SPA_IO_POSITION_STATE_RUNNING ->
   clock_rate_denom (position a) <> 0
   /\ u64 (clock_duration (position a) * SPA_NSEC_PER_SEC)
        / clock_rate_denom (position a) <> 0) ->
  exists w' a',
    do_reposition driver node w = Some w'
    /\ acts w' !! rt_activation dn = Some a'
    /\ segment0 (position a')
       = (if seg_start (reposition na) =? 0
          then set_seg_start
                 (u64 (clock_position (position a) - offset (position a)))
                 (reposition na)
          else reposition na)
    /\ (pos_state (position a) = SPA_IO_POSITION_STATE_RUNNING ->
        pos_state (position a') = SPA_IO_POSITION_STATE_STARTING
        /\ sync_left a'
           = sync_timeout a
             / (u64 (clock_duration (position a) * SPA_NSEC_PER_SEC)
                / clock_rate_denom (position a)))
    /\ (pos_state (position a) <> SPA_IO_POSITION_STATE_RUNNING ->
        pos_state (position a') = pos_state (position a)
        /\ sync_left a' = sync_left a)
    /\ sched_fields a' = sched_fields a
    /\ (forall k, k <> rt_activation dn -> acts w' !! k = acts w !! k)
    /\ nodes w' = nodes w /\ trace w' = trace w.
Proof.
  intros Hdn Hnn Ha Hna Hclock.
  unfold do_reposition, sync_cycles. rewrite Hdn, Hnn. cbn.
  rewrite Ha, Hna. cbn.
  destruct (Z.eqb_spec (pos_state (position a)) SPA_IO_POSITION_STATE_RUNNING)
    as [Hr|Hr]; cbn.
  - destruct (Hclock Hr) as [Hd Hc].
    destruct (Z.eqb_spec (clock_rate_denom (position a)) 0) as [|_];
      [contradiction|]. cbn.
    destruct (Z.eqb_spec
                (u64 (clock_duration (position a) * SPA_NSEC_PER_SEC)
                 / clock_rate_denom (position a)) 0) as [|_];
      [contradiction|]. cbn.
    eexists _, _. split; [reflexivity|]. cbn. rewrite lookup_insert_eq.
    split; [reflexivity|]. cbn. split; [reflexivity|].
    split; [auto|]. split; [contradiction|]. split; [reflexivity|].
    split; [|auto]. intros k Hk. now rewrite lookup_insert_ne.
  - eexists _, _. split; [reflexivity|]. cbn. rewrite lookup_insert_eq.
    split; [reflexivity|]. cbn. split; [reflexivity|].
    split; [contradiction|]. split; [auto|]. split; [reflexivity|].
    split; [|auto]. intros k Hk. now rewrite lookup_insert_ne.
Qed.

Lemma do_reposition_segment_witness :
  exists w' a',
    do_reposition 0%nat 1%nat running_graph = Some w'
    /\ acts w' !! 0%nat = Some a'
    /\ pos_state (position a') = SPA_IO_POSITION_STATE_STARTING.
Proof.
  assert (Ha : acts running_graph !! 0%nat = Some (act_at running_graph 0))
    by (vm_compute; reflexivity).
  assert (Hna : acts running_graph !! 1%nat = Some (act_at running_graph 1))
    by (vm_compute; reflexivity).
  assert (Hd : nodes running_graph !! 0%nat = Some example_driver)
    by (vm_compute; reflexivity).
  assert (Hn : nodes running_graph !! 1%nat = Some example_follower)
    by (vm_compute; reflexivity).
  destruct (do_reposition_segment 0%nat 1%nat running_graph example_driver
              example_follower _ _ Hd Hn Ha Hna)
    as (w' & a' & H1 & H2 & _ & Hrun & _).
  { intros _. vm_compute. split; discriminate. }
  exists w', a'. split; [exact H1|]. split; [exact H2|].
  apply Hrun. vm_compute. reflexivity.
Defined.

(** ** Changing the state of a node *)

Section StateChange.
Context `{Ext : Externals}.

Lemma start_node_nodes this w res w' :
  start_node this w = Some (res, w') ->
  nodes w' = nodes w /\ exists evs, trace w' = trace w ++ evs.
Proof.
  unfold start_node. intros H.
  destruct (nodes w !! this) as [nd|]; [|discriminate]. cbn in H.
  destruct (_ <=? _).
  { injection H as _ <-. split; [reflexivity|exists []; now rewrite app_nil_r]. }
  destruct (_ || _).
  { injection H as _ <-. split; [reflexivity|exists []; now rewrite app_nil_r]. }
  injection H as _ <-. destruct (_ <? 0); cbn;
    (split; [reflexivity|rewrite <- ?app_assoc; eauto]).
Qed.

Lemma add_node_proj {A} (f : pw_node -> A) this driver w w1 :
  (forall l n, f (set_rt_target_list l n) = f n) ->
  (forall t n, f (set_rt_driver_target t n) = f n) ->
  add_node this driver w = Some w1 ->
  forall m, f <$> nodes w1 !! m = f <$> nodes w !! m.
Proof.
  unfold add_node. intros Hl Ht H m.
  destruct (nodes w !! this) as [nd|] eqn:Hnd; [|discriminate]. cbn in H.
  destruct (exported nd); [now injection H as <-|].
  destruct (nodes w !! driver) as [drv|] eqn:Hdrv; [|discriminate].
  cbn in H. injection H as <-. cbn. rewrite !lookup_alter.
  repeat case_decide; subst; destruct (nodes w !! m); cbn;
    rewrite ?Hl, ?Ht; reflexivity.
Qed.

Lemma do_node_add_info_state this w w1 :
  do_node_add this w = Some w1 ->
  forall m, info_state <$> nodes w1 !! m = info_state <$> nodes w !! m.
Proof.
  unfold do_node_add. intros H m.
  destruct (nodes w !! this) as [nd|] eqn:Hnd; [|discriminate]. cbn in H.
  destruct (source_loop nd); [now injection H as <-|].
  rewrite (add_node_proj info_state _ _ _ _ (fun _ _ => eq_refl)
             (fun _ _ => eq_refl) H m).
  cbn. rewrite lookup_alter. case_decide; [|reflexivity].
  subst. now destruct (nodes w !! m).
Qed.

(** after node_update_state the node is in the state asked for *)
Lemma node_update_state_info_state node state error w w' nd :
  nodes w !! node = Some nd ->
  node_update_state node state error w = Some w' ->
  exists nd', nodes w' !! node = Some nd' /\ info_state nd' = state.
Proof.
  intros Hnd H. unfold node_update_state in H. rewrite Hnd in H. cbn in H.
  case_decide as Hold.
  { injection H as <-. eauto. }
  match type of H with
  | (?x ≫= _) = _ => destruct x as [w1|] eqn:Hm; [|discriminate]
  end.
  cbn in H. injection H as <-. cbn.
  assert (E : info_state <$> nodes w1 !! node = Some state).
  { destruct state; try (injection Hm as <-; cbn;
                         now rewrite lookup_alter_eq, Hnd).
    rewrite (do_node_add_info_state _ _ _ Hm). cbn.
    now rewrite lookup_alter_eq, Hnd. }
  destruct (nodes w1 !! node) as [nd'|]; [|discriminate].
  injection E as E. eauto.
Qed.

Lemma suspend_node_info_state this w res w' nd :
  nodes w !! this = Some nd ->
  suspend_node this w = Some (res, w') ->
  exists nd', nodes w' !! this = Some nd'
              /\ info_state nd' = PW_NODE_STATE_SUSPENDED.
Proof.
  intros Hnd H. unfold suspend_node in H.
  destruct (pause_node this w) as [[r1 w1]|] eqn:Hp; [|discriminate].
  cbn in H. destruct (nodes w1 !! this) as [nd1|] eqn:Hnd1; [|discriminate].
  cbn in H.
  destruct (suspend_ports this SPA_DIRECTION_INPUT (input_ports nd1) 0)
    as [[r2 ins] e2].
  destruct (suspend_ports this SPA_DIRECTION_OUTPUT (output_ports nd1) r2)
    as [[r3 outs] e3].
  match type of H with
  | (?x ≫= _) = _ => destruct x as [w2|] eqn:Hm; [|discriminate]
  end.
  cbn in H. injection H as _ <-.
  eapply node_update_state_info_state; [|exact Hm].
  cbn. now rewrite lookup_alter_eq, Hnd1.
Qed.

(** the end of pw_node_set_state: the completion is queued unless the
    command failed *)
Lemma set_state_queue node state res0 w2 ret res w' :
  (if ret || (res0 <? 0) then Some (res0, w2)
   else
     let '(res, w) :=
       if spa_result_is_async res0
       then (spa_node_sync node res0, log (Ev_node_sync node res0) w2)
       else (res0, w2) in
     Some (res, log (Ev_work_queue_add node res state) w)) = Some (res, w') ->
  nodes w' = nodes w2
  /\ (ret = true -> res = res0 /\ w' = w2)
  /\ (ret = false -> 0 <= res ->
      exists evs, trace w' = trace w2 ++ evs
                  /\ last (trace w') = Some (Ev_work_queue_add node res state)).
Proof.
  intros H. destruct ret; cbn in H.
  { injection H as <- <-. repeat split; discriminate. }
  destruct (Z.ltb_spec res0 0) as [Hneg|Hpos].
  { injection H as <- <-. split; [reflexivity|]. split; [discriminate|].
    intros _ Hc. lia. }
  destruct (spa_result_is_async res0); injection H as <- <-; cbn;
    (split; [reflexivity|]); (split; [discriminate|]); intros _ _;
    (eexists; split; [rewrite <- ?app_assoc; reflexivity|]);
    now rewrite last_snoc.
Qed.

Lemma node_update_state_trace node state error w w' :
  node_update_state node state error w = Some w' ->
  exists evs, trace w' = trace w ++ evs.
Proof.
  unfold node_update_state. intros H.
  destruct (nodes w !! node) as [nd|]; [|discriminate]. cbn in H.
  case_decide.
  { injection H as <-. exists []. now rewrite app_nil_r. }
  match type of H with
  | (?x ≫= _) = _ => destruct x as [w1|] eqn:Hm; [|discriminate]
  end.
  cbn in H. injection H as <-. cbn.
  assert (E : exists evs, trace w1 = trace w ++ evs).
  { destruct state; try (injection Hm as <-; exists []; cbn;
                         now rewrite app_nil_r).
    unfold do_node_add in Hm. cbn in Hm.
    destruct (alter _ node (nodes w) !! node) as [n1|]; [|discriminate].
    cbn in Hm. destruct (source_loop n1).
    - injection Hm as <-. exists []. cbn. now rewrite app_nil_r.
    - unfold add_node in Hm. cbn in Hm.
      destruct (alter _ node (alter _ node (nodes w)) !! node) as [n2|];
        [|discriminate].
      cbn in Hm. destruct (exported n2).
      + injection Hm as <-. cbn. eauto.
      + match type of Hm with
        | (?x ≫= _) = _ => destruct x; [|discriminate]
        end.
        cbn in Hm. injection Hm as <-. cbn. eauto. }
  destruct E as (evs & ->). rewrite <- !app_assoc. eauto.
Qed.

Lemma suspend_node_trace this w res w' :
  suspend_node this w = Some (res, w') ->
  exists evs, trace w' = trace w ++ evs.
Proof.
  intros H. unfold suspend_node in H.
  destruct (pause_node this w) as [[r1 w1]|] eqn:Hp; [|discriminate].
  cbn in H. destruct (nodes w1 !! this) as [nd1|] eqn:Hnd1; [|discriminate].
  cbn in H.
  destruct (suspend_ports this SPA_DIRECTION_INPUT (input_ports nd1) 0)
    as [[r2 ins] e2].
  destruct (suspend_ports this SPA_DIRECTION_OUTPUT (output_ports nd1) r2)
    as [[r3 outs] e3].
  match type of H with
  | (?x ≫= _) = _ => destruct x as [w2|] eqn:Hm; [|discriminate]
  end.
  cbn in H. injection H as _ <-.
  apply node_update_state_trace in Hm as (evs & Ht).
  apply pause_node_ports_kept in Hp as [_ (evs1 & Ht1)].
  rewrite Ht. cbn. rewrite Ht1, <- !app_assoc. eauto.
Qed.

Lemma set_state_queue_trace node state res0 w2 ret res w' :
  (if ret || (res0 <? 0) then Some (res0, w2)
   else
     let '(res, w) :=
       if spa_result_is_async res0
       then (spa_node_sync node res0, log (Ev_node_sync node res0) w2)
       else (res0, w2) in
     Some (res, log (Ev_work_queue_add node res state) w)) = Some (res, w') ->
  acts w' = acts w2
  /\ trace w' = trace w2 ++ (if ret then []
                             else completion_events node state res0 res)
  /\ res = (if ret || (res0 <? 0) then res0
            else if spa_result_is_async res0 then spa_node_sync node res0
                 else res0).
Proof.
  intros H. unfold completion_events. destruct ret; cbn in H |- *.
  { injection H as <- <-. now rewrite app_nil_r. }
  destruct (res0 <? 0).
  { injection H as <- <-. now rewrite app_nil_r. }
  destruct (spa_result_is_async res0); injection H as <- <-; cbn;
    rewrite <- ?app_assoc; auto.
Qed.

End StateChange.

Ltac conj_split :=
  repeat match goal with
         | |- _ /\ _ => split
         | |- _ -> _ => intro
         end;
  try congruence; try reflexivity; try eassumption.

(** X7. pw_node_set_state for a state the node is not in: it emits the
    state request first, then runs the command of the state on the world
    with the request logged (nothing for ERROR, pause_node for IDLE when the
    node is active and pauses on idle, node_activate and start_node for
    RUNNING when the node is active, suspend_node for SUSPENDED; CREATING
    returns -EIO at once) and, unless the command failed, syncs an
    asynchronous result and queues the completion with the result it returns
    as the last thing it does. It does not write info.state itself: only a
    request for SUSPENDED has set info.state when the call returns. *)
Theorem pw_node_set_state_defers `{Ext : Externals} (node : nat)
    (state : pw_node_state) (w w' : world) (res : Z) (nd : pw_node) :
  nodes w !! node = Some nd ->
  info_state nd <> state ->
  pw_node_set_state node state w = Some (res, w') ->
  exists nd',
    nodes w' !! node = Some nd'
    /\ (state <> PW_NODE_STATE_SUSPENDED -> info_state nd' = info_state nd)
    /\ (state = PW_NODE_STATE_SUSPENDED ->
        info_state nd' = PW_NODE_STATE_SUSPENDED)
    /\ (state = PW_NODE_STATE_CREATING ->
        res = - EIO /\ trace w' = trace w ++ [Ev_state_request node state])
    /\ (state <> PW_NODE_STATE_CREATING -> 0 <= res ->
        last (trace w') = Some (Ev_work_queue_add node res state))
    /\ (exists evs,
          trace w' = trace w ++ Ev_state_request node state :: evs)
    /\ exists res0 w1,
        let w0 := log (Ev_state_request node state) w in
        match state with
        | PW_NODE_STATE_CREATING | PW_NODE_STATE_ERROR => w1 = w0
        | PW_NODE_STATE_SUSPENDED => suspend_node node w0 = Some (res0, w1)
        | PW_NODE_STATE_IDLE =>
            if active nd && pause_on_idle nd
            then pause_node node w0 = Some (res0, w1)
            else w1 = w0
        | PW_NODE_STATE_RUNNING =>
            if active nd
            then start_node node (node_activate nd w0) = Some (res0, w1)
            else w1 = w0
        end
        /\ nodes w' = nodes w1 /\ acts w' = acts w1
        /\ trace w'
           = trace w1
             ++ (if decide (state = PW_NODE_STATE_CREATING) then []
                 else completion_events node state res0 res)
        /\ (res0 < 0 -> res = res0).
Proof.
  intros Hnd Hne H. unfold pw_node_set_state in H. rewrite Hnd in H.
  cbn in H. case_decide; [contradiction|].
  match type of H with
  | (?x ≫= _) = _ => destruct x as [[[res0 w2] ret]|] eqn:Hm; [|discriminate]
  end.
  cbn in H. pose proof (set_state_queue_trace _ _ _ _ _ _ _ H)
    as (Hacts & Htrace & Hres).
  apply set_state_queue in H as (Hn & Hret & Hq).
  set (w0 := log (Ev_state_request node state) w) in *.
  assert (Hstate : exists nd', nodes w2 !! node = Some nd'
            /\ (state <> PW_NODE_STATE_SUSPENDED ->
                info_state nd' = info_state nd)
            /\ (state = PW_NODE_STATE_SUSPENDED ->
                info_state nd' = PW_NODE_STATE_SUSPENDED)
            /\ ret = (if decide (state = PW_NODE_STATE_CREATING)
                      then true else false)
            /\ (state = PW_NODE_STATE_CREATING ->
                res0 = - EIO
                /\ trace w2 = trace w ++ [Ev_state_request node state])
            /\ (exists evs, trace w2 = trace w0 ++ evs)
            /\ match state with
               | PW_NODE_STATE_CREATING | PW_NODE_STATE_ERROR => w2 = w0
               | PW_NODE_STATE_SUSPENDED =>
                   suspend_node node w0 = Some (res0, w2)
               | PW_NODE_STATE_IDLE =>
                   if active nd && pause_on_idle nd
                   then pause_node node w0 = Some (res0, w2)
                   else w2 = w0
               | PW_NODE_STATE_RUNNING =>
                   if active nd
                   then start_node node (node_activate nd w0)
                        = Some (res0, w2)
                   else w2 = w0
               end).
  { assert (Hnil : exists evs : list event, trace w0 = trace w0 ++ evs)
      by (exists []; now rewrite app_nil_r).
    destruct state.
    - injection Hm as <- <- <-. exists nd. cbn. conj_split.
    - injection Hm as <- <- <-. exists nd. cbn. conj_split.
    - destruct (suspend_node node w0) as [[r1 w1]|] eqn:Hs; [|discriminate].
      cbn in Hm. injection Hm as <- <- <-.
      pose proof (suspend_node_trace _ _ _ _ Hs) as Hext.
      eapply suspend_node_info_state in Hs as (nd' & Hnd' & Hst');
        [|cbn; exact Hnd].
      exists nd'. split; [exact Hnd'|]. conj_split.
    - destruct (active nd && pause_on_idle nd).
      + destruct (pause_node node w0) as [[r1 w1]|] eqn:Hp; [|discriminate].
        cbn in Hm. injection Hm as <- <- <-.
        apply pause_node_ports_kept in Hp as [Hk Hext].
        destruct (Hk node nd) as (nd' & Hnd' & _ & _ & Hst'); [exact Hnd|].
        exists nd'. split; [exact Hnd'|]. conj_split.
      + injection Hm as <- <- <-. exists nd. cbn. conj_split.
    - destruct (active nd).
      + destruct (start_node node (node_activate nd w0)) as [[r1 w1]|] eqn:Hs;
          [|discriminate].
        cbn in Hm. injection Hm as <- <- <-.
        apply start_node_nodes in Hs as [Hs (evs & Hext)]. exists nd.
        rewrite Hs. cbn. split; [exact Hnd|].
        conj_split. rewrite Hext. unfold node_activate. cbn.
        rewrite <- app_assoc. eauto.
      + injection Hm as <- <- <-. exists nd. cbn. conj_split. }
  destruct Hstate as (nd' & Hnd' & Hkeep & Hsusp & Hr & Hcreate & Hext & Hcmd).
  exists nd'. rewrite Hn. split; [exact Hnd'|]. split; [exact Hkeep|].
  split; [exact Hsusp|]. split.
  { intros ->. destruct (Hcreate eq_refl) as [-> Ht].
    destruct Hret as [-> ->]; [now rewrite Hr|]. auto. }
  split.
  { intros Hc Hpos. destruct Hq as (evs & _ & Hlast); [|exact Hpos|exact Hlast].
    rewrite Hr. now case_decide. }
  split.
  { destruct Hext as (evs & Hext). rewrite Htrace, Hext. cbn.
    rewrite <- !app_assoc. cbn. eauto. }
  exists res0, w2. cbn zeta. split; [exact Hcmd|].
  split; [reflexivity|]. split; [exact Hacts|]. split.
  - rewrite Htrace, Hr. now case_decide.
  - intros Hneg. rewrite Hres. apply Z.ltb_lt in Hneg. rewrite Hneg.
    now rewrite orb_true_r.
Qed.

Lemma pw_node_set_state_defers_witness :
  exists res w' nd',
    pw_node_set_state (Ext := example_externals) 1%nat PW_NODE_STATE_IDLE
      active_graph = Some (res, w')
    /\ nodes w' !! 1%nat = Some nd'
    /\ info_state nd' = PW_NODE_STATE_RUNNING
    /\ last (trace w') = Some (Ev_work_queue_add 1 0 PW_NODE_STATE_IDLE)
    /\ exists evs,
         trace w'
         = trace active_graph
           ++ Ev_state_request 1 PW_NODE_STATE_IDLE :: evs.
Proof.
  assert (Hrun : exists w',
             pw_node_set_state (Ext := example_externals) 1%nat
               PW_NODE_STATE_IDLE active_graph = Some (0, w')).
  { eexists. vm_compute. reflexivity. }
  destruct Hrun as (w' & Hrun).
  assert (Hn : nodes active_graph !! 1%nat = Some active_follower)
    by (vm_compute; reflexivity).
  destruct (pw_node_set_state_defers (Ext := example_externals) 1%nat
              PW_NODE_STATE_IDLE active_graph w' 0 active_follower Hn)
    as (nd' & Hnd' & Hkeep & _ & _ & Hlast & Hreq & _);
    [vm_compute; discriminate | exact Hrun |].
  exists 0, w', nd'. split; [exact Hrun|]. split; [exact Hnd'|]. split.
  - rewrite Hkeep by discriminate. vm_compute. reflexivity.
  - split; [apply Hlast; [discriminate|lia]|exact Hreq].
Defined.

(** X8. on_state_complete, the completion that pw_node_set_state queues,
    moves the node to the requested state when the result is not negative,
    and to ERROR with the message "error changing node state: <res>" when it
    is. Entering a state other than RUNNING leaves the node in the data loop
    if it was there: an error does not detach a running node from its
    driver. *)
Theorem on_state_complete_result (node : nat) (state : pw_node_state)
    (res : Z) (w w' : world) (nd : pw_node) :
  nodes w !! node = Some nd ->
  on_state_complete node state res w = Some w' ->
  exists nd',
    nodes w' !! node = Some nd'
    /\ info_state nd' = (if res <? 0 then PW_NODE_STATE_ERROR else state)
    /\ (res < 0 -> info_state nd <> PW_NODE_STATE_ERROR ->
        info_error nd'
        = Some ("error changing node state: " ++ string_of_Z res)%string
        /\ source_loop nd' = source_loop nd
        /\ acts w' = acts w
        /\ trace w' = trace w ++ [Ev_state_changed node (info_state nd)
                                    PW_NODE_STATE_ERROR;
                                  Ev_info_changed node])
    /\ (0 <= res -> state <> PW_NODE_STATE_RUNNING ->
        source_loop nd' = source_loop nd /\ acts w' = acts w).
Proof.
  intros Hnd H. unfold on_state_complete in H.
  destruct (Z.ltb_spec res 0) as [Hneg|Hpos].
  - destruct (node_update_state_info_state _ _ _ _ _ _ Hnd H)
      as (nd' & Hnd' & Hst).
    exists nd'. split; [exact Hnd'|]. split; [exact Hst|]. split; [|lia].
    intros _ Hne. unfold node_update_state in H. rewrite Hnd in H. cbn in H.
    case_decide; [contradiction|]. cbn in H. injection H as <-.
    cbn in Hnd'. rewrite lookup_alter_eq, Hnd in Hnd'. cbn in Hnd'.
    injection Hnd' as <-. cbn. rewrite <- app_assoc. auto.
  - destruct (node_update_state_info_state _ _ _ _ _ _ Hnd H)
      as (nd' & Hnd' & Hst).
    exists nd'. split; [exact Hnd'|]. split; [exact Hst|]. split; [lia|].
    intros _ Hne. unfold node_update_state in H. rewrite Hnd in H. cbn in H.
    case_decide.
    + injection H as <-. rewrite Hnd in Hnd'. injection Hnd' as <-. auto.
    + destruct state; try contradiction; cbn in H; injection H as <-;
        cbn in Hnd'; rewrite lookup_alter_eq, Hnd in Hnd'; cbn in Hnd';
        injection Hnd' as <-; auto.
Qed.

Lemma on_state_complete_result_witness :
  exists w' nd',
    on_state_complete 1%nat PW_NODE_STATE_IDLE (-5) example_graph = Some w'
    /\ nodes w' !! 1%nat = Some nd'
    /\ info_state nd' = PW_NODE_STATE_ERROR
    /\ info_error nd' = Some "error changing node state: -5"%string
    /\ source_loop nd' = true.
Proof.
  assert (Hrun : exists w',
             on_state_complete 1%nat PW_NODE_STATE_IDLE (-5) example_graph
             = Some w').
  { eexists. vm_compute. reflexivity. }
  destruct Hrun as (w' & Hrun).
  assert (Hn : nodes example_graph !! 1%nat = Some example_follower)
    by (vm_compute; reflexivity).
  destruct (on_state_complete_result 1%nat PW_NODE_STATE_IDLE (-5)
              example_graph w' example_follower Hn Hrun)
    as (nd' & Hnd' & Hst & Herr & _).
  destruct Herr as (He & Hl & _); [lia|vm_compute; discriminate|].
  exists w', nd'. split; [exact Hrun|]. split; [exact Hnd'|].
  split; [exact Hst|]. split; [exact He|]. rewrite Hl. vm_compute. reflexivity.
Defined.

(** ** Moving a node to another driver *)

Lemma u32_dec_inc r : 0 <= r < 2 ^ 32 -> u32 (u32 (r - 1) + 1) = r.
Proof.
  intros Hr. unfold u32.
  destruct (Z.eq_dec r 0) as [->|Hne]; [reflexivity|].
  rewrite (Z.mod_small (r - 1)) by lia.
  replace (r - 1 + 1) with r by lia. apply Z.mod_small. lia.
Qed.

Lemma remove_node_unfold this w nd ko :
  nodes w !! this = Some nd ->
  exported nd = false ->
  t_activation (rt_driver_target nd) = Some ko ->
  remove_node this w
  = Some (upd_act (rt_activation nd) dec_required
            (target_list_remove (node_target this)
               (upd_act ko dec_required
                  (target_list_remove (node_driver_target this) w)))).
Proof.
  intros Hnd Hexp Hko. unfold remove_node. rewrite Hnd. cbn.
  rewrite Hexp, Hko. reflexivity.
Qed.



(** ** Finding a port to link *)

Lemma find_free_port_first multi pre p post : forall c,
  port_links p = [] ->
  Forall (fun q => port_links q <> []) pre ->
  find_free_port multi (pre ++ p :: post) c = Some p.
Proof.
  induction pre as [|q pre IH]; intros c Hp Hpre; cbn.
  - now rewrite Hp.
  - apply Forall_cons in Hpre as [Hq Hpre].
    destruct (port_links q) as [|lk lks]; [contradiction|]. now apply IH.
Qed.

Lemma find_free_port_multi multi ports : forall c,
  Forall (fun q => port_links q <> []) ports ->
  find_free_port multi ports c
  = match last (List.filter multi ports) with
    | Some p => Some p
    | None => c
    end.
Proof.
  induction ports as [|q ports IH]; intros c Hall; cbn; [reflexivity|].
  apply Forall_cons in Hall as [Hq Hall].
  destruct (port_links q) as [|lk lks]; [contradiction|].
  rewrite IH by assumption.
  destruct (multi q); cbn; [|reflexivity].
  destruct (List.filter multi ports) as [|x l]; [reflexivity|].
  rewrite last_cons_cons. destruct (last (x :: l)) eqn:E; [reflexivity|].
  apply last_None in E. discriminate.
Qed.

(** X10. Asked for any port (SPA_ID_INVALID), pw_node_find_port returns the
    first port of the direction that has no link; when every port is linked
    it returns the last port that can multiplex, and no port when there is
    none. Asked for a port id it returns what the port map holds for it. *)
Theorem pw_node_find_port_any (portmap : direction -> Z -> option pw_port)
    (multi : pw_port -> bool) (node : pw_node) (d : direction) :
  let ports := match d with
               | SPA_DIRECTION_INPUT => input_ports node
               | SPA_DIRECTION_OUTPUT => output_ports node
               end in
  (forall pre p post,
      ports = pre ++ p :: post ->
      port_links p = [] ->
      Forall (fun q => port_links q <> []) pre ->
      pw_node_find_port portmap multi node d SPA_ID_INVALID = Some p)
  /\ (Forall (fun q => port_links q <> []) ports ->
      pw_node_find_port portmap multi node d SPA_ID_INVALID
      = last (List.filter multi ports))
  /\ (forall port_id,
      port_id <> SPA_ID_INVALID ->
      pw_node_find_port portmap multi node d port_id = portmap d port_id).
Proof.
  intros ports. unfold pw_node_find_port. fold ports. split; [|split].
  - intros pre p post -> Hp Hpre. rewrite Z.eqb_refl. cbn.
    now apply find_free_port_first.
  - intros Hall. rewrite Z.eqb_refl. cbn.
    rewrite find_free_port_multi by assumption.
    now destruct (last _).
  - intros id Hid. apply Z.eqb_neq in Hid. now rewrite Hid.
Qed.

Lemma pw_node_find_port_any_witness :
  pw_node_find_port (fun _ _ => None) (fun _ => false)
    (set_input_ports
       [ {| port_id := 0; port_state := PW_PORT_STATE_PAUSED;
            port_links := [4%nat] |};
         example_port 1; example_port 2 ]
       example_driver)
    SPA_DIRECTION_INPUT SPA_ID_INVALID
  = Some (example_port 1).
Proof.
  refine (proj1 (pw_node_find_port_any _ _ _ SPA_DIRECTION_INPUT)
            [_] (example_port 1) [example_port 2] _ _ _).
  - reflexivity.
  - reflexivity.
  - constructor; [discriminate|constructor].
Defined.

(** * Buffers and queues of the audioconvert plugins *)

Lemma use_datas_ok d ds : forall j b pt,
  Z.of_nat (j + length ds) <= MAX_DATAS ->
  Forall (fun x => valid_data x = true) ds ->
  exists b' pt',
    use_datas d ds j b pt = Some (0, b', pt')
    /\ b_id b' = b_id b /\ b_flags b' = b_flags b /\ b_buf b' = b_buf b
    /\ length (b_datas b') = length (b_datas b).
Proof.
  induction ds as [|x ds IH]; intros j b pt Hlen Hall; cbn.
  - eexists _, _. repeat split.
  - apply Forall_cons in Hall as [Hx Hall]. rewrite Hx. cbn [negb].
    cbn [length] in Hlen.
    destruct (Z.leb_spec MAX_DATAS (Z.of_nat j)) as [Hj|Hj]; [lia|].
    edestruct (IH (S j)) as (b' & pt' & E & H1 & H2 & H3 & H4);
      [|exact Hall|].
    { rewrite <- Hlen. f_equal. lia. }
    rewrite E. eexists _, _. split; [reflexivity|].
    rewrite H1, H2, H3, H4. cbn. rewrite length_insert. repeat split.
Qed.

Lemma use_datas_result d ds : forall j b pt res b' pt',
  use_datas d ds j b pt = Some (res, b', pt') ->
  (res = 0 \/ res = - EINVAL)
  /\ b_id b' = b_id b /\ b_flags b' = b_flags b /\ b_buf b' = b_buf b
  /\ (res = 0 <-> Forall (fun x => valid_data x = true) ds).
Proof.
  induction ds as [|x ds IH]; intros j b pt res b' pt' H; cbn in H.
  - injection H as <- <- <-. repeat split; auto.
  - destruct (valid_data x) eqn:Hx; cbn in H.
    + destruct (MAX_DATAS <=? Z.of_nat j); [discriminate|].
      apply IH in H as (Hr & H1 & H2 & H3 & Hiff). cbn in H1, H2, H3.
      repeat split; auto.
      * intros E. constructor; [exact Hx|now apply Hiff].
      * intros Hall. apply Forall_cons in Hall as [_ Hall]. now apply Hiff.
    + injection H as <- <- <-. repeat split; auto.
      * discriminate.
      * intros Hall. apply Forall_cons in Hall as [Hc _]. congruence.
Qed.

Lemma queue_buffer_fresh i b q :
  b_flags b = 0 ->
  queue_buffer i b q = (set_b_flags BUFFER_FLAG_QUEUED b, q ++ [i]).
Proof. intros E. unfold queue_buffer. now rewrite E. Qed.

Lemma merger_loop_ok d bs : forall i p pt,
  (i + length bs <= length (buffers p))%nat ->
  Forall (buffer_ok (blocks p)) bs ->
  exists p' pt',
    Merger.use_buffers_loop d bs i p pt = Some (0, p', pt')
    /\ have_format p' = have_format p /\ blocks p' = blocks p
    /\ stride p' = stride p /\ n_buffers p' = n_buffers p
    /\ length (buffers p') = length (buffers p)
    /\ queue p' = queue p ++ match d with
                            | SPA_DIRECTION_OUTPUT => seq i (length bs)
                            | SPA_DIRECTION_INPUT => []
                            end
    /\ (forall k x, bs !! k = Some x ->
        exists b, buffers p' !! (i + k)%nat = Some b
          /\ b_id b = Z.of_nat (i + k) /\ b_buf b = Some x
          /\ b_flags b = match d with
                         | SPA_DIRECTION_OUTPUT => BUFFER_FLAG_QUEUED
                         | SPA_DIRECTION_INPUT => 0
                         end)
    /\ (forall k, (k < i)%nat -> buffers p' !! k = buffers p !! k).
Proof.
  induction bs as [|x bs IH]; intros i p pt Hlen Hall.
  - exists p, pt. cbn. repeat split; try reflexivity.
    + destruct d; now rewrite app_nil_r.
    + intros k y Hk. discriminate.
  - apply Forall_cons in Hall as [(Hb & Hmax & Hvalid) Hall].
    cbn [length] in Hlen. cbn [Merger.use_buffers_loop].
    destruct (lookup_lt_is_Some_2 (buffers p) i) as [b0 Hb0]; [lia|].
    rewrite Hb0. cbn [mbind option_bind].
    rewrite Hb, Z.eqb_refl. cbn [negb].
    edestruct (use_datas_ok d (datas x) 0
                 {| b_id := Z.of_nat i; b_flags := 0; b_buf := Some x;
                    b_datas := b_datas b0 |} pt)
      as (b1 & pt1 & E & H1 & H2 & H3 & _); [cbn; lia|exact Hvalid|].
    rewrite E. cbn [mbind option_bind]. cbn in H1, H2, H3.
    change (0 <? 0) with false. cbn match.
    set (bq := match d with
               | SPA_DIRECTION_OUTPUT => queue_buffer i b1 (queue p)
               | SPA_DIRECTION_INPUT => (b1, queue p)
               end).
    assert (Hbq : bq = (match d with
                        | SPA_DIRECTION_OUTPUT =>
                            set_b_flags BUFFER_FLAG_QUEUED b1
                        | SPA_DIRECTION_INPUT => b1
                        end,
                        queue p ++ match d with
                                   | SPA_DIRECTION_OUTPUT => [i]
                                   | SPA_DIRECTION_INPUT => []
                                   end)).
    { subst bq. destruct d; [now rewrite app_nil_r|].
      now apply queue_buffer_fresh. }
    rewrite Hbq.
    match goal with
    | |- context [Merger.use_buffers_loop d bs (S i) ?p1 pt1] =>
        destruct (IH (S i) p1 pt1) as (p' & pt' & E' & F1 & F2 & F3 & F4 & F5
                                       & F6 & F7 & F8);
          [cbn; rewrite length_insert; lia|exact Hall|]
    end.
    rewrite E'. exists p', pt'. split; [reflexivity|].
    cbn in F1, F2, F3, F4, F5, F6, F8.
    rewrite length_insert in F5.
    split; [exact F1|]. split; [exact F2|]. split; [exact F3|].
    split; [exact F4|]. split; [exact F5|]. split.
    { rewrite F6, <- app_assoc. destruct d; reflexivity. }
    split.
    + intros k y Hk. destruct k as [|k].
      * injection Hk as <-. rewrite Nat.add_0_r.
        rewrite F8 by lia. rewrite list_lookup_insert_eq by lia.
        eexists. split; [reflexivity|]. destruct d; cbn; auto.
      * cbn in Hk. destruct (F7 k y Hk) as (b & Hb' & G1 & G2 & G3).
        exists b. replace (i + S k)%nat with (S i + k)%nat by lia. auto.
    + intros k Hk. rewrite F8 by lia.
      now rewrite list_lookup_insert_ne by lia.
Qed.

Lemma clear_buffers_spec p :
  queue_ok p -> 0 <= n_buffers p ->
  n_buffers (clear_buffers p) = 0 /\ queue (clear_buffers p) = []
  /\ have_format (clear_buffers p) = have_format p
  /\ blocks (clear_buffers p) = blocks p
  /\ buffers (clear_buffers p) = buffers p.
Proof.
  intros Hq Hn. unfold clear_buffers.
  destruct (Z.ltb_spec 0 (n_buffers p)) as [Hpos|Hzero]; [now cbn|].
  repeat split; [lia|].
  destruct (queue p) as [|i q] eqn:E; [reflexivity|].
  pose proof (qo_bound p Hq i) as Hb. rewrite E in Hb.
  specialize (Hb ltac:(left)). lia.
Qed.

Lemma merger_get_put this d port_id p x :
  Merger.GET_PORT this d port_id = Some p ->
  Merger.GET_PORT (Merger.put_port this d port_id x) d port_id = Some x.
Proof.
  unfold Merger.GET_PORT, Merger.put_port. intros H.
  destruct d; cbn; apply list_lookup_insert_eq; eapply lookup_lt_Some, H.
Qed.

(** X11. On a port of the merger that has a format, use_buffers with at most
    MAX_BUFFERS buffers, each with as many valid data blocks as the format
    has blocks, succeeds: the port then has exactly these buffers, buffer i
    with id i, on an output port all of them queued in order, on an input
    port none; the queue agrees with the buffer flags. *)
Theorem merger_use_buffers_installs (this : Merger.impl) (d : direction)
    (port_id flags : Z) (bufs : list spa_buffer) (p : port) :
  Merger.CHECK_PORT this d port_id = true ->
  Merger.GET_PORT this d port_id = Some p ->
  have_format p = true ->
  length (buffers p) = Z.to_nat MAX_BUFFERS ->
  Z.of_nat (length bufs) <= MAX_BUFFERS ->
  Forall (buffer_ok (blocks p)) bufs ->
  queue_ok p -> 0 <= n_buffers p ->
  exists this' p',
    Merger.impl_node_port_use_buffers this d port_id flags bufs
    = Some (0, this')
    /\ Merger.GET_PORT this' d port_id = Some p'
    /\ have_format p' = true
    /\ n_buffers p' = Z.of_nat (length bufs)
    /\ queue p' = match d with
                  | SPA_DIRECTION_OUTPUT => seq 0 (length bufs)
                  | SPA_DIRECTION_INPUT => []
                  end
    /\ (forall k x, bufs !! k = Some x ->
        exists b, buffers p' !! k = Some b
                  /\ b_id b = Z.of_nat k /\ b_buf b = Some x)
    /\ queue_ok p'.
Proof.
  intros Hcheck Hget Hfmt Hlen Hn Hall Hq Hpos.
  unfold Merger.impl_node_port_use_buffers.
  rewrite Hcheck. cbn [negb]. rewrite Hget. cbn [mbind option_bind].
  rewrite Hfmt. cbn [negb].
  destruct (clear_buffers_spec p Hq Hpos) as (C1 & C2 & C3 & C4 & C5).
  destruct (merger_loop_ok d bufs 0 (clear_buffers p)
              (Merger.is_passthrough this))
    as (p1 & pt1 & E & F1 & F2 & F3 & F4 & F5 & F6 & F7 & F8).
  { rewrite C5, Hlen. unfold MAX_BUFFERS in *. lia. }
  { now rewrite C4. }
  rewrite E. cbn [mbind option_bind]. change (0 <? 0) with false. cbn match.
  eexists _, _. split; [reflexivity|].
  split; [eapply merger_get_put; exact Hget|]. cbn.
  rewrite F1, C3, F6, C2. cbn [app].
  split; [exact Hfmt|]. split; [reflexivity|]. split; [reflexivity|].
  assert (Hbuf : forall k x, bufs !! k = Some x ->
            exists b, buffers p1 !! k = Some b
              /\ b_id b = Z.of_nat k /\ b_buf b = Some x
              /\ b_flags b = match d with
                             | SPA_DIRECTION_OUTPUT => BUFFER_FLAG_QUEUED
                             | SPA_DIRECTION_INPUT => 0
                             end).
  { intros k x Hk. exact (F7 k x Hk). }
  split.
  { intros k x Hk. destruct (Hbuf k x Hk) as (b & H1 & H2 & H3 & _). eauto. }
  constructor; cbn; rewrite ?F6, ?C2; cbn [app].
  - destruct d; [constructor|apply NoDup_seq].
  - intros i Hi. destruct d; [inversion Hi|].
    apply elem_of_seq in Hi. lia.
  - intros i b Hi Hb.
    destruct (lookup_lt_is_Some_2 bufs i) as [x Hx]; [lia|].
    destruct (Hbuf i x Hx) as (b' & Hb' & _ & _ & Hfl).
    assert (b' = b) by congruence. subst b'.
    unfold is_queued. rewrite Hfl. destruct d; cbn.
    + split; [discriminate|]. intros H. inversion H.
    + split; [|reflexivity]. intros _. apply elem_of_seq. lia.
  - intros i Hi.
    destruct (lookup_lt_is_Some_2 bufs i) as [x Hx]; [lia|].
    destruct (Hbuf i x Hx) as (b' & Hb' & Hid & _). eauto.
Qed.

Lemma formatted_port_queue_ok : queue_ok formatted_port.
Proof.
  constructor; cbn.
  - constructor.
  - intros i Hi. inversion Hi.
  - intros i b Hi. lia.
  - intros i Hi. lia.
Qed.

Lemma example_buffer_ok : buffer_ok 1 example_buffer.
Proof.
  unfold buffer_ok. cbn. split; [reflexivity|]. split; [discriminate|].
  constructor; [reflexivity|constructor].
Qed.

Lemma merger_use_buffers_installs_witness :
  exists this' p',
    Merger.impl_node_port_use_buffers formatted_merger SPA_DIRECTION_OUTPUT
      0 0 [example_buffer; example_buffer] = Some (0, this')
    /\ Merger.GET_PORT this' SPA_DIRECTION_OUTPUT 0 = Some p'
    /\ n_buffers p' = 2 /\ queue p' = [0%nat; 1%nat].
Proof.
  destruct (merger_use_buffers_installs formatted_merger SPA_DIRECTION_OUTPUT
              0 0 [example_buffer; example_buffer] formatted_port)
    as (this' & p' & H1 & H2 & _ & H3 & H4 & _);
    [ reflexivity | reflexivity | reflexivity | reflexivity
    | cbn; discriminate
    | repeat constructor; apply example_buffer_ok
    | apply formatted_port_queue_ok | cbn; lia | ].
  exists this', p'. split; [exact H1|]. split; [exact H2|].
  split; [exact H3|exact H4].
Defined.

Lemma use_datas_total d ds : forall j b pt,
  Z.of_nat (j + length ds) <= MAX_DATAS ->
  exists res b' pt', use_datas d ds j b pt = Some (res, b', pt').
Proof.
  induction ds as [|x ds IH]; intros j b pt Hlen; cbn.
  - eauto.
  - destruct (valid_data x); cbn; [|eauto]. cbn [length] in Hlen.
    destruct (Z.leb_spec MAX_DATAS (Z.of_nat j)) as [Hj|Hj]; [lia|].
    apply IH. rewrite <- Hlen. f_equal. lia.
Qed.

Lemma merger_loop_app d bs1 bs2 : forall i p pt p1 pt1,
  Merger.use_buffers_loop d bs1 i p pt = Some (0, p1, pt1) ->
  Merger.use_buffers_loop d (bs1 ++ bs2) i p pt
  = Merger.use_buffers_loop d bs2 (i + length bs1) p1 pt1.
Proof.
  induction bs1 as [|x bs1 IH]; intros i p pt p1 pt1 H.
  - cbn in H. injection H as <- <-. cbn. now rewrite Nat.add_0_r.
  - cbn [app Merger.use_buffers_loop] in *.
    destruct (buffers p !! i) as [b0|]; [|discriminate].
    cbn [mbind option_bind] in *.
    destruct (negb _); [discriminate|].
    destruct (use_datas _ _ _ _ _) as [[[r b1] pt']|]; [|discriminate].
    cbn [mbind option_bind] in *.
    destruct (Z.ltb_spec r 0) as [Hr|Hr].
    + injection H as -> _ _. lia.
    + destruct d; cbn in *.
      * rewrite (IH _ _ _ _ _ H). f_equal. cbn. lia.
      * destruct (queue_buffer i b1 (queue p)) as [b2 q2].
        rewrite (IH _ _ _ _ _ H). f_equal. cbn. lia.
Qed.

(** X12. use_buffers of the merger rejects the whole array with -EINVAL at
    the first buffer whose number of data blocks differs from the blocks of
    the format or that has a data block of another type than MemPtr, MemFd
    or DmaBuf or without memory. The port is then left without buffers
    (n_buffers is 0, also when buffers were installed before); on an output
    port the buffers in front of the rejected one stay in the queue. *)
Theorem merger_use_buffers_rejects (this : Merger.impl) (d : direction)
    (port_id flags : Z) (good rest : list spa_buffer) (bad : spa_buffer)
    (p : port) :
  Merger.CHECK_PORT this d port_id = true ->
  Merger.GET_PORT this d port_id = Some p ->
  have_format p = true ->
  length (buffers p) = Z.to_nat MAX_BUFFERS ->
  Z.of_nat (length good) < MAX_BUFFERS ->
  Forall (buffer_ok (blocks p)) good ->
  Z.of_nat (length (datas bad)) <= MAX_DATAS ->
  Z.of_nat (length (datas bad)) <> blocks p
  \/ ~ Forall (fun x => valid_data x = true) (datas bad) ->
  queue_ok p -> 0 <= n_buffers p ->
  exists this' p',
    Merger.impl_node_port_use_buffers this d port_id flags
      (good ++ bad :: rest) = Some (- EINVAL, this')
    /\ Merger.GET_PORT this' d port_id = Some p'
    /\ n_buffers p' = 0
    /\ queue p' = match d with
                  | SPA_DIRECTION_OUTPUT => seq 0 (length good)
                  | SPA_DIRECTION_INPUT => []
                  end.
Proof.
  intros Hcheck Hget Hfmt Hlen Hn Hall Hmax Hbad Hq Hpos.
  unfold Merger.impl_node_port_use_buffers.
  rewrite Hcheck. cbn [negb]. rewrite Hget. cbn [mbind option_bind].
  rewrite Hfmt. cbn [negb].
  destruct (clear_buffers_spec p Hq Hpos) as (C1 & C2 & C3 & C4 & C5).
  destruct (merger_loop_ok d good 0 (clear_buffers p)
              (Merger.is_passthrough this))
    as (p1 & pt1 & E & F1 & F2 & F3 & F4 & F5 & F6 & F7 & F8).
  { rewrite C5, Hlen. unfold MAX_BUFFERS in *. lia. }
  { now rewrite C4. }
  rewrite (merger_loop_app _ _ _ _ _ _ _ _ E). cbn [Nat.add].
  cbn [Merger.use_buffers_loop].
  destruct (lookup_lt_is_Some_2 (buffers p1) (length good)) as [b0 Hb0].
  { rewrite F5, C5, Hlen. unfold MAX_BUFFERS in *. lia. }
  rewrite Hb0. cbn [mbind option_bind].
  assert (Hres : exists p2 pt2,
             (if negb (Z.of_nat (length (datas bad)) =? blocks p1)
              then Some (- EINVAL,
                         set_buffers
                           (<[length good :=
                                {| b_id := Z.of_nat (length good);
                                   b_flags := 0; b_buf := Some bad;
                                   b_datas := b_datas b0 |}]> (buffers p1))
                           p1, pt1)
              else
                use_datas d (datas bad) 0
                  {| b_id := Z.of_nat (length good); b_flags := 0;
                     b_buf := Some bad; b_datas := b_datas b0 |} pt1
                ≫= (fun '(res, b, pt) =>
                      if res <? 0
                      then Some (res,
                                 set_buffers
                                   (<[length good := b]> (buffers p1)) p1, pt)
                      else
                        let '(b, q) :=
                          match d with
                          | SPA_DIRECTION_OUTPUT =>
                              queue_buffer (length good) b (queue p1)
                          | SPA_DIRECTION_INPUT => (b, queue p1)
                          end in
                        Merger.use_buffers_loop d rest (S (length good))
                          (set_queue q
                             (set_buffers
                                (<[length good := b]> (buffers p1)) p1)) pt))
             = Some (- EINVAL, p2, pt2)
             /\ queue p2 = queue p1 /\ n_buffers p2 = n_buffers p1).
  { destruct (Z.eqb_spec (Z.of_nat (length (datas bad))) (blocks p1))
      as [Heq|Hneq]; cbn [negb].
    - destruct Hbad as [Hb|Hb]; [rewrite F2, C4 in Heq; contradiction|].
      destruct (use_datas_total d (datas bad) 0
                  {| b_id := Z.of_nat (length good); b_flags := 0;
                     b_buf := Some bad; b_datas := b_datas b0 |} pt1)
        as (r & b1 & pt2 & Hu); [cbn; lia|].
      rewrite Hu. cbn [mbind option_bind].
      destruct (use_datas_result _ _ _ _ _ _ _ _ Hu) as ([Hr|Hr] & _ & _ & _ & Hiff).
      + exfalso. apply Hb. now apply Hiff.
      + subst r. change (- EINVAL <? 0) with true. cbn match.
        eexists _, _. repeat split.
    - eexists _, _. repeat split. }
  destruct Hres as (p2 & pt2 & -> & Hq2 & Hn2).
  cbn [mbind option_bind]. change (- EINVAL <? 0) with true. cbn match.
  eexists _, _. split; [reflexivity|].
  split; [eapply merger_get_put; exact Hget|].
  rewrite Hn2, F4, C1, Hq2, F6, C2. split; reflexivity.
Qed.

Lemma merger_use_buffers_rejects_witness :
  exists this' p',
    Merger.impl_node_port_use_buffers formatted_merger SPA_DIRECTION_OUTPUT
      0 0 [example_buffer; null_buffer] = Some (- EINVAL, this')
    /\ Merger.GET_PORT this' SPA_DIRECTION_OUTPUT 0 = Some p'
    /\ n_buffers p' = 0 /\ queue p' = [0%nat].
Proof.
  destruct (merger_use_buffers_rejects formatted_merger SPA_DIRECTION_OUTPUT
              0 0 [example_buffer] [] null_buffer formatted_port)
    as (this' & p' & H1 & H2 & H3 & H4);
    [ reflexivity | reflexivity | reflexivity | reflexivity
    | cbn; reflexivity
    | repeat constructor; apply example_buffer_ok
    | cbn; discriminate
    | right; intros H; apply Forall_cons in H as [H _]; discriminate H
    | apply formatted_port_queue_ok | cbn; lia | ].
  exists this', p'. split; [exact H1|]. split; [exact H2|].
  split; [exact H3|exact H4].
Defined.

(** ** Queueing and dequeueing buffers *)

Lemma is_queued_set f b :
  is_queued (set_b_flags (Z.lor f BUFFER_FLAG_QUEUED) b) = true.
Proof.
  unfold is_queued. cbn. apply negb_true_iff, Z.eqb_neq. intros H.
  apply (f_equal (fun z => Z.testbit z 0)) in H.
  rewrite Z.land_spec, Z.lor_spec, orb_true_r in H. discriminate.
Qed.

Lemma is_queued_unset f b :
  is_queued (set_b_flags (unset_queued f) b) = false.
Proof.
  unfold is_queued, unset_queued. cbn. apply negb_false_iff, Z.eqb_eq.
  rewrite <- Z.land_assoc. change (Z.land (Z.lnot BUFFER_FLAG_QUEUED)
                                     BUFFER_FLAG_QUEUED) with 0.
  apply Z.land_0_r.
Qed.

Lemma port_eta p :
  set_queue (queue p) (set_buffers (buffers p) p) = p.
Proof. now destruct p. Qed.

(** queue_buffer on an installed buffer: the buffer is in the queue
    afterwards, once *)
Lemma port_queue_buffer_ok id p :
  queue_ok p -> Z.of_nat id < n_buffers p ->
  exists p',
    port_queue_buffer id p = Some p'
    /\ queue_ok p'
    /\ n_buffers p' = n_buffers p
    /\ have_format p' = have_format p
    /\ length (buffers p') = length (buffers p)
    /\ id ∈ queue p'
    /\ (id ∈ queue p -> p' = p)
    /\ (id ∉ queue p -> queue p' = queue p ++ [id]).
Proof.
  intros Hq Hid. destruct (qo_ids p Hq id Hid) as (b & Hb & Hbid).
  unfold port_queue_buffer. rewrite Hb. cbn [mbind option_bind].
  unfold queue_buffer. fold (is_queued b).
  destruct (is_queued b) eqn:Hfl.
  - assert (Hin : id ∈ queue p) by (now apply (qo_flags p Hq id b)).
    rewrite (list_insert_id _ _ _ Hb), port_eta.
    exists p. split; [reflexivity|]. split; [exact Hq|].
    repeat split; auto. intros Hc. contradiction.
  - assert (Hnin : id ∉ queue p).
    { intros Hin. apply (qo_flags p Hq id b Hid Hb) in Hin. congruence. }
    eexists. split; [reflexivity|]. cbn. rewrite length_insert.
    split; [|repeat split; auto].
    + constructor; cbn.
      * apply NoDup_app. split; [apply Hq|]. split.
        -- intros x Hx Hx'. apply list_elem_of_singleton in Hx'. now subst.
        -- apply NoDup_singleton.
      * intros i Hi. apply elem_of_app in Hi as [Hi|Hi]; [now apply Hq|].
        apply list_elem_of_singleton in Hi. now subst.
      * intros i b' Hi Hb'. destruct (decide (i = id)) as [->|Hne].
        -- rewrite list_lookup_insert_eq in Hb' by (eapply lookup_lt_Some, Hb).
           injection Hb' as <-. rewrite is_queued_set.
           split; [|reflexivity]. intros _. apply elem_of_app. right.
           now apply list_elem_of_singleton.
        -- rewrite list_lookup_insert_ne in Hb' by congruence.
           rewrite (qo_flags p Hq i b' Hi Hb'). rewrite elem_of_app.
           split; [now left|]. intros [H|H]; [exact H|].
           apply list_elem_of_singleton in H. contradiction.
      * intros i Hi. destruct (decide (i = id)) as [->|Hne].
        -- rewrite list_lookup_insert_eq by (eapply lookup_lt_Some, Hb).
           eexists. split; [reflexivity|]. exact Hbid.
        -- rewrite list_lookup_insert_ne by congruence.
           now apply (qo_ids p Hq).
    + apply elem_of_app. right. now apply list_elem_of_singleton.
    + intros Hin. contradiction.
Qed.

(** dequeue_buffer on a consistent port: the oldest queued buffer comes out,
    no longer flagged and no longer in the queue *)
Lemma dequeue_buffer_ok p :
  queue_ok p ->
  exists r p',
    dequeue_buffer p = Some (r, p')
    /\ queue_ok p'
    /\ n_buffers p' = n_buffers p
    /\ have_format p' = have_format p
    /\ length (buffers p') = length (buffers p)
    /\ match queue p with
       | [] => r = None /\ p' = p
       | id :: q =>
           exists b, r = Some b /\ b_id b = Z.of_nat id
                     /\ is_queued b = false
                     /\ queue p' = q /\ id ∉ queue p'
       end.
Proof.
  intros Hq. unfold dequeue_buffer.
  destruct (queue p) as [|id q] eqn:E.
  { exists None, p. split; [reflexivity|]. split; [exact Hq|]. repeat split. }
  assert (Hid : Z.of_nat id < n_buffers p)
    by (apply (qo_bound p Hq); rewrite E; now left).
  destruct (qo_ids p Hq id Hid) as (b & Hb & Hbid).
  rewrite Hb. cbn [mbind option_bind].
  pose proof (qo_nodup p Hq) as Hnd. rewrite E in Hnd.
  apply NoDup_cons in Hnd as [Hnin Hnd].
  eexists _, _. split; [reflexivity|]. cbn. rewrite length_insert.
  split; [|repeat split; auto].
  - constructor; cbn.
    + exact Hnd.
    + intros i Hi. apply (qo_bound p Hq). rewrite E. now right.
    + intros i b' Hi Hb'. destruct (decide (i = id)) as [->|Hne].
      * rewrite list_lookup_insert_eq in Hb' by (eapply lookup_lt_Some, Hb).
        injection Hb' as <-. rewrite is_queued_unset.
        split; [discriminate|]. intros Hc. contradiction.
      * rewrite list_lookup_insert_ne in Hb' by congruence.
        rewrite (qo_flags p Hq i b' Hi Hb'), E, elem_of_cons.
        split; [intros [Hc|Hc]; [contradiction|exact Hc]|now right].
    + intros i Hi. destruct (decide (i = id)) as [->|Hne].
      * rewrite list_lookup_insert_eq by (eapply lookup_lt_Some, Hb).
        eexists. split; [reflexivity|]. exact Hbid.
      * rewrite list_lookup_insert_ne by congruence.
        now apply (qo_ids p Hq).
  - eexists. split; [reflexivity|]. cbn.
    split; [exact Hbid|]. split; [apply is_queued_unset|]. auto.
Qed.

Lemma merger_put_same this d port_id p :
  Merger.GET_PORT this d port_id = Some p ->
  Merger.put_port this d port_id p = this.
Proof.
  unfold Merger.GET_PORT, Merger.put_port. intros H.
  destruct d; rewrite (list_insert_id _ _ _ H); now destruct this.
Qed.

Lemma splitter_put_same this d port_id p :
  Splitter.GET_PORT this d port_id = Some p ->
  Splitter.put_port this d port_id p = this.
Proof.
  unfold Splitter.GET_PORT, Splitter.put_port. intros H.
  destruct d; rewrite (list_insert_id _ _ _ H); now destruct this.
Qed.

Lemma splitter_get_put this d port_id p x :
  Splitter.GET_PORT this d port_id = Some p ->
  Splitter.GET_PORT (Splitter.put_port this d port_id x) d port_id = Some x.
Proof.
  unfold Splitter.GET_PORT, Splitter.put_port. intros H.
  destruct d; cbn; apply list_lookup_insert_eq; eapply lookup_lt_Some, H.
Qed.

Lemma merger_check_put this d i x d' j :
  Merger.CHECK_PORT (Merger.put_port this d i x) d' j
  = Merger.CHECK_PORT this d' j.
Proof. now destruct d, d'. Qed.

Lemma splitter_check_put this d i x d' j :
  Splitter.CHECK_PORT (Splitter.put_port this d i x) d' j
  = Splitter.CHECK_PORT this d' j.
Proof. now destruct d, d'. Qed.

(** X13. reuse_buffer of the merger and of the splitter puts an installed
    buffer of an output port back at the end of the queue of the port, once:
    for a buffer that is queued already the call changes nothing, so a
    buffer never is in the queue twice and the flags of the buffers keep
    agreeing with the queue. A port that is not an output port of the plugin
    gives -EINVAL. *)
Theorem reuse_buffer_queues_once :
  (forall (this : Merger.impl) port_id buffer_id p,
      Merger.CHECK_PORT this SPA_DIRECTION_OUTPUT port_id = true ->
      Merger.GET_PORT this SPA_DIRECTION_OUTPUT port_id = Some p ->
      queue_ok p -> 0 <= buffer_id < n_buffers p ->
      exists this' p',
        MergerIO.impl_node_port_reuse_buffer this port_id buffer_id
        = Some (0, this')
        /\ Merger.GET_PORT this' SPA_DIRECTION_OUTPUT port_id = Some p'
        /\ queue_ok p'
        /\ Z.to_nat buffer_id ∈ queue p'
        /\ (Z.to_nat buffer_id ∈ queue p -> this' = this)
        /\ (Z.to_nat buffer_id ∉ queue p ->
            queue p' = queue p ++ [Z.to_nat buffer_id])
        /\ MergerIO.impl_node_port_reuse_buffer this' port_id buffer_id
           = Some (0, this'))
  /\ (forall (this : Splitter.impl) port_id buffer_id p,
      Splitter.CHECK_PORT this SPA_DIRECTION_OUTPUT port_id = true ->
      Splitter.GET_PORT this SPA_DIRECTION_OUTPUT port_id = Some p ->
      queue_ok p -> 0 <= buffer_id < n_buffers p ->
      exists this' p',
        SplitterIO.impl_node_port_reuse_buffer this port_id buffer_id
        = Some (0, this')
        /\ Splitter.GET_PORT this' SPA_DIRECTION_OUTPUT port_id = Some p'
        /\ queue_ok p'
        /\ Z.to_nat buffer_id ∈ queue p'
        /\ (Z.to_nat buffer_id ∈ queue p -> this' = this)
        /\ (Z.to_nat buffer_id ∉ queue p ->
            queue p' = queue p ++ [Z.to_nat buffer_id])
        /\ SplitterIO.impl_node_port_reuse_buffer this' port_id buffer_id
           = Some (0, this'))
  /\ (forall (this : Merger.impl) port_id buffer_id,
      Merger.CHECK_PORT this SPA_DIRECTION_OUTPUT port_id = false ->
      MergerIO.impl_node_port_reuse_buffer this port_id buffer_id
      = Some (- EINVAL, this))
  /\ (forall (this : Splitter.impl) port_id buffer_id,
      Splitter.CHECK_PORT this SPA_DIRECTION_OUTPUT port_id = false ->
      SplitterIO.impl_node_port_reuse_buffer this port_id buffer_id
      = Some (- EINVAL, this)).
Proof.
  split; [|split; [|split]].
  - intros this port_id buffer_id p Hcheck Hget Hq Hid.
    destruct (port_queue_buffer_ok (Z.to_nat buffer_id) p Hq)
      as (p' & E & Hq' & Hn' & _ & _ & Hin & Hsame & Hnew); [lia|].
    unfold MergerIO.impl_node_port_reuse_buffer. rewrite Hcheck. cbn [negb].
    cbn in Hget. rewrite Hget. cbn [mbind option_bind].
    rewrite E. cbn [mbind option_bind].
    assert (Hget' : Merger.GET_PORT
                      (Merger.put_port this SPA_DIRECTION_OUTPUT port_id p')
                      SPA_DIRECTION_OUTPUT port_id = Some p')
      by (eapply merger_get_put; exact Hget).
    assert (Hcheck' : Merger.CHECK_PORT
                        (Merger.put_port this SPA_DIRECTION_OUTPUT port_id p')
                        SPA_DIRECTION_OUTPUT port_id = true)
      by (now rewrite merger_check_put).
    assert (Hback : Z.to_nat buffer_id ∈ queue p ->
                    Merger.put_port this SPA_DIRECTION_OUTPUT port_id p'
                    = this).
    { intros H. rewrite (Hsame H). now apply merger_put_same. }
    remember (Merger.put_port this SPA_DIRECTION_OUTPUT port_id p') as this1.
    exists this1, p'. split; [reflexivity|].
    split; [exact Hget'|]. split; [exact Hq'|]. split; [exact Hin|].
    split; [exact Hback|]. split; [exact Hnew|].
    destruct (port_queue_buffer_ok (Z.to_nat buffer_id) p' Hq')
      as (p2 & E2 & _ & _ & _ & _ & _ & Hsame2 & _); [lia|].
    rewrite (Hsame2 Hin) in E2.
    unfold MergerIO.impl_node_port_reuse_buffer. rewrite Hcheck'.
    cbn [negb]. pose proof Hget' as Hg. cbn in Hg. rewrite Hg.
    cbn [mbind option_bind]. rewrite E2. cbn [mbind option_bind].
    do 2 f_equal. now apply merger_put_same.
  - intros this port_id buffer_id p Hcheck Hget Hq Hid.
    destruct (port_queue_buffer_ok (Z.to_nat buffer_id) p Hq)
      as (p' & E & Hq' & Hn' & _ & _ & Hin & Hsame & Hnew); [lia|].
    unfold SplitterIO.impl_node_port_reuse_buffer. rewrite Hcheck.
    cbn [negb]. cbn in Hget. rewrite Hget. cbn [mbind option_bind].
    rewrite E. cbn [mbind option_bind].
    assert (Hget' : Splitter.GET_PORT
                      (Splitter.put_port this SPA_DIRECTION_OUTPUT port_id p')
                      SPA_DIRECTION_OUTPUT port_id = Some p')
      by (eapply splitter_get_put; exact Hget).
    assert (Hcheck' : Splitter.CHECK_PORT
                        (Splitter.put_port this SPA_DIRECTION_OUTPUT port_id p')
                        SPA_DIRECTION_OUTPUT port_id = true)
      by (now rewrite splitter_check_put).
    assert (Hback : Z.to_nat buffer_id ∈ queue p ->
                    Splitter.put_port this SPA_DIRECTION_OUTPUT port_id p'
                    = this).
    { intros H. rewrite (Hsame H). now apply splitter_put_same. }
    remember (Splitter.put_port this SPA_DIRECTION_OUTPUT port_id p') as this1.
    exists this1, p'. split; [reflexivity|].
    split; [exact Hget'|]. split; [exact Hq'|]. split; [exact Hin|].
    split; [exact Hback|]. split; [exact Hnew|].
    destruct (port_queue_buffer_ok (Z.to_nat buffer_id) p' Hq')
      as (p2 & E2 & _ & _ & _ & _ & _ & Hsame2 & _); [lia|].
    rewrite (Hsame2 Hin) in E2.
    unfold SplitterIO.impl_node_port_reuse_buffer. rewrite Hcheck'.
    cbn [negb]. pose proof Hget' as Hg. cbn in Hg. rewrite Hg.
    cbn [mbind option_bind]. rewrite E2. cbn [mbind option_bind].
    do 2 f_equal. now apply splitter_put_same.
  - intros this port_id buffer_id Hcheck.
    unfold MergerIO.impl_node_port_reuse_buffer. now rewrite Hcheck.
  - intros this port_id buffer_id Hcheck.
    unfold SplitterIO.impl_node_port_reuse_buffer. now rewrite Hcheck.
Qed.

Lemma queued_port_ok : queue_ok queued_port.
Proof.
  constructor; cbn.
  - apply NoDup_singleton.
  - intros i Hi. apply list_elem_of_singleton in Hi. subst. lia.
  - intros i b Hi Hb. destruct i as [|[|i]]; [| |lia]; cbn in Hb;
      injection Hb as <-; rewrite list_elem_of_singleton;
      [change (is_queued _) with false|change (is_queued _) with true];
      split; congruence.
  - intros i Hi. destruct i as [|[|i]]; [| |lia]; cbn; eauto.
Qed.

Lemma reuse_buffer_queues_once_witness :
  exists this' p',
    MergerIO.impl_node_port_reuse_buffer queued_merger 0 0 = Some (0, this')
    /\ Merger.GET_PORT this' SPA_DIRECTION_OUTPUT 0 = Some p'
    /\ queue p' = [1%nat; 0%nat]
    /\ MergerIO.impl_node_port_reuse_buffer this' 0 0 = Some (0, this').
Proof.
  destruct reuse_buffer_queues_once as [Hm _].
  destruct (Hm queued_merger 0 0 queued_port)
    as (this' & p' & H1 & H2 & _ & _ & _ & H3 & H4);
    [reflexivity | reflexivity | apply queued_port_ok | cbn; lia |].
  exists this', p'. split; [exact H1|]. split; [exact H2|].
  split; [|exact H4]. apply H3. cbn. intros H.
  apply list_elem_of_singleton in H. discriminate.
Defined.

(** X14. get_out_buffer of the merger, on a port whose queue agrees with its
    buffers and whose io area does not hold data: it first puts the buffer
    named in the io area back in the queue, if that is an installed buffer,
    and then hands out the oldest queued buffer, which leaves the queue, and
    writes HAVE_DATA and the id of that buffer in the io area. Only when the
    queue is empty and the io area names no installed buffer the result is
    -EPIPE, and the port and the io area are as before. When the io area
    already has data, or there is none, the result is HAVE_DATA and nothing
    changes. *)
Theorem get_out_buffer_recycles (p : port) (i : spa_io_buffers) :
  queue_ok p ->
  0 <= io_buffer_id i ->
  (io_status i = SPA_STATUS_HAVE_DATA ->
   get_out_buffer p (Some i) = Some (SPA_STATUS_HAVE_DATA, None, p, Some i))
  /\ get_out_buffer p None = Some (SPA_STATUS_HAVE_DATA, None, p, None)
  /\ (io_status i <> SPA_STATUS_HAVE_DATA ->
      exists res r p' io',
        get_out_buffer p (Some i) = Some (res, r, p', io')
        /\ queue_ok p' /\ n_buffers p' = n_buffers p
        /\ (queue p = [] /\ n_buffers p <= io_buffer_id i ->
            res = - EPIPE /\ r = None /\ p' = p /\ io' = Some i)
        /\ (~ (queue p = [] /\ n_buffers p <= io_buffer_id i) ->
            exists b,
              res = 0 /\ r = Some b
              /\ io' = Some {| io_status := SPA_STATUS_HAVE_DATA;
                               io_buffer_id := b_id b |}
              /\ 0 <= b_id b < n_buffers p
              /\ (Z.to_nat (b_id b) ∉ queue p')
              /\ b_id b = match queue p with
                          | id :: _ => Z.of_nat id
                          | [] => io_buffer_id i
                          end)).
Proof.
  intros Hq Hpos. split; [|split].
  - intros Hs. unfold get_out_buffer. now rewrite Hs, Z.eqb_refl.
  - reflexivity.
  - intros Hs. unfold get_out_buffer. apply Z.eqb_neq in Hs. rewrite Hs.
    destruct (Z.ltb_spec (io_buffer_id i) (n_buffers p)) as [Hlt|Hge].
    + destruct (port_queue_buffer_ok (Z.to_nat (io_buffer_id i)) p Hq)
        as (p1 & E1 & Hq1 & Hn1 & _ & _ & Hin1 & Hsame1 & Hnew1); [lia|].
      rewrite E1. cbn [mbind option_bind].
      destruct (dequeue_buffer_ok p1 Hq1)
        as (r & p2 & E2 & Hq2 & Hn2 & _ & _ & Hhead).
      rewrite E2. cbn [mbind option_bind].
      destruct (queue p1) as [|id q1] eqn:Eq1; [inversion Hin1|].
      destruct Hhead as (b & -> & Hbid & _ & Hq' & Hnin).
      eexists _, _, _, _. split; [reflexivity|]. split; [exact Hq2|].
      split; [congruence|]. split; [intros [_ Hc]; lia|].
      intros _. exists b. split; [reflexivity|]. split; [reflexivity|].
      split; [reflexivity|].
      assert (Hidb : Z.of_nat id < n_buffers p).
      { rewrite <- Hn1. apply (qo_bound p1 Hq1). rewrite Eq1. now left. }
      split; [lia|]. split; [now rewrite Hbid, Nat2Z.id|].
      rewrite Hbid. destruct (queue p) as [|id0 q0] eqn:Eq0.
      * specialize (Hnew1 ltac:(intros Hc; inversion Hc)).
        cbn in Hnew1. injection Hnew1 as -> _. lia.
      * destruct (decide (Z.to_nat (io_buffer_id i) ∈ id0 :: q0)) as [Hi|Hi].
        -- rewrite (Hsame1 Hi), Eq0 in Eq1. now injection Eq1 as <- _.
        -- specialize (Hnew1 Hi). cbn in Hnew1. now injection Hnew1 as -> _.
    + cbn [mbind option_bind].
      destruct (dequeue_buffer_ok p Hq)
        as (r & p2 & E2 & Hq2 & Hn2 & _ & _ & Hhead).
      rewrite E2. cbn [mbind option_bind].
      destruct (queue p) as [|id q0] eqn:Eq0.
      * destruct Hhead as [-> ->].
        eexists _, _, _, _. split; [reflexivity|]. split; [exact Hq|].
        split; [reflexivity|]. split; [auto|]. intros Hc. exfalso.
        apply Hc. auto.
      * destruct Hhead as (b & -> & Hbid & _ & Hq' & Hnin).
        eexists _, _, _, _. split; [reflexivity|]. split; [exact Hq2|].
        split; [exact Hn2|]. split; [intros [Hc _]; discriminate|].
        intros _. exists b. split; [reflexivity|]. split; [reflexivity|].
        split; [reflexivity|].
        assert (Hidb : Z.of_nat id < n_buffers p).
        { apply (qo_bound p Hq). rewrite Eq0. now left. }
        split; [lia|]. split; [now rewrite Hbid, Nat2Z.id|exact Hbid].
Qed.

Lemma get_out_buffer_recycles_witness :
  exists b p',
    get_out_buffer queued_port
      (Some {| io_status := SPA_STATUS_NEED_DATA; io_buffer_id := 0 |})
    = Some (0, Some b, p',
            Some {| io_status := SPA_STATUS_HAVE_DATA; io_buffer_id := 1 |})
    /\ queue_ok p' /\ (1%nat ∉ queue p').
Proof.
  destruct (get_out_buffer_recycles queued_port
              {| io_status := SPA_STATUS_NEED_DATA; io_buffer_id := 0 |}
              queued_port_ok) as (_ & _ & H); [cbn; lia|].
  destruct H as (res & r & p' & io' & H1 & Hq & _ & _ & H2);
    [cbn; discriminate|].
  destruct H2 as (b & -> & -> & -> & _ & Hnin & Hid).
  { intros [Hc _]. discriminate Hc. }
  exists b, p'. cbn in Hid. rewrite Hid in H1, Hnin.
  split; [exact H1|]. split; [exact Hq|exact Hnin].
Defined.

(** ** The format of a port *)

Lemma clear_buffers_have_format q :
  have_format (clear_buffers q) = have_format q.
Proof. unfold clear_buffers. now destruct (_ <? _). Qed.

Lemma clear_buffers_empty q :
  0 < n_buffers q ->
  n_buffers (clear_buffers q) = 0 /\ queue (clear_buffers q) = [].
Proof.
  intros Hn. unfold clear_buffers. apply Z.ltb_lt in Hn. rewrite Hn. now cbn.
Qed.

(** X15. Unsetting the format (a NULL Format parameter) of a port that has
    one clears the buffers of the port and answers 0. A DSP port of the
    merger and an output port of the splitter are left without format, so
    that use_buffers on them fails with -EIO; output port 0 of the merger and
    the input port of the splitter are left with have_format equal to
    have_profile, so that they keep a format once the port configuration has
    been set. *)
Theorem unset_format_have_format `{FExt : FormatExternals} :
  (forall (this : Merger.impl) d port_id flags fmt p bufs,
      Merger.CHECK_PORT this d port_id = true ->
      Merger.GET_PORT this d port_id = Some p ->
      have_format p = true ->
      exists this' p',
        MergerIO.impl_node_port_set_param this d port_id SPA_PARAM_Format
          flags None fmt = Some (0, this', fmt)
        /\ Merger.GET_PORT this' d port_id = Some p'
        /\ have_format p'
           = (if MergerIO.PORT_IS_DSP d port_id then false
              else Merger.have_profile this)
        /\ (0 < n_buffers p -> n_buffers p' = 0 /\ queue p' = [])
        /\ (MergerIO.PORT_IS_DSP d port_id = true ->
            Merger.impl_node_port_use_buffers this' d port_id flags bufs
            = Some (- EIO, this')))
  /\ (forall (this : Splitter.impl) d port_id flags fmt fmt0 p bufs,
      Splitter.CHECK_PORT this d port_id = true ->
      Splitter.GET_PORT this d port_id = Some p ->
      have_format p = true ->
      exists this' p',
        SplitterIO.impl_node_port_set_param this d port_id SPA_PARAM_Format
          flags None fmt fmt0 = Some (0, this', fmt)
        /\ Splitter.GET_PORT this' d port_id = Some p'
        /\ have_format p'
           = match d with
             | SPA_DIRECTION_INPUT => Splitter.have_profile this
             | SPA_DIRECTION_OUTPUT => false
             end
        /\ (0 < n_buffers p -> n_buffers p' = 0 /\ queue p' = [])
        /\ (d = SPA_DIRECTION_OUTPUT ->
            Splitter.impl_node_port_use_buffers this' d port_id flags bufs
            = Some (- EIO, this'))).
Proof.
  split.
  - intros this d port_id flags fmt p bufs Hcheck Hget Hfmt.
    unfold MergerIO.impl_node_port_set_param, MergerIO.port_set_format.
    rewrite Hcheck, Z.eqb_refl, Hget. cbn [negb mbind option_bind].
    rewrite Hfmt.
    eexists _, _. split; [reflexivity|].
    assert (Hget' : forall x,
               Merger.GET_PORT (Merger.put_port this d port_id x) d port_id
               = Some x) by (intros x; eapply merger_get_put, Hget).
    split; [apply Hget'|].
    split; [rewrite clear_buffers_have_format;
            now destruct (MergerIO.PORT_IS_DSP d port_id)|].
    split.
    + intros Hn. apply clear_buffers_empty.
      now destruct (MergerIO.PORT_IS_DSP d port_id).
    + intros Hdsp. unfold Merger.impl_node_port_use_buffers.
      rewrite merger_check_put, Hcheck, Hget'.
      cbn [negb mbind option_bind].
      rewrite clear_buffers_have_format, Hdsp. reflexivity.
  - intros this d port_id flags fmt fmt0 p bufs Hcheck Hget Hfmt.
    unfold SplitterIO.impl_node_port_set_param, SplitterIO.port_set_format.
    rewrite Hcheck, Z.eqb_refl, Hget. cbn [negb mbind option_bind].
    rewrite Hfmt.
    eexists _, _. split; [reflexivity|].
    assert (Hget' : forall x,
               Splitter.GET_PORT (Splitter.put_port this d port_id x)
                 d port_id = Some x)
      by (intros x; eapply splitter_get_put, Hget).
    split; [apply Hget'|].
    split; [rewrite clear_buffers_have_format; now destruct d|].
    split.
    + intros Hn. apply clear_buffers_empty. now destruct d.
    + intros ->. unfold Splitter.impl_node_port_use_buffers.
      rewrite splitter_check_put, Hcheck, Hget'.
      cbn [negb mbind option_bind].
      rewrite clear_buffers_have_format. reflexivity.
Qed.

Lemma unset_format_have_format_witness :
  exists this' p',
    MergerIO.impl_node_port_set_param (FExt := example_format_externals)
      queued_merger SPA_DIRECTION_OUTPUT 0 4 0 None dsp_format
    = Some (0, this', dsp_format)
    /\ Merger.GET_PORT this' SPA_DIRECTION_OUTPUT 0 = Some p'
    /\ have_format p' = true
    /\ n_buffers p' = 0 /\ queue p' = [].
Proof.
  destruct (unset_format_have_format (FExt := example_format_externals))
    as [Hm _].
  destruct (Hm queued_merger SPA_DIRECTION_OUTPUT 0 0 dsp_format queued_port
              [] eq_refl eq_refl eq_refl)
    as (this' & p' & H1 & H2 & H3 & H4 & _).
  exists this', p'. split; [exact H1|]. split; [exact H2|].
  split; [exact H3|]. apply H4. cbn. lia.
Defined.

(** X16. Setting a format on a DSP port of the merger (every port but output
    port 0), or on an output port of the splitter, either fails with a
    negative result and changes nothing, or answers 0 for a format of one
    channel of planar 32 bit float samples at the rate the port had: the
    port then has a format, one block and a stride of 4 bytes whatever the
    parsers and the planar test answer, and it keeps its buffers and its
    queue. *)
Theorem set_format_dsp_port `{FExt : FormatExternals} :
  (forall (this : Merger.impl) d port_id flags f fmt p,
      Merger.CHECK_PORT this d port_id = true ->
      Merger.GET_PORT this d port_id = Some p ->
      MergerIO.PORT_IS_DSP d port_id = true ->
      exists r this' fmt',
        MergerIO.impl_node_port_set_param this d port_id SPA_PARAM_Format
          flags (Some f) fmt = Some (r, this', fmt')
        /\ ((r = 0
             /\ raw_format fmt' = SPA_AUDIO_FORMAT_F32P
             /\ raw_channels fmt' = 1 /\ raw_rate fmt' = raw_rate fmt
             /\ Merger.GET_PORT this' d port_id
                = Some {| have_format := true; blocks := 1; stride := 4;
                          buffers := buffers p; n_buffers := n_buffers p;
                          queue := queue p |})
            \/ (r < 0 /\ this' = this /\ fmt' = fmt)))
  /\ (forall (this : Splitter.impl) port_id flags f fmt fmt0 p,
      Splitter.CHECK_PORT this SPA_DIRECTION_OUTPUT port_id = true ->
      Splitter.GET_PORT this SPA_DIRECTION_OUTPUT port_id = Some p ->
      exists r this' fmt',
        SplitterIO.impl_node_port_set_param this SPA_DIRECTION_OUTPUT port_id
          SPA_PARAM_Format flags (Some f) fmt fmt0 = Some (r, this', fmt')
        /\ ((r = 0
             /\ raw_format fmt' = SPA_AUDIO_FORMAT_F32P
             /\ raw_channels fmt' = 1 /\ raw_rate fmt' = raw_rate fmt
             /\ Splitter.GET_PORT this' SPA_DIRECTION_OUTPUT port_id
                = Some {| have_format := true; blocks := 1; stride := 4;
                          buffers := buffers p; n_buffers := n_buffers p;
                          queue := queue p |})
            \/ (r < 0 /\ this' = this /\ fmt' = fmt))).
Proof.
  split.
  - intros this d port_id flags f fmt p Hcheck Hget Hdsp.
    unfold MergerIO.impl_node_port_set_param, MergerIO.port_set_format.
    rewrite Hcheck, Z.eqb_refl, Hget. cbn [negb mbind option_bind].
    destruct (spa_format_parse f) as [[res mtype] msub].
    destruct (res <? 0) eqn:Hres;
      [apply Z.ltb_lt in Hres; eexists _, _, _; split; [reflexivity|];
       right; auto|].
    destruct (negb (mtype =? _) || negb (msub =? _));
      [eexists _, _, _; split; [reflexivity|]; right;
       split; [unfold EINVAL; lia|auto]|].
    destruct (spa_format_audio_raw_parse f) as [res2 [[rfmt rrate] rchan]].
    destruct (res2 <? 0) eqn:Hres2;
      [apply Z.ltb_lt in Hres2; eexists _, _, _; split; [reflexivity|];
       right; auto|].
    rewrite Hdsp. cbn [negb].
    destruct ((rrate =? raw_rate fmt)
              && bool_decide (rfmt = SPA_AUDIO_FORMAT_F32P) && (rchan =? 1))
      eqn:Hok; cbn [negb];
      [|eexists _, _, _; split; [reflexivity|]; right;
        split; [unfold EINVAL; lia|auto]].
    apply andb_prop in Hok as [Hok Hc]. apply andb_prop in Hok as [Hr Hf].
    apply Z.eqb_eq in Hr, Hc. apply bool_decide_eq_true in Hf. subst.
    cbn [MergerIO.calc_width raw_format].
    assert (Hsb : (if SPA_AUDIO_FORMAT_IS_PLANAR SPA_AUDIO_FORMAT_F32P
                   then (4, 1) else (u32 (4 * 1), 1)) = (4, 1))
      by (now destruct (SPA_AUDIO_FORMAT_IS_PLANAR _)).
    rewrite Hsb. cbn [Z.ltb Z.compare].
    eexists _, _, _. split; [reflexivity|]. left.
    split; [reflexivity|]. do 3 (split; [reflexivity|]).
    erewrite merger_get_put; [reflexivity|].
    erewrite merger_get_put; [reflexivity|exact Hget].
  - intros this port_id flags f fmt fmt0 p Hcheck Hget.
    unfold SplitterIO.impl_node_port_set_param, SplitterIO.port_set_format.
    rewrite Hcheck, Z.eqb_refl, Hget. cbn [negb mbind option_bind].
    destruct (spa_format_parse f) as [[res mtype] msub].
    destruct (res <? 0) eqn:Hres;
      [apply Z.ltb_lt in Hres; eexists _, _, _; split; [reflexivity|];
       right; auto|].
    destruct (negb (mtype =? _) || negb (msub =? _));
      [eexists _, _, _; split; [reflexivity|]; right;
       split; [unfold EINVAL; lia|auto]|].
    destruct (spa_format_audio_raw_parse f) as [res2 [[rfmt rrate] rchan]].
    destruct (res2 <? 0) eqn:Hres2;
      [eexists _, _, _; split; [reflexivity|]; right;
       split; [unfold EINVAL; lia|auto]|].
    destruct ((rrate =? raw_rate fmt)
              && bool_decide (rfmt = SPA_AUDIO_FORMAT_F32P) && (rchan =? 1))
      eqn:Hok; cbn [negb];
      [|eexists _, _, _; split; [reflexivity|]; right;
        split; [unfold EINVAL; lia|auto]].
    apply andb_prop in Hok as [Hok Hc]. apply andb_prop in Hok as [Hr Hf].
    apply Z.eqb_eq in Hr, Hc. apply bool_decide_eq_true in Hf. subst.
    cbn [SplitterIO.calc_width raw_format].
    assert (Hsb : (if SPA_AUDIO_FORMAT_IS_PLANAR SPA_AUDIO_FORMAT_F32P
                   then (4, 1) else (u32 (4 * 1), 1)) = (4, 1))
      by (now destruct (SPA_AUDIO_FORMAT_IS_PLANAR _)).
    rewrite Hsb. cbn [Z.ltb Z.compare].
    eexists _, _, _. split; [reflexivity|]. left.
    split; [reflexivity|]. do 3 (split; [reflexivity|]).
    erewrite splitter_get_put; [reflexivity|].
    erewrite splitter_get_put; [reflexivity|exact Hget].
Qed.

Lemma set_format_dsp_port_witness :
  exists r this' fmt',
    MergerIO.impl_node_port_set_param (FExt := example_format_externals)
      formatted_merger SPA_DIRECTION_INPUT 1 4 0 (Some dsp_format) dsp_format
    = Some (r, this', fmt')
    /\ ((r = 0
         /\ raw_format fmt' = SPA_AUDIO_FORMAT_F32P
         /\ raw_channels fmt' = 1 /\ raw_rate fmt' = 48000
         /\ Merger.GET_PORT this' SPA_DIRECTION_INPUT 1
            = Some formatted_port)
        \/ (r < 0 /\ this' = formatted_merger /\ fmt' = dsp_format)).
Proof.
  destruct (set_format_dsp_port (FExt := example_format_externals))
    as [Hm _].
  exact (Hm formatted_merger SPA_DIRECTION_INPUT 1 0 dsp_format dsp_format
            formatted_port eq_refl eq_refl eq_refl).
Defined.

(** X17. Setting a format on the converting port (output port 0 of the
    merger, the input port of the splitter) is rejected with -EINVAL, and
    changes nothing, unless the format has as many channels as the plugin has
    ports. Otherwise the port takes the format, its stride and blocks and
    keeps its buffers; the stride of an interleaved format is the sample
    width times the channels in 32-bit unsigned arithmetic. When the
    converter then fails to initialise, its negative result is returned and
    the port is left with the new format, stride and blocks but with
    have_format and is_passthrough as before; when it initialises the port
    has a format, and the merger is passthrough exactly when the format is
    planar 32 bit float, the splitter when it was and the converter is. *)
Theorem set_format_convert_port `{FExt : FormatExternals} :
  (forall (this : Merger.impl) flags f fmt p r1 r2 rfmt rrate rchan,
      Merger.CHECK_PORT this SPA_DIRECTION_OUTPUT 0 = true ->
      Merger.GET_PORT this SPA_DIRECTION_OUTPUT 0 = Some p ->
      spa_format_parse f = (r1, SPA_MEDIA_TYPE_audio, SPA_MEDIA_SUBTYPE_raw) ->
      spa_format_audio_raw_parse f = (r2, (rfmt, rrate, rchan)) ->
      0 <= r1 -> 0 <= r2 ->
      let info := {| media_type := SPA_MEDIA_TYPE_audio;
                     media_subtype := SPA_MEDIA_SUBTYPE_raw;
                     raw_format := rfmt; raw_rate := rrate;
                     raw_channels := rchan |} in
      let width := MergerIO.calc_width info in
      let conv := convert_init SPA_AUDIO_FORMAT_F32P rfmt rchan in
      let set_format :=
        MergerIO.impl_node_port_set_param this SPA_DIRECTION_OUTPUT 0
          SPA_PARAM_Format flags (Some f) fmt in
      (rchan <> Merger.port_count this ->
       set_format = Some (- EINVAL, this, fmt))
      /\ (rchan = Merger.port_count this ->
          exists this',
            set_format
            = Some (if fst conv <? 0 then fst conv else 0, this', info)
            /\ Merger.GET_PORT this' SPA_DIRECTION_OUTPUT 0
               = Some {| have_format := if fst conv <? 0 then have_format p
                                        else true;
                         blocks := if SPA_AUDIO_FORMAT_IS_PLANAR rfmt
                                   then rchan else 1;
                         stride := if SPA_AUDIO_FORMAT_IS_PLANAR rfmt
                                   then width else u32 (width * rchan);
                         buffers := buffers p; n_buffers := n_buffers p;
                         queue := queue p |}
            /\ Merger.is_passthrough this'
               = (if fst conv <? 0 then Merger.is_passthrough this
                  else bool_decide (SPA_AUDIO_FORMAT_F32P = rfmt))))
  /\ (forall (this : Splitter.impl) flags f fmt fmt0 p r1 r2 rfmt rrate rchan,
      Splitter.CHECK_PORT this SPA_DIRECTION_INPUT 0 = true ->
      Splitter.GET_PORT this SPA_DIRECTION_INPUT 0 = Some p ->
      spa_format_parse f = (r1, SPA_MEDIA_TYPE_audio, SPA_MEDIA_SUBTYPE_raw) ->
      spa_format_audio_raw_parse f = (r2, (rfmt, rrate, rchan)) ->
      0 <= r1 -> 0 <= r2 ->
      let info := {| media_type := SPA_MEDIA_TYPE_audio;
                     media_subtype := SPA_MEDIA_SUBTYPE_raw;
                     raw_format := rfmt; raw_rate := rrate;
                     raw_channels := rchan |} in
      let width := SplitterIO.calc_width info in
      let conv := convert_init rfmt SPA_AUDIO_FORMAT_F32P rchan in
      let set_format :=
        SplitterIO.impl_node_port_set_param this SPA_DIRECTION_INPUT 0
          SPA_PARAM_Format flags (Some f) fmt fmt0 in
      (rchan <> Splitter.port_count this ->
       set_format = Some (- EINVAL, this, fmt))
      /\ (rchan = Splitter.port_count this ->
          exists this',
            set_format
            = Some (if fst conv <? 0 then fst conv else 0, this', info)
            /\ Splitter.GET_PORT this' SPA_DIRECTION_INPUT 0
               = Some {| have_format := if fst conv <? 0 then have_format p
                                        else true;
                         blocks := if SPA_AUDIO_FORMAT_IS_PLANAR rfmt
                                   then rchan else 1;
                         stride := if SPA_AUDIO_FORMAT_IS_PLANAR rfmt
                                   then width else u32 (width * rchan);
                         buffers := buffers p; n_buffers := n_buffers p;
                         queue := queue p |}
            /\ Splitter.is_passthrough this'
               = (if fst conv <? 0 then Splitter.is_passthrough this
                  else Splitter.is_passthrough this && snd conv))).
Proof.
  split.
  - intros this flags f fmt p r1 r2 rfmt rrate rchan Hcheck Hget Hp1 Hp2
      Hr1 Hr2 info width conv set_format.
    subst set_format.
    unfold MergerIO.impl_node_port_set_param, MergerIO.port_set_format.
    rewrite Hcheck, Z.eqb_refl, Hget. cbn [negb mbind option_bind].
    rewrite Hp1, Hp2, !Z.eqb_refl.
    apply Z.ltb_ge in Hr1, Hr2. rewrite Hr1, Hr2.
    cbn [negb orb MergerIO.PORT_IS_DSP Z.eqb].
    split.
    + intros Hne. apply Z.eqb_neq in Hne. now rewrite Hne.
    + intros ->. rewrite Z.eqb_refl. cbn [negb].
      fold info. fold width.
      unfold MergerIO.setup_convert. cbn [raw_format raw_channels info].
      fold conv. destruct conv as [res cp]. cbn [fst snd].
      destruct (SPA_AUDIO_FORMAT_IS_PLANAR rfmt);
        destruct (res <? 0) eqn:Hres; rewrite ?Hres;
        eexists; (split; [reflexivity|]);
        (split; [|now destruct this]); cbn [Z.ltb Z.compare];
        try reflexivity;
        cbn; rewrite list_lookup_insert_eq; try reflexivity;
        rewrite ?length_insert; eapply lookup_lt_Some, Hget.
  - intros this flags f fmt fmt0 p r1 r2 rfmt rrate rchan Hcheck Hget Hp1 Hp2
      Hr1 Hr2 info width conv set_format.
    subst set_format.
    unfold SplitterIO.impl_node_port_set_param, SplitterIO.port_set_format.
    rewrite Hcheck, Z.eqb_refl, Hget. cbn [negb mbind option_bind].
    rewrite Hp1, Hp2, !Z.eqb_refl.
    apply Z.ltb_ge in Hr1, Hr2. rewrite Hr1, Hr2.
    cbn [negb orb Z.eqb].
    split.
    + intros Hne. apply Z.eqb_neq in Hne. now rewrite Hne.
    + intros ->. rewrite Z.eqb_refl. cbn [negb].
      fold info. fold width.
      unfold SplitterIO.setup_convert. cbn [raw_format raw_channels info].
      fold conv. destruct conv as [res cp]. cbn [fst snd].
      destruct (SPA_AUDIO_FORMAT_IS_PLANAR rfmt);
        destruct (res <? 0) eqn:Hres; rewrite ?Hres;
        eexists; (split; [reflexivity|]);
        (split; [|now destruct this]); cbn [Z.ltb Z.compare];
        try reflexivity;
        cbn; rewrite list_lookup_insert_eq; try reflexivity;
        rewrite ?length_insert; eapply lookup_lt_Some, Hget.
Qed.

Lemma set_format_convert_port_witness :
  exists this',
    MergerIO.impl_node_port_set_param (FExt := example_format_externals)
      formatted_merger SPA_DIRECTION_OUTPUT 0 4 0 (Some stereo_format)
      dsp_format = Some (0, this', stereo_format)
    /\ Merger.GET_PORT this' SPA_DIRECTION_OUTPUT 0
       = Some {| have_format := true; blocks := 1; stride := 4;
                 buffers := buffers formatted_port; n_buffers := 0;
                 queue := [] |}
    /\ Merger.is_passthrough this' = false.
Proof.
  destruct (set_format_convert_port (FExt := example_format_externals))
    as [Hm _].
  destruct (Hm formatted_merger 0 stereo_format dsp_format formatted_port
              0 0 SPA_AUDIO_FORMAT_S16 48000 2
              eq_refl eq_refl eq_refl eq_refl ltac:(lia) ltac:(lia))
    as [_ H].
  destruct (H eq_refl) as (this' & H1 & H2 & H3).
  exists this'. split; [exact H1|]. split; [exact H2|exact H3].
Defined.

(** ** The xrun accounting over many reports *)

Lemma SPA_MAX_max a b : SPA_MAX a b = Z.max a b.
Proof. unfold SPA_MAX. destruct (Z.ltb_spec a b); lia. Qed.

Lemma node_xrun_step (this : nat)
    (xrun : Z -> Z -> world -> option (Z * world)) :
  xrun = node_xrun this \/ xrun = RemoteNode.node_xrun this ->
  forall trigger delay w,
    xrun trigger delay w
    = nd ← nodes w !! this;
      Some (0, upd_act (rt_activation nd)
                 (fun a => set_max_delay (SPA_MAX (max_delay a) delay)
                             (set_xrun_delay delay
                                (set_xrun_time trigger
                                   (set_xrun_count (u32 (xrun_count a + 1))
                                      a)))) w).
Proof. intros [-> | ->]; reflexivity. Qed.

(** X18. The xrun accounting of a node over any number of reports, for the
    xrun callback of node.c and for that of an exported node in
    remote-node.c: xrun_count has counted every report (32-bit unsigned),
    max_delay is the largest delay reported so far or the one it held
    before, xrun_time and xrun_delay are those of the last report. The
    reports change nothing that the cycle is scheduled with, no other
    activation record and no node. *)
Theorem node_xrun_accumulates (this : nat) (l : list (Z * Z)) (w : world)
    (nd : pw_node) (a : pw_node_activation)
    (xrun : Z -> Z -> world -> option (Z * world)) :
  xrun = node_xrun this \/ xrun = RemoteNode.node_xrun this ->
  nodes w !! this = Some nd ->
  acts w !! rt_activation nd = Some a ->
  0 <= xrun_count a < 2 ^ 32 ->
  exists w' a',
    xruns xrun l w = Some w'
    /\ acts w' !! rt_activation nd = Some a'
    /\ xrun_count a' = u32 (xrun_count a + Z.of_nat (length l))
    /\ max_delay a' = fold_left Z.max (map snd l) (max_delay a)
    /\ (forall trigger delay, last l = Some (trigger, delay) ->
        xrun_time a' = trigger /\ xrun_delay a' = delay)
    /\ sched_fields a' = sched_fields a
    /\ (forall k, k <> rt_activation nd -> acts w' !! k = acts w !! k)
    /\ nodes w' = nodes w /\ trace w' = trace w.
Proof.
  intros Hx. pose proof (node_xrun_step this xrun Hx) as Hs. clear Hx.
  rename Hs into Hx.
  revert w nd a. induction l as [|[t d] l IH]; intros w nd a Hnd Ha Hc.
  - exists w, a. cbn. split; [reflexivity|]. split; [exact Ha|].
    split; [unfold u32; rewrite Z.add_0_r, Z.mod_small; lia|].
    split; [reflexivity|]. split; [discriminate|]. auto.
  - cbn [xruns]. rewrite Hx, Hnd. cbn [mbind option_bind].
    set (f := fun a0 : pw_node_activation => _).
    assert (Ha1 : acts (upd_act (rt_activation nd) f w) !! rt_activation nd
                  = Some (f a))
      by (unfold upd_act; cbn; rewrite lookup_alter_eq, Ha; reflexivity).
    destruct (IH (upd_act (rt_activation nd) f w) nd (f a) Hnd Ha1)
      as (w' & a' & H1 & H2 & H3 & H4 & H5 & H6 & H7 & H8 & H9).
    { subst f. cbn. unfold u32. apply Z.mod_pos_bound. lia. }
    exists w', a'. split; [exact H1|]. split; [exact H2|].
    split.
    { rewrite H3. subst f. cbn [xrun_count set_max_delay set_xrun_delay
                                 set_xrun_time set_xrun_count length].
      unfold u32. rewrite Zplus_mod_idemp_l. f_equal. lia. }
    split.
    { rewrite H4. subst f. cbn. now rewrite SPA_MAX_max. }
    split.
    { intros t' d' Hl. destruct l as [|x l'].
      - cbn in Hl. injection Hl as <- <-. cbn in H1. injection H1 as <-.
        rewrite Ha1 in H2. injection H2 as <-. subst f. now cbn.
      - apply H5. now rewrite last_cons_cons in Hl. }
    split; [rewrite H6; subst f; reflexivity|].
    split.
    { intros k Hk. rewrite (H7 k Hk). unfold upd_act. cbn.
      now rewrite lookup_alter_ne. }
    split; [rewrite H8; reflexivity|rewrite H9; reflexivity].
Qed.

Lemma node_xrun_accumulates_witness :
  exists w' a',
    xruns (RemoteNode.node_xrun 0%nat) [(10, 5); (20, 3)] example_graph
    = Some w'
    /\ acts w' !! 0%nat = Some a'
    /\ xrun_count a' = 2 /\ max_delay a' = 5
    /\ xrun_time a' = 20 /\ xrun_delay a' = 3.
Proof.
  assert (Ha : acts example_graph !! 0%nat = Some (act_at example_graph 0))
    by (vm_compute; reflexivity).
  assert (Hn : nodes example_graph !! 0%nat = Some example_driver)
    by (vm_compute; reflexivity).
  destruct (node_xrun_accumulates 0%nat [(10, 5); (20, 3)] example_graph
              example_driver _ (RemoteNode.node_xrun 0%nat)
              (or_intror eq_refl) Hn Ha)
    as (w' & a' & H1 & H2 & H3 & H4 & H5 & _).
  { vm_compute. split; [discriminate|reflexivity]. }
  assert (Hrt : rt_activation example_driver = 0%nat)
    by (vm_compute; reflexivity).
  rewrite Hrt in H2.
  exists w', a'. split; [exact H1|]. split; [exact H2|].
  split; [rewrite H3; vm_compute; reflexivity|].
  split; [rewrite H4; vm_compute; reflexivity|].
  apply H5. reflexivity.
Defined.

(** ** The buffer of an input port *)

(** X19. get_in_buffer of the merger hands out the buffer that the io area
    of an input port names at most once: with status HAVE_DATA and the id of
    an installed buffer it answers 0 with that buffer and sets the status to
    NEED_DATA, so that a second call on the same io area fails with -EPIPE
    until the peer has set HAVE_DATA again. Every failure (-EIO without io
    area, -EPIPE otherwise) hands out no buffer and leaves the io area as it
    was. *)
Theorem get_in_buffer_consumes (p : port) :
  (forall i : spa_io_buffers,
      io_status i = SPA_STATUS_HAVE_DATA ->
      0 <= io_buffer_id i < n_buffers p ->
      n_buffers p <= Z.of_nat (length (buffers p)) ->
      exists b io',
        get_in_buffer p (Some i) = Some (0, Some b, Some io')
        /\ buffers p !! Z.to_nat (io_buffer_id i) = Some b
        /\ io_status io' = SPA_STATUS_NEED_DATA
        /\ io_buffer_id io' = io_buffer_id i
        /\ get_in_buffer p (Some io') = Some (- EPIPE, None, Some io'))
  /\ (forall io r b io',
      get_in_buffer p io = Some (r, b, io') ->
      r <> 0 ->
      b = None /\ io' = io
      /\ (r = - EIO /\ io = None
          \/ r = - EPIPE
             /\ exists i, io = Some i
                  /\ (io_status i <> SPA_STATUS_HAVE_DATA
                      \/ n_buffers p <= io_buffer_id i))).
Proof.
  split.
  - intros i Hs Hid Hlen. unfold get_in_buffer.
    rewrite Hs, Z.eqb_refl. cbn [negb orb].
    destruct (Z.leb_spec (n_buffers p) (io_buffer_id i)) as [Hle|_]; [lia|].
    destruct (lookup_lt_is_Some_2 (buffers p) (Z.to_nat (io_buffer_id i)))
      as [b Hb]; [lia|].
    rewrite Hb. cbn [mbind option_bind].
    eexists _, _. split; [reflexivity|]. split; [reflexivity|].
    split; [reflexivity|]. split; [reflexivity|]. reflexivity.
  - intros io r b io' H Hr. unfold get_in_buffer in H.
    destruct io as [i|].
    + destruct (negb (io_status i =? SPA_STATUS_HAVE_DATA)
                || (n_buffers p <=? io_buffer_id i)) eqn:Hc.
      * injection H as <- <- <-. split; [reflexivity|].
        split; [reflexivity|]. right. split; [reflexivity|].
        exists i. split; [reflexivity|].
        apply orb_prop in Hc as [Hc|Hc].
        -- left. apply negb_true_iff, Z.eqb_neq in Hc. exact Hc.
        -- right. apply Z.leb_le in Hc. exact Hc.
      * destruct (buffers p !! Z.to_nat (io_buffer_id i)); [|discriminate].
        cbn in H. injection H as <- _ _. now contradiction Hr.
    + injection H as <- <- <-. split; [reflexivity|].
      split; [reflexivity|]. left. now split.
Qed.

Lemma get_in_buffer_consumes_witness :
  exists b io',
    get_in_buffer queued_port
      (Some {| io_status := SPA_STATUS_HAVE_DATA; io_buffer_id := 1 |})
    = Some (0, Some b, Some io')
    /\ b_id b = 1
    /\ get_in_buffer queued_port (Some io') = Some (- EPIPE, None, Some io').
Proof.
  destruct (get_in_buffer_consumes queued_port) as [H _].
  destruct (H {| io_status := SPA_STATUS_HAVE_DATA; io_buffer_id := 1 |})
    as (b & io' & H1 & H2 & _ & _ & H3);
    [reflexivity | cbn; lia | cbn; lia |].
  exists b, io'. split; [exact H1|]. split; [|exact H3].
  cbn in H2. injection H2 as <-. reflexivity.
Defined.

(** ** Peer links of an exported node *)

Import RemoteLinks.

Lemma find_activation_none w arr node_id :
  (forall l0, l0 ∈ arr ->
     exists lk, links w !! l0 = Some lk /\ link_node_id lk <> node_id) ->
  find_activation w arr node_id = Some None.
Proof.
  induction arr as [|x arr IH]; intros H; [reflexivity|].
  cbn [find_activation].
  destruct (H x) as (lk & Hlk & Hne); [now left|].
  rewrite Hlk. cbn [mbind option_bind].
  apply Z.eqb_neq in Hne. rewrite Hne.
  apply IH. intros l0 Hl0. apply H. now right.
Qed.

Lemma find_activation_snoc w arr node_id l lk :
  (forall l0, l0 ∈ arr ->
     exists lk, links w !! l0 = Some lk /\ link_node_id lk <> node_id) ->
  links w !! l = Some lk -> link_node_id lk = node_id ->
  find_activation w (arr ++ [l]) node_id = Some (Some l).
Proof.
  induction arr as [|x arr IH]; intros H Hl Hid.
  - cbn. rewrite Hl. cbn. now rewrite Hid, Z.eqb_refl.
  - cbn [app find_activation].
    destruct (H x) as (lkx & Hlkx & Hne); [now left|].
    rewrite Hlkx. cbn [mbind option_bind].
    apply Z.eqb_neq in Hne. rewrite Hne.
    apply IH; [|exact Hl|exact Hid]. intros l0 Hl0. apply H. now right.
Qed.

Lemma set_rt_target_list_same nd :
  set_rt_target_list (rt_target_list nd) nd = nd.
Proof. now destruct nd. Qed.

Lemma rt_target_list_set l nd :
  rt_target_list (set_rt_target_list l nd) = l.
Proof. reflexivity. Qed.

Lemma set_rt_target_list_twice l1 l2 nd :
  set_rt_target_list l1 (set_rt_target_list l2 nd) = set_rt_target_list l1 nd.
Proof. reflexivity. Qed.

(** X20. client_node_set_activation with a mapped activation record links
    the exported node to the peer: the target of the new link, which counts
    down that record and signals with link_signal_func, is appended to the
    target list of the node. The same call for that node id without memory
    (SPA_ID_INVALID) takes the link out again: nodes, target lists and
    activation records are as before the two calls, the map of the link is
    freed and the descriptor of the link, not the one passed with the second
    call, is closed. The element stays in the links array with node id
    SPA_ID_INVALID, and one more removal answers -ENOENT. *)
Theorem set_activation_round_trip `{RExt : RemoteExternals}
    (data : node_data) (w : world)
    (node_id signalfd signalfd' memid offset size offset' size' : Z)
    (k l : nat) (nd : pw_node) :
  remote_id data <> node_id ->
  node_id <> SPA_ID_INVALID ->
  memid <> SPA_ID_INVALID ->
  pw_mempool_map_id memid offset size = inr (Some k) ->
  pw_array_add data w = inr l ->
  links w !! l = None ->
  nodes w !! data_node data = Some nd ->
  (forall m nm, nodes w !! m = Some nm -> peer_target l ∉ rt_target_list nm) ->
  (forall l0, l0 ∈ data_links data ->
     exists lk, links w !! l0 = Some lk /\ link_node_id lk <> node_id) ->
  exists data1 w1 nd1,
    client_node_set_activation data node_id signalfd memid offset size w
    = Some (0, data1, w1)
    /\ nodes w1 !! data_node data = Some nd1
    /\ rt_target_list nd1 = rt_target_list nd ++ [peer_target l]
    /\ get_target w1 (peer_target l)
       = Some {| t_activation := Some k; t_node := None;
                 t_signal := signal_link_signal_func; t_data := Some l |}
    /\ calls data1 = calls data
    /\ exists data2 w2 lk2,
        client_node_set_activation data1 node_id signalfd' SPA_ID_INVALID
          offset' size' w1 = Some (0, data2, w2)
        /\ nodes w2 = nodes w /\ acts w2 = acts w /\ trace w2 = trace w
        /\ links w2 !! l = Some lk2
        /\ link_node_id lk2 = SPA_ID_INVALID
        /\ t_activation (link_target lk2) = None
        /\ data_links data2 = data_links data ++ [l]
        /\ calls data2
           = calls data ++ [Call_memmap_free l; Call_close signalfd]
        /\ client_node_set_activation data2 node_id signalfd' SPA_ID_INVALID
             offset' size' w2
           = Some (- ENOENT, add_calls [Call_proxy_error (- ENOENT)] data2,
                   w2).
Proof.
  intros Hrid Hinv Hmem Hmap Hadd Hfresh Hnd Hnot Hold.
  apply Z.eqb_neq in Hrid, Hmem.
  unfold client_node_set_activation at 1.
  rewrite Hrid, Hmem, Hmap, Hadd, Hnd. cbn [mbind option_bind].
  eexists _, _, _. split; [reflexivity|].
  split; [cbn; rewrite lookup_alter_eq, Hnd; reflexivity|].
  split; [reflexivity|].
  split; [cbn; rewrite lookup_insert_eq; reflexivity|].
  split; [reflexivity|].
  set (lk := {| link_node_id := node_id; link_signalfd := signalfd;
                link_target := _ |}).
  set (w1 := upd_node _ _ _).
  set (data1 := set_data_links _ data).
  assert (Hl1 : links w1 !! l = Some lk)
    by (cbn; apply lookup_insert_eq).
  assert (Hold1 : forall l0, l0 ∈ data_links data ->
            exists lk0, links w1 !! l0 = Some lk0
                        /\ link_node_id lk0 <> node_id).
  { intros l0 Hl0. destruct (Hold l0 Hl0) as (lk0 & Hlk0 & Hne).
    exists lk0. split; [|exact Hne]. cbn.
    rewrite lookup_insert_ne; [exact Hlk0|]. intros ->. congruence. }
  unfold client_node_set_activation at 1.
  change (remote_id data1) with (remote_id data). rewrite Hrid, Z.eqb_refl.
  change (data_links data1) with (data_links data ++ [l]).
  rewrite (find_activation_snoc w1 _ node_id l lk Hold1 Hl1 eq_refl).
  cbn [mbind option_bind]. unfold clear_link. rewrite Hl1.
  cbn [mbind option_bind].
  eexists _, _, _. split; [reflexivity|].
  assert (Hnodes : nodes (target_list_remove (peer_target l) w1) = nodes w).
  { cbn. apply map_eq. intros i. rewrite lookup_fmap.
    destruct (decide (i = data_node data)) as [->|Hi].
    - rewrite lookup_alter_eq, Hnd. cbn [fmap option_fmap option_map].
      f_equal. rewrite set_rt_target_list_twice, rt_target_list_set.
      rewrite filter_ne_snoc by (eapply Hnot, Hnd).
      apply set_rt_target_list_same.
    - rewrite lookup_alter_ne by congruence.
      destruct (nodes w !! i) as [nm|] eqn:Hi'; [|reflexivity].
      cbn [fmap option_fmap option_map]. f_equal.
      rewrite filter_ne_id by (eapply Hnot, Hi').
      apply set_rt_target_list_same. }
  split; [exact Hnodes|]. split; [reflexivity|]. split; [reflexivity|].
  split; [cbn; apply lookup_insert_eq|].
  split; [reflexivity|]. split; [reflexivity|]. split; [reflexivity|].
  split; [reflexivity|].
  unfold client_node_set_activation.
  cbn [remote_id add_calls data1 set_data_links data_links].
  rewrite Hrid, Z.eqb_refl.
  rewrite find_activation_none; [reflexivity|].
  intros l0 Hl0. apply elem_of_app in Hl0 as [Hl0|Hl0].
  - destruct (Hold l0 Hl0) as (lk0 & Hlk0 & Hne).
    exists lk0. split; [|exact Hne]. cbn.
    rewrite !lookup_insert_ne by (intros ->; congruence). exact Hlk0.
  - apply list_elem_of_singleton in Hl0 as ->. eexists. split.
    + cbn. apply lookup_insert_eq.
    + cbn. congruence.
Qed.

(** X21. After client_node_set_activation has linked an exported node to a
    peer, the step of resume_node for the new entry of the target list
    counts the activation record of the peer down by one (32-bit unsigned).
    When the count reaches zero the peer is marked TRIGGERED, stamped with
    the time read by link_signal_func, and woken with one write to the
    descriptor that was passed to set_activation; otherwise nothing is
    signalled. The peer is never run through process_node in this
    process. *)
Theorem linked_peer_is_woken `{RExt : RemoteExternals}
    (process : nat -> world -> option world)
    (data : node_data) (w : world)
    (node_id signalfd memid offset size nsec : Z)
    (k l : nat) (nd : pw_node) (a : pw_node_activation) :
  remote_id data <> node_id ->
  memid <> SPA_ID_INVALID ->
  pw_mempool_map_id memid offset size = inr (Some k) ->
  pw_array_add data w = inr l ->
  nodes w !! data_node data = Some nd ->
  acts w !! k = Some a ->
  exists data1 w1 w2 a2,
    client_node_set_activation data node_id signalfd memid offset size w
    = Some (0, data1, w1)
    /\ resume_target process nsec (peer_target l) w1 = Some w2
    /\ acts w2 !! k = Some a2
    /\ pending (state0 a2) = u32 (pending (state0 a) - 1)
    /\ required (state0 a2) = required (state0 a)
    /\ (u32 (pending (state0 a) - 1) = 0 ->
        status a2 = PW_NODE_ACTIVATION_TRIGGERED
        /\ signal_time a2 = now w + Z.of_nat (hd 0%nat (ticks w))
        /\ trace w2
           = trace w ++ [Ev_signal (peer_target l); Ev_write_fd signalfd])
    /\ (u32 (pending (state0 a) - 1) <> 0 ->
        status a2 = status a /\ signal_time a2 = signal_time a
        /\ trace w2 = trace w).
Proof.
  intros Hrid Hmem Hmap Hadd Hnd Ha.
  apply Z.eqb_neq in Hrid, Hmem.
  unfold client_node_set_activation.
  rewrite Hrid, Hmem, Hmap, Hadd, Hnd. cbn [mbind option_bind].
  set (lk := {| link_node_id := node_id; link_signalfd := signalfd;
                link_target := _ |}).
  set (w1 := upd_node _ _ _).
  assert (Hl1 : links w1 !! l = Some lk) by (cbn; apply lookup_insert_eq).
  assert (Ha1 : acts w1 !! k = Some a) by exact Ha.
  exists (set_data_links (data_links data ++ [l]) data), w1.
  unfold resume_target, get_target. rewrite Hl1.
  cbn [fmap option_fmap option_map mbind option_bind link_target lk
       t_activation].
  rewrite Ha1. cbn [mbind option_bind].
  unfold pw_node_activation_state_dec.
  destruct (u32 (pending (state0 a) - 1) =? 0) eqn:Hz.
  - apply Z.eqb_eq in Hz.
    unfold signal_target. cbn [t_data t_signal mbind option_bind].
    unfold link_signal_func. cbn [links log upd_act set_acts set_trace].
    rewrite Hl1. cbn [mbind option_bind link_target lk t_activation].
    unfold clock_gettime.
    eexists _, _. split; [reflexivity|]. split; [reflexivity|].
    split.
    { cbn. rewrite !lookup_alter_eq, Ha. reflexivity. }
    split; [reflexivity|]. split; [reflexivity|].
    split.
    + intros _. split; [reflexivity|]. split; [reflexivity|].
      cbn. now rewrite <- app_assoc.
    + intros Hne. now contradiction Hne.
  - apply Z.eqb_neq in Hz.
    eexists _, _. split; [reflexivity|]. split; [reflexivity|].
    split.
    { cbn. rewrite lookup_alter_eq, Ha. reflexivity. }
    split; [reflexivity|]. split; [reflexivity|].
    split; [intros H0; now contradiction Hz|].
    intros _. now split.
Qed.

Lemma client_world_no_peer_target :
  forall m nm, nodes client_world !! m = Some nm ->
    peer_target 0 ∉ rt_target_list nm.
Proof.
  assert (H : map_Forall (fun _ nm => peer_target 0 ∉ rt_target_list nm)
                (nodes client_world))
    by (apply (bool_decide_unpack _); vm_compute; exact I).
  exact H.
Qed.

Lemma linked_peer_is_woken_witness :
  exists data1 w1 w2 a2,
    client_node_set_activation (RExt := example_remote_externals)
      example_node_data 3 9 0 0 64 client_world = Some (0, data1, w1)
    /\ resume_target (fun _ _ => None) 5 (peer_target 0) w1 = Some w2
    /\ acts w2 !! 0%nat = Some a2
    /\ status a2 = PW_NODE_ACTIVATION_TRIGGERED
    /\ trace w2
       = trace client_world ++ [Ev_signal (peer_target 0); Ev_write_fd 9].
Proof.
  assert (Ha : acts client_world !! 0%nat = Some (act_at client_world 0))
    by (vm_compute; reflexivity).
  assert (Hn : nodes client_world !! 7%nat = Some (node_at client_world 7))
    by (vm_compute; reflexivity).
  destruct (linked_peer_is_woken (RExt := example_remote_externals)
              (fun _ _ => None) example_node_data client_world 3 9 0 0 64 5
              0%nat 0%nat (node_at client_world 7) (act_at client_world 0))
    as (data1 & w1 & w2 & a2 & H1 & H2 & H3 & _ & _ & H4 & _);
    [vm_compute; discriminate | vm_compute; discriminate | reflexivity
    | reflexivity | exact Hn | exact Ha |].
  exists data1, w1, w2, a2. split; [exact H1|]. split; [exact H2|].
  split; [exact H3|].
  destruct H4 as (H4 & _ & H5); [vm_compute; reflexivity|].
  split; [exact H4|exact H5].
Defined.

Lemma set_activation_round_trip_witness :
  exists data1 w1 data2 w2,
    client_node_set_activation (RExt := example_remote_externals)
      example_node_data 3 9 0 0 64 client_world = Some (0, data1, w1)
    /\ client_node_set_activation (RExt := example_remote_externals)
         data1 3 (-1) SPA_ID_INVALID 0 0 w1 = Some (0, data2, w2)
    /\ nodes w2 = nodes client_world
    /\ calls data2 = [Call_memmap_free 0; Call_close 9].
Proof.
  assert (Hn : nodes client_world !! 7%nat = Some (node_at client_world 7))
    by (vm_compute; reflexivity).
  destruct (set_activation_round_trip (RExt := example_remote_externals)
              example_node_data client_world 3 9 (-1) 0 0 64 0 0
              0%nat 0%nat (node_at client_world 7))
    as (data1 & w1 & nd1 & H1 & _ & _ & _ & _
        & data2 & w2 & lk2 & H2 & H3 & _ & _ & _ & _ & _ & _ & H4 & _);
    [vm_compute; discriminate | vm_compute; discriminate
    | vm_compute; discriminate | reflexivity | reflexivity
    | vm_compute; reflexivity | exact Hn | exact client_world_no_peer_target
    | intros l0 Hl0; cbn in Hl0; now apply elem_of_nil in Hl0 |].
  exists data1, w1, data2, w2. split; [exact H1|]. split; [exact H2|].
  split; [exact H3|exact H4].
Defined.
